(** * Complaint Triage & Dispatch Engine: a shallow embedding

    The development follows the JavaScript sources of the portal backend:
    - [utils/gemini.js]: classifier gateway ([callAI]), keyword priority
      ([localPrioritize]), integrity filter ([localDetectDuplicateOrFake],
      [detectDuplicateOrFake]);
    - the vision module: department detector ([mapToDepartment]);
    - the complaint routes: dispatch balancer ([assignProviderForDepartment]),
      complaint creation, rating;
    - the provider routes: the status lifecycle, the provider's list and
      statistics;
    - the account routes: sign-up, verification by one-time code, login;
    - the management routes: the dashboard;
    - the chatbot route: the conversation history;
    - reverse geocoding ([reverseGeocode]).

    Conventions of the embedding.
    - A JavaScript string is a [string] whose characters are read as code
      units 0..255 (the Latin-1 range); [toLowerCase], [trim] and the
      regular-expression class [\s] are the JavaScript ones on that range.
    - Counters are [nat] or [Z]. Quotients of small counters and the dyadic
      scores of the priority assigner are exact rationals [Q]. The scores of
      the department detector are products and sums of arbitrary doubles:
      [Detector64] computes them in IEEE 754 binary64 ([Double], over the
      [SpecFloat] of the standard library), and the creation handler uses
      it; [DepartmentDetector] is the same function in exact arithmetic.
      Coordinates are read by [parseFloat] and kept as the literal read.
    - An object used as a table is read at its own keys, except where the
      key is free text from a request or from a user document: the
      department boosts of the priority assigner and the department table
      of the dashboard, where the names every object inherits are
      modelled.
    - Documents of a collection are a [list] in natural (listing) order.
    - [Date.now()], [Math.random()] and the remote services are inputs of the
      operations: the operations are functions of the state and of these
      inputs. *)

From Stdlib Require Import ZArith QArith Qround String Ascii List Lia Bool.
From Stdlib Require Import DecimalString Sorted Permutation Lqa.
From Stdlib Require Import Floats.SpecFloat.
From stdpp Require Import gmap.
Import ListNotations.
Open Scope string_scope.

(* ================================================================== *)
(** * Part I: definitions *)
(* ================================================================== *)

(** ** JavaScript strings *)

Module JsString.

Definition code (c : ascii) : nat := nat_of_ascii c.

Definition in_range (lo hi : nat) (c : ascii) : bool :=
  (lo <=? code c)%nat && (code c <=? hi)%nat.

Definition is_upper (c : ascii) : bool := in_range 65 90 c.
Definition is_lower (c : ascii) : bool := in_range 97 122 c.
Definition is_digit (c : ascii) : bool := in_range 48 57 c.

(** White space and line terminators of ECMAScript below code unit 256:
    TAB, LF, VT, FF, CR, SP and NBSP. This is [\s] and what [trim] strips. *)
Definition is_space (c : ascii) : bool :=
  in_range 9 13 c || (code c =? 32)%nat || (code c =? 160)%nat.

(** The regular-expression dot matches everything but a line terminator. *)
Definition is_line_terminator (c : ascii) : bool :=
  (code c =? 10)%nat || (code c =? 13)%nat.

(** [String.prototype.toLowerCase], one code unit at a time: A-Z and the
    Latin-1 capitals U+00C0..U+00DE (without the multiplication sign). *)
Definition lower_char (c : ascii) : ascii :=
  if is_upper c || (in_range 192 222 c && negb (code c =? 215)%nat)
  then ascii_of_nat (code c + 32)
  else c.

Fixpoint toLowerCase (s : string) : string :=
  match s with
  | EmptyString => EmptyString
  | String c s' => String (lower_char c) (toLowerCase s')
  end.

Fixpoint trimStart (s : string) : string :=
  match s with
  | EmptyString => EmptyString
  | String c s' => if is_space c then trimStart s' else s
  end.

Fixpoint trimEnd (s : string) : string :=
  match s with
  | EmptyString => EmptyString
  | String c s' =>
      match trimEnd s' with
      | EmptyString => if is_space c then EmptyString else String c EmptyString
      | t => String c t
      end
  end.

Definition trim (s : string) : string := trimEnd (trimStart s).

(** [s.includes(kw)]: [kw] occurs in [s] at some offset. *)
Fixpoint includes (s kw : string) : bool :=
  String.prefix kw s ||
  match s with
  | EmptyString => false
  | String _ s' => includes s' kw
  end.

(** [s.replace(/[^a-z0-9\s]/g, '')] *)
Definition keep_char (c : ascii) : bool := is_lower c || is_digit c || is_space c.

Fixpoint strip_punct (s : string) : string :=
  match s with
  | EmptyString => EmptyString
  | String c s' => if keep_char c then String c (strip_punct s') else strip_punct s'
  end.

(** [s.split(/\s+/)]: the pieces between maximal runs of white space; a run
    at either end leaves an empty piece there, and the empty string splits
    into one empty piece. [prev_space] says that the previous character
    belonged to a separator. *)
Fixpoint split_go (prev_space : bool) (s : string) : list string :=
  match s with
  | EmptyString => [EmptyString]
  | String c s' =>
      if is_space c then
        if prev_space then split_go true s' else EmptyString :: split_go true s'
      else
        match split_go false s' with
        | t :: ts => String c t :: ts
        | [] => [String c EmptyString]
        end
  end.

Definition split_ws (s : string) : list string := split_go false s.

(** Decimal rendering of a non-negative integer, as a template literal or
    [toString] prints it. *)
Definition string_of_nat (n : nat) : string := NilEmpty.string_of_uint (Nat.to_uint n).
Definition string_of_Z (z : Z) : string :=
  if (z <? 0)%Z then "-" ++ string_of_nat (Z.to_nat (- z)) else string_of_nat (Z.to_nat z).

(** [l.join(sep)] *)
Fixpoint join (sep : string) (l : list string) : string :=
  match l with
  | [] => ""
  | [x] => x
  | x :: rest => x ++ sep ++ join sep rest
  end.

(** The double quote, for messages that contain one. *)
Definition dq : string := String (ascii_of_nat 34) EmptyString.

(** [new Set(l)]: the distinct elements in order of first insertion. *)
Definition set_has (x : string) (s : list string) : bool := existsb (String.eqb x) s.
Definition set_add (s : list string) (x : string) : list string :=
  if set_has x s then s else s ++ [x].
Definition new_Set (l : list string) : list string := fold_left set_add l [].

(** [Math.round]: the nearest integer, a half rounding up. *)
Definition Math_round (x : Q) : Z := Qfloor (x + (1 # 2)).

(** *** [parseFloat] *)

(** The result of [parseFloat]: [NaN], or the Number value of the decimal
    literal the text begins with (which may be infinite). The value is kept
    as its literal. *)
Inductive Parsed :=
| NotANumber
| NumberOf (literal : string).

Definition is_NaN (p : Parsed) : bool :=
  match p with
  | NotANumber => true
  | NumberOf _ => false
  end.

(** The longest run of decimal digits a text begins with, and what follows. *)
Fixpoint span_digits (s : string) : string * string :=
  match s with
  | EmptyString => (EmptyString, EmptyString)
  | String c s' =>
      if is_digit c
      then let (d, rest) := span_digits s' in (String c d, rest)
      else (EmptyString, s)
  end.

Definition is_sign (c : ascii) : bool := (code c =? 43)%nat || (code c =? 45)%nat.

(** The exponent part a text begins with ([e] or [E], an optional sign, at
    least one digit), or the empty string. *)
Definition exponent_part (s : string) : string :=
  match s with
  | EmptyString => EmptyString
  | String c s' =>
      if (code c =? 101)%nat || (code c =? 69)%nat then
        let (sign, rest) :=
          match s' with
          | String d r => if is_sign d then (String d EmptyString, r) else (EmptyString, s')
          | EmptyString => (EmptyString, EmptyString)
          end in
        let (digits, _) := span_digits rest in
        if String.eqb digits "" then EmptyString else String c (sign ++ digits)
      else EmptyString
  end.

(** The longest prefix that is an unsigned decimal literal: [Infinity],
    digits with an optional fraction and exponent, or a dot followed by
    digits and an optional exponent. *)
Definition unsigned_literal (s : string) : option string :=
  if String.prefix "Infinity" s then Some "Infinity"
  else
    let (int, rest) := span_digits s in
    match rest with
    | String "." rest' =>
        let (frac, rest'') := span_digits rest' in
        if String.eqb int "" then
          if String.eqb frac "" then None
          else Some ("." ++ frac ++ exponent_part rest'')
        else Some (int ++ "." ++ frac ++ exponent_part rest'')
    | _ => if String.eqb int "" then None else Some (int ++ exponent_part rest)
    end.

(** [parseFloat(s)]: leading white space is skipped, then the longest prefix
    that is a signed decimal literal is read; [NaN] when there is none. *)
Definition parseFloat (s : string) : Parsed :=
  match trimStart s with
  | EmptyString => NotANumber
  | String c t =>
      if is_sign c then
        match unsigned_literal t with
        | Some l => NumberOf (String c l)
        | None => NotANumber
        end
      else
        match unsigned_literal (String c t) with
        | Some l => NumberOf l
        | None => NotANumber
        end
  end.



(** The quotient [a / b] of two counters, [b] not zero. *)
Definition ratio (a b : nat) : Q := Z.of_nat a # Pos.of_nat b.

End JsString.

(** ** Plain objects *)

Module JsObject.

(** The property names of [Object.prototype]: what [o[k]] finds under one
    of them, when [o] has no own property [k], is a function (under
    [__proto__]: the prototype object), never [undefined]. *)
Definition Object_prototype : list string :=
  [ "constructor"; "__defineGetter__"; "__defineSetter__"; "hasOwnProperty";
    "__lookupGetter__"; "__lookupSetter__"; "isPrototypeOf"; "propertyIsEnumerable";
    "toString"; "valueOf"; "__proto__"; "toLocaleString" ].

Definition inherited (k : string) : bool :=
  List.existsb (String.eqb k) Object_prototype.

End JsObject.

(** ** Data model: the [Complaint] and [User] schemas *)

Module Model.

(** [status] enum of the complaint schema. *)
Inductive Status := Registered | Accepted | WorkingOn | Completed | Rejected.

(** [priority] enum of the complaint schema. *)
Inductive Priority := Critical | High | Medium | Low.

Definition statusName (s : Status) : string :=
  match s with
  | Registered => "Registered"
  | Accepted => "Accepted"
  | WorkingOn => "Working On"
  | Completed => "Completed"
  | Rejected => "Rejected"
  end.

Definition priorityName (p : Priority) : string :=
  match p with
  | Critical => "Critical"
  | High => "High"
  | Medium => "Medium"
  | Low => "Low"
  end.

Definition status_eqb (a b : Status) : bool :=
  match a, b with
  | Registered, Registered | Accepted, Accepted | WorkingOn, WorkingOn
  | Completed, Completed | Rejected, Rejected => true
  | _, _ => false
  end.

(** The [department] enum of the complaint schema. *)
Definition DEPARTMENT_ENUM : list string :=
  ["Water Resources"; "Electricity"; "Roads & Highways"; "Sanitation";
   "Public Health"; "Education"; "Transport"; "Revenue"; "Agriculture";
   "General"].

(** One entry of [statusHistory]. *)
Record StatusEvent := {
  ev_status : Status;
  ev_timestamp : Z;
  ev_updatedBy : option nat;
  ev_updatedByName : option string;
  ev_note : string
}.

(** A complaint document. Object ids are natural numbers; [location] holds
    the latitude and the longitude, as [parseFloat] read them. *)
Record Complaint := {
  _id : nat;
  ticketId : string;
  userId : nat;
  userName : string;
  userEmail : string;
  area : string;
  address : string;
  department : string;
  description : string;
  photo : string;
  status : Status;
  statusHistory : list StatusEvent;
  priority : Priority;
  assignedTo : option nat;
  assignedToName : option string;
  resolution : option string;
  location : option (JsString.Parsed * JsString.Parsed);
  rating : option nat;
  feedback : option string;
  isDuplicate : bool;
  duplicateOf : option string;
  isFake : bool;
  aiRemarks : string;
  createdAt : Z;
  updatedAt : Z
}.

(** A user document (credentials and one-time codes left out). *)
Record User := {
  u_id : nat;
  u_name : string;
  u_email : string;
  u_role : string;
  u_department : option string
}.

(** [req.user]: the identity the authentication middleware attaches to a
    request. *)
Record ReqUser := {
  id : nat;
  name : string;
  email : string;
  req_department : option string
}.

(** JavaScript truthiness of an optional string: present and not empty. *)
Definition truthy (o : option string) : bool :=
  match o with
  | Some s => negb (String.eqb s "")
  | None => false
  end.

(** [a || b] on strings. *)
Definition or_else (o : option string) (d : string) : string :=
  match o with
  | Some s => if String.eqb s "" then d else s
  | None => d
  end.

Definition opt_nat_eqb (a : option nat) (b : nat) : bool :=
  match a with
  | Some x => (x =? b)%nat
  | None => false
  end.

End Model.

(** ** The runtime: state, environment, exceptions *)

Module Runtime.
Import Model.

(** What the process does to the outside world. *)
Inductive Event :=
| Request (model : string) (maxTokens : nat)   (* one chat-completion request *)
| Sleep (ms : Z)                              (* a [setTimeout] wait *)
| Mail (recipient : string) (ticket : string)  (* a notification handed to the mailer *)
| Balanced (department : string) (chosen : option string).
                                              (* the [LoadBalance] line of the console *)

(** An error object: [error.status] and [error.code] (zero stands for an
    absent field) and [error.message]. *)
Record JsError := { err_status : Z; err_code : Z; err_message : string }.

(** How one chat-completion request ends: it resolves with a payload whose
    first choice may or may not carry content (or that has no [choices] at
    all), or it rejects. *)
Inductive Payload :=
| Content (text : option string)
| Malformed.

Inductive Reply :=
| Resolve (p : Payload)
| Reject (e : JsError).

Record Answer := { reply : Reply; latency : Z }.

(** The state of the process and of its surroundings: both collections, the
    gateway's cooldown variable, the clock, the event log, and [remote], what
    the remote model will answer to the first, second, ... request (never
    written by the code). *)
Record State := {
  complaints : list Complaint;
  users : list User;
  cloudDisabledUntil : Z;
  now : Z;
  log : list Event;
  remote : nat -> Answer
}.

Definition with_complaints (cs : list Complaint) (s : State) : State :=
  {| complaints := cs; users := users s; cloudDisabledUntil := cloudDisabledUntil s;
     now := now s; log := log s; remote := remote s |}.

Definition with_users (us : list User) (s : State) : State :=
  {| complaints := complaints s; users := us; cloudDisabledUntil := cloudDisabledUntil s;
     now := now s; log := log s; remote := remote s |}.

Definition with_cooldown (t : Z) (s : State) : State :=
  {| complaints := complaints s; users := users s; cloudDisabledUntil := t;
     now := now s; log := log s; remote := remote s |}.

Definition with_now (t : Z) (s : State) : State :=
  {| complaints := complaints s; users := users s; cloudDisabledUntil := cloudDisabledUntil s;
     now := t; log := log s; remote := remote s |}.

Definition with_log (l : list Event) (s : State) : State :=
  {| complaints := complaints s; users := users s; cloudDisabledUntil := cloudDisabledUntil s;
     now := now s; log := l; remote := remote s |}.

(** A computation either yields a value or throws. *)
Inductive Outcome (A : Type) :=
| Val (a : A)
| Exn (e : JsError).
Arguments Val {A} a.
Arguments Exn {A} e.

Definition M (A : Type) : Type := State -> Outcome A * State.

Definition ret {A} (a : A) : M A := fun s => (Val a, s).

Definition bind {A B} (m : M A) (k : A -> M B) : M B :=
  fun s =>
    match m s with
    | (Val a, s') => k a s'
    | (Exn e, s') => (Exn e, s')
    end.

Definition throw {A} (e : JsError) : M A := fun s => (Exn e, s).

(** [try { m } catch (e) { h e }] *)
Definition try_catch {A} (m : M A) (h : JsError -> M A) : M A :=
  fun s =>
    match m s with
    | (Val a, s') => (Val a, s')
    | (Exn e, s') => h e s'
    end.

Definition get : M State := fun s => (Val s, s).
Definition modify (f : State -> State) : M unit := fun s => (Val tt, f s).

Notation "'let*' x ':=' m 'in' k" := (bind m (fun x => k))
  (at level 10, x name, m at level 100, k at level 200).
Notation "'let*' '_' ':=' m 'in' k" := (bind m (fun _ => k))
  (at level 10, m at level 100, k at level 200).

(** [Date.now()] *)
Definition Date_now : M Z := let* s := get in ret (now s).

Definition emit (e : Event) : M unit := modify (fun s => with_log (log s ++ [e]) s).

Definition advance (ms : Z) : M unit := modify (fun s => with_now (now s + ms)%Z s).

(** An error without status or code (a [TypeError], a validation or a
    duplicate-key error). *)
Definition plain_error (message : string) : JsError :=
  {| err_status := 0; err_code := 0; err_message := message |}.

End Runtime.

(** ** Classifier gateway: [callAI] *)

Module Gateway.
Import Model Runtime.

Definition MODEL : string := "deepseek/deepseek-chat-v3-0324".
Definition FALLBACK_MODEL : string := "deepseek/deepseek-chat".
Definition MAX_RETRIES : nat := 1.
Definition RETRY_DELAY_MS : Z := 2000.
Definition CLOUD_COOLDOWN_MS : Z := 5 * 60 * 1000.

Definition is_request (e : Event) : bool :=
  match e with
  | Request _ _ => true
  | _ => false
  end.

(** Number of requests sent so far. *)
Definition requests_sent (s : State) : nat := List.length (List.filter is_request (log s)).

(** [await openai.chat.completions.create({model, ..., max_tokens})]: the
    request is logged, the clock moves by the time the answer took, and the
    call resolves or throws. *)
Definition create_completion (model : string) (maxTokens : nat) : M Payload :=
  let* s := get in
  let r := remote s (requests_sent s) in
  let* _ := emit (Request model maxTokens) in
  let* _ := advance (latency r) in
  match reply r with
  | Resolve p => ret p
  | Reject e => throw e
  end.

(** [await new Promise(r => setTimeout(r, ms))] *)
Definition delay (ms : Z) : M unit :=
  let* _ := emit (Sleep ms) in advance ms.

(** [response.choices[0]?.message?.content?.trim()]; a payload without
    [choices] makes the expression throw a [TypeError]. *)
Definition content_text (p : Payload) : M (option string) :=
  match p with
  | Content (Some c) => ret (Some (JsString.trim c))
  | Content None => ret None
  | Malformed => throw (plain_error "Cannot read properties of undefined")
  end.

(** [error.status || error.code || 0] *)
Definition error_status (e : JsError) : Z :=
  if (err_status e =? 0)%Z then err_code e else err_status e.

(** How one pass through the body of the retry loop ends. *)
Inductive LoopExit :=
| Return (r : option string)   (* [return ...] out of [callAI] *)
| Break                        (* [break]: on to the next model *)
| Continue.                    (* next iteration; also the end of the body *)

(** The [try { ... } catch (error) { ... }] inside the retry loop. *)
Definition attempt_body (currentModel : string) (maxTokens : nat) (attempt : nat) : M LoopExit :=
  try_catch
    (let* response := create_completion currentModel maxTokens in
     let* text := content_text response in
     let* _ := modify (with_cooldown 0) in
     ret (Return (if truthy text then text else None)))
    (fun error =>
       let status := error_status error in
       if (status =? 401)%Z || (status =? 403)%Z then
         let* t := Date_now in
         let* _ := modify (with_cooldown (t + CLOUD_COOLDOWN_MS)) in
         ret (Return None)
       else if (status =? 429)%Z then ret Break
       else if (attempt <? MAX_RETRIES)%nat then
         let* _ := delay RETRY_DELAY_MS in ret Continue
       else ret Continue).

(** [for (let attempt = 0; attempt <= MAX_RETRIES; attempt++) { ... }];
    [fuel] bounds the iterations and is never the reason the loop stops
    when it starts above [MAX_RETRIES + 1 - attempt]. *)
Fixpoint retry_loop (fuel : nat) (currentModel : string) (maxTokens : nat) (attempt : nat)
  : M LoopExit :=
  match fuel with
  | O => ret Break
  | S fuel' =>
      if (attempt <=? MAX_RETRIES)%nat then
        let* e := attempt_body currentModel maxTokens attempt in
        match e with
        | Continue => retry_loop fuel' currentModel maxTokens (S attempt)
        | other => ret other
        end
      else ret Break
  end.

(** [for (const currentModel of modelsToTry) { ... }] followed by the final
    [return null]. *)
Fixpoint model_loop (modelsToTry : list string) (maxTokens : nat) : M (option string) :=
  match modelsToTry with
  | [] => ret None
  | currentModel :: rest =>
      let* e := retry_loop (S (S MAX_RETRIES)) currentModel maxTokens 0 in
      match e with
      | Return r => ret r
      | _ => model_loop rest maxTokens
      end
  end.

(** [callAI(prompt, maxTokens)]. The prompt only travels to the remote model,
    whose answers are given by [remote]; it is not part of the embedding. *)
Definition callAI (maxTokens : nat) : M (option string) :=
  let* t := Date_now in
  let* s := get in
  if (t <? cloudDisabledUntil s)%Z then ret None
  else model_loop [MODEL; FALLBACK_MODEL] maxTokens.

(** The state once a request to [model] has been sent and answered, and
    once a retry delay has passed. *)
Definition after_request (model : string) (maxTokens : nat) (s : State) : State :=
  with_now (now s + latency (remote s (requests_sent s)))
           (with_log (log s ++ [Request model maxTokens]) s).

Definition after_delay (ms : Z) (s : State) : State :=
  with_now (now s + ms) (with_log (log s ++ [Sleep ms]) s).

(** The events of the gateway: requests and waits. *)
Definition quiet (e : Event) : bool :=
  match e with
  | Request _ _ | Sleep _ => true
  | _ => false
  end.

(** [s'] differs from [s] by gateway activity only: the collections and
    the remote model are the same, and the log grew by requests and waits. *)
Definition gateway_only (s s' : State) : Prop :=
  complaints s' = complaints s /\ users s' = users s /\ remote s' = remote s
  /\ exists evs, log s' = (log s ++ evs)%list /\ forallb quiet evs = true.

(** The answer the next request will get. *)
Definition next_reply (s : State) : Reply := reply (remote s (requests_sent s)).

(** The kinds of failure the handler tells apart. *)
Definition auth_failure (r : Reply) : Prop :=
  exists e, r = Reject e /\ (error_status e = 401 \/ error_status e = 403)%Z.

Definition rate_limited (r : Reply) : Prop :=
  exists e, r = Reject e /\ error_status e = 429%Z.

Definition transient_failure (r : Reply) : Prop :=
  r = Resolve Malformed \/
  exists e, r = Reject e /\ error_status e <> 401%Z /\ error_status e <> 403%Z
            /\ error_status e <> 429%Z.

(** The same kinds, read off the error object itself. An error reports the
    status [n] (not zero) when its [status] is [n], or when it has no
    [status] and its [code] is [n]. *)
Definition reports (e : JsError) (n : Z) : Prop :=
  err_status e = n \/ (err_status e = 0%Z /\ err_code e = n).

Definition rejected_with (n : Z) (r : Reply) : Prop :=
  exists e, r = Reject e /\ reports e n.

(** The credential was rejected: status 401 or 403. *)
Definition credential_rejected (r : Reply) : Prop :=
  rejected_with 401 r \/ rejected_with 403 r.

(** The rate limit was hit: status 429. *)
Definition throttled (r : Reply) : Prop := rejected_with 429 r.

(** Any other failure: a payload without choices, or an error that reports
    none of 401, 403 and 429. *)
Definition failed_otherwise (r : Reply) : Prop :=
  r = Resolve Malformed \/
  exists e, r = Reject e /\ ~ reports e 401 /\ ~ reports e 403 /\ ~ reports e 429.

Definition answers (r : Reply) (content : option string) : Prop :=
  r = Resolve (Content content).

(** [text || null] for the content of an answer. *)
Definition text_of (content : option string) : option string :=
  match content with
  | Some c => if String.eqb (JsString.trim c) "" then None else Some (JsString.trim c)
  | None => None
  end.

(** A text that a run from [s] to [s'] returns is the content of an answer
    of the remote model, and the run has reset the cooldown variable. *)
Definition answered (s s' : State) (r : option string) : Prop :=
  forall t, r = Some t ->
    cloudDisabledUntil s' = 0%Z
    /\ exists k c, reply (remote s k) = Resolve (Content (Some c))
                   /\ text_of (Some c) = Some t.

End Gateway.

(** ** Sorting as [Array.prototype.sort] does *)

Module JsArray.

(** Insertion into a sorted list, before the first element that the
    comparator does not put in front of [x]. *)
Fixpoint insert {A} (cmp : A -> A -> Q) (x : A) (l : list A) : list A :=
  match l with
  | [] => [x]
  | y :: l' => if Qle_bool (cmp x y) 0 then x :: l else y :: insert cmp x l'
  end.

(** [l.sort(cmp)]: the stable sort by a comparator whose sign orders two
    elements (negative: the first one goes first). *)
Definition sort {A} (cmp : A -> A -> Q) (l : list A) : list A :=
  fold_right (insert cmp) [] l.

(** [x] may stand before [y]: the comparator does not ask for [y] first. *)
Definition before {A} (cmp : A -> A -> Q) (x y : A) : Prop := Qle_bool (cmp x y) 0 = true.

End JsArray.

(** ** Priority assigner: [localPrioritize], [prioritizeComplaint] *)

Module PriorityAssigner.
Import Model Runtime JsString.

Definition kw_Critical : list string :=
  ["flood"; "fire"; "collapse"; "collapsed"; "accident"; "danger"; "dangerous"
  ; "emergency"; "fallen"; "burst"; "explosion"; "electrocution"; "death"
  ; "dead"; "drowning"; "sinkhole"; "gas leak"; "building crack"
  ; "bridge damage"; "short circuit"; "live wire"; "exposed wire"
  ; "water contamination"; "epidemic"; "outbreak"; "major damage"
  ; "life threatening"; "critical"; "fallen tree"; "road cave"
  ; "wall collapse"; "roof collapse"; "sewage overflow"].

Definition kw_High : list string :=
  ["broken"; "pothole"; "leak"; "leaking"; "sewage"; "blocked"; "damaged"
  ; "contaminated"; "overflow"; "overflowing"; "no water"; "no electricity"
  ; "power cut"; "power outage"; "blackout"; "road damage"; "crack"; "cracked"
  ; "waterlogging"; "stagnant water"; "mosquito"; "garbage pile"; "dump"
  ; "illegal dumping"; "unsafe"; "hazard"; "risk"; "urgent"; "no supply"
  ; "pipeline break"; "main road"; "highway"; "bus breakdown"
  ; "traffic signal"; "drainage block"; "manhole open"; "missing cover"].

Definition kw_Medium : list string :=
  ["not working"; "malfunction"; "delayed"; "dirty"; "slow"; "complaint"
  ; "issue"; "problem"; "repair"; "maintenance"; "streetlight"; "lamp"
  ; "footpath"; "pavement"; "speed breaker"; "signal"; "noise"; "dust"
  ; "irregular"; "faulty"; "poor condition"; "needs attention"; "overdue"
  ; "pending"; "unresolved"; "partially"; "intermittent"; "sometimes"].

Definition kw_Low : list string :=
  ["request"; "suggestion"; "new"; "improvement"; "inquiry"; "information"
  ; "feedback"; "install"; "installation"; "propose"; "plan"; "future"
  ; "beautification"; "painting"; "garden"; "park"; "bench"; "sign board"
  ; "name board"; "bus stop"; "shelter"; "upgrade"; "enhance"; "minor"].

(** [PRIORITY_KEYWORDS], in the order of its keys. *)
Definition PRIORITY_KEYWORDS : list (Priority * list string) :=
  [(Critical, kw_Critical); (High, kw_High); (Medium, kw_Medium); (Low, kw_Low)].

Definition priority_eqb (a b : Priority) : bool :=
  match a, b with
  | Critical, Critical | High, High | Medium, Medium | Low, Low => true
  | _, _ => false
  end.

(** The [scores] object: its entries in insertion order. *)
Definition Scores := list (Priority * Q).

Definition initial_scores : Scores :=
  [(Critical, 0%Q); (High, 0%Q); (Medium, 0%Q); (Low, 0%Q)].

(** [scores[level] += w] *)
Definition bump (level : Priority) (w : Q) (scores : Scores) : Scores :=
  List.map (fun e => if priority_eqb (fst e) level then (fst e, (snd e + w)%Q) else e) scores.


(** [level === 'Critical' ? 3 : level === 'High' ? 2 : 1] *)
Definition hit_weight (level : Priority) : Q :=
  match level with
  | Critical => 3%Q
  | High => 2%Q
  | _ => 1%Q
  end.

(** The inner loop over the keywords of one level. *)
Definition score_level (text : string) (level : Priority) (keywords : list string)
    (scores : Scores) : Scores :=
  fold_left (fun sc kw => if includes text kw then bump level (hit_weight level) sc else sc)
            keywords scores.

(** The outer loop over [Object.entries(PRIORITY_KEYWORDS)]. *)
Definition keyword_scores (text : string) : Scores :=
  fold_left (fun sc e => score_level text (fst e) (snd e) sc) PRIORITY_KEYWORDS initial_scores.

Definition deptBoosts : list (string * Q) :=
  [("Electricity", 1%Q); ("Water Resources", 1%Q); ("Public Health", 1%Q);
   ("Roads & Highways", (1 # 2)%Q)].

(** [deptBoosts[department]]: the own property under that name, else what
    every object inherits under it (a function or an object), else
    [undefined]. *)
Inductive Lookup :=
| Own (boost : Q)
| Inherited
| Undefined.

Definition dept_boost (department : string) : Lookup :=
  match List.find (fun e => String.eqb (fst e) department) deptBoosts with
  | Some e => Own (snd e)
  | None => if JsObject.inherited department then Inherited else Undefined
  end.

(** A score after the boost. A number plus a function or an object is a
    string that is no numeral, and a number plus [NaN] is [NaN]; the
    subtraction of the comparator and the comparison with zero turn such a
    string into [NaN], so both are kept as [NaN]. *)
Inductive Score :=
| Num (q : Q)
| NaN.

Definition numbers (scores : Scores) : list (Priority * Score) :=
  List.map (fun e => (fst e, Num (snd e))) scores.

(** [scores[level] = v] *)
Definition set_score (level : Priority) (v : Score) (scores : list (Priority * Score))
  : list (Priority * Score) :=
  List.map (fun e => if priority_eqb (fst e) level then (fst e, v) else e) scores.

(** [scores.Critical += b; scores.High += b * 0.5] for a number [b]. *)
Definition boost (b : Q) (scores : Scores) : Scores :=
  bump High (b * (1 # 2))%Q (bump Critical b scores).

(** [if (deptBoosts[department]) { ... }]: a number other than zero, a
    function and an object are truthy. *)
Definition boosted_scores (department : string) (scores : Scores)
  : list (Priority * Score) :=
  match dept_boost department with
  | Own b => if Qeq_bool b 0 then numbers scores else numbers (boost b scores)
  | Inherited => set_score High NaN (set_score Critical NaN (numbers scores))
  | Undefined => numbers scores
  end.

(** [(a, b) => b[1] - a[1]]; the sort reads a result [NaN] as zero. With a
    [NaN] among the scores the comparator is not consistent and the order
    the sort produces is up to the engine; the insertion sort of V8 for
    short arrays leaves the first entry in front when every comparison
    with it gives zero, as [JsArray.sort] does. *)
Definition by_score (a b : Priority * Score) : Q :=
  match snd a, snd b with
  | Num x, Num y => (y - x)%Q
  | _, _ => 0%Q
  end.

(** [v > 0] *)
Definition is_positive (v : Score) : bool :=
  match v with
  | Num q => negb (Qle_bool q 0)
  | NaN => false
  end.

Definition localPrioritize (description department : string) : Priority :=
  let text := toLowerCase (description ++ " " ++ department) in
  let scores := boosted_scores department (keyword_scores text) in
  let sorted := JsArray.sort by_score scores in
  match sorted with
  | top :: _ => if is_positive (snd top) then fst top else Medium
  | [] => Medium
  end.

Definition validPriorities : list Priority := [Critical; High; Medium; Low].

(** [prioritizeComplaint]: the remote answer if it names a priority, the
    keyword analysis otherwise. *)
Definition prioritizeComplaint (description department : string) : M Priority :=
  let* response := Gateway.callAI 10 in
  match response with
  | Some r =>
      if String.eqb r "" then ret (localPrioritize description department)
      else match List.find (fun p => includes r (priorityName p)) validPriorities with
           | Some p => ret p
           | None => ret (localPrioritize description department)
           end
  | None => ret (localPrioritize description department)
  end.

(** *** The rule in the words of the specification *)






(** Critical > High > Medium > Low: a smaller number takes precedence. *)
Definition precedence (level : Priority) : nat :=
  match level with
  | Critical => 0
  | High => 1
  | Medium => 2
  | Low => 3
  end.

End PriorityAssigner.

(** ** The numbers of the engine: IEEE 754 binary64 *)

Module Double.

Definition prec : Z := 53.
Definition emax : Z := 1024.

(** A Number value: a zero, an infinity, [NaN], or sign, mantissa and
    exponent of a finite number (-1)^s * m * 2^e. *)
Definition double : Type := spec_float.

Definition zero : double := S754_zero false.
Definition add : double -> double -> double := SFadd prec emax.
Definition sub : double -> double -> double := SFsub prec emax.
Definition mul : double -> double -> double := SFmul prec emax.
Definition div : double -> double -> double := SFdiv prec emax.

(** The Number value of an integer literal below 2^53, and of a decimal
    literal that writes the quotient of two such integers ([0.8] is
    [decimal 8 10]): the double nearest to the quotient. *)
Definition of_Z (z : Z) : double := binary_normalize prec emax z 0 false.
Definition decimal (n d : Z) : double := div (of_Z n) (of_Z d).

(** [x > 0] *)
Definition above_zero (x : double) : bool := SFltb zero x.

(** Truthiness of a number: neither a zero nor [NaN]. *)
Definition truthy (x : double) : bool :=
  match x with
  | S754_finite _ _ _ | S754_infinity _ => true
  | _ => false
  end.

(** What a sort reads off the number a comparator returns: its sign, a
    [NaN] counting as zero. *)
Definition sign (x : double) : Q :=
  match x with
  | S754_finite s _ _ | S754_infinity s => if s then (-1)%Q else 1%Q
  | _ => 0%Q
  end.

(** The exact value of a finite number. *)
Definition value (x : double) : Q :=
  match x with
  | S754_finite s m e =>
      if (0 <=? e)%Z then inject_Z (cond_Zopp s (Zpos m * 2 ^ e))
      else Qmake (cond_Zopp s (Zpos m)) (Z.to_pos (2 ^ (- e)))
  | _ => 0%Q
  end.

(** The result of [Math.round]: an integer, [NaN], or an infinity. *)
Inductive Rounded :=
| Integer (z : Z)
| NotANumber
| Infinite (negative : bool).

(** [Math.round(x)]: the integer nearest to the exact value of [x], a half
    rounding up; [NaN] and the infinities are returned as they are. *)
Definition Math_round (x : double) : Rounded :=
  match x with
  | S754_nan => NotANumber
  | S754_infinity s => Infinite s
  | _ => Integer (JsString.Math_round (value x))
  end.

(** [Math.min(r, bound)] for an integer [bound]. *)
Definition at_most (bound : Z) (r : Rounded) : Rounded :=
  match r with
  | Integer z => Integer (Z.min z bound)
  | Infinite false => Integer bound
  | other => other
  end.

(** *** Finite doubles and their order *)

(** A finite number: neither [NaN] nor an infinity. *)
Definition finite (x : double) : Prop :=
  match x with
  | S754_zero _ | S754_finite _ _ _ => True
  | _ => False
  end.

(** The exponent of a number is not below -1074, the exponent of the
    smallest positive double. *)
Definition grounded (x : double) : Prop :=
  match x with
  | S754_finite _ _ e => (-1074 <= e)%Z
  | _ => True
  end.

(** A finite double: a zero, or a mantissa times a power of two that is not
    below 2^-1074. *)
Definition finite_double (x : double) : Prop :=
  match x with
  | S754_zero _ => True
  | S754_finite _ _ e => (-1074 <= e)%Z
  | _ => False
  end.

(** A number above zero, by its sign. *)
Definition positive_number (x : double) : Prop :=
  match x with
  | S754_finite false _ _ | S754_infinity false => True
  | _ => False
  end.

(** The value of a finite double in units of 2^-1074. *)
Definition scaled (x : double) : Z :=
  match x with
  | S754_finite s m e => cond_Zopp s (Zpos m * 2 ^ (e + 1074))
  | _ => 0%Z
  end.

(** A sum of positive finite doubles: a positive finite double or the
    positive infinity. *)
Definition grown (x : double) : Prop :=
  match x with
  | S754_finite false _ e => (-1074 <= e)%Z
  | S754_infinity false => True
  | _ => False
  end.

End Double.


(** ** Integrity filter: [localDetectDuplicateOrFake], [detectDuplicateOrFake] *)

Module IntegrityFilter.
Import Model Runtime JsString.

(** [getWords]: lower case, punctuation removed, split at white space,
    tokens of more than two characters kept. *)
Definition getWords (text : string) : list string :=
  List.filter (fun w => (2 <? String.length w)%nat)
              (split_ws (strip_punct (toLowerCase text))).

Definition jaccardSimilarity (wordsA wordsB : list string) : Q :=
  let setA := new_Set wordsA in
  let setB := new_Set wordsB in
  let intersection := new_Set (List.filter (fun x => set_has x setB) setA) in
  let union := new_Set (setA ++ setB) in
  if (List.length union =? 0)%nat then 0%Q
  else ratio (List.length intersection) (List.length union).

Definition KNOWN_WORDS : list string :=
  ["the"; "and"; "for"; "are"; "but"; "not"; "you"; "all"; "can"; "had"; "her"
  ; "was"; "one"; "our"; "out"; "has"; "his"; "how"; "its"; "may"; "who"
  ; "did"; "get"; "new"; "now"; "old"; "see"; "way"; "day"; "too"; "any"
  ; "been"; "from"; "have"; "here"; "just"; "like"; "long"; "make"; "many"
  ; "more"; "only"; "over"; "such"; "take"; "than"; "them"; "then"; "very"
  ; "when"; "come"; "could"; "into"; "made"; "after"; "back"; "also"; "with"
  ; "this"; "that"; "they"; "what"; "will"; "about"; "there"; "their"; "which"
  ; "would"; "other"; "these"; "some"; "time"; "being"; "does"; "where"
  ; "before"; "between"; "each"; "even"; "much"; "most"; "same"; "still"
  ; "should"; "through"; "while"; "under"; "never"; "every"; "since"; "need"
  ; "help"; "please"; "because"; "near"; "facing"; "causing"; "people"
  ; "daily"; "road"; "water"; "street"; "light"; "area"; "working"; "broken"
  ; "damage"; "damaged"; "pipe"; "pipeline"; "drain"; "drainage"; "block"
  ; "blocked"; "garbage"; "bus"; "power"; "electricity"; "supply"; "issue"
  ; "problem"; "repair"; "fix"; "fixed"; "days"; "weeks"; "months"; "public"
  ; "health"; "safety"; "danger"; "dangerous"; "flood"; "flooded"; "sewage"
  ; "pothole"; "pavement"; "footpath"; "bridge"; "building"; "house"; "school"
  ; "hospital"; "temple"; "church"; "mosque"; "park"; "garden"; "traffic"
  ; "signal"; "lamp"; "pole"; "wire"; "cable"; "tank"; "well"; "bore"; "motor"
  ; "pump"; "valve"; "meter"; "bill"; "connection"; "complaint"; "department"
  ; "office"; "officer"; "collector"; "corporation"; "municipality"
  ; "panchayat"; "ward"; "zone"; "district"; "village"; "town"; "city"
  ; "nagar"; "colony"; "layout"; "main"; "cross"; "junction"; "corner"; "side"
  ; "front"; "behind"; "opposite"; "next"; "above"; "below"; "morning"
  ; "evening"; "night"; "today"; "yesterday"; "week"; "month"; "year"
  ; "leaking"; "overflowing"; "stagnant"; "contaminated"; "polluted"; "dirty"
  ; "clean"; "mosquito"; "insects"; "smell"; "stench"; "noise"; "dust"
  ; "smoke"; "illegal"; "construction"; "encroachment"; "parking"; "speed"
  ; "accident"; "fallen"; "tree"; "branch"; "fence"; "wall"; "gate"; "roof"
  ; "floor"; "ceiling"; "window"; "door"; "transformer"; "generator"
  ; "inverter"; "streetlight"; "manhole"; "cover"; "cracked"; "collapse"
  ; "collapsed"; "sinking"; "eroded"; "erosion"; "landslide"; "request"
  ; "suggestion"; "improvement"; "install"; "installation"; "upgrade"].

Definition isKnownWord (word : string) : bool :=
  set_has word KNOWN_WORDS || (6 <=? String.length word)%nat.

(** [/(.)\1{4,}/] matched at the start of [s]: five equal characters that
    the dot accepts. *)
Definition run5_here (s : string) : bool :=
  match s with
  | String a (String b (String c (String d (String e _)))) =>
      negb (is_line_terminator a) && Ascii.eqb a b && Ascii.eqb a c
      && Ascii.eqb a d && Ascii.eqb a e
  | _ => false
  end.

(** [repeatPattern.test(text)]: a match at some offset. *)
Fixpoint repeatPattern_test (s : string) : bool :=
  run5_here s ||
  match s with
  | EmptyString => false
  | String _ s' => repeatPattern_test s'
  end.

(** The alternatives of [keyboardPatterns], in the order the expression
    tries them. The text it is run on is already lower case, so the [i]
    flag changes nothing. *)
Definition keyboardPatterns : list string :=
  ["asdf"; "qwert"; "zxcv"; "hjkl"; "uiop"; "bnm"; "wasd"; "jkl"; "fgh"].

Definition match_here (s : string) : option string :=
  List.find (fun p => String.prefix p s) keyboardPatterns.

(** [(lowerText.match(keyboardPatterns) || []).length]: the matches of a
    global search, each one starting where the previous one ended; [skip]
    characters are still covered by the last match. *)
Fixpoint count_matches (skip : nat) (s : string) : nat :=
  match s with
  | EmptyString => 0
  | String _ s' =>
      match skip with
      | S k => count_matches k s'
      | O =>
          match match_here s with
          | Some p => S (count_matches (String.length p - 1) s')
          | None => count_matches 0 s'
          end
      end
  end.

(** An existing complaint as the duplicate check reads it
    ([select('ticketId description area status')]). *)
Record Candidate := {
  c_ticketId : string;
  c_description : string;
  c_area : string;
  c_status : Status
}.

(** The DuplicateCheck result. *)
Record Verdict := {
  v_isDuplicate : bool;
  v_duplicateOf : option string;
  v_isFake : bool;
  v_remarks : string
}.

Definition fake (remarks : string) : Verdict :=
  {| v_isDuplicate := false; v_duplicateOf := None; v_isFake := true; v_remarks := remarks |}.

Definition Qltb (a b : Q) : bool := negb (Qle_bool b a).

(** [Math.round(x * 100)] printed in a template literal, for a similarity
    [x]. *)
Definition percent (x : Q) : string := string_of_Z (Math_round (x * 100)).

(** [Math.round(knownRatio * 100)] printed in a template literal, for the
    quotient of two counters: the quotient and the product are the doubles
    of the engine (29 / 200 gives 14, not 15). *)
Definition percent_of (a b : nat) : string :=
  match Double.Math_round
          (Double.mul (Double.div (Double.of_Z (Z.of_nat a)) (Double.of_Z (Z.of_nat b)))
                      (Double.of_Z 100)) with
  | Double.Integer z => string_of_Z z
  | Double.NotANumber => "NaN"
  | Double.Infinite negative => if negative then "-Infinity" else "Infinity"
  end.

(** One pass through the body of the loop over [existingComplaints]. *)
Definition best_step (area : string) (newWords : list string)
    (best : option Candidate * Q) (existing : Candidate) : option Candidate * Q :=
  if negb (String.eqb (c_area existing) area) then best
  else
    let existingWords := getWords (c_description existing) in
    let similarity := jaccardSimilarity newWords existingWords in
    if Qltb (snd best) similarity then (Some existing, similarity) else best.

(** The part of [localDetectDuplicateOrFake] under [=== FAKE DETECTION ===]:
    the remark of the first check that fires, if one does. *)
Definition fake_detection (description : string) : option string :=
  let text := trim description in
  if (String.length text <? 10)%nat then
    Some "Description too short to be a valid complaint"
  else
  let words := getWords text in
  if (List.length words =? 0)%nat then
    Some "No meaningful words found in description"
  else
  if repeatPattern_test text then
    Some "Description contains repeated character patterns (spam)"
  else
  let knownCount := List.length (List.filter isKnownWord words) in
  let knownRatio := ratio knownCount (List.length words) in
  if Qltb knownRatio (3 # 10) && (3 <=? List.length words)%nat then
    Some ("Description appears to be gibberish (only "
          ++ percent_of knownCount (List.length words) ++ "% recognizable words)")
  else
  let lowerText := toLowerCase text in
  let patternMatches := count_matches 0 lowerText in
  if (2 <=? patternMatches)%nat then
    Some "Description appears to be keyboard-mashing / random input"
  else
  let uniqueWords := new_Set words in
  if (List.length uniqueWords =? 1)%nat && (2 <? List.length words)%nat then
    Some "Description is just the same word repeated"
  else None.

Definition unique_verdict : Verdict :=
  {| v_isDuplicate := false; v_duplicateOf := None; v_isFake := false;
     v_remarks := "Complaint appears valid and unique" |}.

(** The part under [=== DUPLICATE DETECTION ===]. *)
Definition duplicate_detection (description area : string)
    (existingComplaints : list Candidate) : Verdict :=
  let newWords := getWords description in
  let best := fold_left (best_step area newWords) existingComplaints (None, 0%Q) in
  match fst best with
  | Some bestMatch =>
      if Qle_bool (6 # 10) (snd best) then
        {| v_isDuplicate := true;
           v_duplicateOf := Some (c_ticketId bestMatch);
           v_isFake := false;
           v_remarks := percent (snd best) ++ "% similar to existing complaint "
                        ++ c_ticketId bestMatch |}
      else unique_verdict
  | None => unique_verdict
  end.

(** [localDetectDuplicateOrFake]: every fake check returns at once; the
    duplicate detection runs when none fired. *)
Definition localDetectDuplicateOrFake (description department area : string)
    (existingComplaints : list Candidate) : Verdict :=
  match fake_detection description with
  | Some remarks => fake remarks
  | None => duplicate_detection description area existingComplaints
  end.

(** [detectDuplicateOrFake]. [decode] stands for what the code makes of the
    remote answer: code fences stripped, [JSON.parse], the four fields
    coerced; [None] when that throws. *)
Definition detectDuplicateOrFake (decode : string -> option Verdict)
    (description department area : string) (existingComplaints : list Candidate)
  : M Verdict :=
  let localResult := localDetectDuplicateOrFake description department area existingComplaints in
  if v_isFake localResult || v_isDuplicate localResult then ret localResult
  else
    if (0 <? List.length existingComplaints)%nat then
      let* response := Gateway.callAI 150 in
      match response with
      | Some r =>
          if String.eqb r "" then ret localResult
          else match decode r with
               | Some cloudResult => ret cloudResult
               | None => ret localResult
               end
      | None => ret localResult
      end
    else ret localResult.

(** *** The checks in the words of the specification *)



(** Jaccard similarity of two word lists as sets: the size of the
    intersection over the size of the union, zero when both are empty. *)
Definition spec_jaccard (wordsA wordsB : list string) : Q :=
  let A : gset string := list_to_set wordsA in
  let B : gset string := list_to_set wordsB in
  if (size (A ∪ B) =? 0)%nat then 0%Q else ratio (size (A ∩ B)) (size (A ∪ B)).

(** The candidates of the duplicate check: same area string. *)
Definition same_area (area : string) (existingComplaints : list Candidate) : list Candidate :=
  List.filter (fun c => String.eqb (c_area c) area) existingComplaints.

(** Similarity of a candidate to the new description. *)
Definition similarity_to (description : string) (c : Candidate) : Q :=
  jaccardSimilarity (getWords description) (getWords (c_description c)).

End IntegrityFilter.

(** ** Department detector: [mapToDepartment], in exact arithmetic *)

(** The scores are exact rationals here; [Detector64] below is the same
    function with the doubles of the engine. *)

Module DepartmentDetector.
Import JsString.
Local Open Scope Q_scope.

Definition kw_WaterResources : list string :=
  ["water"; "pipe"; "pipeline"; "flood"; "flooding"; "drain"; "drainage"
  ; "sewage"; "sewer"; "leak"; "leaking"; "plumbing"; "tap"; "faucet"
  ; "water supply"; "borewell"; "well"; "tank"; "overhead tank"; "pump"
  ; "waterlogging"; "stagnant water"; "canal"; "river"; "pond"; "reservoir"
  ; "water contamination"; "dirty water"; "water body"; "puddle"
  ; "swimming pool"; "moisture"; "wet"; "liquid"; "fluid"; "sprinkler"
  ; "hydrant"; "valve"; "water pipe"; "water tank"; "water damage"
  ; "water overflow"].

Definition kw_Electricity : list string :=
  ["electric"; "electricity"; "wire"; "wiring"; "cable"; "power line"
  ; "transformer"; "pole"; "power pole"; "utility pole"; "streetlight"
  ; "street light"; "lamp"; "lamp post"; "bulb"; "light"; "lighting"
  ; "electric pole"; "power outage"; "blackout"; "short circuit"; "electrical"
  ; "voltage"; "current"; "generator"; "inverter"; "circuit breaker"; "meter"
  ; "electric meter"; "fuse"; "switch"; "overhead line"; "high tension"
  ; "conductor"; "insulator"; "power grid"; "substation"; "energy"; "neon"
  ; "fluorescent"; "led"; "electrical equipment"; "power supply"
  ; "electric line"].

Definition kw_RoadsHighways : list string :=
  ["road"; "highway"; "pothole"; "crack"; "asphalt"; "pavement"; "footpath"
  ; "sidewalk"; "bridge"; "flyover"; "overpass"; "underpass"; "speed breaker"
  ; "speed bump"; "divider"; "median"; "curb"; "road damage"
  ; "road construction"; "tar"; "concrete"; "gravel"; "lane"; "intersection"
  ; "junction"; "roundabout"; "road sign"; "traffic sign"; "barricade"
  ; "guardrail"; "railing"; "manhole"; "road surface"; "street"; "avenue"
  ; "boulevard"; "path"; "trail"; "cobblestone"; "bitumen"; "roadwork"
  ; "paving"; "road marking"; "zebra crossing"; "crosswalk"; "pedestrian"
  ; "roadway"; "infrastructure"].

Definition kw_Sanitation : list string :=
  ["garbage"; "trash"; "waste"; "dump"; "litter"; "debris"; "rubbish"
  ; "dustbin"; "bin"; "dumpster"; "compost"; "recycling"; "junk"; "pollution"
  ; "dirty"; "filth"; "mess"; "unhygienic"; "unsanitary"; "toilet"; "restroom"
  ; "latrine"; "sewage"; "sanitation"; "cleaning"; "sweeping"; "disposal"
  ; "waste management"; "plastic"; "plastic waste"; "polythene"; "bottle"
  ; "cans"; "food waste"; "organic waste"; "landfill"; "decomposition"
  ; "stench"; "smell"; "odor"; "foul smell"; "rot"; "rotten"; "contamination"
  ; "hazardous waste"; "biomedical waste"].

Definition kw_PublicHealth : list string :=
  ["hospital"; "clinic"; "medical"; "health"; "disease"; "infection"
  ; "mosquito"; "pest"; "insect"; "rat"; "rodent"; "cockroach"; "dengue"
  ; "malaria"; "epidemic"; "pandemic"; "vaccination"; "medicine"; "pharmacy"
  ; "doctor"; "nurse"; "patient"; "ambulance"; "emergency"; "first aid"
  ; "health hazard"; "contamination"; "polluted"; "toxic"; "chemical"; "smoke"
  ; "air pollution"; "respiratory"; "safety"; "biohazard"; "stagnant"
  ; "breeding ground"; "larvae"; "fly"; "flies"; "public health"; "hygiene"
  ; "disinfection"; "sanitizer"].

Definition kw_Education : list string :=
  ["school"; "college"; "university"; "classroom"; "education"; "student"
  ; "teacher"; "blackboard"; "whiteboard"; "desk"; "chair"; "bench"; "library"
  ; "book"; "notebook"; "stationery"; "playground"; "campus"; "laboratory"
  ; "computer lab"; "hostel"; "canteen"; "auditorium"; "sports"; "academic"
  ; "tuition"; "exam"; "scholarship"; "learning"].

Definition kw_Transport : list string :=
  ["bus"; "bus stop"; "bus stand"; "bus station"; "bus shelter"; "traffic"
  ; "traffic light"; "traffic signal"; "traffic jam"; "vehicle"; "car"
  ; "truck"; "auto"; "rickshaw"; "train"; "railway"; "metro"; "station"
  ; "platform"; "parking"; "accident"; "collision"; "transport"
  ; "transportation"; "commute"; "transit"; "route"; "highway"; "signal"
  ; "pedestrian crossing"; "overloaded"; "public transport"].

Definition kw_Revenue : list string :=
  ["land"; "property"; "boundary"; "survey"; "deed"; "title"; "encroachment"
  ; "illegal construction"; "demolition"; "tax"; "revenue"; "registration"
  ; "document"; "certificate"; "patta"; "chitta"; "adangal"; "land record"
  ; "measurement"].

Definition kw_Agriculture : list string :=
  ["farm"; "crop"; "field"; "agriculture"; "farming"; "harvest"; "irrigation"
  ; "fertilizer"; "pesticide"; "soil"; "seed"; "tractor"; "plowing"; "cattle"
  ; "livestock"; "poultry"; "paddy"; "rice"; "wheat"; "vegetable"; "fruit"
  ; "garden"; "horticulture"; "plantation"; "orchard"; "greenhouse"; "drought"
  ; "pest attack"; "crop damage"; "agricultural land"].

(** One entry of [DEPARTMENT_KEYWORDS]. *)
Record DeptConfig := { dept_name : string; keywords : list string; weight : Q }.

(** [DEPARTMENT_KEYWORDS], in the order of its keys. *)
Definition DEPARTMENT_KEYWORDS : list DeptConfig :=
  [ {| dept_name := "Water Resources"; keywords := kw_WaterResources; weight := 1 |};
    {| dept_name := "Electricity"; keywords := kw_Electricity; weight := 1 |};
    {| dept_name := "Roads & Highways"; keywords := kw_RoadsHighways; weight := 1 |};
    {| dept_name := "Sanitation"; keywords := kw_Sanitation; weight := 1 |};
    {| dept_name := "Public Health"; keywords := kw_PublicHealth; weight := 1 |};
    {| dept_name := "Education"; keywords := kw_Education; weight := 8 # 10 |};
    {| dept_name := "Transport"; keywords := kw_Transport; weight := 9 # 10 |};
    {| dept_name := "Revenue"; keywords := kw_Revenue; weight := 7 # 10 |};
    {| dept_name := "Agriculture"; keywords := kw_Agriculture; weight := 8 # 10 |} ].

(** A label, a localized object or a web entity: its text and its score. *)
Record Annotation := { a_text : string; a_score : Q }.

(** What [analyzeImage] hands over. *)
Record VisionResults := {
  labels : list Annotation;
  objects : list Annotation;
  detectedText : string;
  webEntities : list Annotation;
  source : option string;
  directDepartment : option string;
  directReason : option string
}.

Inductive TermSource := FromLabel | FromObject | FromWeb.

Record Term := { term : string; score : Q; term_source : TermSource }.

(** The value [mapToDepartment] returns. *)
Record DepartmentResult := {
  department : string;
  confidence : Z;
  detectedLabels : list string;
  matchedKeywords : option (list string);
  reason : string;
  allScores : option (list (string * Q));
  result_source : option string
}.

(** [w.score || 0.5] *)
Definition web_score (q : Q) : Q := if Qeq_bool q 0 then 1 # 2 else q.

Definition allTerms (v : VisionResults) : list Term :=
  List.map (fun l => {| term := a_text l; score := a_score l; term_source := FromLabel |}) (labels v)
  ++ List.map (fun o => {| term := a_text o; score := a_score o; term_source := FromObject |}) (objects v)
  ++ List.map (fun w => {| term := a_text w; score := web_score (a_score w); term_source := FromWeb |})
              (webEntities v).

Definition source_factor (s : TermSource) : Q :=
  match s with
  | FromLabel => 12 # 10
  | FromObject => 1
  | FromWeb => 8 # 10
  end.

(** The running [scores[department]] and [matchedKeywords[department]]. *)
Definition Tally : Type := Q * list string.

Definition push_new (keyword entry : string) (matched : list string) : list string :=
  if set_has keyword matched then matched else matched ++ [entry].

(** The loop over the keywords for one term. *)
Definition tally_term (config : DeptConfig) (t : Tally) (item : Term) : Tally :=
  fold_left
    (fun acc keyword =>
       if includes (term item) keyword || includes keyword (term item) then
         let contribution := score item * weight config * source_factor (term_source item) in
         (fst acc + contribution, push_new keyword keyword (snd acc))
       else acc)
    (keywords config) t.

(** The loop over the keywords for the text found on the image. *)
Definition tally_text (config : DeptConfig) (text : string) (t : Tally) : Tally :=
  fold_left
    (fun acc keyword =>
       if includes text keyword then
         (fst acc + (1 # 2) * weight config, push_new keyword ("text:" ++ keyword) (snd acc))
       else acc)
    (keywords config) t.

(** The body of the loop over the departments. *)
Definition tally_department (v : VisionResults) (config : DeptConfig) : Tally :=
  let t := fold_left (tally_term config) (allTerms v) (0, []) in
  if String.eqb (detectedText v) "" then t else tally_text config (detectedText v) t.

(** [Object.entries(scores)] with the matched keywords alongside. *)
Definition department_tallies (v : VisionResults) : list (string * Tally) :=
  List.map (fun config => (dept_name config, tally_department v config)) DEPARTMENT_KEYWORDS.

Definition scores (v : VisionResults) : list (string * Q) :=
  List.map (fun e => (fst e, fst (snd e))) (department_tallies v).

Definition matched_for (v : VisionResults) (dept : string) : list string :=
  match List.find (fun e => String.eqb (fst e) dept) (department_tallies v) with
  | Some e => snd (snd e)
  | None => []
  end.

(** [([, score]) => score > 0] *)
Definition positive (e : string * Q) : bool := negb (Qle_bool (snd e) 0).

(** [sorted]: by score, highest first, positive scores only. *)
Definition sorted_scores (v : VisionResults) : list (string * Q) :=
  List.filter positive (JsArray.sort (fun a b => snd b - snd a) (scores v)).

Definition label_names (v : VisionResults) : list string :=
  List.map a_text (firstn 8 (labels v)).

Definition validDepts : list string :=
  List.map dept_name DEPARTMENT_KEYWORDS ++ ["General"].

Definition or_default (o : option string) (d : string) : option string :=
  match o with
  | Some s => if String.eqb s "" then Some d else Some s
  | None => Some d
  end.

(** The keyword-scoring path of [mapToDepartment]. *)
Definition score_path (v : VisionResults) : DepartmentResult :=
  match sorted_scores v with
  | [] =>
      {| department := "General";
         confidence := 0;
         detectedLabels := label_names v;
         matchedKeywords := None;
         reason := "Could not match image to a specific department";
         allScores := Some (scores v);
         result_source := or_default (source v) "keyword-mapping" |}
  | (topDept, topScore) :: _ =>
      let sorted := sorted_scores v in
      let totalScore := fold_left (fun sum e => sum + snd e) sorted 0 in
      let confidence :=
        if negb (Qle_bool totalScore 0)
        then Z.min (Math_round (topScore / totalScore * 100)) 99
        else 0%Z in
      {| department := topDept;
         confidence := confidence;
         detectedLabels := label_names v;
         matchedKeywords := Some (matched_for v topDept);
         reason := "Detected: " ++ join ", " (firstn 5 (matched_for v topDept));
         allScores := Some (firstn 3 sorted);
         result_source := or_default (source v) "keyword-mapping" |}
  end.

Definition mapToDepartment (v : VisionResults) : DepartmentResult :=
  let direct :=
    match directDepartment v, source v with
    | Some d, Some src =>
        if negb (String.eqb d "") && String.eqb src "openrouter-vision" then
          List.find (fun x => String.eqb (toLowerCase x) (toLowerCase d)) validDepts
        else None
    | _, _ => None
    end in
  match direct with
  | Some matched =>
      {| department := matched;
         confidence := 85;
         detectedLabels := label_names v;
         matchedKeywords := Some [];
         reason := match directReason v with
                   | Some r => if String.eqb r "" then "AI vision detected: " ++ matched else r
                   | None => "AI vision detected: " ++ matched
                   end;
         allScores := None;
         result_source := source v |}
  | None => score_path v
  end.

(** *** The ranking in the words of the specification *)

(** Sum of the scores of a list. *)
Definition total (l : list (string * Q)) : Q :=
  fold_right (fun e acc => snd e + acc) 0 l.

(** Sum of all positive department scores. *)
Definition positive_total (l : list (string * Q)) : Q :=
  total (List.filter positive l).

(** The department of the enumeration that a direct guess names, letter
    case apart. *)
Definition guessed (d : string) : option string :=
  List.find (fun x => String.eqb (toLowerCase x) (toLowerCase d)) validDepts.

End DepartmentDetector.

(** ** Department detector, in the arithmetic of the engine *)

(** [mapToDepartment] once more, with every score a double and every
    operation rounded as the engine rounds it. The keyword lists are those
    of [DepartmentDetector]. *)
Module Detector64.
Import JsString Double.

(** One entry of [DEPARTMENT_KEYWORDS]. *)
Record DeptConfig := { dept_name : string; keywords : list string; weight : double }.

(** [DEPARTMENT_KEYWORDS], in the order of its keys. *)
Definition DEPARTMENT_KEYWORDS : list DeptConfig :=
  [ {| dept_name := "Water Resources"; keywords := DepartmentDetector.kw_WaterResources;
       weight := of_Z 1 |};
    {| dept_name := "Electricity"; keywords := DepartmentDetector.kw_Electricity;
       weight := of_Z 1 |};
    {| dept_name := "Roads & Highways"; keywords := DepartmentDetector.kw_RoadsHighways;
       weight := of_Z 1 |};
    {| dept_name := "Sanitation"; keywords := DepartmentDetector.kw_Sanitation;
       weight := of_Z 1 |};
    {| dept_name := "Public Health"; keywords := DepartmentDetector.kw_PublicHealth;
       weight := of_Z 1 |};
    {| dept_name := "Education"; keywords := DepartmentDetector.kw_Education;
       weight := decimal 8 10 |};
    {| dept_name := "Transport"; keywords := DepartmentDetector.kw_Transport;
       weight := decimal 9 10 |};
    {| dept_name := "Revenue"; keywords := DepartmentDetector.kw_Revenue;
       weight := decimal 7 10 |};
    {| dept_name := "Agriculture"; keywords := DepartmentDetector.kw_Agriculture;
       weight := decimal 8 10 |} ].

(** A label, a localized object or a web entity: its text and its score. *)
Record Annotation := { a_text : string; a_score : double }.

(** What [analyzeImage] hands over. *)
Record VisionResults := {
  labels : list Annotation;
  objects : list Annotation;
  detectedText : string;
  webEntities : list Annotation;
  source : option string;
  directDepartment : option string;
  directReason : option string
}.

Inductive TermSource := FromLabel | FromObject | FromWeb.

Record Term := { term : string; score : double; term_source : TermSource }.

(** The value [mapToDepartment] returns. *)
Record DepartmentResult := {
  department : string;
  confidence : Rounded;
  detectedLabels : list string;
  matchedKeywords : option (list string);
  reason : string;
  allScores : option (list (string * double));
  result_source : option string
}.

(** [w.score || 0.5] *)
Definition web_score (x : double) : double := if truthy x then x else decimal 5 10.

Definition allTerms (v : VisionResults) : list Term :=
  List.map (fun l => {| term := a_text l; score := a_score l; term_source := FromLabel |})
           (labels v)
  ++ List.map (fun o => {| term := a_text o; score := a_score o; term_source := FromObject |})
              (objects v)
  ++ List.map (fun w => {| term := a_text w; score := web_score (a_score w);
                           term_source := FromWeb |})
              (webEntities v).

(** [item.source === 'label' ? 1.2 : item.source === 'object' ? 1.0 : 0.8] *)
Definition source_factor (s : TermSource) : double :=
  match s with
  | FromLabel => decimal 12 10
  | FromObject => of_Z 1
  | FromWeb => decimal 8 10
  end.

(** The running [scores[department]] and [matchedKeywords[department]]. *)
Definition Tally : Type := double * list string.

(** The loop over the keywords for one term. *)
Definition tally_term (config : DeptConfig) (t : Tally) (item : Term) : Tally :=
  fold_left
    (fun acc keyword =>
       if includes (term item) keyword || includes keyword (term item) then
         let contribution :=
           mul (mul (score item) (weight config)) (source_factor (term_source item)) in
         (add (fst acc) contribution, DepartmentDetector.push_new keyword keyword (snd acc))
       else acc)
    (keywords config) t.

(** The loop over the keywords for the text found on the image. *)
Definition tally_text (config : DeptConfig) (text : string) (t : Tally) : Tally :=
  fold_left
    (fun acc keyword =>
       if includes text keyword then
         (add (fst acc) (mul (decimal 5 10) (weight config)),
          DepartmentDetector.push_new keyword ("text:" ++ keyword) (snd acc))
       else acc)
    (keywords config) t.

(** The body of the loop over the departments. *)
Definition tally_department (v : VisionResults) (config : DeptConfig) : Tally :=
  let t := fold_left (tally_term config) (allTerms v) (zero, []) in
  if String.eqb (detectedText v) "" then t else tally_text config (detectedText v) t.

(** [Object.entries(scores)] with the matched keywords alongside. *)
Definition department_tallies (v : VisionResults) : list (string * Tally) :=
  List.map (fun config => (dept_name config, tally_department v config)) DEPARTMENT_KEYWORDS.

Definition scores (v : VisionResults) : list (string * double) :=
  List.map (fun e => (fst e, fst (snd e))) (department_tallies v).

Definition matched_for (v : VisionResults) (dept : string) : list string :=
  match List.find (fun e => String.eqb (fst e) dept) (department_tallies v) with
  | Some e => snd (snd e)
  | None => []
  end.

(** [(a, b) => b[1] - a[1]], as the sort reads it. With a [NaN] among the
    scores the comparator is not consistent and the order is up to the
    engine. *)
Definition by_score (a b : string * double) : Q := sign (sub (snd b) (snd a)).

(** [([, score]) => score > 0] *)
Definition positive (e : string * double) : bool := above_zero (snd e).

(** [sorted]: by score, highest first, positive scores only. *)
Definition sorted_scores (v : VisionResults) : list (string * double) :=
  List.filter positive (JsArray.sort by_score (scores v)).

Definition label_names (v : VisionResults) : list string :=
  List.map a_text (firstn 8 (labels v)).

Definition validDepts : list string :=
  List.map dept_name DEPARTMENT_KEYWORDS ++ ["General"].

(** [sorted.reduce((sum, [, s]) => sum + s, 0)] *)
Definition totalScore (l : list (string * double)) : double :=
  fold_left (fun sum e => add sum (snd e)) l zero.

(** The keyword-scoring path of [mapToDepartment]. *)
Definition score_path (v : VisionResults) : DepartmentResult :=
  match sorted_scores v with
  | [] =>
      {| department := "General";
         confidence := Integer 0;
         detectedLabels := label_names v;
         matchedKeywords := None;
         reason := "Could not match image to a specific department";
         allScores := Some (scores v);
         result_source := DepartmentDetector.or_default (source v) "keyword-mapping" |}
  | (topDept, topScore) :: _ =>
      let sorted := sorted_scores v in
      let total := totalScore sorted in
      let confidence :=
        if above_zero total
        then at_most 99 (Math_round (mul (div topScore total) (of_Z 100)))
        else Integer 0 in
      {| department := topDept;
         confidence := confidence;
         detectedLabels := label_names v;
         matchedKeywords := Some (matched_for v topDept);
         reason := "Detected: " ++ join ", " (firstn 5 (matched_for v topDept));
         allScores := Some (firstn 3 sorted);
         result_source := DepartmentDetector.or_default (source v) "keyword-mapping" |}
  end.

Definition mapToDepartment (v : VisionResults) : DepartmentResult :=
  let direct :=
    match directDepartment v, source v with
    | Some d, Some src =>
        if negb (String.eqb d "") && String.eqb src "openrouter-vision" then
          List.find (fun x => String.eqb (toLowerCase x) (toLowerCase d)) validDepts
        else None
    | _, _ => None
    end in
  match direct with
  | Some matched =>
      {| department := matched;
         confidence := Integer 85;
         detectedLabels := label_names v;
         matchedKeywords := Some [];
         reason := match directReason v with
                   | Some r => if String.eqb r "" then "AI vision detected: " ++ matched else r
                   | None => "AI vision detected: " ++ matched
                   end;
         allScores := None;
         result_source := source v |}
  | None => score_path v
  end.

(** *** The ranking in the words of the specification *)

(** The department of the enumeration that a direct guess names, letter
    case apart. *)
Definition guessed (d : string) : option string :=
  List.find (fun x => String.eqb (toLowerCase x) (toLowerCase d))
    ["Water Resources"; "Electricity"; "Roads & Highways"; "Sanitation"; "Public Health";
     "Education"; "Transport"; "Revenue"; "Agriculture"; "General"].

(** A list of scores runs from the highest to the lowest. *)
Definition descending (l : list (string * double)) : Prop :=
  StronglySorted (fun a b => (value (snd b) <= value (snd a))%Q) l.

End Detector64.

(** ** The complaint collection *)

Module Db.
Import Model Runtime.

(** [Complaint.findById(id)] *)
Definition findById (id : nat) : M (option Complaint) :=
  let* s := get in
  ret (List.find (fun c => (_id c =? id)%nat) (complaints s)).

(** [Complaint.countDocuments(query)] *)
Definition countDocuments (query : Complaint -> bool) : M nat :=
  let* s := get in
  ret (List.length (List.filter query (complaints s))).

(** [complaint.save()] for a document that was read from the collection:
    the stored document with its [_id] is replaced. *)
Definition save (c : Complaint) : M unit :=
  modify (fun s =>
    with_complaints
      (List.map (fun d => if (_id d =? _id c)%nat then c else d) (complaints s)) s).

(** The cast of the [Number] paths [location.latitude] and
    [location.longitude]: a [NaN] is refused. *)
Definition castable (l : option (JsString.Parsed * JsString.Parsed)) : bool :=
  match l with
  | Some (latitude, longitude) =>
      negb (JsString.is_NaN latitude) && negb (JsString.is_NaN longitude)
  | None => true
  end.

(** Schema validation of a new document: the required strings are present,
    the department belongs to the enum and the coordinates are numbers. *)
Definition valid (c : Complaint) : bool :=
  negb (String.eqb (ticketId c) "") && negb (String.eqb (userName c) "")
  && negb (String.eqb (userEmail c) "") && negb (String.eqb (area c) "")
  && negb (String.eqb (description c) "") && negb (String.eqb (photo c) "")
  && existsb (String.eqb (department c)) DEPARTMENT_ENUM
  && castable (location c).

(** The object id a new document gets: one that no stored document has. *)
Definition fresh_id (cs : list Complaint) : nat := S (list_max (List.map _id cs)).

(** [new Complaint(data).save()]: validation, the unique index on
    [ticketId], then the insertion at the end of the collection. *)
Definition insert (c : Complaint) : M unit :=
  let* s := get in
  if negb (valid c) then throw (plain_error "Complaint validation failed")
  else if existsb (fun d => String.eqb (ticketId d) (ticketId c)) (complaints s)
  then throw (plain_error "E11000 duplicate key error")
  else modify (with_complaints (complaints s ++ [c])).

End Db.

(** ** HTTP responses *)

Module Http.
Import Model.

(** The fields of the answer to a successful creation. *)
Record CreatedInfo := {
  r_message : string;
  r_ticketId : string;
  r_priority : Priority;
  r_isDuplicate : bool;
  r_aiRemarks : string;
  r_assignedTo : option string;
  r_department : string;
  r_address : string;
  r_area : string
}.

Inductive Body :=
| Message (message : string)
| FakeRejection (message : string) (aiRemarks : string)
| NeedsInput (message : string)
| Updated (message : string) (complaint : Complaint)
| Created (info : CreatedInfo)
| Rated (message : string) (rating : nat) (feedback : option string).

Record Response := { code : nat; body : Body }.

Definition json (code : nat) (body : Body) : Response := {| code := code; body := body |}.

End Http.

(** ** Dispatch balancer: [assignProviderForDepartment] *)

Module DispatchBalancer.
Import Model Runtime.

Definition is_active (s : Status) : bool :=
  match s with
  | Registered | Accepted | WorkingOn => true
  | _ => false
  end.

(** [User.find({ role: 'provider', department })] *)
Definition providers_of (department : string) (us : list User) : list User :=
  List.filter
    (fun u => String.eqb (u_role u) "provider"
              && match u_department u with
                 | Some d => String.eqb d department
                 | None => false
                 end)
    us.

(** The [$match] stage: assigned to one of the providers, status active. *)
Definition matches (ids : list nat) (c : Complaint) : bool :=
  match assignedTo c with
  | Some p => existsb (Nat.eqb p) ids && is_active (status c)
  | None => false
  end.

(** The [$group] stage: one entry per assignee with the number of documents. *)
Fixpoint count_in (groups : list (nat * nat)) (k : nat) : list (nat * nat) :=
  match groups with
  | [] => [(k, 1)]
  | (k', n) :: rest => if (k' =? k)%nat then (k', S n) :: rest else (k', n) :: count_in rest k
  end.

Definition assignee (c : Complaint) : nat :=
  match assignedTo c with
  | Some p => p
  | None => 0
  end.

Definition aggregate (ids : list nat) (cs : list Complaint) : list (nat * nat) :=
  fold_left count_in (List.map assignee (List.filter (matches ids) cs)) [].

(** [for (const item of loadAgg) loadMap[item._id.toString()] = item.activeCount] *)
Definition build_loadMap (loadAgg : list (nat * nat)) : gmap nat nat :=
  fold_left (fun m item => <[fst item := snd item]> m) loadAgg ∅.

(** [loadMap[p._id.toString()] || 0] *)
Definition activeCount_of (loadMap : gmap nat nat) (p : User) : nat :=
  match loadMap !! u_id p with
  | Some n => n
  | None => 0
  end.

Definition by_load (a b : User * nat) : Q :=
  inject_Z (Z.of_nat (snd a)) - inject_Z (Z.of_nat (snd b)).

Definition choose (providers : list User) (cs : list Complaint) : option User :=
  let loadAgg := aggregate (List.map u_id providers) cs in
  let loadMap := build_loadMap loadAgg in
  let providerLoads := List.map (fun p => (p, activeCount_of loadMap p)) providers in
  let sorted := JsArray.sort by_load providerLoads in
  let freeProvider := List.find (fun p => (snd p =? 0)%nat) sorted in
  let chosen := match freeProvider with
                | Some p => Some p
                | None => List.hd_error sorted
                end in
  option_map fst chosen.

(** Every path of the function writes one [LoadBalance] line to the
    console; it is kept as an event. *)
Definition assignProviderForDepartment (department : string) : M (option User) :=
  try_catch
    (let* s := get in
     let providers := providers_of department (users s) in
     if (List.length providers =? 0)%nat then
       let* _ := emit (Balanced department None) in
       ret None
     else
       let chosen := choose providers (complaints s) in
       let* _ := emit (Balanced department (option_map u_name chosen)) in
       ret chosen)
    (fun _ =>
       let* _ := emit (Balanced department None) in
       ret None).

(** The sort key of [providerLoads]. *)
Definition load_key (e : User * nat) : Q := inject_Z (Z.of_nat (snd e)).

(** The count a list of groups holds for a key, zero when it has none. *)
Fixpoint count_of (groups : list (nat * nat)) (k : nat) : nat :=
  match groups with
  | [] => 0
  | (k', n) :: rest => if (k' =? k)%nat then n else count_of rest k
  end.

(** The active load of a provider: the complaints assigned to them whose
    status is Registered, Accepted or Working On. *)
Definition active_load (cs : list Complaint) (provider : nat) : nat :=
  List.length
    (List.filter (fun c => opt_nat_eqb (assignedTo c) provider && is_active (status c)) cs).

(** *** The load of the specification *)



End DispatchBalancer.

(** ** Lifecycle state machine: the provider's status update *)

Module Lifecycle.
Import Model Runtime Http JsString.

Definition validTransitions (s : Status) : list Status :=
  match s with
  | Registered => [Accepted; Rejected]
  | Accepted => [WorkingOn; Rejected]
  | WorkingOn => [Completed]
  | Completed => []
  | Rejected => []
  end.

(** [allowed.includes(status)], with the allowed status that the requested
    string names. *)
Definition requested (allowed : list Status) (status : string) : option Status :=
  List.find (fun a => String.eqb (statusName a) status) allowed.

(** The message of a refused transition. *)
Definition refusal (current : Status) (status : string) (allowed : list Status) : string :=
  let names := join ", " (List.map statusName allowed) in
  "Cannot change status from " ++ dq ++ statusName current ++ dq ++ " to " ++ dq ++ status
  ++ dq ++ ". Allowed: " ++ (if String.eqb names "" then "none" else names).

Definition capacity_message : string :=
  "You already have an active complaint. Please complete it before accepting a new one.".

Definition holds_job (s : Status) : bool :=
  match s with
  | Accepted | WorkingOn => true
  | _ => false
  end.

(** The query of the capacity check: assigned to the provider, Accepted or
    Working On, and not the complaint at hand. *)
Definition other_active (provider : nat) (this : nat) (c : Complaint) : bool :=
  opt_nat_eqb (assignedTo c) provider && holds_job (status c) && negb (_id c =? this)%nat.

(** The assignments of the update and the new history entry. *)
Definition apply_update (user : ReqUser) (target : Status) (resolution : option string)
    (t : Z) (c : Complaint) : Complaint :=
  {| _id := _id c; ticketId := ticketId c; userId := userId c; userName := userName c;
     userEmail := userEmail c; area := area c; address := address c;
     department := department c; description := description c; photo := photo c;
     status := target;
     statusHistory :=
       statusHistory c ++
       [ {| ev_status := target; ev_timestamp := t; ev_updatedBy := Some (id user);
            ev_updatedByName := Some (name user);
            ev_note := or_else resolution ("Status updated to " ++ statusName target) |} ];
     priority := priority c;
     assignedTo := Some (id user);
     assignedToName := Some (name user);
     resolution := if truthy resolution then resolution else Model.resolution c;
     location := location c; rating := rating c; feedback := feedback c;
     isDuplicate := isDuplicate c; duplicateOf := duplicateOf c; isFake := isFake c;
     aiRemarks := aiRemarks c; createdAt := createdAt c; updatedAt := t |}.

(** The tail of the handler: the update, the save, the notification. *)
Definition commit_update (user : ReqUser) (target : Status) (resolution : option string)
    (complaint : Complaint) : M Response :=
  let* t := Date_now in
  let updated := apply_update user target resolution t complaint in
  let* _ := Db.save updated in
  let* _ := emit (Mail (userEmail updated) (ticketId updated)) in
  ret (json 200 (Updated "Complaint updated" updated)).

(** [PUT /complaints/:id] of the provider routes, behind [auth(['provider'])]. *)
Definition updateStatus (user : ReqUser) (complaintId : nat) (status : string)
    (resolution : option string) : M Response :=
  try_catch
    (let* found := Db.findById complaintId in
     match found with
     | None => ret (json 404 (Message "Complaint not found"))
     | Some complaint =>
         if negb match req_department user with
                 | Some d => String.eqb (department complaint) d
                 | None => false
                 end
         then ret (json 403 (Message "Not authorized for this department"))
         else
           let allowed := validTransitions (Model.status complaint) in
           match requested allowed status with
           | None => ret (json 400 (Message (refusal (Model.status complaint) status allowed)))
           | Some target =>
               if status_eqb target Accepted then
                 let* activeCount :=
                   Db.countDocuments (other_active (id user) (_id complaint)) in
                 if (0 <? activeCount)%nat
                 then ret (json 400 (Message capacity_message))
                 else commit_update user target resolution complaint
               else commit_update user target resolution complaint
           end
     end)
    (fun _ => ret (json 500 (Message "Server error"))).

(** The state after an accepted update: the document replaced, the
    notification handed over. *)
Definition updated_state (updated : Complaint) (s : State) : State :=
  with_log (log s ++ [Mail (userEmail updated) (ticketId updated)])
    (with_complaints
       (List.map (fun d => if (_id d =? _id updated)%nat then updated else d) (complaints s)) s).

(** *** The table of the specification *)

Definition spec_table : list (Status * Status) :=
  [(Registered, Accepted); (Registered, Rejected); (Accepted, WorkingOn);
   (Accepted, Rejected); (WorkingOn, Completed)].

(** The request is for a transition of the table. *)
Definition in_table (current : Status) (status : string) : Prop :=
  exists target, In (current, target) spec_table /\ statusName target = status.

(** The handler accepted the update: it answers 200 with the complaint. *)
Definition accepted (out : Outcome Response * State) : Prop :=
  exists c, fst out = Val (json 200 (Updated "Complaint updated" c)).

(** Number of complaints in Accepted or Working On that a provider holds. *)
Definition jobs_held (cs : list Complaint) (provider : nat) : nat :=
  List.length
    (List.filter (fun c => opt_nat_eqb (assignedTo c) provider && holds_job (Model.status c)) cs).

(** Capacity one: no provider holds two complaints in Accepted or Working On. *)
Definition capacity_respected (cs : list Complaint) : Prop :=
  forall provider, (jobs_held cs provider <= 1)%nat.

(** *** The capacity rule of the specification *)

(** A provider holds a complaint: it is assigned to the provider and it is
    in Accepted or in Working On. *)
Definition holds (provider : nat) (c : Complaint) : Prop :=
  assignedTo c = Some provider
  /\ (Model.status c = Accepted \/ Model.status c = WorkingOn).

(** At most one complaint each: two complaints of the collection that one
    provider holds are the same document. *)
Definition one_job_each (cs : list Complaint) : Prop :=
  forall provider c d,
    In c cs -> In d cs -> holds provider c -> holds provider d -> _id c = _id d.

End Lifecycle.

(** ** Complaint routes: creation and rating *)

Module Complaints.
Import Model Runtime Http JsString.

(** The body of a creation request; an absent or empty field is falsy. *)
Record CreateBody := {
  b_area : option string;
  b_department : option string;
  b_description : option string;
  b_photo : option string;
  b_latitude : option string;
  b_longitude : option string;
  b_address : option string
}.

(** What the surroundings contribute to one creation: the reverse geocoder's
    answer, the image analysis, the decoding of the remote verdict, and the
    value of [Math.floor(Math.random() * 1000)]. The image analysis is
    consulted only for a request that names no department; the requests it
    sends on its own (to the vision service and, when that fails, to two
    vision models) are not events of the log, which records the requests of
    [callAI]. *)
Record CreateEnv := {
  geo_address : string;
  geo_area : string;
  vision : Detector64.VisionResults;
  decode : string -> option IntegrityFilter.Verdict;
  random : nat
}.

(** [s.slice(-n)] *)
Definition slice_last (n : nat) (s : string) : string :=
  String.substring (String.length s - n) n s.

(** [s.padStart(3, '0')] *)
Definition padStart3 (s : string) : string :=
  match String.length s with
  | 0 => "000" ++ s
  | 1 => "00" ++ s
  | 2 => "0" ++ s
  | _ => s
  end.

Definition make_ticketId (t : Z) (random : nat) : string :=
  "TNSMP" ++ "-" ++ slice_last 6 (string_of_Z t) ++ "-" ++ padStart3 (string_of_nat random).

(** [Complaint.find({ department, status: { $ne: 'Rejected' } })
      .select('ticketId description area status').limit(20)] *)
Definition existing_for (department : string) (cs : list Complaint)
  : list IntegrityFilter.Candidate :=
  List.map
    (fun c => {| IntegrityFilter.c_ticketId := ticketId c;
                 IntegrityFilter.c_description := description c;
                 IntegrityFilter.c_area := area c;
                 IntegrityFilter.c_status := status c |})
    (firstn 20
       (List.filter
          (fun c => String.eqb (Model.department c) department
                    && negb (status_eqb (status c) Rejected))
          cs)).

Definition default_verdict : IntegrityFilter.Verdict :=
  {| IntegrityFilter.v_isDuplicate := false; IntegrityFilter.v_duplicateOf := None;
     IntegrityFilter.v_isFake := false; IntegrityFilter.v_remarks := "" |}.

(** [`${x}`] for a ticket reference that may be [null]. *)
Definition show_ref (o : option string) : string :=
  match o with
  | Some s => s
  | None => "null"
  end.

(** The fields of a request once the handler has filled in what was left
    out: the geocoder's address and area, the area "Unknown", the department
    the image analysis finds. *)
Record Intake := {
  in_description : string;
  in_photo : string;
  in_area : string;
  in_address : option string;
  in_department : string;
  in_location : option (Parsed * Parsed)
}.

Definition intake (body : CreateBody) (env : CreateEnv) : Intake :=
  let located := truthy (b_latitude body) && truthy (b_longitude body) in
  let address :=
    if located && negb (truthy (b_address body)) && negb (String.eqb (geo_address env) "")
    then Some (geo_address env) else b_address body in
  let area :=
    if located && negb (truthy (b_area body)) && negb (String.eqb (geo_area env) "")
    then Some (geo_area env) else b_area body in
  let department :=
    if truthy (b_department body) then or_else (b_department body) ""
    else Detector64.department (Detector64.mapToDepartment (vision env)) in
  {| in_description := or_else (b_description body) "";
     in_photo := or_else (b_photo body) "";
     in_area := or_else area "Unknown";
     in_address := address;
     in_department := department;
     in_location := if located
                    then Some (parseFloat (or_else (b_latitude body) ""),
                               parseFloat (or_else (b_longitude body) ""))
                    else None |}.


(** The duplicate and fake detection of the handler, with its fallback. *)
Definition integrity_check (env : CreateEnv) (i : Intake) : M IntegrityFilter.Verdict :=
  try_catch
    (let* s := get in
     let existingComplaints := existing_for (in_department i) (complaints s) in
     IntegrityFilter.detectDuplicateOrFake (decode env) (in_description i) (in_department i)
       (in_area i) existingComplaints)
    (fun _ => ret default_verdict).

(** The initial entry of the status history. *)
Definition initial_event (isRejected : bool) (duplicateOf : option string) (t : Z)
  : StatusEvent :=
  {| ev_status := if isRejected then Rejected else Registered;
     ev_timestamp := t;
     ev_updatedBy := None;
     ev_updatedByName := Some "System";
     ev_note := if isRejected
                then "Flagged as duplicate of " ++ show_ref duplicateOf
                else "Complaint registered successfully" |}.

(** The document the handler builds. *)
Definition new_complaint (user : ReqUser) (i : Intake)
    (duplicateCheck : IntegrityFilter.Verdict) (priority : Priority) (ticketId : string)
    (assignedProvider : option User) (t : Z) (oid : nat) : Complaint :=
  let isRejected := IntegrityFilter.v_isDuplicate duplicateCheck in
  {| _id := oid;
     ticketId := ticketId;
     userId := id user;
     userName := or_else (Some (name user)) "Unknown";
     userEmail := or_else (Some (email user)) "unknown@email.com";
     area := in_area i;
     address := or_else (in_address i) "";
     department := in_department i;
     description := in_description i;
     photo := in_photo i;
     status := if isRejected then Rejected else Registered;
     statusHistory :=
       [initial_event isRejected (IntegrityFilter.v_duplicateOf duplicateCheck) t];
     priority := priority;
     assignedTo := option_map u_id assignedProvider;
     assignedToName := option_map u_name assignedProvider;
     resolution := None;
     location := in_location i;
     rating := None;
     feedback := None;
     isDuplicate := IntegrityFilter.v_isDuplicate duplicateCheck;
     duplicateOf := IntegrityFilter.v_duplicateOf duplicateCheck;
     isFake := false;
     aiRemarks := IntegrityFilter.v_remarks duplicateCheck;
     createdAt := t;
     updatedAt := t |}.

(** The handler after the fake check: priority, ticket id, assignment, the
    save, the notification and the answer. *)
Definition register (user : ReqUser) (env : CreateEnv) (i : Intake)
    (duplicateCheck : IntegrityFilter.Verdict) : M Response :=
  let* priority :=
    try_catch (PriorityAssigner.prioritizeComplaint (in_description i) (in_department i))
              (fun _ => ret Medium) in
  let* t := Date_now in
  let ticketId := make_ticketId t (random env) in
  let isRejected := IntegrityFilter.v_isDuplicate duplicateCheck in
  let* assignedProvider :=
    if negb isRejected then DispatchBalancer.assignProviderForDepartment (in_department i)
    else ret None in
  let* s := get in
  let complaint :=
    new_complaint user i duplicateCheck priority ticketId assignedProvider t
                  (Db.fresh_id (complaints s)) in
  let* _ := Db.insert complaint in
  let* _ :=
    match assignedProvider with
    | Some p => emit (Mail (u_email p) ticketId)
    | None => ret tt
    end in
  ret (json 201
         (Created
            {| r_message :=
                 if IntegrityFilter.v_isDuplicate duplicateCheck
                 then "Complaint flagged as potential duplicate of "
                      ++ show_ref (IntegrityFilter.v_duplicateOf duplicateCheck)
                 else "Complaint registered successfully";
               r_ticketId := Model.ticketId complaint;
               r_priority := Model.priority complaint;
               r_isDuplicate := Model.isDuplicate complaint;
               r_aiRemarks := Model.aiRemarks complaint;
               r_assignedTo := option_map u_name assignedProvider;
               r_department := Model.department complaint;
               r_address := Model.address complaint;
               r_area := Model.area complaint |})).



(** The state after a successful save of a new document and the
    notification of its provider. *)
Definition saved_state (c : Complaint) (assignedProvider : option User) (s : State) : State :=
  let s' := with_complaints (complaints s ++ [c]) s in
  match assignedProvider with
  | Some p => with_log (log s' ++ [Mail (u_email p) (ticketId c)]) s'
  | None => s'
  end.

(** The store takes the document: it passes validation and its ticket id
    is not in use. *)
Definition storable (c : Complaint) (cs : list Complaint) : bool :=
  Db.valid c && negb (existsb (fun d => String.eqb (ticketId d) (ticketId c)) cs).

(** The body of the answer to a successful creation. *)
Definition created_body (c : Complaint) (v : IntegrityFilter.Verdict)
    (assignedProvider : option User) : Body :=
  Created
    {| r_message :=
         if IntegrityFilter.v_isDuplicate v
         then "Complaint flagged as potential duplicate of "
              ++ show_ref (IntegrityFilter.v_duplicateOf v)
         else "Complaint registered successfully";
       r_ticketId := Model.ticketId c;
       r_priority := Model.priority c;
       r_isDuplicate := Model.isDuplicate c;
       r_aiRemarks := Model.aiRemarks c;
       r_assignedTo := option_map u_name assignedProvider;
       r_department := Model.department c;
       r_address := Model.address c;
       r_area := Model.area c |}.

(** The answer to a submission that the integrity filter calls fake. *)
Definition fake_rejection (v : IntegrityFilter.Verdict) : Response :=
  json 400
    (FakeRejection
       ("This complaint appears to be invalid or fake. AI Remarks: "
        ++ IntegrityFilter.v_remarks v)
       (IntegrityFilter.v_remarks v)).

(** The run of the dispatch balancer inside the handler: skipped for a
    duplicate. *)
Definition dispatch (v : IntegrityFilter.Verdict) (department : string) : M (option User) :=
  if negb (IntegrityFilter.v_isDuplicate v)
  then DispatchBalancer.assignProviderForDepartment department
  else ret None.

(** [POST /] of the complaint routes, behind [auth(['user'])]. *)
Definition create (user : ReqUser) (body : CreateBody) (env : CreateEnv) : M Response :=
  try_catch
    (if negb (truthy (b_photo body))
     then ret (json 400 (NeedsInput "Photo is required. Please take a live photo."))
     else if negb (truthy (b_description body))
     then ret (json 400 (NeedsInput "Description is required."))
     else
       let i := intake body env in
       let* duplicateCheck := integrity_check env i in
       if IntegrityFilter.v_isFake duplicateCheck then
         ret (json 400
                (FakeRejection
                   ("This complaint appears to be invalid or fake. AI Remarks: "
                    ++ IntegrityFilter.v_remarks duplicateCheck)
                   (IntegrityFilter.v_remarks duplicateCheck)))
       else register user env i duplicateCheck)
    (fun error =>
       ret (json 500 (Message ("Server error creating complaint: " ++ err_message error)))).

(** The assignments of a rating. *)
Definition apply_rating (rating : nat) (feedback : option string) (t : Z) (c : Complaint)
  : Complaint :=
  {| _id := _id c; ticketId := ticketId c; userId := userId c; userName := userName c;
     userEmail := userEmail c; area := area c; address := address c;
     department := department c; description := description c; photo := photo c;
     status := status c; statusHistory := statusHistory c; priority := priority c;
     assignedTo := assignedTo c; assignedToName := assignedToName c;
     resolution := resolution c; location := location c;
     rating := Some rating;
     feedback := Some (or_else feedback "");
     isDuplicate := isDuplicate c; duplicateOf := duplicateOf c; isFake := isFake c;
     aiRemarks := aiRemarks c; createdAt := createdAt c; updatedAt := t |}.

(** [PUT /:id/rate] of the complaint routes, behind [auth(['user'])]. *)
Definition rate (user : ReqUser) (complaintId : nat) (rating : nat) (feedback : option string)
  : M Response :=
  try_catch
    (if (rating =? 0)%nat || (rating <? 1)%nat || (5 <? rating)%nat
     then ret (json 400 (Message "Rating must be between 1 and 5"))
     else
       let* found := Db.findById complaintId in
       match found with
       | None => ret (json 404 (Message "Complaint not found"))
       | Some complaint =>
           if negb (userId complaint =? id user)%nat
           then ret (json 403 (Message "You can only rate your own complaints"))
           else if negb (status_eqb (status complaint) Completed)
           then ret (json 400 (Message "Can only rate completed complaints"))
           else match Model.rating complaint with
                | Some (S _) => ret (json 400 (Message "You have already rated this complaint"))
                | _ =>
                    let* t := Date_now in
                    let* _ := Db.save (apply_rating rating feedback t complaint) in
                    ret (json 200 (Rated "Thank you for your feedback!" rating feedback))
                end
       end)
    (fun _ => ret (json 500 (Message "Server error"))).

End Complaints.

(** ** Management routes that change the provider pool *)

Module Management.
Import Model Runtime Http.

Definition fresh_user_id (us : list User) : nat := S (list_max (List.map u_id us)).

(** [POST /providers]: a new provider unless the e-mail address is taken. A
    field the body does not carry is [None]. [bcrypt.hash] throws without a
    password, and [save()] refuses a document without a name or an e-mail
    address (both required by the schema). [delivered] says whether the
    mail with the credentials went out. *)
Definition createProvider (name : option string) (email : string)
    (department password : option string) (delivered : bool) : M Response :=
  try_catch
    (let* s := get in
     if existsb (fun u => String.eqb (u_email u) email) (users s)
     then ret (json 400 (Message "User with this email already exists"))
     else
       match password with
       | None => throw (plain_error "Illegal arguments: undefined, number")
       | Some _ =>
           if negb (truthy name) || String.eqb email ""
           then throw (plain_error "User validation failed")
           else
             let provider :=
               {| u_id := fresh_user_id (users s); u_name := or_else name "";
                  u_email := email; u_role := "provider"; u_department := department |} in
             let* _ := modify (with_users (users s ++ [provider])) in
             let* _ := emit (Mail email "") in
             ret (json 201
                    (Message
                       (if delivered
                        then "Service provider created successfully. Login credentials sent to their email."
                        else "Service provider created successfully, but failed to send credentials email. Please share the credentials manually.")))
       end)
    (fun _ => ret (json 500 (Message "Server error"))).

(** [DELETE /providers/:id] *)
Definition deleteProvider (userId : nat) : M Response :=
  try_catch
    (let* s := get in
     let* _ := modify (with_users (List.filter (fun u => negb (u_id u =? userId)%nat) (users s))) in
     ret (json 200 (Message "Provider removed")))
    (fun _ => ret (json 500 (Message "Server error"))).

End Management.

(** ** The engine as a transition system *)

Module Engine.
Import Model Runtime.

(** The requests that write to the collections, and the passing of time
    between two requests. *)
Inductive Op :=
| Create (user : ReqUser) (body : Complaints.CreateBody) (env : Complaints.CreateEnv)
| UpdateStatus (user : ReqUser) (complaintId : nat) (status : string) (resolution : option string)
| Rate (user : ReqUser) (complaintId : nat) (rating : nat) (feedback : option string)
| CreateProvider (name : option string) (email : string) (department password : option string)
                 (delivered : bool)
| DeleteProvider (userId : nat)
| Wait (ms : Z).

Definition handle (op : Op) : M unit :=
  match op with
  | Create user body env => let* _ := Complaints.create user body env in ret tt
  | UpdateStatus user i status resolution =>
      let* _ := Lifecycle.updateStatus user i status resolution in ret tt
  | Rate user i rating feedback => let* _ := Complaints.rate user i rating feedback in ret tt
  | CreateProvider n e d p m => let* _ := Management.createProvider n e d p m in ret tt
  | DeleteProvider i => let* _ := Management.deleteProvider i in ret tt
  | Wait ms => advance (Z.max 0 ms)
  end.

Definition step (op : Op) (s : State) : State := snd (handle op s).

(** A fresh process: empty collections, no cooldown, nothing logged. *)
Definition initial (s : State) : Prop :=
  complaints s = [] /\ users s = [] /\ cloudDisabledUntil s = 0%Z /\ log s = [].

Inductive reachable : State -> Prop :=
| reach_initial s : initial s -> reachable s
| reach_step s op : reachable s -> reachable (step op s).

(** No stored complaint is flagged fake. *)
Definition all_genuine (cs : list Complaint) : Prop :=
  forall c, In c cs -> isFake c = false.

End Engine.

(** ** Sample data *)

Module Samples.
Import Model Runtime.

(** A complaint of the Electricity department with the given id, status and
    assignee. *)
Definition complaint_of (oid : nat) (st : Status) (assignee : option nat) : Complaint :=
  {| _id := oid;
     ticketId := "TNSMP-000000-00" ++ JsString.string_of_nat oid;
     userId := 100;
     userName := "Citizen";
     userEmail := "citizen@example.org";
     area := "Chennai";
     address := "";
     department := "Electricity";
     description := "street light not working near the main road junction";
     photo := "data:image/jpeg;base64,AAAA";
     status := st;
     statusHistory :=
       [ {| ev_status := st; ev_timestamp := 0; ev_updatedBy := None;
            ev_updatedByName := Some "System";
            ev_note := "Complaint registered successfully" |} ];
     priority := Medium;
     assignedTo := assignee;
     assignedToName := option_map (fun _ => "Provider") assignee;
     resolution := None;
     location := None;
     rating := None;
     feedback := None;
     isDuplicate := false;
     duplicateOf := None;
     isFake := false;
     aiRemarks := "Complaint appears valid and unique";
     createdAt := 0;
     updatedAt := 0 |}.

(** A remote model that is down: every request fails with status 503 after
    ten milliseconds. *)
Definition remote_down (n : nat) : Answer :=
  {| reply := Reject {| err_status := 503; err_code := 0; err_message := "unavailable" |};
     latency := 10 |}.

Definition state_of (cs : list Complaint) (us : list User) : State :=
  {| complaints := cs; users := us; cloudDisabledUntil := 0; now := 1000000;
     log := []; remote := remote_down |}.

(** A provider of the Electricity department, as a user document and as the
    identity of a request. *)
Definition provider_doc (uid : nat) : User :=
  {| u_id := uid; u_name := "Provider"; u_email := "provider@example.org";
     u_role := "provider"; u_department := Some "Electricity" |}.

Definition provider_req (uid : nat) : ReqUser :=
  {| id := uid; name := "Provider"; email := "provider@example.org";
     req_department := Some "Electricity" |}.

(** Provider 7 is working on complaint 1; complaint 2 waits in Registered. *)
Definition busy_state : State :=
  state_of [complaint_of 1 Accepted (Some 7); complaint_of 2 Registered (Some 7)]
           [provider_doc 7].

(** The same collection with a second, idle provider. *)
Definition two_providers : State :=
  state_of [complaint_of 1 Accepted (Some 7); complaint_of 2 Registered (Some 7)]
           [provider_doc 7; provider_doc 8].

(** A complaint about a leaking pipe in Chennai, filed with the Water
    Resources department, and the candidate the duplicate check reads. *)
Definition leak : Complaint :=
  {| _id := 1;
     ticketId := "TNSMP-000001-001";
     userId := 100;
     userName := "Citizen";
     userEmail := "citizen@example.org";
     area := "Chennai";
     address := "";
     department := "Water Resources";
     description := "water pipe leaking near main road causing flooding";
     photo := "data:image/jpeg;base64,AAAA";
     status := Registered;
     statusHistory :=
       [ {| ev_status := Registered; ev_timestamp := 0; ev_updatedBy := None;
            ev_updatedByName := Some "System";
            ev_note := "Complaint registered successfully" |} ];
     priority := High;
     assignedTo := None;
     assignedToName := None;
     resolution := None;
     location := None;
     rating := None;
     feedback := None;
     isDuplicate := false;
     duplicateOf := None;
     isFake := false;
     aiRemarks := "Complaint appears valid and unique";
     createdAt := 0;
     updatedAt := 0 |}.

Definition leak_candidate : IntegrityFilter.Candidate :=
  {| IntegrityFilter.c_ticketId := "TNSMP-000001-001";
     IntegrityFilter.c_description := "water pipe leaking near main road causing flooding";
     IntegrityFilter.c_area := "Chennai";
     IntegrityFilter.c_status := Registered |}.

(** A second report of the same leak. *)
Definition leak_again : string :=
  "water pipe leaking near the main road causing flooding daily".

Definition citizen : ReqUser :=
  {| id := 100; name := "Citizen"; email := "citizen@example.org"; req_department := None |}.

Definition leak_again_body : Complaints.CreateBody :=
  {| Complaints.b_area := Some "Chennai";
     Complaints.b_department := Some "Water Resources";
     Complaints.b_description := Some leak_again;
     Complaints.b_photo := Some "data:image/jpeg;base64,BBBB";
     Complaints.b_latitude := None;
     Complaints.b_longitude := None;
     Complaints.b_address := None |}.

Definition no_vision : Detector64.VisionResults :=
  {| Detector64.labels := []; Detector64.objects := [];
     Detector64.detectedText := ""; Detector64.webEntities := [];
     Detector64.source := Some "none";
     Detector64.directDepartment := None;
     Detector64.directReason := None |}.

Definition plain_env : Complaints.CreateEnv :=
  {| Complaints.geo_address := ""; Complaints.geo_area := "";
     Complaints.vision := no_vision;
     Complaints.decode := fun _ => None;
     Complaints.random := 7 |}.

Definition leak_state : State := state_of [leak] [].


End Samples.

(** ** What a run costs: requests, waits and time *)

Module Traffic.
Import Model Runtime Gateway.

Definition is_sleep (e : Event) : bool :=
  match e with
  | Sleep _ => true
  | _ => false
  end.

(** Number of [setTimeout] waits so far. *)
Definition waits (s : State) : nat := List.length (List.filter is_sleep (log s)).

(** The time the answers to the requests number [k], ..., [k + r - 1] take. *)
Fixpoint latencies (remote : nat -> Answer) (k r : nat) : Z :=
  match r with
  | O => 0
  | S r' => latency (remote k) + latencies remote (S k) r'
  end.

(** From [s] to [s'] the process sent [r] requests and waited [w] times,
    and did nothing else: the collections are the same, and the clock moved
    by the latencies of these requests and by the retry delays. *)
Definition spent (s s' : State) (r w : nat) : Prop :=
  complaints s' = complaints s /\ users s' = users s /\ remote s' = remote s
  /\ requests_sent s' = (requests_sent s + r)%nat
  /\ waits s' = (waits s + w)%nat
  /\ now s' = (now s + latencies (remote s) (requests_sent s) r
               + RETRY_DELAY_MS * Z.of_nat w)%Z.

End Traffic.

(** ** Runs of the engine and what an audit of the collection checks *)

Module Audit.
Import Model Runtime.

(** The engine after a sequence of requests. *)
Fixpoint run (ops : list Engine.Op) (s : State) : State :=
  match ops with
  | [] => s
  | op :: rest => run rest (Engine.step op s)
  end.

(** Completed and Rejected: the statuses without a way out in
    [validTransitions]. *)
Definition final (s : Status) : bool :=
  match s with
  | Completed | Rejected => true
  | _ => false
  end.

(** Every entry of a history continues the one before it along
    [validTransitions]. *)
Fixpoint lawful (from : Status) (h : list StatusEvent) : bool :=
  match h with
  | [] => true
  | e :: h' =>
      existsb (status_eqb (ev_status e)) (Lifecycle.validTransitions from)
      && lawful (ev_status e) h'
  end.

(** The status history of a complaint is a timeline: it starts with the
    entry the system wrote at creation (Registered or Rejected), every
    later entry is a transition of [validTransitions] from the entry before
    it, and the last entry carries the current status. *)
Definition timeline (c : Complaint) : Prop :=
  match statusHistory c with
  | [] => False
  | first :: rest =>
      (ev_status first = Registered \/ ev_status first = Rejected)
      /\ ev_updatedByName first = Some "System"
      /\ lawful (ev_status first) rest = true
      /\ ev_status (List.last rest first) = status c
  end.

(** A rating is a number from 1 to 5 on a completed complaint. *)
Definition rating_ok (c : Complaint) : Prop :=
  forall r, rating c = Some r -> (1 <= r <= 5)%nat /\ status c = Completed.

(** The stored documents pass the validation of the schema, and no two of
    them share a ticket id. *)
Definition schema_ok (cs : list Complaint) : Prop :=
  (forall c, In c cs -> Db.valid c = true) /\ List.NoDup (List.map ticketId cs).

(** The document with a given object id. *)
Definition document (cs : list Complaint) (oid : nat) : option Complaint :=
  List.find (fun d => (_id d =? oid)%nat) cs.

End Audit.

(** ** Reverse geocoding: [reverseGeocode] *)

Module Geocoder.
Import Model JsString.

(** The districts the handler looks for, in the order of the table. *)
Definition tamilNaduAreas : list string :=
  [ "Chennai"; "Coimbatore"; "Madurai"; "Tiruchirappalli"; "Salem"
  ; "Tirunelveli"; "Erode"; "Vellore"; "Thoothukudi"; "Dindigul"
  ; "Thanjavur"; "Ranipet"; "Sivaganga"; "Karur"; "Namakkal"
  ; "Tiruppur"; "Cuddalore"; "Kanchipuram"; "Tiruvannamalai"; "Villupuram"
  ; "Nagapattinam"; "Ramanathapuram"; "Virudhunagar"; "Krishnagiri"; "Dharmapuri"
  ; "Perambalur"; "Ariyalur"; "Nilgiris"; "Pudukkottai"; "Theni"
  ; "Kanyakumari"; "Kallakurichi"; "Chengalpattu"; "Tiruvallur"; "Tenkasi"
  ; "Tirupattur"; "Mayiladuthurai" ].

(** One entry of [address_components]; [long_name] is absent when the
    answer does not carry a string there. *)
Record Component := { long_name : option string }.

(** One entry of [results]. *)
Record GeoResult := {
  formatted_address : option string;
  address_components : option (list Component)
}.

(** The parsed body of the geocoding answer. *)
Record GeoData := {
  geo_status : option string;
  results : option (list GeoResult)
}.

(** What [fetch(url)] followed by [res.json()] comes to: a body, or a
    rejection of one of the two promises (also: a body that is no object,
    on which reading [status] throws). *)
Inductive Fetched :=
| Body (data : GeoData)
| Failed.

(** The value [reverseGeocode] returns. *)
Record Place := { address : string; area : string }.

Definition nowhere : Place := {| address := ""; area := "" |}.

(** [tamilNaduAreas.find(a => text.toLowerCase().includes(a.toLowerCase()))] *)
Definition find_area (text : string) : option string :=
  List.find (fun a => includes (toLowerCase text) (toLowerCase a)) tamilNaduAreas.

(** How the loop over the address components ends: with a district, without
    one, or with the [TypeError] of [name.toLowerCase()] on a missing name. *)
Inductive Scan :=
| Found (district : string)
| NotFound
| Thrown.

Fixpoint scan (components : list Component) : Scan :=
  match components with
  | [] => NotFound
  | component :: rest =>
      match long_name component with
      | None => Thrown
      | Some name =>
          match find_area name with
          | Some district => Found district
          | None => scan rest
          end
      end
  end.

(** [data.status !== 'OK' || !data.results?.length] does not hold: the
    first result. *)
Definition first_result (data : GeoData) : option GeoResult :=
  match geo_status data, results data with
  | Some st, Some (first :: _) => if String.eqb st "OK" then Some first else None
  | _, _ => None
  end.

(** The part of [reverseGeocode] that reads the first result. *)
Definition locate (first : GeoResult) : Place :=
  let fullAddress := or_else (formatted_address first) "" in
  match scan (match address_components first with
              | Some components => components
              | None => []
              end) with
  | Thrown => nowhere
  | Found district => {| address := fullAddress; area := district |}
  | NotFound =>
      {| address := fullAddress;
         area := match find_area fullAddress with
                 | Some district => district
                 | None => ""
                 end |}
  end.

(** [reverseGeocode(latitude, longitude)]. The coordinates only travel in
    the URL of the request; [apiKey] is [process.env.GOOGLE_MAPS_API_KEY]. *)
Definition reverseGeocode (apiKey : option string) (fetched : Fetched) : Place :=
  if negb (truthy apiKey) then nowhere
  else
    match fetched with
    | Failed => nowhere
    | Body data =>
        match first_result data with
        | None => nowhere
        | Some first => locate first
        end
    end.

(** The names of the address components. *)
Definition component_names (first : GeoResult) : list string :=
  match address_components first with
  | Some components =>
      List.flat_map (fun c => match long_name c with Some n => [n] | None => [] end) components
  | None => []
  end.

(** [text] mentions [district], letter case apart. *)
Definition mentions (text district : string) : bool :=
  includes (toLowerCase text) (toLowerCase district).

End Geocoder.

(** ** The provider's views: the list of complaints and the statistics *)

Module ProviderViews.
Import Model Runtime JsString.
Local Open Scope Q_scope.

(** [priorityOrder] *)
Definition priorityOrder (p : Priority) : Q :=
  match p with
  | Critical => 0
  | High => 1
  | Medium => 2
  | Low => 3
  end.

(** The filter of [GET /complaints]: the provider's department, and
    assigned to the provider or to nobody. *)
Definition visible (department : string) (provider : nat) (c : Complaint) : bool :=
  String.eqb (Model.department c) department
  && match assignedTo c with
     | Some p => (p =? provider)%nat
     | None => true
     end.

(** [.sort({ priority: 1, createdAt: -1 })]: the store orders by the
    priority as a string, ascending, and then by the creation time,
    newest first; [a] may come before [b]. *)
Definition stored_before (a b : Complaint) : Prop :=
  match String.compare (priorityName (priority a)) (priorityName (priority b)) with
  | Lt => True
  | Eq => (createdAt b <= createdAt a)%Z
  | Gt => False
  end.

(** What the query may answer: the visible documents, in an order that its
    sort allows (documents equal in both keys come in any order). *)
Definition query_answer (department : string) (provider : nat) (cs found : list Complaint)
  : Prop :=
  Permutation (List.filter (visible department provider) cs) found
  /\ StronglySorted stored_before found.

(** [complaints.sort((a, b) => priorityOrder[a.priority] - priorityOrder[b.priority])]:
    what [GET /complaints] sends. *)
Definition listing (found : list Complaint) : list Complaint :=
  JsArray.sort (fun a b => priorityOrder (priority a) - priorityOrder (priority b)) found.

(** The order of the answer: by priority from Critical to Low, and newest
    first within one priority. *)
Definition listed_before (a b : Complaint) : Prop :=
  (PriorityAssigner.precedence (priority a) < PriorityAssigner.precedence (priority b))%nat
  \/ (priority a = priority b /\ (createdAt b <= createdAt a)%Z).

(** *** [GET /stats] *)

(** One group of the first aggregation: a status, the number of documents
    and the number of Critical ones among them. *)
Record StatusGroup := { g_status : Status; g_count : nat; g_criticalCount : nat }.

(** [{ $cond: [{ $eq: ['$priority', 'Critical'] }, 1, 0] }] *)
Definition critical_bit (c : Complaint) : nat :=
  match priority c with
  | Critical => 1
  | _ => 0
  end.

(** The [$group] stage by status: a document joins the group of its status
    or opens a new one. *)
Fixpoint group_in (groups : list StatusGroup) (c : Complaint) : list StatusGroup :=
  match groups with
  | [] => [ {| g_status := status c; g_count := 1; g_criticalCount := critical_bit c |} ]
  | g :: rest =>
      if status_eqb (g_status g) (status c)
      then {| g_status := g_status g; g_count := S (g_count g);
              g_criticalCount := g_criticalCount g + critical_bit c |} :: rest
      else g :: group_in rest c
  end.

Definition status_groups (cs : list Complaint) : list StatusGroup := fold_left group_in cs [].

(** [{ $match: { department } }] *)
Definition of_department (department : string) (cs : list Complaint) : list Complaint :=
  List.filter (fun c => String.eqb (Model.department c) department) cs.

(** The ratings that are there ([$exists: true, $ne: null]). *)
Definition ratings_of (cs : list Complaint) : list nat :=
  List.flat_map (fun c => match rating c with Some r => [r] | None => [] end) cs.

Definition sum (l : list nat) : nat := fold_right Nat.add 0%nat l.

(** The group of the second aggregation; there is none when no document is
    rated. *)
Record RatingGroup := { avgRating : Q; totalRated : nat }.

Definition rating_groups (cs : list Complaint) : list RatingGroup :=
  match ratings_of cs with
  | [] => []
  | rs => [ {| avgRating := ratio (sum rs) (List.length rs); totalRated := List.length rs |} ]
  end.

(** The six counters of the loop over [statusAgg]. *)
Record Counters := {
  total : nat; registered : nat; accepted : nat; workingOn : nat; completed : nat;
  critical : nat
}.

Definition no_counts : Counters :=
  {| total := 0; registered := 0; accepted := 0; workingOn := 0; completed := 0;
     critical := 0 |}.

(** The body of [for (const s of statusAgg)]. *)
Definition count_group (k : Counters) (s : StatusGroup) : Counters :=
  let total' := (total k + g_count s)%nat in
  let critical' := (critical k + g_criticalCount s)%nat in
  match g_status s with
  | Registered =>
      {| total := total'; registered := g_count s; accepted := accepted k;
         workingOn := workingOn k; completed := completed k; critical := critical' |}
  | Accepted =>
      {| total := total'; registered := registered k; accepted := g_count s;
         workingOn := workingOn k; completed := completed k; critical := critical' |}
  | WorkingOn =>
      {| total := total'; registered := registered k; accepted := accepted k;
         workingOn := g_count s; completed := completed k; critical := critical' |}
  | Completed =>
      {| total := total'; registered := registered k; accepted := accepted k;
         workingOn := workingOn k; completed := g_count s; critical := critical' |}
  | Rejected =>
      {| total := total'; registered := registered k; accepted := accepted k;
         workingOn := workingOn k; completed := completed k; critical := critical' |}
  end.

(** The body of the answer of [GET /stats]. *)
Record Stats := {
  counters : Counters;
  s_avgRating : Q;
  s_totalRated : nat;
  s_myActive : nat
}.

(** [GET /stats] for a provider of [department]. [statusAgg] is the first
    aggregation as the store returns it: its groups come in no particular
    order. *)
Definition stats (department : string) (provider : nat) (statusAgg : list StatusGroup)
    (cs : list Complaint) : Stats :=
  let ratingAgg := rating_groups (of_department department cs) in
  {| counters := fold_left count_group statusAgg no_counts;
     s_avgRating := match ratingAgg with
                    | g :: _ => inject_Z (Math_round (avgRating g * 10)) / 10
                    | [] => 0
                    end;
     s_totalRated := match ratingAgg with
                     | g :: _ => totalRated g
                     | [] => 0%nat
                     end;
     s_myActive := DispatchBalancer.active_load cs provider |}.

(** What a list of groups holds for a status: the count of its group, zero
    without one. *)
Definition group_count (st : Status) (groups : list StatusGroup) : nat :=
  match List.find (fun g => status_eqb (g_status g) st) groups with
  | Some g => g_count g
  | None => 0
  end.

(** The counter the loop keeps for a status; it keeps none for Rejected. *)
Definition reported (st : Status) (k : Counters) : nat :=
  match st with
  | Registered => registered k
  | Accepted => accepted k
  | WorkingOn => workingOn k
  | Completed => completed k
  | Rejected => 0
  end.

(** The mean of the ratings of a list of complaints. *)
Definition mean_rating (cs : list Complaint) : Q :=
  ratio (sum (ratings_of cs)) (List.length (ratings_of cs)).

(** Number of complaints in a status. *)
Definition in_status (st : Status) (cs : list Complaint) : nat :=
  List.length (List.filter (fun c => status_eqb (status c) st) cs).

End ProviderViews.

(** ** The account routes: sign-up, verification, login *)

Module Auth.
Import Model JsString.

(** A user document with its credentials. *)
Record Account := {
  acc_id : nat;
  acc_name : string;
  acc_email : string;
  acc_password : string;
  acc_phone : option string;
  acc_isVerified : bool;
  acc_otp : option string;
  acc_otpExpiry : option Z;
  acc_role : string;
  acc_department : option string;
  acc_lastLogin : option Z;
  acc_loginCount : nat
}.

(** The user collection, the clock, and the one-time codes handed to the
    mailer (recipient, code). *)
Record World := {
  accounts : list Account;
  clock : Z;
  outbox : list (string * string)
}.

(** What one request gets from its surroundings: the value of
    [Math.random()], the salt [bcrypt] draws, whether the mailer delivers,
    and [process.env.JWT_SECRET]. *)
Record Surroundings := {
  random : Q;
  salt : nat;
  delivered : bool;
  jwt_secret : option string
}.

(** The claims of a token, which are also the [user] object of the answer
    to a login. *)
Record Identity := {
  i_id : nat;
  i_name : string;
  i_email : string;
  i_role : string;
  i_department : option string
}.

Inductive Body :=
| Message (message : string)
| OtpSent (message email : string)
| NeedsVerification (message email : string)
| LoggedIn (message token : string) (user : Identity).

Record Response := { code : nat; body : Body }.

Definition json (code : nat) (body : Body) : Response := {| code := code; body := body |}.

(** [generateOTP]: [Math.floor(1000 + Math.random() * 9000).toString()] *)
Definition generateOTP (random : Q) : string :=
  string_of_Z (Qfloor (1000 + random * 9000)).

(** [User.findOne({ email })] *)
Definition findOne (email : string) (w : World) : option Account :=
  List.find (fun a => String.eqb (acc_email a) email) (accounts w).

(** The replacement of the document that carries the id of [a]. *)
Definition store (a : Account) (w : World) : World :=
  {| accounts := List.map (fun d => if (acc_id d =? acc_id a)%nat then a else d) (accounts w);
     clock := clock w; outbox := outbox w |}.

Definition fresh_id (accs : list Account) : nat := S (list_max (List.map acc_id accs)).

(** [sendOTP(email, otp)] when the mailer delivers. *)
Definition mailed (email otp : string) (w : World) : World :=
  {| accounts := accounts w; clock := clock w; outbox := outbox w ++ [(email, otp)] |}.

Definition FIVE_MINUTES : Z := 5 * 60 * 1000.

(** The world some milliseconds later. *)
Definition later (ms : Z) (w : World) : World :=
  {| accounts := accounts w; clock := (clock w + Z.max 0 ms)%Z; outbox := outbox w |}.

Section Handlers.

(** [bcrypt.hash(password, 10)] with the salt drawn, [bcrypt.compare] and
    [jwt.sign] with the secret and the time of signing. *)
Variable hash : string -> nat -> string.
Variable compare : string -> string -> bool.
Variable sign : Identity -> string -> Z -> string.

(** [POST /signup]. A field the body does not carry is [None]; [name] and
    [email] are required by the schema, so an absent or empty one fails the
    validation of [save()]. *)
Definition signup (name : option string) (email : string) (password phone : option string)
    (env : Surroundings) (w : World) : Response * World :=
  let failure := json 500 (Message "Server error during signup") in
  let existingUser := findOne email w in
  if match existingUser with Some u => acc_isVerified u | None => false end
  then (json 400 (Message "User already exists with this email"), w)
  else
    match password with
    | None => (failure, w)
    | Some p =>
        let hashedPassword := hash p (salt env) in
        let otp := generateOTP (random env) in
        let otpExpiry := (clock w + FIVE_MINUTES)%Z in
        let valid := truthy name && negb (String.eqb email "")
                     && negb (String.eqb hashedPassword "") in
        if negb valid then (failure, w)
        else
          let saved :=
            match existingUser with
            | Some u =>
                store {| acc_id := acc_id u; acc_name := or_else name "";
                         acc_email := acc_email u; acc_password := hashedPassword;
                         acc_phone := phone; acc_isVerified := acc_isVerified u;
                         acc_otp := Some otp; acc_otpExpiry := Some otpExpiry;
                         acc_role := acc_role u; acc_department := acc_department u;
                         acc_lastLogin := acc_lastLogin u;
                         acc_loginCount := acc_loginCount u |} w
            | None =>
                {| accounts :=
                     accounts w ++
                     [ {| acc_id := fresh_id (accounts w); acc_name := or_else name "";
                          acc_email := email; acc_password := hashedPassword;
                          acc_phone := Some (match phone with Some x => x | None => "" end);
                          acc_isVerified := false;
                          acc_otp := Some otp; acc_otpExpiry := Some otpExpiry;
                          acc_role := "user"; acc_department := None;
                          acc_lastLogin := None; acc_loginCount := 0 |} ];
                   clock := clock w; outbox := outbox w |}
            end in
          if delivered env
          then (json 200 (OtpSent "OTP sent to your email" email), mailed email otp saved)
          else (failure, saved)
    end.

(** [user.otp !== otp] *)
Definition otp_differs (stored given : option string) : bool :=
  match stored, given with
  | Some a, Some b => negb (String.eqb a b)
  | None, None => false
  | _, _ => true
  end.

(** [new Date() > user.otpExpiry]; never so without an expiry. *)
Definition expired (now : Z) (expiry : option Z) : bool :=
  match expiry with
  | Some e => (e <? now)%Z
  | None => false
  end.

(** [POST /verify-otp] *)
Definition verifyOtp (email : string) (otp : option string) (w : World) : Response * World :=
  match findOne email w with
  | None => (json 404 (Message "User not found"), w)
  | Some user =>
      if otp_differs (acc_otp user) otp then (json 400 (Message "Invalid OTP"), w)
      else if expired (clock w) (acc_otpExpiry user)
      then (json 400 (Message "OTP has expired. Please request a new one."), w)
      else
        (json 200 (Message "Email verified successfully. You can now log in."),
         store {| acc_id := acc_id user; acc_name := acc_name user;
                  acc_email := acc_email user; acc_password := acc_password user;
                  acc_phone := acc_phone user; acc_isVerified := true;
                  acc_otp := None; acc_otpExpiry := None;
                  acc_role := acc_role user; acc_department := acc_department user;
                  acc_lastLogin := acc_lastLogin user;
                  acc_loginCount := acc_loginCount user |} w)
  end.

(** [POST /resend-otp] *)
Definition resendOtp (email : string) (env : Surroundings) (w : World) : Response * World :=
  match findOne email w with
  | None => (json 404 (Message "User not found"), w)
  | Some user =>
      let otp := generateOTP (random env) in
      let saved :=
        store {| acc_id := acc_id user; acc_name := acc_name user;
                 acc_email := acc_email user; acc_password := acc_password user;
                 acc_phone := acc_phone user; acc_isVerified := acc_isVerified user;
                 acc_otp := Some otp; acc_otpExpiry := Some (clock w + FIVE_MINUTES)%Z;
                 acc_role := acc_role user; acc_department := acc_department user;
                 acc_lastLogin := acc_lastLogin user;
                 acc_loginCount := acc_loginCount user |} w in
      if delivered env
      then (json 200 (Message "New OTP sent to your email"), mailed email otp saved)
      else (json 500 (Message "Server error"), saved)
  end.

(** [POST /login] *)
Definition login (email : string) (password : option string) (env : Surroundings)
    (w : World) : Response * World :=
  let failure := json 500 (Message "Server error during login") in
  match findOne email w with
  | None => (json 404 (Message "User not found"), w)
  | Some user =>
      let userRole := toLowerCase (acc_role user) in
      if negb (acc_isVerified user) && String.eqb userRole "user"
      then (json 400 (NeedsVerification "Please verify your email first" email), w)
      else
        match password with
        | None => (failure, w)
        | Some p =>
            if negb (compare p (acc_password user))
            then (json 400 (Message "Invalid credentials"), w)
            else
              let counted :=
                store {| acc_id := acc_id user; acc_name := acc_name user;
                         acc_email := acc_email user; acc_password := acc_password user;
                         acc_phone := acc_phone user; acc_isVerified := acc_isVerified user;
                         acc_otp := acc_otp user; acc_otpExpiry := acc_otpExpiry user;
                         acc_role := userRole; acc_department := acc_department user;
                         acc_lastLogin := Some (clock w);
                         acc_loginCount := S (acc_loginCount user) |} w in
              let identity :=
                {| i_id := acc_id user; i_name := acc_name user; i_email := acc_email user;
                   i_role := userRole; i_department := acc_department user |} in
              match jwt_secret env with
              | Some secret =>
                  if String.eqb secret "" then (failure, counted)
                  else (json 200 (LoggedIn "Login successful"
                                           (sign identity secret (clock w)) identity),
                        counted)
              | None => (failure, counted)
              end
        end
  end.

(** The requests of the account routes, and the passing of time. *)
Inductive Request :=
| Signup (name : option string) (email : string) (password phone : option string)
         (env : Surroundings)
| VerifyOtp (email : string) (otp : option string)
| ResendOtp (email : string) (env : Surroundings)
| Login (email : string) (password : option string) (env : Surroundings)
| Tick (ms : Z).

Definition serve (r : Request) (w : World) : World :=
  match r with
  | Signup name email password phone env => snd (signup name email password phone env w)
  | VerifyOtp email otp => snd (verifyOtp email otp w)
  | ResendOtp email env => snd (resendOtp email env w)
  | Login email password env => snd (login email password env w)
  | Tick ms => later ms w
  end.

(** A sequence of requests, served one after the other. *)
Definition run (rs : list Request) (w : World) : World :=
  fold_left (fun w r => serve r w) rs w.

End Handlers.

(** The accounts carry pairwise distinct e-mail addresses and ids (the
    unique index of the schema). *)
Definition distinct (w : World) : Prop :=
  List.NoDup (List.map acc_email (accounts w)) /\ List.NoDup (List.map acc_id (accounts w)).

(** Every account that is not verified carries a one-time code. *)
Definition coded (w : World) : Prop :=
  forall a, In a (accounts w) -> acc_isVerified a = false -> acc_otp a <> None.

(** The account with an e-mail address is verified. *)
Definition verified (email : string) (w : World) : Prop :=
  exists a, In a (accounts w) /\ acc_email a = email /\ acc_isVerified a = true.

End Auth.

(** ** The management dashboard *)

Module Dashboard.
Import Model JsString.

(** *** Plain objects used as maps *)

(** The own properties of an object literal, in the order of their
    creation. *)
Definition Obj (V : Type) := list (string * V).

Definition own {V} (o : Obj V) (k : string) : option V :=
  match List.find (fun e => String.eqb (fst e) k) o with
  | Some e => Some (snd e)
  | None => None
  end.

(** [o[k] = v]: an own property keeps its place. *)
Fixpoint put {V} (o : Obj V) (k : string) (v : V) : Obj V :=
  match o with
  | [] => [(k, v)]
  | (k', v') :: rest =>
      if String.eqb k' k then (k', v) :: rest else (k', v') :: put rest k v
  end.

(** The names every object inherits from [Object.prototype]; the value
    under each of them is truthy. *)
Definition inherited (k : string) : bool := JsObject.inherited k.

(** [!o[k]] is false: an own property (always an object here) or an
    inherited one. *)
Definition present {V} (o : Obj V) (k : string) : bool :=
  match own o k with
  | Some _ => true
  | None => inherited k
  end.

(** A property name that is an array index: the canonical decimal writing
    of a number below 2^32 - 1. *)
Definition array_index (k : string) : option N :=
  match NilEmpty.uint_of_string k with
  | Some u =>
      let n := N.of_uint u in
      if String.eqb (NilEmpty.string_of_uint (N.to_uint n)) k && (n <? 4294967295)%N
      then Some n
      else None
  | None => None
  end.

Definition index_of (k : string) : N :=
  match array_index k with
  | Some n => n
  | None => 0
  end.

(** [Object.values(o)]: the array indices in ascending order, then the
    other names in the order of their creation. *)
Definition Object_values {V} (o : Obj V) : list V :=
  List.map snd
    (JsArray.sort
       (fun a b => inject_Z (Z.of_N (index_of (fst a))) - inject_Z (Z.of_N (index_of (fst b))))%Q
       (List.filter (fun e => match array_index (fst e) with Some _ => true | None => false end) o)
     ++ List.filter (fun e => match array_index (fst e) with Some _ => false | None => true end) o).

(** *** The aggregations *)

(** A [$group] stage with [count: { $sum: 1 }]: a key joins its group or
    opens a new one. The store returns the groups in no particular order. *)
Fixpoint count_in {K} (same : K -> K -> bool) (groups : list (K * nat)) (k : K)
  : list (K * nat) :=
  match groups with
  | [] => [(k, 1)]
  | (k', n) :: rest =>
      if same k' k then (k', S n) :: rest else (k', n) :: count_in same rest k
  end.

Definition group_counts {K} (same : K -> K -> bool) (keys : list K) : list (K * nat) :=
  fold_left (count_in same) keys [].

Definition same_dept_status (a b : string * Status) : bool :=
  String.eqb (fst a) (fst b) && status_eqb (snd a) (snd b).

Definition same_provider_status (a b : nat * Status) : bool :=
  (fst a =? fst b)%nat && status_eqb (snd a) (snd b).

(** 1. [_id: { department, status }] *)
Definition statusDept_groups (cs : list Complaint) : list ((string * Status) * nat) :=
  group_counts same_dept_status (List.map (fun c => (department c, status c)) cs).

(** 2. [_id: '$priority'] *)
Definition priority_groups (cs : list Complaint) : list (Priority * nat) :=
  group_counts PriorityAssigner.priority_eqb (List.map priority cs).

(** 3. [$match: { assignedTo: { $exists: true, $ne: null } }], then
    [_id: { assignedTo, status }] *)
Definition workload_groups (cs : list Complaint) : list ((nat * Status) * nat) :=
  group_counts same_provider_status
    (List.flat_map (fun c => match assignedTo c with
                             | Some p => [(p, status c)]
                             | None => []
                             end) cs).

(** 4. [User.countDocuments({ role })] *)
Definition countDocuments (role : string) (us : list User) : nat :=
  List.length (List.filter (fun u => String.eqb (u_role u) role) us).

(** [User.find({ role: 'provider' })] *)
Definition is_provider (u : User) : bool := String.eqb (u_role u) "provider".

(** *** The answer *)

Record Overview := {
  totalComplaints : nat; registered : nat; accepted : nat; workingOn : nat;
  completed : nat; totalUsers : nat; totalProviders : nat
}.

Record ProviderDetail := {
  pd_id : nat; pd_name : string; pd_email : string;
  activeComplaints : nat; completedComplaints : nat; isBusy : bool
}.

Record DeptEntry := {
  e_department : option string;
  e_total : nat; e_registered : nat; e_accepted : nat; e_workingOn : nat;
  e_completed : nat; e_providers : nat;
  e_providerDetails : list ProviderDetail
}.

Record PriorityBreakdown := { critical : nat; high : nat; medium : nat; low : nat }.

Record Load := { l_active : nat; l_completed : nat }.

Record Answer (R : Type) := {
  overview : Overview;
  departmentStats : list DeptEntry;
  priorityBreakdown : PriorityBreakdown;
  recentComplaints : R
}.
Arguments overview {R}.
Arguments departmentStats {R}.
Arguments priorityBreakdown {R}.
Arguments recentComplaints {R}.

Inductive Response (R : Type) :=
| Ok (answer : Answer R)
| ServerError (message : string).
Arguments Ok {R}.
Arguments ServerError {R}.

(** [{ department: dept, total: 0, ..., providers: 0, providerDetails: [] }] *)
Definition new_entry (dept : option string) : DeptEntry :=
  {| e_department := dept; e_total := 0; e_registered := 0; e_accepted := 0;
     e_workingOn := 0; e_completed := 0; e_providers := 0; e_providerDetails := [] |}.

(** The property name a department is used as; a provider without a
    department gives [undefined]. *)
Definition dept_key (dept : option string) : string :=
  match dept with
  | Some d => d
  | None => "undefined"
  end.

(** [overview.totalComplaints += count] and the chain on the status. *)
Definition count_overview (o : Overview) (st : Status) (count : nat) : Overview :=
  {| totalComplaints := totalComplaints o + count;
     registered := match st with Registered => registered o + count | _ => registered o end;
     accepted := match st with Accepted => accepted o + count | _ => accepted o end;
     workingOn := match st with WorkingOn => workingOn o + count | _ => workingOn o end;
     completed := match st with Completed => completed o + count | _ => completed o end;
     totalUsers := totalUsers o; totalProviders := totalProviders o |}.

(** [deptMap[dept].total += count] and the chain on the status. *)
Definition count_entry (e : DeptEntry) (st : Status) (count : nat) : DeptEntry :=
  {| e_department := e_department e;
     e_total := e_total e + count;
     e_registered := match st with Registered => e_registered e + count | _ => e_registered e end;
     e_accepted := match st with Accepted => e_accepted e + count | _ => e_accepted e end;
     e_workingOn := match st with WorkingOn => e_workingOn e + count | _ => e_workingOn e end;
     e_completed := match st with Completed => e_completed e + count | _ => e_completed e end;
     e_providers := e_providers e;
     e_providerDetails := e_providerDetails e |}.

(** [if (!deptMap[dept]) deptMap[dept] = { ... }] *)
Definition ensure (deptMap : Obj DeptEntry) (dept : option string) : Obj DeptEntry :=
  if present deptMap (dept_key dept) then deptMap
  else put deptMap (dept_key dept) (new_entry dept).

(** The body of [for (const item of statusDeptAgg)]. Under an inherited
    name the additions go to the inherited object, not to [deptMap]. *)
Definition count_item (acc : Overview * Obj DeptEntry) (item : (string * Status) * nat)
  : Overview * Obj DeptEntry :=
  let dept := fst (fst item) in
  let status := snd (fst item) in
  let count := snd item in
  let deptMap := ensure (snd acc) (Some dept) in
  (count_overview (fst acc) status count,
   match own deptMap dept with
   | Some e => put deptMap dept (count_entry e status count)
   | None => deptMap
   end).

(** The body of [for (const item of priorityAgg)]. *)
Definition count_priority (b : PriorityBreakdown) (item : Priority * nat) : PriorityBreakdown :=
  match fst item with
  | Critical => {| critical := snd item; high := high b; medium := medium b; low := low b |}
  | High => {| critical := critical b; high := snd item; medium := medium b; low := low b |}
  | Medium => {| critical := critical b; high := high b; medium := snd item; low := low b |}
  | Low => {| critical := critical b; high := high b; medium := medium b; low := snd item |}
  end.

Definition no_load : Load := {| l_active := 0; l_completed := 0 |}.

(** The body of [for (const item of providerWorkloadAgg)]; the keys of
    [providerLoadMap] are object ids. *)
Definition count_load (m : gmap nat Load) (item : (nat * Status) * nat) : gmap nat Load :=
  let pid := fst (fst item) in
  let st := snd (fst item) in
  let l := match m !! pid with Some l => l | None => no_load end in
  <[ pid :=
       if DispatchBalancer.is_active st
       then {| l_active := l_active l + snd item; l_completed := l_completed l |}
       else match st with
            | Completed => {| l_active := l_active l; l_completed := l_completed l + snd item |}
            | _ => l
            end ]> m.

Definition detail (providerLoadMap : gmap nat Load) (p : User) : ProviderDetail :=
  let load := match providerLoadMap !! u_id p with Some l => l | None => no_load end in
  {| pd_id := u_id p; pd_name := u_name p; pd_email := u_email p;
     activeComplaints := l_active load; completedComplaints := l_completed load;
     isBusy := (0 <? l_active load)%nat |}.

(** The body of [for (const p of allProviders)]. Under an inherited name
    there is no [providerDetails] to push to, and the handler throws. *)
Definition attach (providerLoadMap : gmap nat Load) (acc : option (Obj DeptEntry)) (p : User)
  : option (Obj DeptEntry) :=
  match acc with
  | None => None
  | Some deptMap0 =>
      let dept := u_department p in
      let deptMap := ensure deptMap0 dept in
      match own deptMap (dept_key dept) with
      | Some e =>
          Some (put deptMap (dept_key dept)
                  {| e_department := e_department e;
                     e_total := e_total e; e_registered := e_registered e;
                     e_accepted := e_accepted e; e_workingOn := e_workingOn e;
                     e_completed := e_completed e;
                     e_providers := S (e_providers e);
                     e_providerDetails := e_providerDetails e ++ [detail providerLoadMap p] |})
      | None => None
      end
  end.

(** [GET /dashboard]. The three aggregations, the recent complaints and
    the providers are what the store answers; the recent complaints are
    passed on as they are. *)
Definition dashboard {R} (statusDeptAgg : list ((string * Status) * nat))
    (priorityAgg : list (Priority * nat)) (providerWorkloadAgg : list ((nat * Status) * nat))
    (recent : R) (allProviders : list User) (us : list User) : Response R :=
  let start :=
    {| totalComplaints := 0; registered := 0; accepted := 0; workingOn := 0; completed := 0;
       totalUsers := countDocuments "user" us;
       totalProviders := countDocuments "provider" us |} in
  let counted := fold_left count_item statusDeptAgg (start, []) in
  let breakdown :=
    fold_left count_priority priorityAgg {| critical := 0; high := 0; medium := 0; low := 0 |} in
  let providerLoadMap := fold_left count_load providerWorkloadAgg ∅ in
  match fold_left (attach providerLoadMap) allProviders (Some (snd counted)) with
  | Some deptMap =>
      Ok {| overview := fst counted;
            departmentStats :=
              List.filter (fun d => (0 <? e_total d)%nat || (0 <? e_providers d)%nat)
                          (Object_values deptMap);
            priorityBreakdown := breakdown;
            recentComplaints := recent |}
  | None => ServerError "Server error"
  end.

(** *** What the numbers stand for *)

(** Number of elements that pass a test. *)
Definition count {A} (f : A -> bool) (l : list A) : nat := List.length (List.filter f l).

(** The sum of the counts of the groups whose key passes a test. *)
Definition tally {K} (f : K -> bool) (groups : list (K * nat)) : nat :=
  fold_right (fun g n => if f (fst g) then snd g + n else n) 0 groups.

Definition of_dept (d : string) (c : Complaint) : bool := String.eqb (department c) d.

Definition in_status (st : Status) (c : Complaint) : bool := status_eqb (status c) st.

Definition of_priority (p : Priority) (c : Complaint) : bool :=
  PriorityAssigner.priority_eqb (priority c) p.

Definition works_in (d : string) (p : User) : bool := String.eqb (dept_key (u_department p)) d.

(** An entry with more providers. *)
Definition with_providers (e : DeptEntry) (ds : list ProviderDetail) : DeptEntry :=
  {| e_department := e_department e;
     e_total := e_total e; e_registered := e_registered e; e_accepted := e_accepted e;
     e_workingOn := e_workingOn e; e_completed := e_completed e;
     e_providers := e_providers e + List.length ds;
     e_providerDetails := e_providerDetails e ++ ds |}.

(** The entry of a department after the loop over the status groups. *)
Definition counted_entry (d : string) (items : list ((string * Status) * nat)) : DeptEntry :=
  let at_ (st : Status) :=
    tally (fun k => String.eqb (fst k) d && status_eqb (snd k) st) items in
  {| e_department := Some d;
     e_total := tally (fun k => String.eqb (fst k) d) items;
     e_registered := at_ Registered; e_accepted := at_ Accepted;
     e_workingOn := at_ WorkingOn; e_completed := at_ Completed;
     e_providers := 0; e_providerDetails := [] |}.

(** The detail of a provider as the complaints have it. *)
Definition true_detail (cs : list Complaint) (p : User) : ProviderDetail :=
  let active := DispatchBalancer.active_load cs (u_id p) in
  {| pd_id := u_id p; pd_name := u_name p; pd_email := u_email p;
     activeComplaints := active;
     completedComplaints :=
       count (fun c => opt_nat_eqb (assignedTo c) (u_id p) && in_status Completed c) cs;
     isBusy := (0 <? active)%nat |}.

End Dashboard.

(** ** The chatbot's conversation history *)

Module Chatbot.
Import Model JsString.

(** One entry of a history: [{ user: message, assistant: aiResponse }]. *)
Record Exchange := { user : string; assistant : string }.

Definition MAX_HISTORY : nat := 10.

(** [conversationHistory], the [Map] from user ids to arrays of exchanges,
    is a [gmap nat (list Exchange)]. *)

(** What a request meets: the store fails, and the handler throws before it
    touches the history; or the text that the remote model or the local
    generator answers, after [stripMarkdown]. *)
Inductive Surroundings :=
| StoreFails
| Replies (aiResponse : string).

Inductive Response :=
| Required
| Sorry
| Reply (reply : string).

Definition history_of (userId : nat) (m : gmap nat (list Exchange)) : list Exchange :=
  match m !! userId with
  | Some history => history
  | None => []
  end.

(** [POST /]: the validation of the message and what happens to the history
    of the user. *)
Definition post (userId : nat) (message : option string) (env : Surroundings)
    (m : gmap nat (list Exchange)) : Response * gmap nat (list Exchange) :=
  match message with
  | None => (Required, m)
  | Some text =>
      if String.eqb text "" || String.eqb (trim text) "" then (Required, m)
      else
        match env with
        | StoreFails => (Sorry, m)
        | Replies aiResponse =>
            let pushed := (history_of userId m
                           ++ [ {| user := text; assistant := aiResponse |} ])%list in
            (Reply aiResponse,
             <[ userId := if (MAX_HISTORY <? List.length pushed)%nat
                          then List.tl pushed
                          else pushed ]> m)
        end
  end.

(** [DELETE /history] *)
Definition clear (userId : nat) (m : gmap nat (list Exchange)) : gmap nat (list Exchange) := delete userId m.

Inductive Request :=
| Post (userId : nat) (message : option string) (env : Surroundings)
| Clear (userId : nat).

Definition serve (m : gmap nat (list Exchange)) (r : Request) : gmap nat (list Exchange) :=
  match r with
  | Post userId message env => snd (post userId message env m)
  | Clear userId => clear userId m
  end.

Definition run (rs : list Request) (m : gmap nat (list Exchange)) : gmap nat (list Exchange) := fold_left serve rs m.

(** The exchanges of a user since the last time the user cleared the
    history: those of the requests that were answered with a reply. *)
Definition exchanges (userId : nat) (rs : list Request) : list Exchange :=
  fold_left
    (fun said r =>
       match r with
       | Post u message env =>
           if (u =? userId)%nat
           then match fst (post u message env ∅) with
                | Reply reply =>
                    (said ++ [ {| user := or_else message ""; assistant := reply |} ])%list
                | _ => said
                end
           else said
       | Clear u => if (u =? userId)%nat then [] else said
       end)
    rs [].

(** The last [n] elements. *)
Definition lastn {A} (n : nat) (l : list A) : list A := List.skipn (List.length l - n) l.

End Chatbot.

(** ** Further sample data *)

Module Scenarios.
Import Model Runtime.

(** A remote model that answers every request with the same text, after
    ten milliseconds. *)
Definition remote_says (text : string) (n : nat) : Answer :=
  {| reply := Resolve (Content (Some text)); latency := 10 |}.

Definition answering (text : string) (cs : list Complaint) (us : list User) : State :=
  {| complaints := cs; users := us; cloudDisabledUntil := 0; now := 1000000;
     log := []; remote := remote_says text |}.

(** A remote service that answers the first request with a rate limit and
    every later one with a rejected credential, reported in [code]. *)
Definition remote_refuses (n : nat) : Answer :=
  match n with
  | O => {| reply := Reject {| err_status := 429; err_code := 0;
                               err_message := "Too Many Requests" |};
            latency := 10 |}
  | S _ => {| reply := Reject {| err_status := 0; err_code := 401;
                                 err_message := "No auth credentials found" |};
              latency := 10 |}
  end.

Definition refused : State :=
  {| complaints := []; users := []; cloudDisabledUntil := 0; now := 1000000;
     log := []; remote := remote_refuses |}.

(** What the vision service reports for two pictures: labels with their
    scores, nothing else. *)
Definition labelled (labels : list Detector64.Annotation) : Detector64.VisionResults :=
  {| Detector64.labels := labels; Detector64.objects := [];
     Detector64.detectedText := ""; Detector64.webEntities := [];
     Detector64.source := Some "google-vision";
     Detector64.directDepartment := None;
     Detector64.directReason := None |}.

(** A faucet (0.23) and asphalt (0.17). *)
Definition faucet_and_asphalt : Detector64.VisionResults :=
  labelled [ {| Detector64.a_text := "faucet"; Detector64.a_score := Double.decimal 23 100 |};
             {| Detector64.a_text := "asphalt"; Detector64.a_score := Double.decimal 17 100 |} ].

(** A faucet (0.02), a hydrant (0.05) and asphalt (0.07). *)
Definition hydrant_and_asphalt : Detector64.VisionResults :=
  labelled [ {| Detector64.a_text := "faucet"; Detector64.a_score := Double.decimal 2 100 |};
             {| Detector64.a_text := "hydrant"; Detector64.a_score := Double.decimal 5 100 |};
             {| Detector64.a_text := "asphalt"; Detector64.a_score := Double.decimal 7 100 |} ].

(** A day in the life of one complaint: the management creates a provider
    of the Electricity department, a citizen reports a broken street light,
    the provider accepts, works on and completes the job, and the citizen
    rates it. The remote model is down all day. *)
Definition report_body : Complaints.CreateBody :=
  {| Complaints.b_area := Some "Chennai";
     Complaints.b_department := Some "Electricity";
     Complaints.b_description :=
       Some "street light not working near the main road junction since monday";
     Complaints.b_photo := Some "data:image/jpeg;base64,CCCC";
     Complaints.b_latitude := None;
     Complaints.b_longitude := None;
     Complaints.b_address := None |}.



Definition day_one : list Engine.Op :=
  [ Engine.CreateProvider (Some "Provider") "provider@example.org" (Some "Electricity")
      (Some "welcome") true;
    Engine.Create Samples.citizen report_body Samples.plain_env;
    Engine.Wait 60000;
    Engine.UpdateStatus (Samples.provider_req 1) 1 "Accepted" None;
    Engine.UpdateStatus (Samples.provider_req 1) 1 "Working On" None;
    Engine.UpdateStatus (Samples.provider_req 1) 1 "Completed" (Some "lamp replaced");
    Engine.Rate Samples.citizen 1 5 (Some "quick") ].

Definition morning : State := Samples.state_of [] [].

Definition evening : State := Audit.run day_one morning.

(** A complaint of the Electricity department with a priority, a creation
    time, an assignee and a rating. *)
Definition report (oid : nat) (p : Priority) (t : Z) (st : Status) (assignee : option nat)
    (stars : option nat) : Complaint :=
  {| _id := oid;
     ticketId := "TNSMP-000000-00" ++ JsString.string_of_nat oid;
     userId := 100;
     userName := "Citizen";
     userEmail := "citizen@example.org";
     area := "Chennai";
     address := "";
     department := "Electricity";
     description := "street light not working near the main road junction";
     photo := "data:image/jpeg;base64,AAAA";
     status := st;
     statusHistory := [];
     priority := p;
     assignedTo := assignee;
     assignedToName := option_map (fun _ => "Provider") assignee;
     resolution := None;
     location := None;
     rating := stars;
     feedback := None;
     isDuplicate := false;
     duplicateOf := None;
     isFake := false;
     aiRemarks := "";
     createdAt := t;
     updatedAt := t |}.

(** The complaints on the desk of provider 7, and one of provider 8. *)
Definition desk : list Complaint :=
  [ report 1 Low 10 Registered None None;
    report 2 Critical 5 Accepted (Some 7) None;
    report 3 Low 20 Registered None None;
    report 4 High 1 WorkingOn (Some 8) None;
    report 5 Medium 7 Completed (Some 7) (Some 4);
    report 6 Medium 9 Completed (Some 7) (Some 5);
    report 7 Low 3 Rejected None None ].

(** What the store answers to the query of provider 7: Critical, Low, Low,
    Low, Medium, Medium by the spelling of the priorities, newest first. *)
Definition desk_found : list Complaint :=
  [ report 2 Critical 5 Accepted (Some 7) None;
    report 3 Low 20 Registered None None;
    report 1 Low 10 Registered None None;
    report 7 Low 3 Rejected None None;
    report 6 Medium 9 Completed (Some 7) (Some 5);
    report 5 Medium 7 Completed (Some 7) (Some 4) ].

(** Stand-ins for [bcrypt.hash], [bcrypt.compare] and [jwt.sign] on the
    sample data. *)
Definition salted (password : string) (salt : nat) : string :=
  ("$2a$10$" ++ password)%string.

Definition matches (password hashed : string) : bool :=
  String.eqb hashed ("$2a$10$" ++ password)%string.

Definition signed (who : Auth.Identity) (secret : string) (at_ : Z) : string :=
  (Auth.i_email who ++ "." ++ Auth.i_role who ++ "." ++ secret)%string.

(** An office without accounts, and surroundings in which the mail goes
    out and [Math.random()] returns one half. *)
Definition office : Auth.World :=
  {| Auth.accounts := []; Auth.clock := 1000000; Auth.outbox := [] |}.

Definition post : Auth.Surroundings :=
  {| Auth.random := 1 # 2; Auth.salt := 7; Auth.delivered := true;
     Auth.jwt_secret := Some "s3cret" |}.

(** Asha signs up ... *)
Definition asha_signs_up : Auth.Request :=
  Auth.Signup (Some "Asha") "asha@example.org" (Some "kolam") None post.

(** ... and verifies her address a minute later, then logs in. *)
Definition asha_day : list Auth.Request :=
  [ asha_signs_up; Auth.Tick 60000;
    Auth.VerifyOtp "asha@example.org" (Some "5500");
    Auth.Login "asha@example.org" (Some "kolam") post ].

(** Requests that do not carry the code. *)
Definition guesses : list Auth.Request :=
  [ Auth.Login "asha@example.org" (Some "kolam") post;
    Auth.VerifyOtp "asha@example.org" None;
    Auth.VerifyOtp "ravi@example.org" (Some "5500");
    Auth.ResendOtp "asha@example.org" post;
    Auth.Tick 400000 ].

(** The users behind the desk: two providers of Electricity, one of
    Sanitation, and a citizen. *)
Definition staff : list User :=
  [ Samples.provider_doc 7;
    {| u_id := 100; u_name := "Citizen"; u_email := "citizen@example.org";
       u_role := "user"; u_department := None |};
    Samples.provider_doc 8;
    {| u_id := 9; u_name := "Sweeper"; u_email := "sweeper@example.org";
       u_role := "provider"; u_department := Some "Sanitation" |} ].

End Scenarios.

(* ================================================================== *)
(** * Part II: properties *)
(* ================================================================== *)

(** ** Running computations *)

Section RuntimeFacts.
Import Model Runtime.

Lemma bind_val {A B} (m : M A) (k : A -> M B) s a s' :
  m s = (Val a, s') -> bind m k s = k a s'.
Proof. intros H. unfold bind. now rewrite H. Qed.

Lemma bind_exn {A B} (m : M A) (k : A -> M B) s e s' :
  m s = (Exn e, s') -> bind m k s = (Exn e, s').
Proof. intros H. unfold bind. now rewrite H. Qed.

Lemma try_catch_val {A} (m : M A) h s a s' :
  m s = (Val a, s') -> try_catch m h s = (Val a, s').
Proof. intros H. unfold try_catch. now rewrite H. Qed.

Lemma try_catch_exn {A} (m : M A) h s e s' :
  m s = (Exn e, s') -> try_catch m h s = h e s'.
Proof. intros H. unfold try_catch. now rewrite H. Qed.

End RuntimeFacts.

(** ** Classifier gateway *)

Section GatewayFacts.
Import Model Runtime Gateway.

Lemma requests_sent_after_request m n s :
  requests_sent (after_request m n s) = S (requests_sent s).
Proof.
  unfold requests_sent, after_request. simpl.
  rewrite List.filter_app, List.length_app. simpl. lia.
Qed.

Lemma requests_sent_after_delay ms s :
  requests_sent (after_delay ms s) = requests_sent s.
Proof.
  unfold requests_sent, after_delay. simpl.
  rewrite List.filter_app, List.length_app. simpl. lia.
Qed.

Lemma create_completion_run m n s :
  create_completion m n s =
  match next_reply s with
  | Resolve p => (Val p, after_request m n s)
  | Reject e => (Exn e, after_request m n s)
  end.
Proof.
  unfold create_completion, next_reply, after_request, bind, get, emit, advance, modify, ret, throw.
  simpl. destruct (reply (remote s (requests_sent s))); reflexivity.
Qed.

(** The body of the retry loop, by the kind of answer. *)
Lemma attempt_body_run m n a s :
  attempt_body m n a s =
  let s1 := after_request m n s in
  match next_reply s with
  | Resolve (Content c) => (Val (Return (text_of c)), with_cooldown 0 s1)
  | Resolve Malformed =>
      if (a <? MAX_RETRIES)%nat then (Val Continue, after_delay RETRY_DELAY_MS s1)
      else (Val Continue, s1)
  | Reject e =>
      let status := error_status e in
      if ((status =? 401) || (status =? 403))%Z
      then (Val (Return None), with_cooldown (now s1 + CLOUD_COOLDOWN_MS) s1)
      else if (status =? 429)%Z then (Val Break, s1)
      else if (a <? MAX_RETRIES)%nat then (Val Continue, after_delay RETRY_DELAY_MS s1)
      else (Val Continue, s1)
  end.
Proof.
  unfold attempt_body, try_catch, bind. rewrite create_completion_run.
  destruct (next_reply s) as [[c|]|e]; simpl.
  - destruct c as [c|]; simpl; [|reflexivity].
    unfold truthy. destruct (String.eqb (JsString.trim c) ""); reflexivity.
  - unfold error_status. simpl. destruct (a <? MAX_RETRIES)%nat; reflexivity.
  - destruct ((error_status e =? 401) || (error_status e =? 403))%Z; [reflexivity|].
    destruct (error_status e =? 429)%Z; [reflexivity|].
    destruct (a <? MAX_RETRIES)%nat; reflexivity.
Qed.

Lemma gateway_only_refl s : gateway_only s s.
Proof.
  repeat split. exists []. rewrite List.app_nil_r. split; reflexivity.
Qed.

Lemma gateway_only_trans s1 s2 s3 :
  gateway_only s1 s2 -> gateway_only s2 s3 -> gateway_only s1 s3.
Proof.
  intros (C1 & U1 & R1 & e1 & L1 & Q1) (C2 & U2 & R2 & e2 & L2 & Q2).
  repeat split; try congruence.
  exists (e1 ++ e2)%list. rewrite L2, L1, <- List.app_assoc. split; [reflexivity|].
  rewrite forallb_app, Q1, Q2. reflexivity.
Qed.

Lemma gateway_only_request m n s : gateway_only s (after_request m n s).
Proof. repeat split. exists [Request m n]. split; reflexivity. Qed.

Lemma gateway_only_delay ms s : gateway_only s (after_delay ms s).
Proof. repeat split. exists [Sleep ms]. split; reflexivity. Qed.

Lemma gateway_only_cooldown t s : gateway_only s (with_cooldown t s).
Proof. repeat split. exists []. rewrite List.app_nil_r. split; reflexivity. Qed.

Ltac gateway_step :=
  repeat first [ apply gateway_only_refl
               | apply gateway_only_request
               | apply gateway_only_cooldown
               | apply gateway_only_delay
               | eapply gateway_only_trans; [apply gateway_only_request|]
               | eapply gateway_only_trans; [apply gateway_only_delay|] ].

Lemma attempt_body_sound m n a s :
  exists e s', attempt_body m n a s = (Val e, s') /\ gateway_only s s'
               /\ (forall r, e = Return r -> answered s s' r).
Proof.
  rewrite attempt_body_run. cbv zeta.
  destruct (next_reply s) as [[c|]|e] eqn:E.
  - eexists _, _. split; [reflexivity|]. split; [gateway_step|].
    intros r [= <-] t Ht. destruct c as [c|]; [|discriminate].
    split; [reflexivity|].
    exists (requests_sent s), c. split; [exact E|exact Ht].
  - destruct (a <? MAX_RETRIES)%nat; eexists _, _; (split; [reflexivity|]);
      (split; [gateway_step|]); intros r [=].
  - destruct ((error_status e =? 401) || (error_status e =? 403))%Z.
    { eexists _, _. split; [reflexivity|]. split; [gateway_step|].
      intros r [= <-] t [=]. }
    destruct (error_status e =? 429)%Z.
    { eexists _, _. split; [reflexivity|]. split; [gateway_step|]. intros r [=]. }
    destruct (a <? MAX_RETRIES)%nat; eexists _, _; (split; [reflexivity|]);
      (split; [gateway_step|]); intros r [=].
Qed.

Lemma answered_later s0 s s' r : gateway_only s0 s -> answered s s' r -> answered s0 s' r.
Proof.
  intros (_ & _ & R & _) F t Ht. destruct (F t Ht) as (Hz & k & c & Hk & Hc).
  split; [exact Hz|]. exists k, c. rewrite <- R. auto.
Qed.

Lemma retry_loop_sound fuel m n : forall a s,
  exists e s', retry_loop fuel m n a s = (Val e, s') /\ gateway_only s s'
               /\ (forall r, e = Return r -> answered s s' r).
Proof.
  induction fuel as [|fuel IH]; intros a s; simpl.
  - eexists _, _. split; [reflexivity|]. split; [gateway_step|]. intros r [=].
  - destruct (a <=? MAX_RETRIES)%nat.
    + destruct (attempt_body_sound m n a s) as (e & s1 & H1 & R1 & F1).
      rewrite (bind_val _ _ _ _ _ H1).
      destruct e as [r| |].
      * eexists _, _. split; [reflexivity|]. split; [exact R1|]. exact F1.
      * eexists _, _. split; [reflexivity|]. split; [exact R1|]. intros r [=].
      * destruct (IH (S a) s1) as (e2 & s2 & H2 & R2 & F2).
        exists e2, s2. split; [exact H2|].
        split; [eapply gateway_only_trans; eassumption|].
        intros r Hr. eapply answered_later; [exact R1|]. apply F2. exact Hr.
    + eexists _, _. split; [reflexivity|]. split; [gateway_step|]. intros r [=].
Qed.

(** The bound on the iterations is not what ends the retry loop: more fuel
    changes nothing. *)
Lemma retry_loop_fuel k m n s :
  retry_loop (S (S MAX_RETRIES) + k) m n 0 s = retry_loop (S (S MAX_RETRIES)) m n 0 s.
Proof.
  change (S (S MAX_RETRIES) + k)%nat with (S (S (S k))).
  change (S (S MAX_RETRIES)) with 3%nat.
  cbn [retry_loop]. change (0 <=? MAX_RETRIES)%nat with true. cbv iota.
  destruct (attempt_body_sound m n 0 s) as (e & s1 & H1 & _).
  rewrite !(bind_val _ _ _ _ _ H1). destruct e; reflexivity.
Qed.

Lemma model_loop_sound models n : forall s,
  exists r s', model_loop models n s = (Val r, s') /\ gateway_only s s' /\ answered s s' r.
Proof.
  induction models as [|m rest IH]; intros s; simpl.
  - eexists _, _. split; [reflexivity|]. split; [gateway_step|]. intros t [=].
  - destruct (retry_loop_sound (S (S MAX_RETRIES)) m n 0 s) as (e & s1 & H1 & R1 & F1).
    rewrite (bind_val _ _ _ _ _ H1).
    assert (Hnext : exists r s', model_loop rest n s1 = (Val r, s') /\ gateway_only s s'
                                 /\ answered s s' r).
    { destruct (IH s1) as (r & s2 & H2 & R2 & F2). exists r, s2.
      split; [exact H2|]. split; [eapply gateway_only_trans; eassumption|].
      eapply answered_later; eassumption. }
    destruct e as [r| |]; [|exact Hnext|exact Hnext].
    eexists _, _. split; [reflexivity|]. split; [exact R1|]. apply F1. reflexivity.
Qed.

Lemma callAI_outside_cooldown n s :
  (cloudDisabledUntil s <= now s)%Z -> callAI n s = model_loop [MODEL; FALLBACK_MODEL] n s.
Proof.
  intros H. unfold callAI, bind, Date_now, get, ret. simpl.
  destruct (Z.ltb_spec (now s) (cloudDisabledUntil s)); [lia|reflexivity].
Qed.

Lemma callAI_in_cooldown n s :
  (now s < cloudDisabledUntil s)%Z -> callAI n s = (Val None, s).
Proof.
  intros H. unfold callAI, bind, Date_now, get, ret. simpl.
  destruct (Z.ltb_spec (now s) (cloudDisabledUntil s)); [reflexivity|lia].
Qed.

Lemma callAI_sound n s :
  exists r s', callAI n s = (Val r, s') /\ gateway_only s s' /\ answered s s' r.
Proof.
  destruct (Z.lt_ge_cases (now s) (cloudDisabledUntil s)) as [H|H].
  - rewrite (callAI_in_cooldown _ _ H). eexists _, _. split; [reflexivity|].
    split; [gateway_step|]. intros t [=].
  - rewrite (callAI_outside_cooldown _ _ H). apply model_loop_sound.
Qed.

(** One pass over a model, by the kind of the first answer. *)
Lemma model_loop_auth n s m rest :
  auth_failure (next_reply s) ->
  model_loop (m :: rest) n s =
  (Val None, with_cooldown (now (after_request m n s) + CLOUD_COOLDOWN_MS) (after_request m n s)).
Proof.
  intros (e & He & Hs). simpl. unfold bind at 1. unfold bind at 1.
  rewrite attempt_body_run, He. cbv zeta.
  replace ((error_status e =? 401) || (error_status e =? 403))%Z with true; [reflexivity|].
  symmetry. apply orb_true_iff. rewrite !Z.eqb_eq. exact Hs.
Qed.

Lemma model_loop_rate n s m rest :
  rate_limited (next_reply s) ->
  model_loop (m :: rest) n s = model_loop rest n (after_request m n s).
Proof.
  intros (e & He & Hs). simpl. unfold bind at 1. unfold bind at 1.
  rewrite attempt_body_run, He. cbv zeta. rewrite Hs. reflexivity.
Qed.

Lemma model_loop_answer n s m rest c :
  answers (next_reply s) c ->
  model_loop (m :: rest) n s = (Val (text_of c), with_cooldown 0 (after_request m n s)).
Proof.
  intros He. simpl. unfold bind at 1. unfold bind at 1.
  rewrite attempt_body_run, He. reflexivity.
Qed.

(** After a transient failure the same model is asked once more, two seconds
    later, and that second answer decides. *)
Lemma model_loop_transient n s m rest :
  transient_failure (next_reply s) ->
  model_loop (m :: rest) n s =
  let s1 := after_delay RETRY_DELAY_MS (after_request m n s) in
  let s2 := after_request m n s1 in
  match next_reply s1 with
  | Resolve (Content c) => (Val (text_of c), with_cooldown 0 s2)
  | Resolve Malformed => model_loop rest n s2
  | Reject e =>
      if ((error_status e =? 401) || (error_status e =? 403))%Z
      then (Val None, with_cooldown (now s2 + CLOUD_COOLDOWN_MS) s2)
      else model_loop rest n s2
  end.
Proof.
  intros Ht. simpl. unfold bind at 1. unfold bind at 1.
  rewrite attempt_body_run. cbv zeta.
  assert (Hfirst :
    match next_reply s with
    | Resolve (Content c) => (Val (Return (text_of c)), with_cooldown 0 (after_request m n s))
    | Resolve Malformed =>
        if (0 <? MAX_RETRIES)%nat
        then (Val Continue, after_delay RETRY_DELAY_MS (after_request m n s))
        else (Val Continue, after_request m n s)
    | Reject e =>
        if ((error_status e =? 401) || (error_status e =? 403))%Z
        then (Val (Return None),
              with_cooldown (now (after_request m n s) + CLOUD_COOLDOWN_MS) (after_request m n s))
        else if (error_status e =? 429)%Z then (Val Break, after_request m n s)
        else if (0 <? MAX_RETRIES)%nat
        then (Val Continue, after_delay RETRY_DELAY_MS (after_request m n s))
        else (Val Continue, after_request m n s)
    end = (Val Continue, after_delay RETRY_DELAY_MS (after_request m n s))).
  { destruct Ht as [-> | (e & -> & H1 & H3 & H9)]; [reflexivity|].
    apply Z.eqb_neq in H1, H3, H9. rewrite H1, H3, H9. reflexivity. }
  rewrite Hfirst. unfold bind at 1. rewrite attempt_body_run. cbv zeta.
  destruct (next_reply (after_delay RETRY_DELAY_MS (after_request m n s))) as [[c|]|e];
    try reflexivity.
  destruct ((error_status e =? 401) || (error_status e =? 403))%Z; [reflexivity|].
  destruct (error_status e =? 429)%Z; reflexivity.
Qed.

End GatewayFacts.

Section GatewayContract.
Import Model Runtime Gateway.

Lemma reports_status e n : n <> 0%Z -> (reports e n <-> error_status e = n).
Proof.
  intros Hn. unfold reports, error_status.
  destruct (Z.eqb_spec (err_status e) 0) as [E|E]; [rewrite E|]; split.
  - intros [H|(_ & H)]; [congruence|exact H].
  - intros H. right. split; [reflexivity|exact H].
  - intros [H|(H & _)]; [exact H|contradiction].
  - intros H. left. exact H.
Qed.

Lemma credential_rejected_auth r : credential_rejected r <-> auth_failure r.
Proof.
  unfold credential_rejected, rejected_with, auth_failure. split.
  - intros [(e & -> & H)|(e & -> & H)]; exists e; (split; [reflexivity|]);
      apply reports_status in H; try discriminate; auto.
  - intros (e & -> & [H|H]); [left|right]; exists e; (split; [reflexivity|]);
      apply reports_status; try discriminate; exact H.
Qed.

Lemma throttled_rate r : throttled r <-> rate_limited r.
Proof.
  unfold throttled, rejected_with, rate_limited.
  split; intros (e & -> & H); exists e; (split; [reflexivity|]);
    apply reports_status in H || apply reports_status; try discriminate; exact H.
Qed.

Lemma failed_otherwise_transient r : failed_otherwise r <-> transient_failure r.
Proof.
  unfold failed_otherwise, transient_failure.
  split; (intros [->|(e & -> & H1 & H3 & H9)]; [left; reflexivity|right]);
    exists e; (split; [reflexivity|]);
    rewrite ?reports_status in * by discriminate;
    rewrite <- ?reports_status in * by discriminate; auto.
Qed.

(** C9. The classifier gateway.
    - [callAI] never throws: every call ends with a value, and a text it
      returns is the trimmed, non-empty content of an answer the remote model
      gave; every other path ends with none.
    - While the clock is before [cloudDisabledUntil] a call returns none and
      leaves the state as it was: nothing is sent, nothing is logged.
    - Outside the cooldown the call walks the list [MODEL; FALLBACK_MODEL].
      For every model of a list: an answer rejected with status 401 or 403
      ends the call with none and sets the cooldown to five minutes after the
      failure; status 429 goes on to the next model at once; any other failure
      waits two seconds, asks the same model a second time, and a second
      failure (other than 401/403) goes on to the next model without a further
      wait; an answer with content ends the call and sets the cooldown
      variable to zero.
    - After an authentication failure every call made within the next five
      minutes returns none without a request.
    The status of an error is its [status], or its [code] when it has no
    [status]. *)
Theorem gateway_contract :
  (forall n s, exists r s', callAI n s = (Val r, s'))
  /\ (forall n s t s', callAI n s = (Val (Some t), s') ->
        t <> "" /\ cloudDisabledUntil s' = 0%Z /\
        exists k c, reply (remote s k) = Resolve (Content (Some c)) /\ JsString.trim c = t)
  /\ (forall n s, (now s < cloudDisabledUntil s)%Z -> callAI n s = (Val None, s))
  /\ (forall n s, (cloudDisabledUntil s <= now s)%Z ->
        callAI n s = model_loop [MODEL; FALLBACK_MODEL] n s)
  /\ (forall n s, model_loop [] n s = (Val None, s))
  /\ (forall n s m rest, credential_rejected (next_reply s) ->
        let s1 := after_request m n s in
        model_loop (m :: rest) n s = (Val None, with_cooldown (now s1 + 300000) s1))
  /\ (forall n s m rest, throttled (next_reply s) ->
        model_loop (m :: rest) n s = model_loop rest n (after_request m n s))
  /\ (forall n s m rest, failed_otherwise (next_reply s) ->
        let s1 := after_delay 2000 (after_request m n s) in
        let s2 := after_request m n s1 in
        (failed_otherwise (next_reply s1) \/ throttled (next_reply s1) ->
           model_loop (m :: rest) n s = model_loop rest n s2)
        /\ (credential_rejected (next_reply s1) ->
              model_loop (m :: rest) n s = (Val None, with_cooldown (now s2 + 300000) s2))
        /\ (forall c, answers (next_reply s1) c ->
              model_loop (m :: rest) n s = (Val (text_of c), with_cooldown 0 s2)))
  /\ (forall n s m rest c, answers (next_reply s) c ->
        model_loop (m :: rest) n s = (Val (text_of c), with_cooldown 0 (after_request m n s)))
  /\ (forall n s m rest, credential_rejected (next_reply s) ->
        forall n' s',
          cloudDisabledUntil s' = cloudDisabledUntil (snd (model_loop (m :: rest) n s)) ->
          (now s' < now (after_request m n s) + 5 * 60 * 1000)%Z ->
          callAI n' s' = (Val None, s')).
Proof.
  split; [|split; [|split; [|split; [|split; [|split; [|split; [|split; [|split]]]]]]]].
  - intros n s. destruct (callAI_sound n s) as (r & s' & H & _). eauto.
  - intros n s t s' H.
    destruct (callAI_sound n s) as (r & s1 & H1 & _ & F). rewrite H in H1.
    injection H1 as <- <-.
    destruct (F t eq_refl) as (Hz & k & c & Hk & Hc).
    unfold text_of in Hc. destruct (String.eqb_spec (JsString.trim c) ""); [discriminate|].
    injection Hc as <-. split; [assumption|]. split; [exact Hz|eauto].
  - apply callAI_in_cooldown.
  - apply callAI_outside_cooldown.
  - reflexivity.
  - intros n s m rest H. apply model_loop_auth, credential_rejected_auth; exact H.
  - intros n s m rest H. apply model_loop_rate, throttled_rate; exact H.
  - intros n s m rest H. apply failed_otherwise_transient in H.
    cbv zeta. rewrite (model_loop_transient _ _ _ _ H). cbv zeta.
    change RETRY_DELAY_MS with 2000%Z.
    split; [|split].
    + rewrite failed_otherwise_transient, throttled_rate.
      intros [[-> | (e & -> & H1 & H3 & H9)] | (e & -> & H9)]; [reflexivity| |].
      * apply Z.eqb_neq in H1, H3. rewrite H1, H3. reflexivity.
      * replace ((error_status e =? 401) || (error_status e =? 403))%Z with false;
          [reflexivity|]. rewrite H9. reflexivity.
    + rewrite credential_rejected_auth. intros (e & -> & Hs).
      replace ((error_status e =? 401) || (error_status e =? 403))%Z with true; [reflexivity|].
      symmetry. apply orb_true_iff. rewrite !Z.eqb_eq. exact Hs.
    + intros c ->. reflexivity.
  - intros n s m rest c H. apply model_loop_answer; exact H.
  - intros n s m rest H n' s' Hc Hn. apply credential_rejected_auth in H.
    apply callAI_in_cooldown.
    rewrite Hc, (model_loop_auth _ _ _ _ H). simpl. exact Hn.
Qed.

End GatewayContract.

(** ** Sorting *)

Section SortFacts.
Context {A : Type} (cmp : A -> A -> Q).

Local Abbreviation before := (JsArray.before cmp).

Hypothesis before_total : forall x y, before x y \/ before y x.
Hypothesis before_trans : forall x y z, before x y -> before y z -> before x z.

Lemma insert_perm x l : Permutation (JsArray.insert cmp x l) (x :: l).
Proof.
  induction l as [|y l IH]; simpl; [reflexivity|].
  destruct (Qle_bool (cmp x y) 0); [reflexivity|].
  rewrite IH. apply perm_swap.
Qed.

Lemma sort_perm l : Permutation (JsArray.sort cmp l) l.
Proof.
  induction l as [|x l IH]; simpl; [reflexivity|].
  unfold JsArray.sort in *. simpl. rewrite insert_perm. now constructor.
Qed.

Lemma sort_cons x l : JsArray.sort cmp (x :: l) = JsArray.insert cmp x (JsArray.sort cmp l).
Proof. reflexivity. Qed.

Lemma insert_sorted x l :
  StronglySorted before l -> StronglySorted before (JsArray.insert cmp x l).
Proof.
  induction 1 as [|y l Hs IH Hy]; simpl.
  - repeat constructor.
  - destruct (Qle_bool (cmp x y) 0) eqn:E.
    + constructor; [constructor; assumption|].
      constructor; [exact E|].
      rewrite List.Forall_forall in *. intros z Hz. apply before_trans with y; [exact E|auto].
    + constructor; [exact IH|].
      assert (Hyx : before y x).
      { destruct (before_total x y) as [H|H]; [unfold JsArray.before in H; congruence|exact H]. }
      rewrite List.Forall_forall in *. intros z Hz.
      apply (Permutation_in _ (insert_perm x l)) in Hz. destruct Hz as [<-|Hz]; auto.
Qed.

Lemma sort_sorted l : StronglySorted before (JsArray.sort cmp l).
Proof.
  induction l as [|x l IH]; [constructor|].
  rewrite sort_cons. apply insert_sorted. exact IH.
Qed.

(** The first element of the sorted list is the first of the original list
    that may stand before all others: everything listed earlier has to come
    after it, everything listed later may. *)
Lemma sort_head l x rest :
  JsArray.sort cmp l = x :: rest ->
  exists pre post, l = (pre ++ x :: post)%list
    /\ (forall y, In y pre -> ~ before y x)
    /\ (forall y, In y post -> before x y).
Proof.
  revert x rest. induction l as [|a l IH]; intros x rest H; [discriminate|].
  rewrite sort_cons in H.
  destruct (JsArray.sort cmp l) as [|y tail] eqn:E.
  - simpl in H. injection H as <- <-.
    assert (l = []) as ->.
    { apply Permutation_nil. rewrite <- E. apply sort_perm. }
    exists [], []. repeat split; intros ? [].
  - destruct (IH y tail eq_refl) as (pre & post & -> & Hpre & Hpost).
    simpl in H. destruct (Qle_bool (cmp a y) 0) eqn:Eay.
    + injection H as <- <-. exists [], (pre ++ y :: post)%list.
      split; [reflexivity|]. split; [intros ? []|].
      intros z Hz. apply in_app_iff in Hz. destruct Hz as [Hz|[<-|Hz]].
      * destruct (before_total y z) as [H|H]; [|destruct (Hpre z Hz H)].
        apply before_trans with y; assumption.
      * exact Eay.
      * apply before_trans with y; [exact Eay|auto].
    + injection H as <- <-. exists (a :: pre), post.
      split; [reflexivity|]. split; [|exact Hpost].
      intros z [<-|Hz]; [unfold JsArray.before; congruence|auto].
Qed.

End SortFacts.

Section SortByKey.
Context {A : Type} (key : A -> Q).
Local Open Scope Q_scope.

Lemma descending_total (x y : A) :
  JsArray.before (fun a b => key b - key a) x y \/ JsArray.before (fun a b => key b - key a) y x.
Proof.
  unfold JsArray.before. rewrite !Qle_bool_iff.
  destruct (Qlt_le_dec (key x) (key y)) as [H|H].
  - right. apply Qlt_le_weak in H. lra.
  - left. lra.
Qed.

Lemma descending_trans (x y z : A) :
  JsArray.before (fun a b => key b - key a) x y -> JsArray.before (fun a b => key b - key a) y z ->
  JsArray.before (fun a b => key b - key a) x z.
Proof. unfold JsArray.before. rewrite !Qle_bool_iff. lra. Qed.

Lemma descending_iff (x y : A) : JsArray.before (fun a b => key b - key a) x y <-> key y <= key x.
Proof. unfold JsArray.before. rewrite Qle_bool_iff. split; lra. Qed.

Lemma ascending_total (x y : A) :
  JsArray.before (fun a b => key a - key b) x y \/ JsArray.before (fun a b => key a - key b) y x.
Proof.
  unfold JsArray.before. rewrite !Qle_bool_iff.
  destruct (Qlt_le_dec (key x) (key y)) as [H|H].
  - left. apply Qlt_le_weak in H. lra.
  - right. lra.
Qed.

Lemma ascending_trans (x y z : A) :
  JsArray.before (fun a b => key a - key b) x y -> JsArray.before (fun a b => key a - key b) y z ->
  JsArray.before (fun a b => key a - key b) x z.
Proof. unfold JsArray.before. rewrite !Qle_bool_iff. lra. Qed.

Lemma ascending_iff (x y : A) : JsArray.before (fun a b => key a - key b) x y <-> key x <= key y.
Proof. unfold JsArray.before. rewrite Qle_bool_iff. split; lra. Qed.

End SortByKey.

(** ** Priority assigner *)

Section PriorityFacts.
Import Model Runtime JsString PriorityAssigner.
Local Open Scope Q_scope.

Lemma priority_eqb_spec a b : reflect (a = b) (priority_eqb a b).
Proof. destruct a, b; simpl; constructor; congruence. Qed.


















End PriorityFacts.

Section PriorityRule.
Import Model Runtime JsString PriorityAssigner.
Local Open Scope Q_scope.







End PriorityRule.

(** ** [Set] objects and word sets *)

Section SetFacts.
Import JsString.

Lemma set_has_In x s : set_has x s = true <-> In x s.
Proof.
  unfold set_has. rewrite existsb_exists. split.
  - intros (y & Hy & E). apply String.eqb_eq in E. now subst.
  - intros H. exists x. split; [exact H|apply String.eqb_refl].
Qed.

Lemma set_has_false x s : set_has x s = false <-> ~ In x s.
Proof.
  rewrite <- set_has_In. destruct (set_has x s); split; congruence.
Qed.

Lemma fold_set_add_In l : forall acc x,
  In x (fold_left set_add l acc) <-> In x acc \/ In x l.
Proof.
  induction l as [|y l IH]; intros acc x; simpl; [tauto|].
  rewrite IH. unfold set_add. destruct (set_has y acc) eqn:E.
  - apply set_has_In in E. split; [tauto|]. intros [H|[<-|H]]; auto.
  - rewrite in_app_iff. simpl. tauto.
Qed.

Lemma fold_set_add_NoDup l : forall acc,
  List.NoDup acc -> List.NoDup (fold_left set_add l acc).
Proof.
  induction l as [|y l IH]; intros acc H; simpl; [exact H|].
  apply IH. unfold set_add. destruct (set_has y acc) eqn:E; [exact H|].
  apply set_has_false in E.
  apply List.NoDup_rev in H. rewrite <- (List.rev_involutive (acc ++ [y])).
  apply List.NoDup_rev. rewrite List.rev_app_distr. simpl.
  constructor; [|exact H]. rewrite <- List.in_rev. exact E.
Qed.

Lemma new_Set_In l x : In x (new_Set l) <-> In x l.
Proof. unfold new_Set. rewrite fold_set_add_In. simpl. tauto. Qed.

Lemma new_Set_NoDup l : List.NoDup (new_Set l).
Proof. apply fold_set_add_NoDup. constructor. Qed.

(** The size of a [Set] built from a list is the size of the finite set of
    its elements. *)
Lemma new_Set_size (l : list string) :
  List.length (new_Set l) = size (list_to_set l : gset string).
Proof.
  rewrite <- (size_list_to_set (C := gset string) (new_Set l)).
  - f_equal. apply set_eq. intros x.
    rewrite !elem_of_list_to_set, !list_elem_of_In. apply new_Set_In.
  - apply NoDup_ListNoDup. apply new_Set_NoDup.
Qed.


End SetFacts.

(** ** Strings and ratios *)

Section StringFacts.
Import JsString.






Lemma ratio_nonneg k n : (0 <= ratio k n)%Q.
Proof. unfold ratio, Qle. simpl. lia. Qed.

End StringFacts.

(** ** Integrity filter *)

Section IntegrityFacts.
Import Model Runtime JsString IntegrityFilter.



(** The [Set] computation of [jaccardSimilarity] is the set-theoretic one. *)
Lemma jaccard_spec wordsA wordsB :
  jaccardSimilarity wordsA wordsB = spec_jaccard wordsA wordsB.
Proof.
  unfold jaccardSimilarity, spec_jaccard. cbv zeta.
  assert (HU : List.length (new_Set (new_Set wordsA ++ new_Set wordsB))
               = size ((list_to_set wordsA : gset string) ∪ list_to_set wordsB)).
  { rewrite new_Set_size. f_equal. apply set_eq. intros x.
    rewrite elem_of_union, !elem_of_list_to_set, !list_elem_of_In, in_app_iff, !new_Set_In.
    reflexivity. }
  assert (HI : List.length
                 (new_Set (List.filter (fun x => set_has x (new_Set wordsB)) (new_Set wordsA)))
               = size ((list_to_set wordsA : gset string) ∩ list_to_set wordsB)).
  { rewrite new_Set_size. f_equal. apply set_eq. intros x.
    rewrite elem_of_intersection, !elem_of_list_to_set, !list_elem_of_In, List.filter_In,
      set_has_In, !new_Set_In.
    reflexivity. }
  rewrite HU, HI. reflexivity.
Qed.

Lemma jaccard_nonneg a b : (0 <= jaccardSimilarity a b)%Q.
Proof.
  unfold jaccardSimilarity. cbv zeta.
  destruct (_ =? 0)%nat; [apply Qle_refl|apply ratio_nonneg].
Qed.

End IntegrityFacts.

Section FakeCheck.
Import Model Runtime JsString IntegrityFilter.



End FakeCheck.

Section DuplicateCheck.
Import Model Runtime JsString IntegrityFilter.
Local Open Scope Q_scope.

Lemma Qltb_true a b : Qltb a b = true <-> a < b.
Proof.
  unfold Qltb. rewrite negb_true_iff. split.
  - intros H. apply Qnot_le_lt. intros L. apply Qle_bool_iff in L. congruence.
  - intros H. destruct (Qle_bool b a) eqn:E; [|reflexivity].
    apply Qle_bool_iff in E. lra.
Qed.

Lemma Qltb_false a b : Qltb a b = false <-> b <= a.
Proof.
  unfold Qltb. rewrite negb_false_iff. apply Qle_bool_iff.
Qed.

Lemma same_area_app area l1 l2 :
  same_area area (l1 ++ l2) = (same_area area l1 ++ same_area area l2)%list.
Proof. apply List.filter_app. Qed.

(** What the loop over the existing complaints has found when it ends: the
    best score, and the first candidate of the same area that reaches it. *)
Lemma best_fold_spec area description existing :
  let sim := similarity_to description in
  let best := fold_left (best_step area (getWords description)) existing (None, 0) in
  let candidates := same_area area existing in
  (forall c, In c candidates -> sim c <= snd best)
  /\ match fst best with
     | None => snd best = 0
     | Some m =>
         snd best = sim m /\ 0 < sim m
         /\ exists pre post, candidates = (pre ++ m :: post)%list
                             /\ forall c, In c pre -> sim c < sim m
     end.
Proof.
  cbv zeta. induction existing as [|x existing IH] using List.rev_ind.
  - simpl. split; [intros c []|reflexivity].
  - rewrite List.fold_left_app, same_area_app. cbn [fold_left].
    set (best := fold_left (best_step area (getWords description)) existing (None, 0)) in *.
    destruct IH as [Hmax Hbest].
    unfold best_step. cbv zeta.
    assert (Hx : same_area area [x] = if String.eqb (c_area x) area then [x] else [])
      by reflexivity.
    rewrite Hx. clear Hx.
    destruct (String.eqb (c_area x) area); cbn [negb].
    + fold (similarity_to description x).
      destruct (Qltb (snd best) (similarity_to description x)) eqn:E.
      * apply Qltb_true in E. cbn [fst snd]. split.
        -- intros c Hc. apply in_app_iff in Hc. destruct Hc as [Hc|[<-|[]]].
           ++ specialize (Hmax c Hc). lra.
           ++ apply Qle_refl.
        -- split; [reflexivity|]. split.
           ++ destruct (fst best) as [m|].
              ** destruct Hbest as (Hs & Hp & _). rewrite Hs in E. lra.
              ** rewrite Hbest in E. lra.
           ++ exists (same_area area existing), []. split; [reflexivity|].
              intros c Hc. specialize (Hmax c Hc). lra.
      * apply Qltb_false in E. split.
        -- intros c Hc. apply in_app_iff in Hc. destruct Hc as [Hc|[<-|[]]]; auto.
        -- destruct (fst best) as [m|]; [|exact Hbest].
           destruct Hbest as (Hs & Hp & pre & post & Hc & Hpre).
           split; [exact Hs|]. split; [exact Hp|].
           exists pre, (post ++ [x])%list. split; [|exact Hpre].
           rewrite Hc, <- List.app_assoc. reflexivity.
    + rewrite List.app_nil_r. split; [exact Hmax|exact Hbest].
Qed.


End DuplicateCheck.

(** ** Department detector *)

Section DetectorFacts.
Import JsString DepartmentDetector.
Local Open Scope Q_scope.

Lemma positive_iff e : positive e = true <-> 0 < snd e.
Proof.
  unfold positive. rewrite negb_true_iff. split.
  - intros H. apply Qnot_le_lt. intros L. apply Qle_bool_iff in L. congruence.
  - intros H. destruct (Qle_bool (snd e) 0) eqn:E; [|reflexivity].
    apply Qle_bool_iff in E. lra.
Qed.

Lemma total_perm l l' : Permutation l l' -> total l == total l'.
Proof.
  induction 1; simpl; lra.
Qed.

Lemma filter_perm {A} (f : A -> bool) l l' :
  Permutation l l' -> Permutation (List.filter f l) (List.filter f l').
Proof.
  induction 1; simpl.
  - constructor.
  - destruct (f x); [constructor|]; assumption.
  - destruct (f x), (f y); try reflexivity. apply perm_swap.
  - etransitivity; eassumption.
Qed.



Lemma Math_round_comp x y : x == y -> Math_round x = Math_round y.
Proof. intros H. unfold Math_round. apply Qfloor_comp. rewrite H. reflexivity. Qed.

(** The departments are scored in the order of [DEPARTMENT_KEYWORDS]. *)
Lemma scores_order v :
  List.map fst (scores v) = List.map dept_name DEPARTMENT_KEYWORDS.
Proof.
  unfold scores, department_tallies. rewrite !List.map_map. reflexivity.
Qed.

(** The ranking: either nothing scores above zero, or the list starts with
    the first department of highest score. *)
Lemma sorted_scores_spec v :
  (sorted_scores v = [] /\ forall e, In e (scores v) -> snd e <= 0)
  \/ exists top rest pre post,
       sorted_scores v = top :: rest
       /\ 0 < snd top
       /\ scores v = (pre ++ top :: post)%list
       /\ (forall e, In e pre -> snd e < snd top)
       /\ (forall e, In e post -> snd e <= snd top)
       /\ total (sorted_scores v) == positive_total (scores v).
Proof.
  unfold sorted_scores.
  set (cmp := fun a b : string * Q => snd b - snd a).
  pose proof (sort_perm cmp (scores v)) as P.
  assert (Htot : total (List.filter positive (JsArray.sort cmp (scores v)))
                 == positive_total (scores v)).
  { unfold positive_total. apply total_perm, filter_perm, P. }
  destruct (JsArray.sort cmp (scores v)) as [|top rest] eqn:E.
  { left. split; [reflexivity|]. apply Permutation_nil in P. rewrite P. intros e []. }
  destruct (sort_head _ (descending_total snd) (descending_trans snd) _ _ _ E)
    as (pre & post & Hsc & Hpre & Hpost).
  assert (Hle : forall y, In y post -> snd y <= snd top).
  { intros y Hy. apply (descending_iff snd). auto. }
  assert (Hlt : forall y, In y pre -> snd y < snd top).
  { intros y Hy. apply Qnot_le_lt. intros H. apply (Hpre y Hy).
    apply (descending_iff snd). exact H. }
  destruct (positive top) eqn:Et.
  - right. exists top, (List.filter positive rest), pre, post.
    cbn [List.filter]. rewrite Et.
    split; [reflexivity|]. split; [now apply positive_iff|].
    split; [exact Hsc|]. split; [exact Hlt|]. split; [exact Hle|].
    cbn [List.filter] in Htot. rewrite Et in Htot. exact Htot.
  - left.
    assert (Hz : snd top <= 0).
    { unfold positive in Et. apply negb_false_iff in Et. now apply Qle_bool_iff. }
    assert (Hall : forall e, In e (scores v) -> snd e <= 0).
    { intros e He. rewrite Hsc in He. apply in_app_iff in He.
      destruct He as [He|[<-|He]]; [apply Hlt in He|exact Hz|apply Hle in He]; lra. }
    split; [|exact Hall].
    assert (Hall' : forall e, In e (top :: rest) -> snd e <= 0).
    { intros e He. apply Hall. apply (Permutation_in _ P). exact He. }
    clear -Hall'. induction (top :: rest) as [|e l IH]; [reflexivity|].
    cbn [List.filter].
    assert (positive e = false) as ->.
    { unfold positive. apply negb_false_iff, Qle_bool_iff, Hall'. simpl; auto. }
    apply IH. intros x Hx. apply Hall'. simpl; auto.
Qed.

End DetectorFacts.

(** ** Binary64 arithmetic *)

Section DoubleFacts.
Import Double.

Lemma digits2_size p : digits2_pos p = Pos.size p.
Proof. induction p; simpl; congruence. Qed.

Lemma digits_lower p : (2 ^ (Zpos (digits2_pos p) - 1) <= Zpos p)%Z.
Proof.
  rewrite digits2_size. pose proof (Pos.size_le p) as H.
  assert (H' : (Zpos (2 ^ Pos.size p) <= Zpos p~0)%Z) by exact H.
  rewrite Pos2Z.inj_pow in H'.
  replace (Zpos (Pos.size p)) with (Zpos (Pos.size p) - 1 + 1)%Z in H' by lia.
  rewrite Z.pow_add_r in H' by lia. change (2 ^ 1)%Z with 2%Z in H'. lia.
Qed.

(** One shift halves the mantissa, rounding toward zero. *)
Lemma shr_1_lower mrs a : (2 * a <= shr_m mrs)%Z -> (a <= shr_m (shr_1 mrs))%Z.
Proof.
  destruct mrs as [m r s]. cbn [shr_m shr_1].
  destruct m as [|[p|p|]|[p|p|]]; cbn [shr_m]; lia.
Qed.

Lemma pow2_double p : (2 ^ Zpos p~0 = 2 ^ Zpos p * 2 ^ Zpos p)%Z.
Proof. rewrite <- Z.pow_add_r by lia. f_equal. lia. Qed.

Lemma pow2_double_succ p : (2 ^ Zpos p~1 = 2 * (2 ^ Zpos p * 2 ^ Zpos p))%Z.
Proof.
  rewrite <- Z.pow_add_r by lia. rewrite <- Z.pow_succ_r by lia. f_equal. lia.
Qed.

Lemma iter_shr_lower p : forall mrs a,
  (2 ^ Zpos p * a <= shr_m mrs)%Z -> (a <= shr_m (SpecFloat.iter_pos shr_1 p mrs))%Z.
Proof.
  induction p as [p IH|p IH|]; intros mrs a H; cbn [SpecFloat.iter_pos].
  - apply IH, IH, shr_1_lower. rewrite pow2_double_succ in H. nia.
  - apply IH, IH. rewrite pow2_double in H. nia.
  - apply shr_1_lower. exact H.
Qed.

(** The first step of rounding leaves a positive mantissa positive when the
    exponent is at least the smallest one, and never goes below it. *)
Lemma shr_fexp_positive m e l :
  (0 < m)%Z -> (-1074 <= e)%Z ->
  (0 < shr_m (fst (shr_fexp prec emax m e l)))%Z
  /\ (-1074 <= snd (shr_fexp prec emax m e l))%Z.
Proof.
  intros Hm He. unfold shr_fexp, shr, fexp, emin, prec, emax.
  destruct m as [|p|p]; try lia. cbn [Zdigits2].
  pose proof (digits_lower p) as D.
  destruct (Z.max (Zpos (digits2_pos p) + e - 53) (3 - 1024 - 53) - e)%Z as [|n|n] eqn:N;
    cbn [fst snd]; try (split; [destruct l as [|[]]; cbn; lia|lia]).
  split; [|lia].
  assert (Hn : (Zpos n = Zpos (digits2_pos p) - 53)%Z) by lia.
  assert (L : (1 <= shr_m (SpecFloat.iter_pos shr_1 n (shr_record_of_loc (Zpos p) l)))%Z).
  { apply iter_shr_lower.
    assert (shr_m (shr_record_of_loc (Zpos p) l) = Zpos p) as -> by (destruct l as [|[]]; reflexivity).
    rewrite Z.mul_1_r. etransitivity; [|exact D].
    apply Z.pow_le_mono_r; lia. }
  lia.
Qed.

Lemma round_nearest_even_ge m l : (m <= round_nearest_even m l)%Z.
Proof. destruct l as [|[]]; cbn; try lia. destruct (Z.even m); lia. Qed.

(** Rounding a positive integer multiple of a power of two not below
    2^-1074 gives a finite_double number of the same sign, other than zero, or the
    infinity of that sign. *)
Lemma round_positive s m e l :
  (0 < m)%Z -> (-1074 <= e)%Z ->
  (exists m' e', binary_round_aux prec emax s m e l = S754_finite s m' e' /\ (-1074 <= e')%Z)
  \/ binary_round_aux prec emax s m e l = S754_infinity s.
Proof.
  intros Hm He. unfold binary_round_aux.
  destruct (shr_fexp_positive m e l Hm He) as (P1 & E1).
  destruct (shr_fexp prec emax m e l) as (mrs1, e1). cbn [fst snd] in P1, E1.
  pose proof (round_nearest_even_ge (shr_m mrs1) (loc_of_shr_record mrs1)) as R.
  destruct (shr_fexp_positive (round_nearest_even (shr_m mrs1) (loc_of_shr_record mrs1)) e1
              loc_Exact ltac:(lia) E1) as (P2 & E2).
  destruct (shr_fexp prec emax _ e1 loc_Exact) as (mrs2, e2). cbn [fst snd] in P2, E2.
  destruct (shr_m mrs2) as [|q|q]; try lia.
  destruct (e2 <=? emax - prec)%Z; [left; eauto|right; reflexivity].
Qed.

Lemma shl_align_value m e e' :
  (e' <= e)%Z ->
  Zpos (fst (shl_align m e e')) = (Zpos m * 2 ^ (e - e'))%Z
  /\ snd (shl_align m e e') = e'.
Proof.
  intros H. unfold shl_align.
  destruct (e' - e)%Z as [|d|d] eqn:D; try lia; cbn [fst snd].
  - assert (e = e') by lia. subst. rewrite Z.sub_diag. split; [lia|reflexivity].
  - split; [|reflexivity].
    change (Pos.iter xO m d) with (shift_pos d m). rewrite shift_pos_correct.
    rewrite Z.pow_pos_fold. replace (e - e')%Z with (Zpos d) by lia. lia.
Qed.

Lemma binary_round_positive s m e :
  (-1074 <= e)%Z ->
  (exists m' e', binary_round prec emax s m e = S754_finite s m' e' /\ (-1074 <= e')%Z)
  \/ binary_round prec emax s m e = S754_infinity s.
Proof.
  intros He. unfold binary_round.
  destruct (shl_align m e (fexp prec emax (Zpos (digits2_pos m) + e))) as (mz, ez) eqn:A.
  apply round_positive; [lia|].
  unfold shl_align in A.
  destruct (fexp prec emax (Zpos (digits2_pos m) + e) - e)%Z eqn:F;
    injection A as <- <-; try lia.
  unfold fexp, emin, prec, emax in *. lia.
Qed.

(** The sign of a normalised integer multiple of a power of two. *)
Lemma normalize_sign D e :
  (-1074 <= e)%Z ->
  match binary_normalize prec emax D e false with
  | S754_zero _ => D = 0%Z
  | S754_finite s _ e' => (-1074 <= e')%Z /\ (if s then D < 0 else 0 < D)%Z
  | S754_infinity s => (if s then D < 0 else 0 < D)%Z
  | S754_nan => False
  end.
Proof.
  intros He. destruct D as [|p|p]; cbn [binary_normalize]; [reflexivity| |].
  - destruct (binary_round_positive false p e He) as [(m' & e' & -> & E)| ->];
      cbv iota beta; [split|]; try exact E; reflexivity.
  - destruct (binary_round_positive true p e He) as [(m' & e' & -> & E)| ->];
      cbv iota beta; [split|]; try exact E; reflexivity.
Qed.

Lemma aligned_scaled s m e ez :
  (-1074 <= ez)%Z -> (ez <= e)%Z ->
  (cond_Zopp s (Zpos (fst (shl_align m e ez))) * 2 ^ (ez + 1074)
   = scaled (S754_finite s m e))%Z.
Proof.
  intros Hz He. destruct (shl_align_value m e ez He) as (-> & _). cbn [scaled].
  replace (e + 1074)%Z with ((e - ez) + (ez + 1074))%Z by lia.
  rewrite (Z.pow_add_r 2 (e - ez) (ez + 1074)) by lia. destruct s; cbn [cond_Zopp]; ring.
Qed.

Lemma scaled_sign (s : bool) m e :
  (-1074 <= e)%Z ->
  if s return Prop
  then (scaled (S754_finite s m e) < 0)%Z
  else (0 < scaled (S754_finite s m e))%Z.
Proof.
  intros He. cbn [scaled].
  assert (0 < 2 ^ (e + 1074))%Z by (apply Z.pow_pos_nonneg; lia).
  destruct s; cbn [cond_Zopp]; lia.
Qed.

(** The sign of a difference of finite_double doubles is the sign of the exact
    difference: a subtraction does not round to zero. *)
Lemma sub_sign x y :
  finite_double x -> finite_double y ->
  sign (sub x y) = inject_Z (Z.sgn (scaled x - scaled y)).
Proof.
  intros Fx Fy.
  destruct x as [sx| | |sx mx ex], y as [sy| | |sy my ey]; cbn [finite_double] in Fx, Fy;
    try contradiction.
  - cbn. destruct sx, sy; reflexivity.
  - pose proof (scaled_sign sy my ey Fy) as S. cbn [sub SFsub sign].
    change (scaled (S754_zero sx)) with 0%Z.
    destruct sy; cbn [negb];
      [rewrite (Z.sgn_pos (0 - _)) by lia|rewrite (Z.sgn_neg (0 - _)) by lia]; reflexivity.
  - pose proof (scaled_sign sx mx ex Fx) as S. cbn [sub SFsub sign].
    change (scaled (S754_zero sy)) with 0%Z. rewrite Z.sub_0_r.
    destruct sx; [rewrite Z.sgn_neg by lia|rewrite Z.sgn_pos by lia]; reflexivity.
  - unfold sub, SFsub.
    set (ez := Z.min ex ey).
    assert (Hz : (-1074 <= ez)%Z) by (unfold ez; lia).
    pose proof (aligned_scaled sx mx ex ez Hz ltac:(unfold ez; lia)) as Ax.
    pose proof (aligned_scaled sy my ey ez Hz ltac:(unfold ez; lia)) as Ay.
    set (D := (cond_Zopp sx (Zpos (fst (shl_align mx ex ez)))
               - cond_Zopp sy (Zpos (fst (shl_align my ey ez))))%Z) in *.
    assert (HD : (D * 2 ^ (ez + 1074)
                  = scaled (S754_finite sx mx ex) - scaled (S754_finite sy my ey))%Z).
    { unfold D. rewrite Z.mul_sub_distr_r, Ax, Ay. reflexivity. }
    assert (P : (0 < 2 ^ (ez + 1074))%Z) by (apply Z.pow_pos_nonneg; lia).
    rewrite <- HD.
    pose proof (normalize_sign D ez Hz) as N.
    destruct (binary_normalize prec emax D ez false) as [s| s | |s m e]; cbn [sign].
    + subst D. rewrite N. reflexivity.
    + destruct s; [rewrite Z.sgn_neg by nia|rewrite Z.sgn_pos by nia]; reflexivity.
    + contradiction.
    + destruct N as (_ & N).
      destruct s; [rewrite Z.sgn_neg by nia|rewrite Z.sgn_pos by nia]; reflexivity.
Qed.

Lemma above_zero_scaled x : finite_double x -> (above_zero x = true <-> (0 < scaled x)%Z).
Proof.
  destruct x as [s| | |s m e]; cbn [finite_double]; try contradiction; intros F.
  - cbn. split; [discriminate|lia].
  - pose proof (scaled_sign s m e F) as S. unfold above_zero, SFltb, zero. cbn [SFcompare].
    destruct s; split; try discriminate; try reflexivity; lia.
Qed.

(** A sum that starts from zero and adds positive finite_double doubles is
    positive: a finite_double double or the positive infinity. *)
Lemma add_grows acc y :
  acc = zero \/ grown acc -> finite_double y -> above_zero y = true -> grown (add acc y).
Proof.
  intros Hacc Fy Py.
  destruct y as [sy| | |sy my ey]; cbn [finite_double] in Fy; try contradiction.
  { cbn in Py. discriminate. }
  assert (sy = false) as ->.
  { destruct sy; [cbn in Py; discriminate|reflexivity]. }
  destruct Hacc as [->|G]; [exact Fy|].
  destruct acc as [sx|sx| |sx mx ex]; cbn [grown] in G; try contradiction.
  - destruct sx; [contradiction|]. exact I.
  - destruct sx; [contradiction|].
    unfold add, SFadd. set (ez := Z.min ex ey).
    assert (Hz : (-1074 <= ez)%Z) by (unfold ez; lia).
    pose proof (normalize_sign
                  (cond_Zopp false (Zpos (fst (shl_align mx ex ez)))
                   + cond_Zopp false (Zpos (fst (shl_align my ey ez)))) ez Hz) as N.
    cbn [cond_Zopp] in *.
    destruct (binary_normalize prec emax _ ez false) as [s|s| |s m e]; cbn [grown].
    + lia.
    + destruct s; [lia|exact I].
    + contradiction.
    + destruct N as (E & N). destruct s; [lia|exact E].
Qed.

Lemma grown_above_zero x : grown x -> above_zero x = true.
Proof.
  destruct x as [s|s| |s m e]; cbn [grown]; try contradiction;
    destruct s; try contradiction; reflexivity.
Qed.

(** The exact value of a finite_double double, from its value in units of
    2^-1074. *)
Lemma value_scaled x : finite_double x -> (value x == Qmake (scaled x) (Z.to_pos (2 ^ 1074)))%Q.
Proof.
  destruct x as [s| | |s m e]; cbn [finite_double]; try contradiction; intros F.
  - reflexivity.
  - cbn [value scaled]. destruct (Z.leb_spec 0 e) as [H|H].
    + unfold Qeq, inject_Z. cbn [Qnum Qden]. rewrite (Z2Pos.id (2 ^ 1074)) by reflexivity.
      rewrite Z.pow_add_r by lia. destruct s; cbn [cond_Zopp]; lia.
    + unfold Qeq. cbn [Qnum Qden]. rewrite (Z2Pos.id (2 ^ 1074)) by reflexivity.
      rewrite Z2Pos.id by (apply Z.pow_pos_nonneg; lia).
      replace 1074%Z with ((e + 1074) + (- e))%Z at 1 by lia.
      rewrite Z.pow_add_r by lia. destruct s; cbn [cond_Zopp]; lia.
Qed.

Lemma value_lt x y : finite_double x -> finite_double y -> ((value x < value y)%Q <-> (scaled x < scaled y)%Z).
Proof.
  intros Fx Fy. rewrite (value_scaled x Fx), (value_scaled y Fy).
  unfold Qlt. cbn [Qnum Qden]. rewrite (Z2Pos.id (2 ^ 1074)) by reflexivity.
  assert (0 < 2 ^ 1074)%Z by reflexivity. nia.
Qed.

Lemma value_le x y : finite_double x -> finite_double y -> ((value x <= value y)%Q <-> (scaled x <= scaled y)%Z).
Proof.
  intros Fx Fy. rewrite (value_scaled x Fx), (value_scaled y Fy).
  unfold Qle. cbn [Qnum Qden]. rewrite (Z2Pos.id (2 ^ 1074)) by reflexivity.
  assert (0 < 2 ^ 1074)%Z by reflexivity. nia.
Qed.

Lemma finite_grounded x : finite x -> grounded x -> finite_double x.
Proof. destruct x; cbn; auto. Qed.

(** Rounding never leaves an exponent below -1074. *)
Lemma shr_fexp_exponent m e l : (-1074 <= snd (shr_fexp prec emax m e l))%Z.
Proof.
  unfold shr_fexp, shr, fexp, emin, prec, emax.
  destruct (Z.max (Zdigits2 m + e - 53) (3 - 1024 - 53) - e)%Z eqn:N; cbn [snd]; lia.
Qed.

Lemma round_grounded s m e l : grounded (binary_round_aux prec emax s m e l).
Proof.
  unfold binary_round_aux.
  destruct (shr_fexp prec emax m e l) as (mrs1, e1).
  pose proof (shr_fexp_exponent (round_nearest_even (shr_m mrs1) (loc_of_shr_record mrs1))
                e1 loc_Exact) as E.
  destruct (shr_fexp prec emax _ e1 loc_Exact) as (mrs2, e2). cbn [snd] in E.
  destruct (shr_m mrs2); [exact I| |exact I].
  destruct (e2 <=? emax - prec)%Z; [exact E|exact I].
Qed.

Lemma mul_grounded x y : grounded (mul x y).
Proof.
  destruct x as [sx|sx| |sx mx ex], y as [sy|sy| |sy my ey]; try exact I.
  apply round_grounded.
Qed.

Lemma add_grounded x y : grounded x -> grounded y -> grounded (add x y).
Proof.
  intros Gx Gy.
  destruct x as [sx|sx| |sx mx ex], y as [sy|sy| |sy my ey];
    try exact I; try exact Gx; try exact Gy.
  - cbn. destruct sx, sy; exact I.
  - cbn. destruct sx, sy; exact I.
  - unfold add, SFadd, binary_normalize, binary_round.
    destruct (_ + _)%Z; [exact I| |];
      match goal with |- context [shl_align ?a ?b ?c] => destruct (shl_align a b c) end;
      apply round_grounded.
Qed.

End DoubleFacts.

(** ** Department detector, in the arithmetic of the engine *)

Section SortAgreement.
Context {A : Type} (cmp cmp' : A -> A -> Q).

(** Two comparators that order the elements of a list alike sort it
    alike. *)
Lemma insert_agree x l :
  (forall y, In y l -> Qle_bool (cmp x y) 0 = Qle_bool (cmp' x y) 0) ->
  JsArray.insert cmp x l = JsArray.insert cmp' x l.
Proof.
  induction l as [|y l IH]; intros H; [reflexivity|]. cbn [JsArray.insert].
  rewrite (H y) by (left; reflexivity).
  destruct (Qle_bool (cmp' x y) 0); [reflexivity|].
  rewrite IH by (intros z Hz; apply H; right; exact Hz). reflexivity.
Qed.

Lemma sort_agree l :
  (forall x y, In x l -> In y l -> Qle_bool (cmp x y) 0 = Qle_bool (cmp' x y) 0) ->
  JsArray.sort cmp l = JsArray.sort cmp' l.
Proof.
  induction l as [|x l IH]; intros H; [reflexivity|].
  rewrite !sort_cons. rewrite IH by (intros a b Ha Hb; apply H; right; assumption).
  apply insert_agree. intros y Hy. apply H; [left; reflexivity|right].
  apply (Permutation_in _ (sort_perm cmp' l)). exact Hy.
Qed.

End SortAgreement.

Section SortedFacts.
Context {A : Type}.

Lemma StronglySorted_in (R R' : A -> A -> Prop) l :
  (forall a b, In a l -> In b l -> R a b -> R' a b) ->
  StronglySorted R l -> StronglySorted R' l.
Proof.
  intros H S. induction S as [|a l S IH F]; [constructor|].
  constructor.
  - apply IH. intros x y Hx Hy. apply H; right; assumption.
  - rewrite List.Forall_forall in *. intros y Hy.
    apply H; [left; reflexivity|right; exact Hy|apply F; exact Hy].
Qed.

Lemma StronglySorted_filter (R : A -> A -> Prop) (f : A -> bool) l :
  StronglySorted R l -> StronglySorted R (List.filter f l).
Proof.
  intros S. induction S as [|a l S IH F]; [constructor|]. cbn [List.filter].
  destruct (f a); [|exact IH]. constructor; [exact IH|].
  rewrite List.Forall_forall in *. intros y Hy. apply List.filter_In in Hy. apply F, Hy.
Qed.

End SortedFacts.

Section Detector64Facts.
Import JsString Double Detector64.
Local Open Scope Q_scope.

Lemma above_zero_positive x : above_zero x = true <-> positive_number x.
Proof.
  unfold above_zero, SFltb, zero.
  destruct x as [s|s| |s m e]; cbn [SFcompare positive_number];
    try destruct s; split; try discriminate; try contradiction; auto.
Qed.

Lemma above_zero_value x : finite_double x -> (above_zero x = true <-> 0 < value x).
Proof.
  intros F. rewrite (above_zero_scaled x F).
  change 0 with (value zero). rewrite (value_lt zero x I F). reflexivity.
Qed.

(** The departments are scored in the order of [DEPARTMENT_KEYWORDS]. *)
Lemma scores64_order v :
  List.map fst (scores v)
  = ["Water Resources"; "Electricity"; "Roads & Highways"; "Sanitation"; "Public Health";
     "Education"; "Transport"; "Revenue"; "Agriculture"].
Proof.
  unfold scores, department_tallies. rewrite !List.map_map. reflexivity.
Qed.

(** On finite doubles the comparator orders as the exact values do. *)
Lemma by_score_value (a b : string * double) :
  finite_double (snd a) -> finite_double (snd b) ->
  Qle_bool (by_score a b) 0
  = Qle_bool (inject_Z (scaled (snd b)) - inject_Z (scaled (snd a))) 0.
Proof.
  intros Fa Fb. unfold by_score. rewrite (sub_sign _ _ Fb Fa).
  apply eq_true_iff_eq. rewrite !Qle_bool_iff.
  unfold Qle, Qminus, Qplus, Qopp, inject_Z. cbn [Qnum Qden].
  destruct (Z.sgn_spec (scaled (snd b) - scaled (snd a))) as [(H & ->)|[(H & ->)|(H & ->)]];
    lia.
Qed.

Lemma sum_map l : totalScore l = fold_left add (List.map snd l) zero.
Proof.
  unfold totalScore. generalize zero. induction l as [|e l IH]; intros acc; [reflexivity|].
  cbn [fold_left List.map]. apply IH.
Qed.

Lemma sum_grows (l : list (string * double)) : forall acc,
  acc = zero \/ grown acc ->
  (forall e, In e l -> finite_double (snd e) /\ above_zero (snd e) = true) ->
  l <> [] ->
  grown (fold_left (fun sum e => add sum (snd e)) l acc).
Proof.
  induction l as [|e l IH]; intros acc Hacc Hl Hne; [contradiction|].
  cbn [fold_left].
  assert (G : grown (add acc (snd e))).
  { destruct (Hl e (or_introl eq_refl)) as (F & P). apply add_grows; assumption. }
  destruct l as [|e' l]; [exact G|].
  apply IH; [right; exact G| |discriminate].
  intros x Hx. apply Hl. right. exact Hx.
Qed.

(** Every department score has an exponent of a double: the sums and the
    products are rounded. *)
Lemma tally_term_grounded config item : forall t,
  grounded (fst t) -> grounded (fst (tally_term config t item)).
Proof.
  unfold tally_term. induction (keywords config) as [|kw kws IH]; intros t G; [exact G|].
  cbn [fold_left]. apply IH.
  destruct (includes (term item) kw || includes kw (term item)); [|exact G].
  cbn [fst]. apply add_grounded; [exact G|apply mul_grounded].
Qed.

Lemma tally_text_grounded config text : forall t,
  grounded (fst t) -> grounded (fst (tally_text config text t)).
Proof.
  unfold tally_text. induction (keywords config) as [|kw kws IH]; intros t G; [exact G|].
  cbn [fold_left]. apply IH.
  destruct (includes text kw); [|exact G].
  cbn [fst]. apply add_grounded; [exact G|apply mul_grounded].
Qed.

Lemma tally_department_grounded v config : grounded (fst (tally_department v config)).
Proof.
  unfold tally_department.
  assert (G : grounded (fst (fold_left (tally_term config) (allTerms v) (zero, [])))).
  { generalize (allTerms v). intros terms.
    assert (G0 : grounded (fst (zero, @nil string))) by exact I.
    revert G0. generalize (zero, @nil string).
    induction terms as [|item terms IH]; intros t G; [exact G|].
    cbn [fold_left]. apply IH, tally_term_grounded, G. }
  destruct (String.eqb (detectedText v) ""); [exact G|].
  apply tally_text_grounded, G.
Qed.

Lemma scores_grounded v e : In e (scores v) -> grounded (snd e).
Proof.
  unfold scores, department_tallies. rewrite List.map_map. intros H.
  apply List.in_map_iff in H. destruct H as (config & <- & _). cbn [snd].
  apply tally_department_grounded.
Qed.

(** The ranking of finite scores: either nothing scores above zero, or the
    list starts with the first department of highest score and runs from
    the highest score to the lowest. *)
Lemma sorted_scores64_spec v :
  (forall e, In e (scores v) -> finite_double (snd e)) ->
  (sorted_scores v = [] /\ forall e, In e (scores v) -> value (snd e) <= 0)
  \/ exists top rest pre post,
       sorted_scores v = top :: rest
       /\ 0 < value (snd top)
       /\ scores v = (pre ++ top :: post)%list
       /\ (forall e, In e pre -> value (snd e) < value (snd top))
       /\ (forall e, In e post -> value (snd e) <= value (snd top))
       /\ descending (sorted_scores v).
Proof.
  intros Hfin. unfold sorted_scores.
  set (key := fun e : string * double => inject_Z (scaled (snd e))).
  set (cmp := fun a b : string * double => key b - key a).
  assert (Hsort : JsArray.sort by_score (scores v) = JsArray.sort cmp (scores v)).
  { apply sort_agree. intros a b Ha Hb. apply by_score_value; apply Hfin; assumption. }
  rewrite Hsort.
  pose proof (sort_perm cmp (scores v)) as P.
  assert (Hfin' : forall e, In e (JsArray.sort cmp (scores v)) -> finite_double (snd e)).
  { intros e He. apply Hfin. apply (Permutation_in _ P). exact He. }
  assert (Kle : forall a b, finite_double (snd a) -> finite_double (snd b) ->
                            (key a <= key b <-> value (snd a) <= value (snd b))).
  { intros a b Fa Fb. unfold key. rewrite <- Zle_Qle. symmetry. apply value_le; assumption. }
  assert (Klt : forall a b, finite_double (snd a) -> finite_double (snd b) ->
                            (key a < key b <-> value (snd a) < value (snd b))).
  { intros a b Fa Fb. unfold key. rewrite <- Zlt_Qlt. symmetry. apply value_lt; assumption. }
  assert (Hdesc : descending (List.filter positive (JsArray.sort cmp (scores v)))).
  { apply StronglySorted_filter.
    apply (StronglySorted_in (JsArray.before cmp)).
    - intros a b Ha Hb Hab. apply (descending_iff key) in Hab.
      apply Kle; [apply Hfin', Hb|apply Hfin', Ha|exact Hab].
    - apply sort_sorted; [apply (descending_total key)|apply (descending_trans key)]. }
  destruct (JsArray.sort cmp (scores v)) as [|top rest] eqn:E.
  { left. split; [reflexivity|]. apply Permutation_nil in P. rewrite P. intros e []. }
  destruct (sort_head _ (descending_total key) (descending_trans key) _ _ _ E)
    as (pre & post & Hsc & Hpre & Hpost).
  assert (Ftop : finite_double (snd top)) by (apply Hfin'; left; reflexivity).
  assert (Hle : forall y, In y post -> value (snd y) <= value (snd top)).
  { intros y Hy. apply Kle; [apply Hfin; rewrite Hsc; apply in_app_iff; right; right; exact Hy
                            |exact Ftop|].
    apply (descending_iff key). auto. }
  assert (Hlt : forall y, In y pre -> value (snd y) < value (snd top)).
  { intros y Hy. apply Klt; [apply Hfin; rewrite Hsc; apply in_app_iff; left; exact Hy
                            |exact Ftop|].
    apply Qnot_le_lt. intros H. apply (Hpre y Hy). apply (descending_iff key). exact H. }
  destruct (positive top) eqn:Et.
  - right. exists top, (List.filter positive rest), pre, post.
    cbn [List.filter] in *. rewrite Et in *.
    split; [reflexivity|]. split; [apply above_zero_value; [exact Ftop|exact Et]|].
    split; [exact Hsc|]. split; [exact Hlt|]. split; [exact Hle|exact Hdesc].
  - left.
    assert (Hz : value (snd top) <= 0).
    { apply Qnot_lt_le. intros H. apply (above_zero_value _ Ftop) in H.
      unfold positive in Et. congruence. }
    assert (Hall : forall e, In e (scores v) -> value (snd e) <= 0).
    { intros e He. rewrite Hsc in He. apply in_app_iff in He.
      destruct He as [He|[<-|He]]; [apply Hlt in He|exact Hz|apply Hle in He]; lra. }
    split; [|exact Hall].
    assert (Hall' : forall e, In e (top :: rest) -> positive e = false).
    { intros e He. apply not_true_is_false. intros T.
      apply (above_zero_value _ (Hfin' e He)) in T.
      assert (value (snd e) <= 0); [|lra].
      apply Hall. apply (Permutation_in _ P). exact He. }
    clear -Hall'. induction (top :: rest) as [|e l IH]; [reflexivity|].
    cbn [List.filter]. rewrite (Hall' e) by (left; reflexivity).
    apply IH. intros x Hx. apply Hall'. right. exact Hx.
Qed.

(** Without a number above zero among the scores, nothing is ranked. *)
Lemma sorted_scores64_none v :
  (forall e, In e (scores v) -> ~ positive_number (snd e)) -> sorted_scores v = [].
Proof.
  intros H. unfold sorted_scores.
  pose proof (sort_perm by_score (scores v)) as P.
  assert (Hall : forall e, In e (JsArray.sort by_score (scores v)) -> positive e = false).
  { intros e He. apply not_true_is_false. intros T. apply above_zero_positive in T.
    apply (H e); [|exact T]. apply (Permutation_in _ P). exact He. }
  clear P. induction (JsArray.sort by_score (scores v)) as [|e l IH]; [reflexivity|].
  cbn [List.filter]. rewrite (Hall e) by (left; reflexivity).
  apply IH. intros x Hx. apply Hall. right. exact Hx.
Qed.

(** The department of the keyword path belongs to the enumeration. *)
Lemma score_path64_enum v : In (department (score_path v)) Model.DEPARTMENT_ENUM.
Proof.
  unfold score_path. destruct (sorted_scores v) as [|[topDept topScore] rest] eqn:E.
  - cbn. tauto.
  - cbn [department].
    assert (Hin : In (topDept, topScore) (scores v)).
    { apply (Permutation_in _ (sort_perm by_score (scores v))).
      assert (H : In (topDept, topScore) (sorted_scores v)) by (rewrite E; left; reflexivity).
      unfold sorted_scores in H. apply List.filter_In in H. apply H. }
    apply (List.in_map fst) in Hin. rewrite scores64_order in Hin. cbn [fst] in Hin.
    unfold Model.DEPARTMENT_ENUM. cbn [In] in *. tauto.
Qed.

Lemma mapToDepartment64_enum v : In (department (mapToDepartment v)) Model.DEPARTMENT_ENUM.
Proof.
  unfold mapToDepartment.
  destruct (directDepartment v) as [d|]; [|apply score_path64_enum].
  destruct (source v) as [src|]; [|apply score_path64_enum].
  destruct (negb (String.eqb d "") && String.eqb src "openrouter-vision");
    [|apply score_path64_enum].
  destruct (List.find _ validDepts) as [m|] eqn:F; [|apply score_path64_enum].
  cbn [department]. apply List.find_some in F. destruct F as [F _]. exact F.
Qed.

End Detector64Facts.

Section Detector64Rule.
Import JsString Double Detector64.
Local Open Scope Q_scope.

(** C8. The department detector.
    - A direct guess that comes with the source "openrouter-vision" and
      that equals, letter case apart, a department of the enumeration (or
      "General") is returned as that department with confidence 85, without
      any scoring.
    - Otherwise the keyword scores decide. The departments are scored in
      the order of the enumeration. If no department scores above zero the
      result is "General" with confidence 0 and the reason "Could not match
      image to a specific department".
    - If every score is finite (neither NaN nor an infinity) and one is
      above zero, the result
      is the first department of the enumeration that has the highest score
      (every department listed before it scores strictly less), and the
      confidence is round(topScore / total * 100), at most 99, where the
      total is the sum of the positive scores, added from the highest to the
      lowest, and the sum, the quotient and the product are those of the
      doubles, rounded to nearest. *)
Theorem department_detector_rule (v : VisionResults) :
  let r := mapToDepartment v in
  let k := score_path v in
  (forall d m, directDepartment v = Some d -> source v = Some "openrouter-vision" ->
               guessed d = Some m ->
               department r = m /\ confidence r = Integer 85 /\ matchedKeywords r = Some []
               /\ toLowerCase m = toLowerCase d)
  /\ ((directDepartment v = None \/ source v <> Some "openrouter-vision"
       \/ (forall d, directDepartment v = Some d -> guessed d = None)) -> r = k)
  /\ List.map fst (scores v) =
       ["Water Resources"; "Electricity"; "Roads & Highways"; "Sanitation"; "Public Health";
        "Education"; "Transport"; "Revenue"; "Agriculture"]
  /\ ((forall e, In e (scores v) -> ~ positive_number (snd e)) ->
        department k = "General" /\ confidence k = Integer 0
        /\ reason k = "Could not match image to a specific department")
  /\ ((forall e, In e (scores v) -> finite (snd e)) ->
      (exists e, In e (scores v) /\ 0 < value (snd e)) ->
        exists pre top post ranked,
          scores v = (pre ++ top :: post)%list
          /\ (forall e, In e pre -> value (snd e) < value (snd top))
          /\ (forall e, In e post -> value (snd e) <= value (snd top))
          /\ department k = fst top
          /\ Permutation ranked
               (List.filter (fun e => negb (Qle_bool (value (snd e)) 0)) (scores v))
          /\ descending ranked
          /\ confidence k
             = at_most 99
                 (Math_round
                    (mul (div (snd top) (fold_left add (List.map snd ranked) zero))
                         (of_Z 100)))).
Proof.
  cbv zeta. split; [|split; [|split; [|split]]].
  - intros d m Hd Hs Hg. unfold mapToDepartment. rewrite Hd, Hs.
    assert (Hne : String.eqb d "" = false).
    { destruct (String.eqb_spec d ""); [|reflexivity]. subst d. vm_compute in Hg. discriminate. }
    rewrite Hne. cbn [negb andb]. rewrite String.eqb_refl.
    change validDepts with
      ["Water Resources"; "Electricity"; "Roads & Highways"; "Sanitation"; "Public Health";
       "Education"; "Transport"; "Revenue"; "Agriculture"; "General"].
    fold (guessed d). rewrite Hg. cbn [department confidence matchedKeywords].
    repeat split; try reflexivity.
    unfold guessed in Hg. apply List.find_some in Hg. destruct Hg as [_ Hg].
    apply String.eqb_eq in Hg. exact Hg.
  - intros H. unfold mapToDepartment.
    destruct (directDepartment v) as [d|] eqn:Hd; [|reflexivity].
    destruct (source v) as [src|] eqn:Hs; [|reflexivity].
    destruct (String.eqb d ""); cbn [negb andb]; [reflexivity|].
    destruct (String.eqb_spec src "openrouter-vision") as [->|Hne]; [|reflexivity].
    destruct H as [H|[H|H]]; [discriminate|congruence|].
    change validDepts with
      ["Water Resources"; "Electricity"; "Roads & Highways"; "Sanitation"; "Public Health";
       "Education"; "Transport"; "Revenue"; "Agriculture"; "General"].
    fold (guessed d). rewrite (H d eq_refl). reflexivity.
  - apply scores64_order.
  - intros Hall. unfold score_path. rewrite (sorted_scores64_none v Hall). repeat split.
  - intros Hfinite (e & He & Hepos).
    assert (Hfin : forall e, In e (scores v) -> finite_double (snd e)).
    { intros x Hx. apply finite_grounded; [apply Hfinite, Hx|apply (scores_grounded v x Hx)]. }
    unfold score_path.
    destruct (sorted_scores64_spec v Hfin)
      as [[_ Hall]|(top & rest & pre & post & E & Hpos & Hsc & Hpre & Hpost & Hdesc)].
    { apply Hall in He. lra. }
    exists pre, top, post, (sorted_scores v).
    split; [exact Hsc|]. split; [exact Hpre|]. split; [exact Hpost|].
    assert (Hperm : Permutation (sorted_scores v)
                      (List.filter (fun e => negb (Qle_bool (value (snd e)) 0)) (scores v))).
    { unfold sorted_scores.
      rewrite (filter_perm positive _ _ (sort_perm by_score (scores v))).
      assert (F : List.filter positive (scores v)
                  = List.filter (fun e => negb (Qle_bool (value (snd e)) 0)) (scores v)).
      { apply List.filter_ext_in. intros a Ha. apply eq_true_iff_eq.
        unfold positive. rewrite (above_zero_value _ (Hfin a Ha)), negb_true_iff.
        split.
        - intros L. destruct (Qle_bool (value (snd a)) 0) eqn:B; [|reflexivity].
          apply Qle_bool_iff in B. lra.
        - intros B. apply Qnot_le_lt. intros L. apply Qle_bool_iff in L. congruence. }
      rewrite F. reflexivity. }
    assert (Hgrown : grown (totalScore (sorted_scores v))).
    { unfold totalScore. apply sum_grows; [left; reflexivity| |rewrite E; discriminate].
      intros x Hx. unfold sorted_scores in Hx. apply List.filter_In in Hx.
      destruct Hx as (Hx & Px). split; [|exact Px].
      apply Hfin. apply (Permutation_in _ (sort_perm by_score (scores v))). exact Hx. }
    rewrite E. destruct top as [topDept topScore]. cbn [fst snd] in *.
    cbn [department confidence]. split; [reflexivity|].
    rewrite <- E. split; [exact Hperm|]. split; [exact Hdesc|].
    rewrite (grown_above_zero _ Hgrown), sum_map. reflexivity.
Qed.

(** X25. The range of the department detector in the arithmetic of the
    engine. Whatever the image analysis returns (any doubles, NaN and the
    infinities included), [mapToDepartment] answers with a department of
    the schema's enumeration and reports at most eight labels; a department
    other than "General" that the keyword path answers has a score above
    zero; and a confidence the keyword path gives with a finite quotient is
    an integer of at most 99. *)
Theorem detector64_range (v : VisionResults) :
  let r := mapToDepartment v in
  let k := score_path v in
  In (department r) Model.DEPARTMENT_ENUM
  /\ (List.length (detectedLabels r) <= 8)%nat
  /\ (department k <> "General" ->
      exists x, In (department k, x) (scores v) /\ positive_number x)
  /\ (forall z, confidence k = Integer z -> (z <= 99)%Z).
Proof.
  cbv zeta. split; [apply mapToDepartment64_enum|]. split; [|split].
  - assert (L : (List.length (label_names v) <= 8)%nat).
    { unfold label_names. rewrite List.length_map, List.length_firstn. lia. }
    unfold mapToDepartment, score_path.
    destruct (directDepartment v) as [d|]; [destruct (source v) as [src|]|];
      try destruct (negb (String.eqb d "") && String.eqb src "openrouter-vision");
      try destruct (List.find _ validDepts);
      destruct (sorted_scores v) as [|[topDept topScore] rest]; exact L.
  - unfold score_path.
    destruct (sorted_scores v) as [|[topDept topScore] rest] eqn:E; cbn [department].
    + intros H. contradiction H. reflexivity.
    + intros _. exists topScore.
      assert (H : In (topDept, topScore) (sorted_scores v)) by (rewrite E; left; reflexivity).
      unfold sorted_scores in H. apply List.filter_In in H. destruct H as (H & P).
      split; [apply (Permutation_in _ (sort_perm by_score (scores v))); exact H|].
      apply above_zero_positive. exact P.
  - intros z. unfold score_path.
    destruct (sorted_scores v) as [|[topDept topScore] rest]; cbn [confidence].
    + intros [= <-]. lia.
    + destruct (above_zero _); [|intros [= <-]; lia].
      destruct (Math_round _) as [y| |[]]; cbn [at_most]; intros [= <-]; lia.
Qed.

End Detector64Rule.

(** ** Lifecycle state machine *)

Section LifecycleFacts.
Import Model Runtime Http JsString Lifecycle.

(** The handler, path by path. *)
Lemma updateStatus_run user cid status resolution s :
  updateStatus user cid status resolution s =
  match List.find (fun c => (_id c =? cid)%nat) (complaints s) with
  | None => (Val (json 404 (Message "Complaint not found")), s)
  | Some c =>
      if negb match req_department user with
              | Some d => String.eqb (department c) d
              | None => false
              end
      then (Val (json 403 (Message "Not authorized for this department")), s)
      else
        match requested (validTransitions (Model.status c)) status with
        | None =>
            (Val (json 400 (Message (refusal (Model.status c) status
                                             (validTransitions (Model.status c))))), s)
        | Some target =>
            if status_eqb target Accepted
               && (0 <? List.length (List.filter (other_active (id user) (_id c)) (complaints s)))%nat
            then (Val (json 400 (Message capacity_message)), s)
            else
              let updated := apply_update user target resolution (now s) c in
              (Val (json 200 (Updated "Complaint updated" updated)), updated_state updated s)
        end
  end.
Proof.
  cbv beta iota zeta delta [updateStatus try_catch bind Db.findById get ret].
  destruct (List.find _ (complaints s)) as [c|]; [|reflexivity].
  destruct (negb _); [reflexivity|].
  destruct (requested _ status) as [target|]; [|reflexivity].
  cbv beta iota zeta delta [Db.countDocuments commit_update Date_now bind get ret Db.save
                            emit modify].
  destruct (status_eqb target Accepted); cbn [andb]; [|reflexivity].
  destruct (0 <? _)%nat; reflexivity.
Qed.

Lemma table_iff current target :
  In (current, target) spec_table <-> In target (validTransitions current).
Proof.
  unfold spec_table. destruct current, target; simpl; split; intros H;
    repeat (destruct H as [H|H]; try discriminate H); tauto.
Qed.

Lemma statusName_inj a b : statusName a = statusName b -> a = b.
Proof. destruct a, b; simpl; intros H; try reflexivity; discriminate H. Qed.

Lemma requested_spec current status :
  match requested (validTransitions current) status with
  | Some target => In (current, target) spec_table /\ statusName target = status
  | None => ~ in_table current status
  end.
Proof.
  unfold requested. destruct (List.find _ _) as [t|] eqn:E.
  - apply List.find_some in E. destruct E as [Hin Heq]. apply String.eqb_eq in Heq.
    split; [now apply table_iff|exact Heq].
  - intros (t & Hin & Heq). apply table_iff in Hin.
    pose proof (List.find_none _ _ E t Hin) as H. simpl in H.
    rewrite Heq, String.eqb_refl in H. discriminate.
Qed.

(** Occurrence of a piece inside a concatenation. *)
Lemma prefix_app kw post : String.prefix kw (kw ++ post) = true.
Proof.
  induction kw as [|c kw IH]; simpl; [destruct post; reflexivity|].
  destruct (ascii_dec c c); [exact IH|contradiction].
Qed.

Lemma includes_here kw post : includes (kw ++ post) kw = true.
Proof.
  pose proof (prefix_app kw post) as H.
  destruct (kw ++ post); cbn [includes]; rewrite H; reflexivity.
Qed.

Lemma includes_app_r pre s kw : includes s kw = true -> includes (pre ++ s) kw = true.
Proof.
  intros H. induction pre as [|c pre IH]; [exact H|].
  change (String c pre ++ s) with (String c (pre ++ s)). cbn [includes].
  rewrite IH. apply orb_true_r.
Qed.

Lemma includes_mid pre kw post : includes (pre ++ kw ++ post) kw = true.
Proof. apply includes_app_r, includes_here. Qed.

(** The refusal names the current status, the requested one and every
    allowed one. *)
Lemma refusal_names current status :
  let message := refusal current status (validTransitions current) in
  includes message (statusName current) = true
  /\ includes message status = true
  /\ (forall a, In a (validTransitions current) -> includes message (statusName a) = true)
  /\ (validTransitions current = [] -> includes message "Allowed: none" = true).
Proof.
  cbv zeta. unfold refusal. repeat split.
  - apply includes_app_r. apply includes_app_r. apply includes_here.
  - do 6 apply includes_app_r. apply includes_here.
  - intros a Ha. do 9 apply includes_app_r.
    destruct current; simpl in Ha;
      repeat (destruct Ha as [<-|Ha]; [vm_compute; reflexivity|]); destruct Ha.
  - intros H. do 8 apply includes_app_r. rewrite H. vm_compute. reflexivity.
Qed.

End LifecycleFacts.

Section LifecycleRule.
Import Model Runtime Http JsString Lifecycle.

(** C1, as stated, fails: provider 7 already holds complaint 1 in Accepted,
    and the request to move complaint 2 from Registered to Accepted, a
    transition of the table, is refused. *)
Lemma transition_in_table_refused :
  In (Model.status (Samples.complaint_of 2 Registered (Some 7)), Accepted) spec_table
  /\ updateStatus (Samples.provider_req 7) 2 "Accepted" None Samples.busy_state
     = (Val (json 400 (Message capacity_message)), Samples.busy_state).
Proof. split; [simpl; auto|reflexivity]. Qed.

(** C1, amended. For a complaint of the acting provider's department and
    any requested status: the update is accepted if and only if (current
    status, requested status) is in the table Registered->Accepted,
    Registered->Rejected, Accepted->Working On, Accepted->Rejected,
    Working On->Completed and, when Accepted is requested, the provider holds
    no other complaint in Accepted or Working On. A request outside the table
    is answered 400 with a message that names the current status, the
    requested status and every allowed status ("none" when there is none).
    Whenever the update is not accepted the state is unchanged, and with it
    the complaint's status, assignment, resolution and history; when it is
    accepted the stored complaint is the updated one. *)
Theorem lifecycle_transition_rule (user : ReqUser) (cid : nat) (status : string)
    (resolution : option string) (s : State) (c : Complaint) :
  List.find (fun d => (_id d =? cid)%nat) (complaints s) = Some c ->
  req_department user = Some (department c) ->
  let out := updateStatus user cid status resolution s in
  let others := List.length (List.filter (other_active (id user) (_id c)) (complaints s)) in
  (accepted out <-> in_table (Model.status c) status /\ (status = "Accepted" -> others = 0%nat))
  /\ (~ in_table (Model.status c) status ->
        let message := refusal (Model.status c) status (validTransitions (Model.status c)) in
        fst out = Val (json 400 (Message message))
        /\ includes message (statusName (Model.status c)) = true
        /\ includes message status = true
        /\ (forall a, In (Model.status c, a) spec_table ->
                      includes message (statusName a) = true)
        /\ ((forall a, ~ In (Model.status c, a) spec_table) ->
              includes message "Allowed: none" = true))
  /\ (~ accepted out -> snd out = s)
  /\ (accepted out ->
        exists target, statusName target = status
          /\ out = (Val (json 200 (Updated "Complaint updated"
                                     (apply_update user target resolution (now s) c))),
                    updated_state (apply_update user target resolution (now s) c) s)).
Proof.
  intros Hfind Hdept. cbv zeta. rewrite updateStatus_run, Hfind, Hdept.
  rewrite String.eqb_refl. cbn [negb].
  pose proof (requested_spec (Model.status c) status) as Hreq.
  pose proof (refusal_names (Model.status c) status) as Hnames. cbv zeta in Hnames.
  destruct (requested (validTransitions (Model.status c)) status) as [target|].
  - destruct Hreq as [Hin Hname].
    assert (Htab : in_table (Model.status c) status) by (exists target; auto).
    destruct (status_eqb target Accepted) eqn:Eacc; cbn [andb].
    + assert (target = Accepted) as -> by (destruct target; simpl in Eacc; congruence).
      simpl in Hname. subst status.
      destruct (Nat.ltb_spec 0 (List.length
                  (List.filter (other_active (id user) (_id c)) (complaints s)))) as [Hb|Hb].
      * split; [|split; [|split]].
        -- split; [intros (x & Hx); discriminate Hx|]. intros [_ H]. specialize (H eq_refl). lia.
        -- intros H. destruct (H Htab).
        -- reflexivity.
        -- intros (x & Hx). discriminate Hx.
      * split; [|split; [|split]].
        -- split; [intros _; split; [exact Htab|intros _; lia]|]. intros _. eexists. reflexivity.
        -- intros H. destruct (H Htab).
        -- intros H. exfalso. apply H. eexists. reflexivity.
        -- intros _. exists Accepted. split; reflexivity.
    + assert (Hne : status <> "Accepted").
      { intros ->. destruct target; simpl in Hname, Eacc; congruence. }
      split; [|split; [|split]].
      * split; [intros _; split; [exact Htab|intros E; destruct (Hne E)]|].
        intros _. eexists. reflexivity.
      * intros H. destruct (H Htab).
      * intros H. exfalso. apply H. eexists. reflexivity.
      * intros _. exists target. split; [exact Hname|reflexivity].
  - split; [|split; [|split]].
    + split; [intros (x & Hx); discriminate Hx|]. intros [H _]. destruct (Hreq H).
    + intros _. cbv zeta. split; [reflexivity|].
      destruct Hnames as (N1 & N2 & N3 & N4).
      split; [exact N1|]. split; [exact N2|]. split.
      * intros a Ha. apply N3. now apply table_iff.
      * intros Hnone. apply N4.
        destruct (validTransitions (Model.status c)) as [|a l] eqn:E; [reflexivity|].
        exfalso. apply (Hnone a). apply table_iff. rewrite E. simpl; auto.
    + reflexivity.
    + intros (x & Hx). discriminate Hx.
Qed.

End LifecycleRule.

Section Capacity.
Import Model Runtime Http JsString Lifecycle.

Lemma find_by_id cid cs c :
  List.find (fun d => (_id d =? cid)%nat) cs = Some c -> In c cs /\ _id c = cid.
Proof.
  intros H. apply List.find_some in H. destruct H as [Hin Heq].
  apply Nat.eqb_eq in Heq. auto.
Qed.

(** Replacing the one document that carries an id: the count of a property
    is the count over the other documents, plus one if the new document has
    the property. *)
Lemma count_after_replace (P : Complaint -> bool) (c' : Complaint) : forall cs,
  List.NoDup (List.map _id cs) ->
  In (_id c') (List.map _id cs) ->
  List.length (List.filter P
                 (List.map (fun d => if (_id d =? _id c')%nat then c' else d) cs))
  = (List.length (List.filter (fun d => P d && negb (_id d =? _id c')%nat) cs)
     + (if P c' then 1 else 0))%nat.
Proof.
  assert (Habsent : forall cs, ~ In (_id c') (List.map _id cs) ->
    List.length (List.filter P
                   (List.map (fun d => if (_id d =? _id c')%nat then c' else d) cs))
    = List.length (List.filter (fun d => P d && negb (_id d =? _id c')%nat) cs)).
  { induction cs as [|d cs IH]; intros Hn; [reflexivity|]. simpl in Hn. simpl.
    destruct (Nat.eqb_spec (_id d) (_id c')) as [E|E]; [tauto|].
    rewrite andb_true_r. destruct (P d); simpl; rewrite IH; tauto. }
  induction cs as [|d cs IH]; intros ND Hin; [destruct Hin|].
  simpl in ND. inversion ND as [|? ? Hnot ND']; subst. simpl.
  destruct (Nat.eqb_spec (_id d) (_id c')) as [E|E].
  - rewrite andb_false_r. rewrite E in Hnot.
    destruct (P c'); simpl; rewrite (Habsent cs Hnot); lia.
  - rewrite andb_true_r. destruct Hin as [Hin|Hin]; [contradiction|].
    destruct (P d); simpl; rewrite (IH ND' Hin); lia.
Qed.

Lemma filter_length_le {A} (f g : A -> bool) l :
  (forall x, f x = true -> g x = true) ->
  (List.length (List.filter f l) <= List.length (List.filter g l))%nat.
Proof.
  intros H. induction l as [|x l IH]; simpl; [lia|].
  destruct (f x) eqn:E.
  - rewrite (H x E). simpl. lia.
  - destruct (g x); simpl; lia.
Qed.

(** The handler's count and capacity one, as the handler computes them. *)
Lemma accept_counts (user : ReqUser) (cid : nat) (resolution : option string)
    (s : State) :
  List.NoDup (List.map _id (complaints s)) ->
  capacity_respected (complaints s) ->
  let out := updateStatus user cid "Accepted" resolution s in
  capacity_respected (complaints (snd out))
  /\ (forall c,
        List.find (fun d => (_id d =? cid)%nat) (complaints s) = Some c ->
        req_department user = Some (department c) ->
        Model.status c = Registered ->
        let others :=
          List.length
            (List.filter
               (fun d => opt_nat_eqb (assignedTo d) (id user)
                         && holds_job (Model.status d) && negb (_id d =? _id c)%nat)
               (complaints s)) in
        ((0 < others)%nat -> out = (Val (json 400 (Message capacity_message)), s))
        /\ (others = 0%nat ->
            out = (let updated := apply_update user Accepted resolution (now s) c in
                   (Val (json 200 (Updated "Complaint updated" updated)),
                    updated_state updated s)))).
Proof.
  intros ND Hcap. cbv zeta. rewrite updateStatus_run. split.
  - destruct (List.find _ (complaints s)) as [c|] eqn:Hfind; [|exact Hcap].
    destruct (negb _); [exact Hcap|].
    pose proof (requested_spec (Model.status c) "Accepted") as Hreq.
    destruct (requested _ "Accepted") as [target|]; [|exact Hcap].
    destruct Hreq as [_ Hname].
    assert (target = Accepted) as -> by (apply statusName_inj; exact Hname).
    cbn [status_eqb andb].
    destruct (Nat.ltb_spec 0 (List.length
                (List.filter (other_active (id user) (_id c)) (complaints s)))) as [Hb|Hb];
      [exact Hcap|].
    cbv zeta. unfold updated_state. cbn [snd complaints with_log with_complaints].
    set (c' := apply_update user Accepted resolution (now s) c).
    destruct (find_by_id _ _ _ Hfind) as [Hin Hid].
    assert (Hin' : In (_id c') (List.map _id (complaints s))).
    { change (_id c') with (_id c). apply List.in_map. exact Hin. }
    intros provider. unfold jobs_held.
    rewrite (count_after_replace _ c' _ ND Hin').
    destruct (Nat.eq_dec provider (id user)) as [->|Hne].
    + assert (Hz : List.length
                (List.filter
                   (fun d => opt_nat_eqb (assignedTo d) (id user)
                             && holds_job (Model.status d) && negb (_id d =? _id c')%nat)
                   (complaints s)) = 0%nat).
      { change (_id c') with (_id c). unfold other_active in Hb. lia. }
      rewrite Hz. destruct (_ && _); lia.
    + assert (Hf : opt_nat_eqb (assignedTo c') provider && holds_job (Model.status c') = false).
      { simpl. destruct (Nat.eqb_spec (id user) provider); [congruence|reflexivity]. }
      rewrite Hf, Nat.add_0_r.
      etransitivity; [|apply (Hcap provider)]. unfold jobs_held.
      apply filter_length_le. intros x Hx. apply andb_true_iff in Hx. tauto.
  - intros c Hfind Hdept Hreg. cbv zeta. rewrite Hfind, Hdept, String.eqb_refl, Hreg.
    cbn [negb validTransitions requested List.find statusName String.eqb Ascii.eqb
         Bool.eqb status_eqb andb].
    unfold other_active.
    destruct (Nat.ltb_spec 0 (List.length
                (List.filter
                   (fun d => opt_nat_eqb (assignedTo d) (id user)
                             && holds_job (Model.status d) && negb (_id d =? _id c)%nat)
                   (complaints s)))) as [Hb|Hb].
    + split; [reflexivity|lia].
    + split; [lia|]. intros _. reflexivity.
Qed.


Lemma opt_nat_eqb_eq o n : opt_nat_eqb o n = true <-> o = Some n.
Proof.
  unfold opt_nat_eqb. destruct o as [m|]; [|split; discriminate].
  rewrite Nat.eqb_eq. split; congruence.
Qed.

(** The handler's test of a held complaint is the one of the rule. *)
Lemma holds_test provider c :
  opt_nat_eqb (assignedTo c) provider && holds_job (Model.status c) = true
  <-> holds provider c.
Proof.
  unfold holds. rewrite andb_true_iff, opt_nat_eqb_eq.
  destruct (Model.status c); cbn [holds_job]; intuition discriminate.
Qed.

Lemma NoDup_ids_filter (f : Complaint -> bool) cs :
  List.NoDup (List.map _id cs) -> List.NoDup (List.map _id (List.filter f cs)).
Proof.
  induction cs as [|x cs IH]; intros ND; [constructor|].
  cbn [List.map] in ND. inversion ND as [|? ? Hn ND']; subst. cbn [List.filter].
  destruct (f x); [|exact (IH ND')]. cbn [List.map]. constructor; [|exact (IH ND')].
  intros Hin. apply Hn. apply List.in_map_iff in Hin. destruct Hin as (y & E & Hy).
  apply List.filter_In in Hy. apply List.in_map_iff. exists y. tauto.
Qed.

(** With distinct object ids, counting at most one held complaint for each
    provider says that no provider holds two. *)
Lemma capacity_one_job cs :
  List.NoDup (List.map _id cs) -> (capacity_respected cs <-> one_job_each cs).
Proof.
  intros ND. unfold capacity_respected, one_job_each, jobs_held. split.
  - intros H provider c d Hc Hd Pc Pd. specialize (H provider).
    assert (Ic : In c (List.filter (fun c => opt_nat_eqb (assignedTo c) provider
                                             && holds_job (Model.status c)) cs))
      by (apply List.filter_In; split; [exact Hc|apply holds_test; exact Pc]).
    assert (Id : In d (List.filter (fun c => opt_nat_eqb (assignedTo c) provider
                                             && holds_job (Model.status c)) cs))
      by (apply List.filter_In; split; [exact Hd|apply holds_test; exact Pd]).
    destruct (List.filter _ cs) as [|x [|y l]]; cbn [List.length] in H; [destruct Ic| |lia].
    destruct Ic as [<-|[]], Id as [<-|[]]. reflexivity.
  - intros H provider.
    pose proof (NoDup_ids_filter (fun c => opt_nat_eqb (assignedTo c) provider
                                           && holds_job (Model.status c)) cs ND) as NF.
    assert (Sub : forall x, In x (List.filter (fun c => opt_nat_eqb (assignedTo c) provider
                                                        && holds_job (Model.status c)) cs) ->
                            In x cs /\ holds provider x).
    { intros x Hx. apply List.filter_In in Hx. destruct Hx as (Hx & Px).
      split; [exact Hx|apply holds_test; exact Px]. }
    destruct (List.filter _ cs) as [|x [|y l]]; cbn [List.length]; [lia|lia|].
    exfalso. destruct (Sub x (or_introl eq_refl)) as (Hx & Px).
    destruct (Sub y (or_intror (or_introl eq_refl))) as (Hy & Py).
    cbn [List.map] in NF. inversion NF as [|? ? Hn _]; subst. apply Hn.
    left. symmetry. exact (H provider x y Hx Hy Px Py).
Qed.

Lemma updateStatus_ids user cid status resolution s :
  List.map _id (complaints (snd (updateStatus user cid status resolution s)))
  = List.map _id (complaints s).
Proof.
  rewrite updateStatus_run.
  destruct (List.find _ (complaints s)) as [c|] eqn:Hfind; [|reflexivity].
  destruct (negb _); [reflexivity|].
  destruct (requested _ status) as [target|]; [|reflexivity].
  destruct (_ && _); [reflexivity|].
  cbv zeta. unfold updated_state. cbn [snd complaints with_log with_complaints].
  rewrite List.map_map. apply List.map_ext. intros d.
  destruct (Nat.eqb_spec (_id d) (_id (apply_update user target resolution (now s) c)));
    [symmetry; assumption|reflexivity].
Qed.

(** C2. Capacity one is kept by accepting.
    In a collection with distinct object ids in which no provider holds two
    complaints (a provider holds a complaint that is assigned to them and is
    in Accepted or Working On), a request to move a complaint to Accepted
    leaves that invariant in place, whatever its outcome. When the request
    reaches the capacity check (the complaint exists, belongs to the
    provider's department and is in Registered): if the provider holds some
    other complaint, the handler answers 400 with the message that tells the
    provider to complete the current job first, and the state is unchanged;
    if the provider holds no other complaint, the update is accepted: the
    answer is 200 and the stored complaint is in Accepted and assigned to
    the provider. *)
Theorem accept_keeps_capacity (user : ReqUser) (cid : nat) (resolution : option string)
    (s : State) :
  List.NoDup (List.map _id (complaints s)) ->
  one_job_each (complaints s) ->
  let out := updateStatus user cid "Accepted" resolution s in
  one_job_each (complaints (snd out))
  /\ (forall c,
        List.find (fun d => (_id d =? cid)%nat) (complaints s) = Some c ->
        req_department user = Some (department c) ->
        Model.status c = Registered ->
        ((exists d, In d (complaints s) /\ _id d <> _id c /\ holds (id user) d) ->
           out = (Val (json 400
                    (Message "You already have an active complaint. Please complete it before accepting a new one.")),
                  s))
        /\ ((forall d, In d (complaints s) -> holds (id user) d -> _id d = _id c) ->
            exists c',
              fst out = Val (json 200 (Updated "Complaint updated" c'))
              /\ In c' (complaints (snd out))
              /\ _id c' = _id c
              /\ Model.status c' = Accepted
              /\ holds (id user) c')).
Proof.
  intros ND Hone. cbv zeta.
  pose proof (proj2 (capacity_one_job _ ND) Hone) as Hcap.
  destruct (accept_counts user cid resolution s ND Hcap) as (Hkeep & Hcheck).
  cbv zeta in Hkeep, Hcheck. split.
  - apply capacity_one_job; [|exact Hkeep]. rewrite updateStatus_ids. exact ND.
  - intros c Hfind Hdept Hreg. destruct (Hcheck c Hfind Hdept Hreg) as (Hbusy & Hfree).
    split.
    + intros (d & Hd & Hne & Hh). apply Hbusy.
      assert (Hin : In d (List.filter
                 (fun d => opt_nat_eqb (assignedTo d) (id user)
                           && holds_job (Model.status d) && negb (_id d =? _id c)%nat)
                 (complaints s))).
      { apply List.filter_In. split; [exact Hd|]. apply andb_true_iff. split.
        - apply holds_test. exact Hh.
        - apply negb_true_iff, Nat.eqb_neq. exact Hne. }
      destruct (List.filter _ (complaints s)); [destruct Hin|cbn [List.length]; lia].
    + intros Hnone.
      assert (Hz : List.length (List.filter
                 (fun d => opt_nat_eqb (assignedTo d) (id user)
                           && holds_job (Model.status d) && negb (_id d =? _id c)%nat)
                 (complaints s)) = 0%nat).
      { destruct (List.filter _ (complaints s)) as [|d l] eqn:F; [reflexivity|exfalso].
        assert (Hin : In d (List.filter
                   (fun d => opt_nat_eqb (assignedTo d) (id user)
                             && holds_job (Model.status d) && negb (_id d =? _id c)%nat)
                   (complaints s))) by (rewrite F; left; reflexivity).
        apply List.filter_In in Hin. destruct Hin as (Hd & T).
        apply andb_true_iff in T. destruct T as (T & Hne).
        apply negb_true_iff, Nat.eqb_neq in Hne. apply Hne.
        apply Hnone; [exact Hd|apply holds_test; exact T]. }
      rewrite (Hfree Hz). cbv zeta. cbn [fst snd].
      exists (apply_update user Accepted resolution (now s) c).
      split; [reflexivity|]. split.
      * unfold updated_state. cbn [complaints with_log with_complaints].
        apply List.in_map_iff. exists c. destruct (find_by_id _ _ _ Hfind) as (Hin & _).
        split; [|exact Hin]. cbn [apply_update _id]. rewrite Nat.eqb_refl. reflexivity.
      * split; [reflexivity|]. split; [reflexivity|].
        split; [reflexivity|left; reflexivity].
Qed.

End Capacity.

(** ** Dispatch balancer *)

Section DispatchFacts.
Import Model Runtime DispatchBalancer.

Lemma count_in_keys g k x :
  In x (List.map fst (count_in g k)) <-> x = k \/ In x (List.map fst g).
Proof.
  induction g as [|[k' n] g IH]; simpl; [intuition|].
  destruct (Nat.eqb_spec k' k) as [->|E]; simpl; [intuition|].
  rewrite IH. intuition.
Qed.

Lemma count_in_NoDup g k : List.NoDup (List.map fst g) -> List.NoDup (List.map fst (count_in g k)).
Proof.
  induction g as [|[k' n] g IH]; simpl; intros ND.
  - repeat constructor. intros [].
  - inversion ND as [|? ? Hnot ND']; subst.
    destruct (Nat.eqb_spec k' k) as [->|E]; simpl; [constructor; assumption|].
    constructor; [|auto]. rewrite count_in_keys. intros [->|H]; [congruence|contradiction].
Qed.

Lemma count_in_same g k : count_of (count_in g k) k = S (count_of g k).
Proof.
  induction g as [|[k' n] g IH]; simpl.
  - rewrite Nat.eqb_refl. reflexivity.
  - destruct (Nat.eqb_spec k' k) as [->|E]; simpl.
    + rewrite Nat.eqb_refl. reflexivity.
    + destruct (Nat.eqb_spec k' k); [contradiction|exact IH].
Qed.

Lemma count_in_other g k k0 : k0 <> k -> count_of (count_in g k) k0 = count_of g k0.
Proof.
  intros Hne. induction g as [|[k' n] g IH]; simpl.
  - destruct (Nat.eqb_spec k k0); [congruence|reflexivity].
  - destruct (Nat.eqb_spec k' k) as [->|E]; simpl.
    + destruct (Nat.eqb_spec k k0); [congruence|reflexivity].
    + destruct (Nat.eqb_spec k' k0); [reflexivity|exact IH].
Qed.

Lemma fold_count_in ks : forall g k,
  List.NoDup (List.map fst g) ->
  List.NoDup (List.map fst (fold_left count_in ks g))
  /\ count_of (fold_left count_in ks g) k
     = (count_of g k + List.length (List.filter (Nat.eqb k) ks))%nat.
Proof.
  induction ks as [|x ks IH]; intros g k ND; simpl; [split; [exact ND|lia]|].
  destruct (IH (count_in g x) k (count_in_NoDup g x ND)) as [ND' Hc].
  split; [exact ND'|]. rewrite Hc.
  destruct (Nat.eqb_spec k x) as [->|E]; simpl.
  - rewrite count_in_same. lia.
  - rewrite count_in_other by exact E. lia.
Qed.

(** Reading the load map gives the count of the groups. *)
Lemma build_loadMap_lookup g k :
  List.NoDup (List.map fst g) ->
  match build_loadMap g !! k with
  | Some n => n
  | None => 0%nat
  end = count_of g k.
Proof.
  unfold build_loadMap.
  assert (G : forall (m : gmap nat nat), List.NoDup (List.map fst g) ->
    fold_left (fun m item => <[fst item := snd item]> m) g m !! k
    = if existsb (Nat.eqb k) (List.map fst g) then Some (count_of g k) else m !! k).
  { induction g as [|[k' n] g IH]; intros m ND; simpl; [reflexivity|].
    inversion ND as [|? ? Hnot ND']; subst. rewrite (IH _ ND'). simpl.
    destruct (existsb (Nat.eqb k) (List.map fst g)) eqn:Ex.
    - rewrite orb_true_r.
      destruct (Nat.eqb_spec k' k) as [->|E]; [|reflexivity].
      exfalso. apply Hnot. apply existsb_exists in Ex. destruct Ex as (y & Hy & Ey).
      apply Nat.eqb_eq in Ey. now subst.
    - rewrite orb_false_r. rewrite (Nat.eqb_sym k k').
      destruct (Nat.eqb_spec k' k) as [->|E].
      + apply lookup_insert_eq.
      + apply lookup_insert_ne. exact E. }
  intros ND. rewrite (G ∅ ND).
  destruct (existsb (Nat.eqb k) (List.map fst g)) eqn:Ex; [reflexivity|].
  rewrite lookup_empty.
  clear -Ex. induction g as [|[k' n] g IH]; simpl in *; [reflexivity|].
  apply orb_false_iff in Ex. destruct Ex as [E1 E2]. rewrite Nat.eqb_sym, E1. auto.
Qed.

Lemma matched_count ids k cs :
  In k ids ->
  List.length (List.filter (Nat.eqb k) (List.map assignee (List.filter (matches ids) cs)))
  = active_load cs k.
Proof.
  intros Hin. unfold active_load. induction cs as [|c cs IH]; [reflexivity|].
  cbn [List.filter]. unfold matches at 1, opt_nat_eqb at 1.
  destruct (assignedTo c) as [a|] eqn:Ea; [|exact IH].
  destruct (is_active (status c)); rewrite ?andb_true_r, ?andb_false_r; [|exact IH].
  destruct (existsb (Nat.eqb a) ids) eqn:Ex.
  - cbn [List.map List.filter]. unfold assignee at 1. rewrite Ea, (Nat.eqb_sym k a).
    destruct (a =? k)%nat; cbn [List.length]; [f_equal|]; exact IH.
  - assert ((a =? k)%nat = false) as ->; [|exact IH].
    destruct (Nat.eqb_spec a k) as [->|]; [|reflexivity].
    rewrite <- Ex. symmetry. apply existsb_exists. exists k.
    split; [exact Hin|apply Nat.eqb_refl].
Qed.

(** The aggregation counts, for each provider it was asked about, the
    complaints assigned to them that are active. *)
Lemma activeCount_spec ids cs p :
  In (u_id p) ids ->
  activeCount_of (build_loadMap (aggregate ids cs)) p = active_load cs (u_id p).
Proof.
  intros Hin. unfold activeCount_of, aggregate.
  destruct (fold_count_in (List.map assignee (List.filter (matches ids) cs)) [] (u_id p))
    as [ND Hc]; [constructor|].
  rewrite (build_loadMap_lookup _ _ ND), Hc. simpl. apply matched_count. exact Hin.
Qed.

End DispatchFacts.

Section DispatchChoice.
Import Model Runtime DispatchBalancer.

Lemma load_key_le a b : (load_key a <= load_key b)%Q <-> (snd a <= snd b)%nat.
Proof. unfold load_key. rewrite <- Zle_Qle. lia. Qed.

Lemma load_key_lt a b : (load_key a < load_key b)%Q <-> (snd a < snd b)%nat.
Proof. unfold load_key. rewrite <- Zlt_Qlt. lia. Qed.

(** The choice among a non-empty list of providers: the first one of least
    active load. *)
Lemma choose_spec providers cs :
  providers <> [] ->
  exists pre p post,
    providers = (pre ++ p :: post)%list
    /\ choose providers cs = Some p
    /\ (forall q, In q pre -> (active_load cs (u_id p) < active_load cs (u_id q))%nat)
    /\ (forall q, In q post -> (active_load cs (u_id p) <= active_load cs (u_id q))%nat).
Proof.
  intros Hne. unfold choose. cbv zeta.
  set (loadMap := build_loadMap (aggregate (List.map u_id providers) cs)).
  set (f := fun p : User => (p, activeCount_of loadMap p)).
  assert (Hload : forall q, In q providers -> snd (f q) = active_load cs (u_id q)).
  { intros q Hq. unfold f, loadMap. simpl. apply activeCount_spec. apply List.in_map. exact Hq. }
  pose proof (sort_perm by_load (List.map f providers)) as P.
  destruct (JsArray.sort by_load (List.map f providers)) as [|top rest] eqn:E.
  { apply Permutation_nil in P. destruct providers; [congruence|discriminate]. }
  destruct (sort_head by_load (ascending_total load_key) (ascending_trans load_key) _ _ _ E)
    as (pre' & post' & Hsplit & Hpre & Hpost).
  apply List.map_eq_app in Hsplit. destruct Hsplit as (pre & tail & -> & <- & Htail).
  destruct tail as [|p post]; [discriminate|]. simpl in Htail. injection Htail as <- <-.
  assert (Hle : forall y, In y (List.map f post) -> (snd (f p) <= snd y)%nat).
  { intros y Hy. apply load_key_le. apply (ascending_iff load_key). auto. }
  assert (Hlt : forall y, In y (List.map f pre) -> (snd (f p) < snd y)%nat).
  { intros y Hy. apply load_key_lt. apply Qnot_le_lt. intros H. apply (Hpre y Hy).
    apply (ascending_iff load_key). exact H. }
  exists pre, p, post. split; [reflexivity|].
  assert (Hp : In p (pre ++ p :: post)) by (apply in_app_iff; simpl; auto).
  split; [|split].
  - destruct (List.find (fun q => (snd q =? 0)%nat) (f p :: rest)) as [q|] eqn:Ef;
      [|reflexivity].
    cbn [List.find] in Ef. destruct (Nat.eqb_spec (snd (f p)) 0) as [Ez|Ez].
    { injection Ef as <-. reflexivity. }
    exfalso. apply List.find_some in Ef. destruct Ef as [Hin Hz]. apply Nat.eqb_eq in Hz.
    assert (Hq : In q (List.map f (pre ++ p :: post))).
    { apply (Permutation_in _ P). right. exact Hin. }
    rewrite List.map_app in Hq. apply in_app_iff in Hq. simpl in Hq.
    destruct Hq as [Hq|[Hq|Hq]].
    + apply Hlt in Hq. lia.
    + rewrite <- Hq in Hz. contradiction.
    + apply Hle in Hq. lia.
  - intros q Hq. rewrite <- !Hload by (apply in_app_iff; simpl; auto).
    apply Hlt. apply List.in_map. exact Hq.
  - intros q Hq. rewrite <- !Hload by (apply in_app_iff; simpl; auto).
    apply Hle. apply List.in_map. exact Hq.
Qed.

Lemma assign_run department s :
  assignProviderForDepartment department s =
  let providers := providers_of department (users s) in
  if (List.length providers =? 0)%nat
  then (Val None, with_log (log s ++ [Balanced department None]) s)
  else (Val (choose providers (complaints s)),
        with_log (log s ++ [Balanced department
                              (option_map u_name (choose providers (complaints s)))]) s).
Proof.
  cbv beta iota zeta delta [assignProviderForDepartment try_catch bind get ret emit modify].
  destruct (List.length (providers_of department (users s)) =? 0)%nat; reflexivity.
Qed.

End DispatchChoice.

(** ** Complaint creation *)

Section CreateFacts.
Import Model Runtime Http JsString Complaints.

Lemma prioritize_sound description department s :
  exists p s', PriorityAssigner.prioritizeComplaint description department s = (Val p, s')
               /\ Gateway.gateway_only s s'.
Proof.
  unfold PriorityAssigner.prioritizeComplaint.
  destruct (callAI_sound 10 s) as (r & s' & H & G & _).
  rewrite (bind_val _ _ _ _ _ H).
  destruct r as [r|]; [|eexists _, _; split; [reflexivity|exact G]].
  destruct (String.eqb r ""); [eexists _, _; split; [reflexivity|exact G]|].
  destruct (List.find _ _); eexists _, _; (split; [reflexivity|exact G]).
Qed.

Lemma detect_sound decode description department area existing s :
  exists v s',
    IntegrityFilter.detectDuplicateOrFake decode description department area existing s
    = (Val v, s')
    /\ Gateway.gateway_only s s'.
Proof.
  unfold IntegrityFilter.detectDuplicateOrFake.
  destruct (_ || _); [eexists _, _; split; [reflexivity|apply gateway_only_refl]|].
  destruct (0 <? _)%nat; [|eexists _, _; split; [reflexivity|apply gateway_only_refl]].
  destruct (callAI_sound 150 s) as (r & s' & H & G & _).
  rewrite (bind_val _ _ _ _ _ H).
  destruct r as [r|]; [|eexists _, _; split; [reflexivity|exact G]].
  destruct (String.eqb r ""); [eexists _, _; split; [reflexivity|exact G]|].
  destruct (decode r); eexists _, _; (split; [reflexivity|exact G]).
Qed.

Lemma integrity_check_sound env i s :
  exists v s', integrity_check env i s = (Val v, s') /\ Gateway.gateway_only s s'.
Proof.
  unfold integrity_check.
  destruct (detect_sound (decode env) (in_description i) (in_department i) (in_area i)
              (existing_for (in_department i) (complaints s)) s) as (v & s' & H & G).
  exists v, s'. split; [|exact G].
  apply try_catch_val. cbv beta iota zeta delta [bind get]. exact H.
Qed.

(** The handler after the fake check, step by step. *)
Lemma register_run user env i v s :
  exists priority s1,
    PriorityAssigner.prioritizeComplaint (in_description i) (in_department i) s
    = (Val priority, s1)
    /\ Gateway.gateway_only s s1
    /\ let t := now s1 in
       let assigned :=
         if IntegrityFilter.v_isDuplicate v then (Val None, s1)
         else DispatchBalancer.assignProviderForDepartment (in_department i) s1 in
       exists ap s2,
         assigned = (Val ap, s2)
         /\ let c := new_complaint user i v priority (make_ticketId t (random env)) ap t
                                   (Db.fresh_id (complaints s)) in
            register user env i v s =
            if negb (Db.valid c) then (Exn (plain_error "Complaint validation failed"), s2)
            else if existsb (fun d => String.eqb (ticketId d) (ticketId c)) (complaints s)
            then (Exn (plain_error "E11000 duplicate key error"), s2)
            else
              (Val (json 201
                      (Created
                         {| r_message :=
                              if IntegrityFilter.v_isDuplicate v
                              then "Complaint flagged as potential duplicate of "
                                   ++ show_ref (IntegrityFilter.v_duplicateOf v)
                              else "Complaint registered successfully";
                            r_ticketId := Model.ticketId c;
                            r_priority := Model.priority c;
                            r_isDuplicate := Model.isDuplicate c;
                            r_aiRemarks := Model.aiRemarks c;
                            r_assignedTo := option_map u_name ap;
                            r_department := Model.department c;
                            r_address := Model.address c;
                            r_area := Model.area c |})),
               saved_state c ap s2).
Proof.
  destruct (prioritize_sound (in_description i) (in_department i) s) as (p & s1 & Hp & G).
  exists p, s1. split; [exact Hp|]. split; [exact G|]. cbv zeta.
  assert (Hassign : exists ap s2,
    (if IntegrityFilter.v_isDuplicate v then (Val None, s1)
     else DispatchBalancer.assignProviderForDepartment (in_department i) s1) = (Val ap, s2)
    /\ complaints s2 = complaints s1).
  { destruct (IntegrityFilter.v_isDuplicate v); [eexists _, _; split; reflexivity|].
    rewrite assign_run. cbv zeta. destruct (_ =? 0)%nat; eexists _, _; split; reflexivity. }
  destruct Hassign as (ap & s2 & Ha & Hc). exists ap, s2. split; [exact Ha|].
  assert (Hcs : complaints s2 = complaints s).
  { rewrite Hc. destruct G as (G & _). exact G. }
  unfold register.
  rewrite (bind_val _ _ _ _ _ (try_catch_val _ _ _ _ _ Hp)).
  cbv beta iota zeta delta [Date_now bind get ret].
  assert (Ha' : (if negb (IntegrityFilter.v_isDuplicate v)
                 then DispatchBalancer.assignProviderForDepartment (in_department i)
                 else fun s0 => (Val None, s0)) s1 = (Val ap, s2)).
  { destruct (IntegrityFilter.v_isDuplicate v); exact Ha. }
  rewrite Ha'. cbv beta iota zeta delta [Db.insert bind get throw modify ret emit].
  rewrite Hcs.
  destruct (negb (Db.valid _)); [reflexivity|].
  destruct (existsb _ (complaints s)); [reflexivity|].
  unfold saved_state. rewrite Hcs. destruct ap; reflexivity.
Qed.

(** Every way a creation request can end. *)
Lemma create_cases user body env s :
  let i := intake body env in
  let out := create user body env s in
  (exists message, out = (Val (json 400 (NeedsInput message)), s)
                   /\ (truthy (b_photo body) = false \/ truthy (b_description body) = false))
  \/ exists v s1,
       truthy (b_photo body) = true /\ truthy (b_description body) = true
       /\ integrity_check env i s = (Val v, s1) /\ Gateway.gateway_only s s1
       /\ ((IntegrityFilter.v_isFake v = true /\ out = (Val (fake_rejection v), s1))
           \/ (IntegrityFilter.v_isFake v = false
               /\ exists priority s2 ap s3,
                    PriorityAssigner.prioritizeComplaint (in_description i) (in_department i) s1
                    = (Val priority, s2)
                    /\ Gateway.gateway_only s1 s2
                    /\ dispatch v (in_department i) s2 = (Val ap, s3)
                    /\ let c := new_complaint user i v priority
                                   (make_ticketId (now s2) (random env)) ap (now s2)
                                   (Db.fresh_id (complaints s)) in
                       (storable c (complaints s) = true
                        /\ out = (Val (json 201 (created_body c v ap)), saved_state c ap s3))
                       \/ (storable c (complaints s) = false
                           /\ exists message, out = (Val (json 500 (Message message)), s3)))).
Proof.
  intros i out.
  assert (Hout : out = create user body env s) by reflexivity. clearbody out. subst i.
  unfold create in Hout.
  destruct (truthy (b_photo body)) eqn:Hphoto; cbn [negb] in Hout;
    [|left; eexists; split; [exact Hout|auto]].
  destruct (truthy (b_description body)) eqn:Hdesc; cbn [negb] in Hout;
    [|left; eexists; split; [exact Hout|auto]].
  right.
  destruct (integrity_check_sound env (intake body env) s) as (v & s1 & Hv & G).
  exists v, s1. split; [reflexivity|]. split; [reflexivity|]. split; [exact Hv|].
  split; [exact G|].
  unfold try_catch in Hout. rewrite (bind_val _ _ _ _ _ Hv) in Hout.
  destruct (IntegrityFilter.v_isFake v) eqn:Hfake; [left; split; [reflexivity|exact Hout]|].
  right. split; [reflexivity|].
  destruct (register_run user env (intake body env) v s1)
    as (priority & s2 & Hp & G2 & ap & s3 & Ha & Hreg).
  cbv zeta in Ha, Hreg.
  exists priority, s2, ap, s3. split; [exact Hp|]. split; [exact G2|].
  assert (Hcs : complaints s1 = complaints s) by (destruct G as (G & _); exact G).
  split.
  { unfold dispatch. destruct (IntegrityFilter.v_isDuplicate v); exact Ha. }
  cbv zeta. rewrite Hreg, Hcs in Hout. unfold storable.
  destruct (Db.valid _); cbn [negb andb] in *.
  - destruct (existsb _ (complaints s)); cbn [negb].
    + right. split; [reflexivity|]. eexists. exact Hout.
    + left. split; [reflexivity|exact Hout].
  - right. split; [reflexivity|]. eexists. exact Hout.
Qed.

End CreateFacts.

Section CreateRules.
Import Model Runtime Http JsString Complaints.


Lemma dispatch_run v department s :
  dispatch v department s =
  if IntegrityFilter.v_isDuplicate v then (Val None, s)
  else
    let providers := DispatchBalancer.providers_of department (users s) in
    let chosen := if (List.length providers =? 0)%nat then None
                  else DispatchBalancer.choose providers (complaints s) in
    (Val chosen, with_log (log s ++ [Balanced department (option_map u_name chosen)]) s).
Proof.
  unfold dispatch. destruct (IntegrityFilter.v_isDuplicate v); [reflexivity|].
  cbn [negb]. rewrite assign_run. cbv zeta. destruct (_ =? 0)%nat; reflexivity.
Qed.


Lemma saved_state_complaints c ap s :
  complaints (saved_state c ap s) = (complaints s ++ [c])%list.
Proof. unfold saved_state. destruct ap; reflexivity. Qed.


End CreateRules.

(** ** Invariants of the reachable states *)

Section Invariants.
Import Model Runtime Http JsString Complaints.

Lemma rate_run user cid rating feedback s :
  Complaints.rate user cid rating feedback s =
  if ((rating =? 0) || (rating <? 1) || (5 <? rating))%nat
  then (Val (json 400 (Message "Rating must be between 1 and 5")), s)
  else
    match List.find (fun c => (_id c =? cid)%nat) (complaints s) with
    | None => (Val (json 404 (Message "Complaint not found")), s)
    | Some c =>
        if negb (userId c =? id user)%nat
        then (Val (json 403 (Message "You can only rate your own complaints")), s)
        else if negb (status_eqb (status c) Completed)
        then (Val (json 400 (Message "Can only rate completed complaints")), s)
        else match Model.rating c with
             | Some (S _) => (Val (json 400 (Message "You have already rated this complaint")), s)
             | _ =>
                 (Val (json 200 (Rated "Thank you for your feedback!" rating feedback)),
                  with_complaints
                    (List.map (fun d => if (_id d =? _id c)%nat
                                        then apply_rating rating feedback (now s) c else d)
                              (complaints s)) s)
             end
    end.
Proof.
  cbv beta iota zeta delta [Complaints.rate try_catch bind Db.findById get ret].
  destruct (_ || _); [reflexivity|].
  destruct (List.find _ (complaints s)) as [c|]; [|reflexivity].
  destruct (negb (userId c =? id user)%nat); [reflexivity|].
  destruct (negb (status_eqb (status c) Completed)); [reflexivity|].
  destruct (Model.rating c) as [[|r]|]; reflexivity.
Qed.

Lemma all_genuine_replace cs c c' :
  Engine.all_genuine cs -> isFake c' = false ->
  Engine.all_genuine (List.map (fun d => if (_id d =? _id c)%nat then c' else d) cs).
Proof.
  intros H Hc x Hx. apply List.in_map_iff in Hx. destruct Hx as (d & Hd & Hin).
  destruct (_id d =? _id c)%nat; subst; auto.
Qed.

Lemma create_stores_genuine user body env s c :
  In c (complaints (snd (create user body env s))) -> In c (complaints s) \/ isFake c = false.
Proof.
  destruct (create_cases user body env s) as [(m & -> & _)|Hc]; [simpl; auto|].
  cbv zeta in Hc. destruct Hc as (v & s1 & _ & _ & _ & G & Hc).
  assert (Hcs1 : complaints s1 = complaints s) by (destruct G as (C & _); exact C).
  destruct Hc as [[_ ->]|(_ & priority & s2 & ap & s3 & _ & G2 & Hd & Hc)]; cbn [snd].
  { rewrite Hcs1. auto. }
  assert (Hcs3 : complaints s3 = complaints s).
  { rewrite dispatch_run in Hd. destruct G2 as (C2 & _).
    destruct (IntegrityFilter.v_isDuplicate v); injection Hd as _ <-; cbn [complaints with_log];
      congruence. }
  destruct Hc as [[_ ->]|[_ (m & ->)]]; cbn [snd].
  - rewrite saved_state_complaints, Hcs3, in_app_iff. intros [H|[<-|[]]]; auto.
  - rewrite Hcs3. auto.
Qed.

Lemma step_genuine op s :
  Engine.all_genuine (complaints s) -> Engine.all_genuine (complaints (Engine.step op s)).
Proof.
  intros H. unfold Engine.step.
  destruct op as [user body env|user complaintId status resolution
                 |user complaintId rating feedback|n e d|uid|ms]; cbn [Engine.handle].
  - intros c Hc.
    assert (Hs : snd ((let* _ := create user body env in ret tt) s)
                 = snd (create user body env s)).
    { unfold bind, ret. destruct (create user body env s) as [[?|?] ?]; reflexivity. }
    rewrite Hs in Hc. apply create_stores_genuine in Hc. destruct Hc; auto.
  - assert (Hs : snd ((let* _ := Lifecycle.updateStatus user complaintId status resolution
                       in ret tt) s)
                 = snd (Lifecycle.updateStatus user complaintId status resolution s)).
    { unfold bind, ret. destruct (Lifecycle.updateStatus _ _ _ _ s) as [[?|?] ?]; reflexivity. }
    rewrite Hs, updateStatus_run.
    destruct (List.find _ (complaints s)) as [c|] eqn:Hf; [|exact H].
    destruct (negb _); [exact H|].
    destruct (Lifecycle.requested _ _) as [target|]; [|exact H].
    destruct (_ && _); [exact H|].
    cbv zeta. unfold Lifecycle.updated_state. cbn [snd complaints with_log with_complaints].
    apply (all_genuine_replace _ c);
      [exact H|].
    simpl. apply H. apply (find_by_id _ _ _ Hf).
  - assert (Hs : snd ((let* _ := Complaints.rate user complaintId rating feedback in ret tt) s)
                 = snd (Complaints.rate user complaintId rating feedback s)).
    { unfold bind, ret. destruct (Complaints.rate _ _ _ _ s) as [[?|?] ?]; reflexivity. }
    rewrite Hs, rate_run.
    destruct (_ || _); [exact H|].
    destruct (List.find _ (complaints s)) as [c|] eqn:Hf; [|exact H].
    destruct (negb (userId c =? id user)%nat); [exact H|].
    destruct (negb (status_eqb (status c) Completed)); [exact H|].
    assert (Hrep : Engine.all_genuine
              (List.map (fun d => if (_id d =? _id c)%nat
                                  then apply_rating rating feedback (now s) c else d)
                        (complaints s))).
    { apply (all_genuine_replace _ c); [exact H|]. simpl. apply H.
      apply (find_by_id _ _ _ Hf). }
    destruct (Model.rating c) as [[|r]|]; [exact Hrep|exact H|exact Hrep].
  - cbv beta iota zeta delta [Management.createProvider try_catch bind get ret modify emit
                              throw].
    destruct (existsb _ (users s)); [exact H|].
    destruct password; [|exact H]. destruct (_ || _); exact H.
  - exact H.
  - exact H.
Qed.

Lemma reachable_genuine s : Engine.reachable s -> Engine.all_genuine (complaints s).
Proof.
  induction 1 as [s (Hc & _)|s op _ IH].
  - rewrite Hc. intros c [].
  - apply step_genuine. exact IH.
Qed.

(** Object ids stay distinct: a new document gets an id above all others,
    and an update keeps the id of the document it replaces. *)
Lemma fresh_id_new cs : ~ In (Db.fresh_id cs) (List.map _id cs).
Proof.
  unfold Db.fresh_id. intros H.
  assert (Hle : List.Forall (fun k => (k <= list_max (List.map _id cs))%nat) (List.map _id cs)).
  { apply list_max_le. lia. }
  rewrite List.Forall_forall in Hle. apply Hle in H. lia.
Qed.

Lemma ids_after_replace cs c c' :
  _id c' = _id c ->
  List.map _id (List.map (fun d => if (_id d =? _id c)%nat then c' else d) cs)
  = List.map _id cs.
Proof.
  intros E. rewrite List.map_map. apply List.map_ext_in. intros d _.
  destruct (Nat.eqb_spec (_id d) (_id c)); congruence.
Qed.

Lemma step_distinct_ids op s :
  List.NoDup (List.map _id (complaints s)) ->
  List.NoDup (List.map _id (complaints (Engine.step op s))).
Proof.
  intros H. unfold Engine.step.
  destruct op as [user body env|user complaintId status resolution
                 |user complaintId rating feedback|n e d|uid|ms]; cbn [Engine.handle].
  - assert (Hs : snd ((let* _ := create user body env in ret tt) s)
                 = snd (create user body env s)).
    { unfold bind, ret. destruct (create user body env s) as [[?|?] ?]; reflexivity. }
    rewrite Hs.
    destruct (create_cases user body env s) as [(m & -> & _)|Hc]; [exact H|].
    cbv zeta in Hc. destruct Hc as (v & s1 & _ & _ & _ & G & Hc).
    assert (Hcs1 : complaints s1 = complaints s) by (destruct G as (C & _); exact C).
    destruct Hc as [[_ ->]|(_ & priority & s2 & ap & s3 & _ & G2 & Hd & Hc)]; cbn [snd].
    { rewrite Hcs1. exact H. }
    assert (Hcs3 : complaints s3 = complaints s).
    { rewrite dispatch_run in Hd. destruct G2 as (C2 & _).
      destruct (IntegrityFilter.v_isDuplicate v); injection Hd as _ <-;
        cbn [complaints with_log]; congruence. }
    destruct Hc as [[_ ->]|[_ (m & ->)]]; cbn [snd]; [|rewrite Hcs3; exact H].
    rewrite saved_state_complaints, Hcs3, List.map_app. cbn [List.map new_complaint _id].
    apply List.NoDup_rev in H. rewrite <- (List.rev_involutive (_ ++ _)).
    apply List.NoDup_rev. rewrite List.rev_app_distr. cbn [List.rev List.app].
    constructor; [|exact H]. rewrite <- List.in_rev. apply fresh_id_new.
  - assert (Hs : snd ((let* _ := Lifecycle.updateStatus user complaintId status resolution
                       in ret tt) s)
                 = snd (Lifecycle.updateStatus user complaintId status resolution s)).
    { unfold bind, ret. destruct (Lifecycle.updateStatus _ _ _ _ s) as [[?|?] ?]; reflexivity. }
    rewrite Hs, updateStatus_run.
    destruct (List.find _ (complaints s)) as [c|]; [|exact H].
    destruct (negb _); [exact H|].
    destruct (Lifecycle.requested _ _) as [target|]; [|exact H].
    destruct (_ && _); [exact H|].
    cbv zeta. unfold Lifecycle.updated_state. cbn [snd complaints with_log with_complaints].
    rewrite (ids_after_replace _ c); [exact H|reflexivity].
  - assert (Hs : snd ((let* _ := Complaints.rate user complaintId rating feedback in ret tt) s)
                 = snd (Complaints.rate user complaintId rating feedback s)).
    { unfold bind, ret. destruct (Complaints.rate _ _ _ _ s) as [[?|?] ?]; reflexivity. }
    rewrite Hs, rate_run.
    destruct (_ || _); [exact H|].
    destruct (List.find _ (complaints s)) as [c|]; [|exact H].
    destruct (negb (userId c =? id user)%nat); [exact H|].
    destruct (negb (status_eqb (status c) Completed)); [exact H|].
    assert (Hrep : List.NoDup
              (List.map _id
                 (List.map (fun d => if (_id d =? _id c)%nat
                                     then apply_rating rating feedback (now s) c else d)
                           (complaints s)))).
    { rewrite (ids_after_replace _ c); [exact H|reflexivity]. }
    destruct (Model.rating c) as [[|r]|]; [exact Hrep|exact H|exact Hrep].
  - cbv beta iota zeta delta [Management.createProvider try_catch bind get ret modify emit
                              throw].
    destruct (existsb _ (users s)); [exact H|].
    destruct password; [|exact H]. destruct (_ || _); exact H.
  - exact H.
  - exact H.
Qed.

(** The hypothesis of distinct object ids holds in every reachable state. *)
Lemma reachable_distinct_ids s :
  Engine.reachable s -> List.NoDup (List.map _id (complaints s)).
Proof.
  induction 1 as [s (Hc & _)|s op _ IH].
  - rewrite Hc. constructor.
  - apply step_distinct_ids. exact IH.
Qed.

End Invariants.

Section StoredFlags.
Import Model Runtime Http JsString Complaints.

(** C10. No stored complaint is fake.
    - Whatever a creation request stores carries isFake = false.
    - When the verdict of the integrity filter says fake, the handler
      answers 400 with the remarks, and the complaint collection is what it
      was: nothing is built or saved.
    - Hence in every state that the engine can reach from empty collections
      (by creations, status updates, ratings, changes to the provider pool
      and the passing of time) every stored complaint has isFake = false. *)
Theorem stored_never_fake :
  (forall user body env s c,
     In c (complaints (snd (create user body env s))) ->
     In c (complaints s) \/ isFake c = false)
  /\ (forall user body env s v s1,
        truthy (b_photo body) = true ->
        truthy (b_description body) = true ->
        integrity_check env (intake body env) s = (Val v, s1) ->
        IntegrityFilter.v_isFake v = true ->
        create user body env s
        = (Val (json 400
                  (FakeRejection
                     ("This complaint appears to be invalid or fake. AI Remarks: "
                      ++ IntegrityFilter.v_remarks v)
                     (IntegrityFilter.v_remarks v))), s1)
        /\ complaints s1 = complaints s)
  /\ (forall s, Engine.reachable s -> forall c, In c (complaints s) -> isFake c = false).
Proof.
  split; [|split].
  - intros user body env s c. apply create_stores_genuine.
  - intros user body env s v s1 Hphoto Hdesc Hv Hfake.
    destruct (create_cases user body env s) as [(m & _ & [H|H])|Hc]; try congruence.
    cbv zeta in Hc. destruct Hc as (v' & s1' & _ & _ & Hv' & G & Hc).
    rewrite Hv in Hv'. injection Hv' as <- <-.
    destruct Hc as [[_ Hout]|(Hf & _)]; [|congruence].
    split; [exact Hout|]. destruct G as (C & _). exact C.
  - intros s Hr. apply reachable_genuine. exact Hr.
Qed.

End StoredFlags.

Section DispatchRule.
Import Model Runtime Http JsString Complaints DispatchBalancer.


End DispatchRule.

(** ** The properties at work on sample data *)

Section Witnesses.
Import Model Runtime Http JsString Samples.

(** Complaint 2 is in Registered and provider 7 asks for Rejected: the
    transition is in the table and is accepted. *)
Lemma lifecycle_transition_rule_witness :
  Lifecycle.accepted (Lifecycle.updateStatus (provider_req 7) 2 "Rejected" None busy_state).
Proof.
  destruct (lifecycle_transition_rule (provider_req 7) 2 "Rejected" None busy_state
              (complaint_of 2 Registered (Some 7)) eq_refl eq_refl) as [[_ H] _].
  apply H. split.
  - exists Rejected. split; [simpl; auto|reflexivity].
  - discriminate.
Defined.

(** Provider 7 holds complaint 1: the request to accept complaint 2 as well
    is refused with the capacity message and changes nothing. Provider 8
    holds nothing: the same request from provider 8 is accepted, and
    complaint 2 is stored in Accepted, assigned to provider 8. *)
Lemma accept_keeps_capacity_witness :
  Lifecycle.updateStatus (provider_req 7) 2 "Accepted" None two_providers
  = (Val (json 400
       (Message "You already have an active complaint. Please complete it before accepting a new one.")),
     two_providers)
  /\ exists c',
       In c' (complaints (snd (Lifecycle.updateStatus (provider_req 8) 2 "Accepted" None
                                 two_providers)))
       /\ _id c' = 2%nat /\ Model.status c' = Accepted /\ assignedTo c' = Some 8%nat.
Proof.
  assert (ND : List.NoDup (List.map _id (complaints two_providers))).
  { simpl. repeat constructor; simpl; intuition discriminate. }
  assert (One : Lifecycle.one_job_each (complaints two_providers)).
  { intros provider c d Hc Hd (_ & Sc) (_ & Sd). simpl in Hc, Hd.
    destruct Hc as [<-|[<-|[]]], Hd as [<-|[<-|[]]]; try reflexivity;
      cbn in Sc, Sd; intuition discriminate. }
  split.
  - destruct (accept_keeps_capacity (provider_req 7) 2 None two_providers ND One)
      as (_ & H).
    destruct (H (complaint_of 2 Registered (Some 7)) eq_refl eq_refl eq_refl) as (H1 & _).
    apply H1. exists (complaint_of 1 Accepted (Some 7)).
    split; [left; reflexivity|]. split; [discriminate|].
    split; [reflexivity|left; reflexivity].
  - destruct (accept_keeps_capacity (provider_req 8) 2 None two_providers ND One)
      as (_ & H).
    destruct (H (complaint_of 2 Registered (Some 7)) eq_refl eq_refl eq_refl) as (_ & H2).
    destruct H2 as (c' & _ & Hin & Hid & Hst & (Has & _)).
    + intros d Hd (Ha & Sd). simpl in Hd. destruct Hd as [<-|[<-|[]]]; [|reflexivity].
      cbn in Ha. discriminate.
    + exists c'. repeat split; assumption.
Defined.



(** The first model is rate limited and the fallback model rejects the
    credential: two requests and no wait, the call returns none and starts a
    cooldown of five minutes, and a call made during it sends nothing. *)
Lemma gateway_contract_witness :
  let s1 := Gateway.after_request Gateway.MODEL 10 Scenarios.refused in
  let s2 := Gateway.after_request Gateway.FALLBACK_MODEL 10 s1 in
  let s3 := with_cooldown (now s2 + 300000) s2 in
  Gateway.callAI 10 Scenarios.refused = (Val None, s3)
  /\ log s3 = [Request Gateway.MODEL 10; Request Gateway.FALLBACK_MODEL 10]
  /\ cloudDisabledUntil s3 = 1300020%Z
  /\ Gateway.callAI 10 s3 = (Val None, s3).
Proof.
  destruct gateway_contract as (_ & _ & Hin & Hout & _ & Hauth & Hrate & _).
  cbv zeta. split; [|split; [reflexivity|split; [reflexivity|]]].
  - rewrite Hout by (simpl; lia).
    rewrite Hrate
      by (eexists; split; [reflexivity|left; reflexivity]).
    rewrite Hauth
      by (left; eexists; split; [reflexivity|right; split; reflexivity]).
    reflexivity.
  - apply Hin. simpl. lia.
Defined.

End Witnesses.

(** ** Scenarios, evaluated *)

Section Scenarios.
Import Model Runtime Http JsString Samples.

Example words_of_a_description :
  IntegrityFilter.getWords "Water pipe, leaking near the MAIN road!"
  = ["water"; "pipe"; "leaking"; "near"; "the"; "main"; "road"].
Proof. reflexivity. Qed.

Example similarity_of_the_reports :
  IntegrityFilter.similarity_to leak_again leak_candidate = (8 # 10)%Q.
Proof. reflexivity. Qed.

Example keyboard_mashing_is_fake :
  IntegrityFilter.localDetectDuplicateOrFake "asdf asdf asdf" "General" "Chennai" []
  = IntegrityFilter.fake "Description appears to be gibberish (only 0% recognizable words)".
Proof. reflexivity. Qed.

Example repeated_line_breaks_pass :
  IntegrityFilter.repeatPattern_test
    ("road broken" ++ String (ascii_of_nat 10) (String (ascii_of_nat 10)
       (String (ascii_of_nat 10) (String (ascii_of_nat 10) (String (ascii_of_nat 10)
          "near school")))))
  = false.
Proof. reflexivity. Qed.

Example burst_pipe_is_critical :
  PriorityAssigner.localPrioritize "Water pipeline burst flooding entire street"
                                   "Water Resources" = Critical.
Proof. vm_compute. reflexivity. Qed.

Example no_keyword_is_medium :
  PriorityAssigner.localPrioritize "hello there" "General" = Medium.
Proof. vm_compute. reflexivity. Qed.

Example pothole_goes_to_roads :
  let r := DepartmentDetector.mapToDepartment
             {| DepartmentDetector.labels :=
                  [ {| DepartmentDetector.a_text := "pothole";
                       DepartmentDetector.a_score := 9 # 10 |};
                    {| DepartmentDetector.a_text := "road damage";
                       DepartmentDetector.a_score := 8 # 10 |} ];
                DepartmentDetector.objects := [];
                DepartmentDetector.detectedText := "";
                DepartmentDetector.webEntities := [];
                DepartmentDetector.source := Some "google-vision";
                DepartmentDetector.directDepartment := None;
                DepartmentDetector.directReason := None |} in
  DepartmentDetector.department r = "Roads & Highways"
  /\ DepartmentDetector.confidence r = 99%Z.
Proof. vm_compute. split; reflexivity. Qed.

Example refusal_of_a_skipped_step :
  Lifecycle.updateStatus (provider_req 7) 2 "Working On" None busy_state
  = (Val (json 400
            (Message ("Cannot change status from " ++ dq ++ "Registered" ++ dq ++ " to "
                      ++ dq ++ "Working On" ++ dq ++ ". Allowed: Accepted, Rejected"))),
     busy_state).
Proof. reflexivity. Qed.

Example gateway_down_gives_none :
  let out := Gateway.callAI 10 busy_state in
  fst out = Val None
  /\ log (snd out)
     = [Request Gateway.MODEL 10; Sleep 2000; Request Gateway.MODEL 10;
        Request Gateway.FALLBACK_MODEL 10; Sleep 2000; Request Gateway.FALLBACK_MODEL 10].
Proof. vm_compute. split; reflexivity. Qed.

Example duplicate_is_stored_rejected :
  List.map (fun c => (ticketId c, status c, assignedTo c))
           (complaints (snd (Complaints.create citizen leak_again_body plain_env leak_state)))
  = [("TNSMP-000001-001", Registered, None); ("TNSMP-004040-007", Rejected, None)].
Proof. vm_compute. reflexivity. Qed.

End Scenarios.

(** ** The cost of a call to the gateway *)

Section TrafficFacts.
Import Model Runtime Gateway Traffic.

Lemma latencies_app f r1 : forall k r2,
  latencies f k (r1 + r2) = (latencies f k r1 + latencies f (k + r1) r2)%Z.
Proof.
  induction r1 as [|r1 IH]; intros k r2; simpl.
  - rewrite Nat.add_0_r. reflexivity.
  - rewrite IH. replace (S k + r1)%nat with (k + S r1)%nat by lia. lia.
Qed.

Lemma waits_after_request m n s : waits (after_request m n s) = waits s.
Proof.
  unfold waits, after_request. simpl.
  rewrite List.filter_app, List.length_app. simpl. lia.
Qed.

Lemma waits_after_delay ms s : waits (after_delay ms s) = S (waits s).
Proof.
  unfold waits, after_delay. simpl.
  rewrite List.filter_app, List.length_app. simpl. lia.
Qed.

Lemma spent_refl s : spent s s 0 0.
Proof. unfold spent. simpl. repeat split; lia. Qed.

Lemma spent_trans s1 s2 s3 r1 w1 r2 w2 :
  spent s1 s2 r1 w1 -> spent s2 s3 r2 w2 -> spent s1 s3 (r1 + r2) (w1 + w2).
Proof.
  intros (C1 & U1 & R1 & N1 & W1 & T1) (C2 & U2 & R2 & N2 & W2 & T2).
  unfold spent. rewrite latencies_app.
  rewrite R1, N1 in T2. rewrite T2, T1.
  repeat split; try congruence; lia.
Qed.

Lemma spent_request m n s : spent s (after_request m n s) 1 0.
Proof.
  unfold spent. rewrite requests_sent_after_request, waits_after_request.
  simpl. repeat split; lia.
Qed.

Lemma spent_delay s : spent s (after_delay RETRY_DELAY_MS s) 0 1.
Proof.
  unfold spent. rewrite requests_sent_after_delay, waits_after_delay.
  simpl. repeat split; lia.
Qed.

Lemma spent_cooldown t s r w s0 : spent s0 s r w -> spent s0 (with_cooldown t s) r w.
Proof. intros H. exact H. Qed.

(** One pass through the body of the retry loop: one request, and a wait
    only before a second attempt. *)
Lemma attempt_body_spent m n a s :
  exists e s' w, attempt_body m n a s = (Val e, s') /\ spent s s' 1 w
                 /\ (w <= 1 - a)%nat.
Proof.
  rewrite attempt_body_run. cbv zeta.
  assert (R := spent_request m n s).
  assert (D : spent s (after_delay RETRY_DELAY_MS (after_request m n s)) 1 1).
  { change 1%nat with (1 + 0)%nat at 1. change 1%nat with (0 + 1)%nat at 2.
    eapply spent_trans; [exact R|apply spent_delay]. }
  assert (Retry : exists e s' w,
            (if (a <? MAX_RETRIES)%nat
             then (Val Continue, after_delay RETRY_DELAY_MS (after_request m n s))
             else (Val Continue, after_request m n s)) = (Val e, s')
            /\ spent s s' 1 w /\ (w <= 1 - a)%nat).
  { unfold MAX_RETRIES. destruct (Nat.ltb_spec a 1).
    - exists Continue, (after_delay RETRY_DELAY_MS (after_request m n s)), 1%nat.
      split; [reflexivity|]. split; [exact D|lia].
    - exists Continue, (after_request m n s), 0%nat.
      split; [reflexivity|]. split; [exact R|lia]. }
  destruct (next_reply s) as [[c|]|e].
  - eexists _, _, 0%nat. split; [reflexivity|]. split; [exact R|lia].
  - exact Retry.
  - destruct ((error_status e =? 401) || (error_status e =? 403))%Z.
    { eexists _, _, 0%nat. split; [reflexivity|]. split; [exact R|lia]. }
    destruct (error_status e =? 429)%Z.
    { eexists _, _, 0%nat. split; [reflexivity|]. split; [exact R|lia]. }
    exact Retry.
Qed.

Lemma retry_loop_spent fuel m n : forall a s,
  exists e s' r w, retry_loop fuel m n a s = (Val e, s') /\ spent s s' r w
                   /\ (r <= 2 - a)%nat /\ (w <= 1 - a)%nat
                   /\ (forall t, e = Return (Some t) -> (1 <= r)%nat).
Proof.
  induction fuel as [|fuel IH]; intros a s; simpl.
  - exists Break, s, 0%nat, 0%nat. split; [reflexivity|]. split; [apply spent_refl|].
    repeat split; try lia. intros t [=].
  - unfold MAX_RETRIES at 1. destruct (Nat.leb_spec a 1) as [Ha|Ha].
    + destruct (attempt_body_spent m n a s) as (e & s1 & w1 & H1 & S1 & W1).
      rewrite (bind_val _ _ _ _ _ H1).
      destruct e as [r0| |].
      * exists (Return r0), s1, 1%nat, w1. split; [reflexivity|]. split; [exact S1|].
        repeat split; try lia.
      * exists Break, s1, 1%nat, w1. split; [reflexivity|]. split; [exact S1|].
        repeat split; try lia.
      * destruct (IH (S a) s1) as (e2 & s2 & r2 & w2 & H2 & S2 & R2 & W2 & F2).
        exists e2, s2, (1 + r2)%nat, (w1 + w2)%nat. split; [exact H2|].
        split; [eapply spent_trans; eassumption|].
        repeat split; try lia.
    + exists Break, s, 0%nat, 0%nat. split; [reflexivity|]. split; [apply spent_refl|].
      repeat split; try lia. intros t [=].
Qed.

Lemma model_loop_spent models n : forall s,
  exists o s' r w, model_loop models n s = (Val o, s') /\ spent s s' r w
                   /\ (r <= 2 * List.length models)%nat /\ (w <= List.length models)%nat
                   /\ (forall t, o = Some t -> (1 <= r)%nat).
Proof.
  induction models as [|m rest IH]; intros s; simpl.
  - exists None, s, 0%nat, 0%nat. split; [reflexivity|]. split; [apply spent_refl|].
    repeat split; try lia. intros t [=].
  - destruct (retry_loop_spent (S (S MAX_RETRIES)) m n 0 s)
      as (e & s1 & r1 & w1 & H1 & S1 & R1 & W1 & F1).
    rewrite (bind_val _ _ _ _ _ H1).
    assert (Hnext : exists o s' r w,
              model_loop rest n s1 = (Val o, s') /\ spent s s' r w
              /\ (r <= 2 * S (List.length rest))%nat /\ (w <= S (List.length rest))%nat
              /\ (forall t, o = Some t -> (1 <= r)%nat)).
    { destruct (IH s1) as (o & s2 & r2 & w2 & H2 & S2 & R2 & W2 & F2).
      exists o, s2, (r1 + r2)%nat, (w1 + w2)%nat. split; [exact H2|].
      split; [eapply spent_trans; eassumption|].
      repeat split; try lia. intros t Ht. specialize (F2 t Ht). lia. }
    destruct e as [o| |]; [|exact Hnext|exact Hnext].
    exists o, s1, r1, w1. split; [reflexivity|]. split; [exact S1|].
    repeat split; try lia. intros t ->. apply (F1 t). reflexivity.
Qed.

Lemma callAI_spent n s :
  exists o s' r w, callAI n s = (Val o, s') /\ spent s s' r w
                   /\ (r <= 4)%nat /\ (w <= 2)%nat
                   /\ (forall t, o = Some t -> (1 <= r)%nat).
Proof.
  destruct (Z.lt_ge_cases (now s) (cloudDisabledUntil s)) as [H|H].
  - rewrite (callAI_in_cooldown _ _ H). exists None, s, 0%nat, 0%nat.
    split; [reflexivity|]. split; [apply spent_refl|].
    repeat split; try lia. intros t [=].
  - rewrite (callAI_outside_cooldown _ _ H). apply model_loop_spent.
Qed.

(** X1. The budget of one call to the gateway.
    A call to [callAI] sends at most four requests (two models, two
    attempts each) and waits at most twice, [RETRY_DELAY_MS] each time; it
    touches neither collection; the clock moves by exactly the latencies of
    the requests sent plus the waits; a call that returns a text has sent a
    request. The bound is reached: against a remote model that fails every
    request with status 503, a call sends four requests and waits twice. *)
Theorem callAI_budget :
  (forall n s, exists r w,
     (r <= 4)%nat /\ (w <= 2)%nat /\ spent s (snd (callAI n s)) r w
     /\ (forall t, fst (callAI n s) = Val (Some t) -> (1 <= r)%nat))
  /\ (forall n, spent (Samples.state_of [] []) (snd (callAI n (Samples.state_of [] []))) 4 2).
Proof.
  split.
  - intros n s. destruct (callAI_spent n s) as (o & s' & r & w & H & S & R & W & F).
    exists r, w. rewrite H. simpl. repeat split; try assumption; try apply S.
    intros t [= ->]. apply (F t). reflexivity.
  - intros n. unfold spent. vm_compute. repeat split.
Qed.

End TrafficFacts.

(** ** The remote paths of the priority assigner and of the integrity filter *)

Section RemotePaths.
Import Model Runtime JsString.

Lemma includes_empty_name l : includes "" (priorityName l) = false.
Proof. destruct l; reflexivity. Qed.

(** X2. The remote answer decides the priority.
    When the gateway returns a text, [prioritizeComplaint] returns the
    first of Critical, High, Medium, Low whose name occurs in the text (as
    it is spelled, capital first), whatever the description says, and the
    keyword analysis only when none of the four names occurs. Nothing but
    the call to the gateway touches the state. *)
Theorem prioritizeComplaint_remote_answer (description department : string)
    (s s' : State) (r : string) :
  Gateway.callAI 10 s = (Val (Some r), s') ->
  exists p,
    PriorityAssigner.prioritizeComplaint description department s = (Val p, s')
    /\ ((forall l, includes r (priorityName l) = false) ->
          p = PriorityAssigner.localPrioritize description department)
    /\ ((exists l, includes r (priorityName l) = true) ->
          includes r (priorityName p) = true
          /\ forall l, (PriorityAssigner.precedence l < PriorityAssigner.precedence p)%nat ->
                       includes r (priorityName l) = false).
Proof.
  intros H. unfold PriorityAssigner.prioritizeComplaint.
  rewrite (bind_val _ _ _ _ _ H).
  destruct (String.eqb_spec r "") as [->|Hr].
  { eexists. split; [reflexivity|]. split; [reflexivity|].
    intros (l & Hl). rewrite includes_empty_name in Hl. discriminate. }
  unfold PriorityAssigner.validPriorities. cbn [List.find].
  destruct (includes r (priorityName Critical)) eqn:EC.
  { eexists. split; [reflexivity|]. split.
    - intros A. rewrite A in EC. discriminate.
    - intros _. split; [exact EC|]. intros l Hl. simpl in Hl. lia. }
  destruct (includes r (priorityName High)) eqn:EH.
  { eexists. split; [reflexivity|]. split.
    - intros A. rewrite A in EH. discriminate.
    - intros _. split; [exact EH|]. intros [| | |] Hl; simpl in Hl; try lia. exact EC. }
  destruct (includes r (priorityName Medium)) eqn:EM.
  { eexists. split; [reflexivity|]. split.
    - intros A. rewrite A in EM. discriminate.
    - intros _. split; [exact EM|]. intros [| | |] Hl; simpl in Hl; try lia; assumption. }
  destruct (includes r (priorityName Low)) eqn:EL.
  { eexists. split; [reflexivity|]. split.
    - intros A. rewrite A in EL. discriminate.
    - intros _. split; [exact EL|]. intros [| | |] Hl; simpl in Hl; try lia; assumption. }
  eexists. split; [reflexivity|]. split; [reflexivity|].
  intros ([| | |] & Hl); congruence.
Qed.

(** X3. When the integrity filter consults the remote model.
    [detectDuplicateOrFake] never throws and changes the state only through
    the gateway, with at most four requests. It returns the local verdict
    without any request when there is no existing complaint to compare with
    or when the local verdict is fake or duplicate. Otherwise it makes one
    call to the gateway: no text, or a text that does not decode, gives
    the local verdict; a text that decodes gives the decoded verdict as it
    is, with no further check. *)
Theorem detectDuplicateOrFake_paths (decode : string -> option IntegrityFilter.Verdict)
    (description department area : string) (existing : list IntegrityFilter.Candidate)
    (s : State) :
  let localResult :=
    IntegrityFilter.localDetectDuplicateOrFake description department area existing in
  let out :=
    IntegrityFilter.detectDuplicateOrFake decode description department area existing s in
  (exists v r w, fst out = Val v /\ Traffic.spent s (snd out) r w
                 /\ (r <= 4)%nat /\ (w <= 2)%nat
                 /\ (v = localResult \/ exists text, decode text = Some v))
  /\ ((existing = [] \/ IntegrityFilter.v_isFake localResult = true
       \/ IntegrityFilter.v_isDuplicate localResult = true) -> out = (Val localResult, s))
  /\ ((existing <> [] /\ IntegrityFilter.v_isFake localResult = false
       /\ IntegrityFilter.v_isDuplicate localResult = false) ->
        forall o s', Gateway.callAI 150 s = (Val o, s') ->
          out = (Val match o with
                     | Some text => match decode text with
                                    | Some cloudResult => cloudResult
                                    | None => localResult
                                    end
                     | None => localResult
                     end, s')).
Proof.
  cbv zeta. unfold IntegrityFilter.detectDuplicateOrFake.
  set (localResult :=
         IntegrityFilter.localDetectDuplicateOrFake description department area existing).
  assert (Quiet : exists v r w,
            Val localResult = Val v /\ Traffic.spent s s r w /\ (r <= 4)%nat /\ (w <= 2)%nat
            /\ (v = localResult \/ exists text, decode text = Some v)).
  { exists localResult, 0%nat, 0%nat. split; [reflexivity|]. split; [apply spent_refl|].
    repeat split; try lia. left. reflexivity. }
  destruct (IntegrityFilter.v_isFake localResult || IntegrityFilter.v_isDuplicate localResult)
    eqn:E.
  { split; [exact Quiet|]. split; [reflexivity|].
    intros (_ & F & D). rewrite F, D in E. discriminate. }
  apply orb_false_iff in E. destruct E as [F D].
  destruct existing as [|c existing'] eqn:Ex.
  { split; [exact Quiet|]. split; [reflexivity|]. intros (A & _). contradiction. }
  change (0 <? List.length (c :: existing'))%nat with true. cbv iota.
  destruct (callAI_spent 150 s) as (o & s' & r & w & H & S & R & W & _).
  rewrite (bind_val _ _ _ _ _ H).
  assert (Shape :
    (match o with
     | Some r0 =>
         if String.eqb r0 "" then ret localResult
         else match decode r0 with
              | Some cloudResult => ret cloudResult
              | None => ret localResult
              end
     | None => ret localResult
     end) s'
    = (Val match o with
           | Some text => match decode text with
                          | Some cloudResult => cloudResult
                          | None => localResult
                          end
           | None => localResult
           end, s')).
  { destruct o as [t|]; [|reflexivity].
    destruct (String.eqb_spec t "") as [->|Ht].
    - destruct (callAI_sound 150 s) as (r1 & s1 & H1 & _ & A1). rewrite H in H1.
      injection H1 as <- <-. destruct (A1 "" eq_refl) as (_ & k & c0 & _ & Hc).
      unfold Gateway.text_of in Hc.
      destruct (String.eqb_spec (trim c0) ""); [discriminate|]. congruence.
    - destruct (decode t); reflexivity. }
  rewrite Shape. split; [|split].
  - eexists _, r, w. split; [reflexivity|]. split; [exact S|].
    split; [exact R|]. split; [exact W|].
    destruct o as [t|]; [|left; reflexivity].
    destruct (decode t) eqn:Dt; [right; exists t; exact Dt|left; reflexivity].
  - intros [A|[A|A]]; [discriminate|congruence|congruence].
  - intros _ o2 s2 H2. rewrite H in H2. injection H2 as <- <-. reflexivity.
Qed.

End RemotePaths.

(** ** More on the integrity filter *)

Section IntegrityMore.
Import Model JsString IntegrityFilter.
Local Open Scope Q_scope.

Lemma ratio_den n : (0 < n)%nat -> Z.pos (Pos.of_nat n) = Z.of_nat n.
Proof. intros H. destruct n; [lia|]. rewrite <- Pos.of_nat_succ. lia. Qed.

Lemma ratio_le_1 k n : (0 < n)%nat -> (k <= n)%nat -> ratio k n <= 1.
Proof. intros Hn Hk. unfold ratio, Qle. simpl. rewrite ratio_den by exact Hn. lia. Qed.

Lemma ratio_eq_1 k n : (0 < n)%nat -> ratio k n == 1 <-> k = n.
Proof. intros Hn. unfold ratio, Qeq. simpl. rewrite ratio_den by exact Hn. lia. Qed.

Lemma ratio_eq_0 k n : ratio k n == 0 <-> k = 0%nat.
Proof. unfold ratio, Qeq. simpl. lia. Qed.

Lemma words_set_ext (a a' : list string) :
  (forall x, In x a <-> In x a') -> (list_to_set a : gset string) = list_to_set a'.
Proof.
  intros H. apply set_eq. intros x. rewrite !elem_of_list_to_set, !list_elem_of_In. apply H.
Qed.

Lemma In_firstn {A} (n : nat) : forall (l : list A) x, In x (firstn n l) -> In x l.
Proof.
  induction n as [|n IH]; intros [|y l] x H; simpl in *; try contradiction.
  destruct H as [H|H]; [left; exact H|right; apply IH; exact H].
Qed.

Lemma inter_sub_union (A B : gset string) : A ∩ B ⊆ A ∪ B.
Proof. intros x. rewrite elem_of_intersection, elem_of_union. tauto. Qed.

Lemma size_zero_no_elem (A : gset string) : size A = 0%nat <-> forall x, x ∉ A.
Proof.
  rewrite size_empty_iff. split.
  - intros H x Hx. apply H in Hx. revert Hx. apply not_elem_of_empty.
  - intros H x. split; [intros Hx; destruct (H x Hx)|].
    intros Hx. exfalso. revert Hx. apply not_elem_of_empty.
Qed.

Lemma full_overlap (A B : gset string) :
  size (A ∩ B) = size (A ∪ B) <-> forall x, x ∈ A <-> x ∈ B.
Proof.
  split.
  - intros Hs.
    assert (Heq : A ∩ B = A ∪ B)
      by (apply set_subseteq_size_eq; [apply inter_sub_union|lia]).
    intros x.
    assert (Hx : x ∈ A ∩ B <-> x ∈ A ∪ B) by (rewrite Heq; reflexivity).
    rewrite elem_of_intersection, elem_of_union in Hx. tauto.
  - intros H. f_equal. apply set_eq. intros x.
    rewrite elem_of_intersection, elem_of_union. specialize (H x). tauto.
Qed.

(** X5. The similarity measure.
    [jaccardSimilarity] depends only on which words occur in the two lists
    (not on their order or on repetitions), is symmetric, and lies between
    0 and 1; it is 1 exactly when the two lists hold the same words and at
    least one, and 0 exactly when they share no word (two empty lists
    included). *)
Theorem jaccardSimilarity_facts :
  (forall a a' b b', (forall x, In x a <-> In x a') -> (forall x, In x b <-> In x b') ->
                     jaccardSimilarity a b = jaccardSimilarity a' b')
  /\ (forall a b, jaccardSimilarity a b = jaccardSimilarity b a)
  /\ (forall a b, 0 <= jaccardSimilarity a b /\ jaccardSimilarity a b <= 1)
  /\ (forall a b, jaccardSimilarity a b == 1 <-> a <> [] /\ forall x, In x a <-> In x b)
  /\ (forall a b, jaccardSimilarity a b == 0 <-> forall x, In x a -> ~ In x b).
Proof.
  assert (EI : forall (l : list string) x, x ∈ (list_to_set l : gset string) <-> In x l)
    by (intros l x; rewrite elem_of_list_to_set, list_elem_of_In; reflexivity).
  split; [|split; [|split; [|split]]].
  - intros a a' b b' Ha Hb. rewrite !jaccard_spec. unfold spec_jaccard. cbv zeta.
    rewrite (words_set_ext a a' Ha), (words_set_ext b b' Hb). reflexivity.
  - intros a b. rewrite !jaccard_spec. unfold spec_jaccard. cbv zeta.
    rewrite (comm_L (∪) (list_to_set a : gset string)).
    rewrite (comm_L (∩) (list_to_set a : gset string)). reflexivity.
  - intros a b. split; [apply jaccard_nonneg|].
    rewrite jaccard_spec. unfold spec_jaccard. cbv zeta.
    destruct (Nat.eqb_spec (size ((list_to_set a : gset string) ∪ list_to_set b)) 0);
      [discriminate|].
    apply ratio_le_1; [lia|]. apply subseteq_size, inter_sub_union.
  - intros a b. rewrite jaccard_spec. unfold spec_jaccard. cbv zeta.
    destruct (Nat.eqb_spec (size ((list_to_set a : gset string) ∪ list_to_set b)) 0)
      as [E|E].
    + split; [intros H; unfold Qeq in H; simpl in H; lia|].
      intros (Hne & _). exfalso. destruct a as [|x a]; [contradiction|].
      apply (proj1 (size_zero_no_elem _) E x). apply elem_of_union. left.
      apply EI. left. reflexivity.
    + rewrite ratio_eq_1 by lia. rewrite full_overlap. split.
      * intros Hs. split.
        -- intros ->. apply E. apply size_zero_no_elem. intros x Hx.
           apply elem_of_union in Hx. destruct Hx as [Hx|Hx].
           ++ apply EI in Hx. destruct Hx.
           ++ apply Hs, EI in Hx. destruct Hx.
        -- intros x. rewrite <- !EI. apply Hs.
      * intros (_ & Hs) x. rewrite !EI. apply Hs.
  - intros a b. rewrite jaccard_spec. unfold spec_jaccard. cbv zeta.
    destruct (Nat.eqb_spec (size ((list_to_set a : gset string) ∪ list_to_set b)) 0)
      as [E|E].
    + split; [|reflexivity]. intros _ x Hx _.
      apply (proj1 (size_zero_no_elem _) E x). apply elem_of_union. left.
      apply EI. exact Hx.
    + rewrite ratio_eq_0, size_zero_no_elem. split.
      * intros Hs x Hx Hb. apply (Hs x). apply elem_of_intersection.
        rewrite !EI. split; assumption.
      * intros Hs x Hx. apply elem_of_intersection in Hx. rewrite !EI in Hx.
        destruct Hx as [Hx Hb]. exact (Hs x Hx Hb).
Qed.

(** X4. What a local verdict can say.
    A verdict of the local filter is never fake and duplicate at once, and
    it names a duplicate exactly when it says duplicate. The complaint it
    names is one of the existing complaints it was given, of the same area
    string, with similarity at least 0.6. With the candidates that the
    creation handler reads from the collection, the named ticket belongs to
    a stored complaint of the same department and area that is not
    Rejected. *)
Theorem local_verdict_provenance (description department area : string)
    (existing : list Candidate) :
  let v := localDetectDuplicateOrFake description department area existing in
  (v_isFake v = true -> v_isDuplicate v = false)
  /\ (v_isDuplicate v = true <-> exists t, v_duplicateOf v = Some t)
  /\ (forall t, v_duplicateOf v = Some t ->
        exists c, In c existing /\ c_ticketId c = t /\ c_area c = area
                  /\ 6 # 10 <= similarity_to description c)
  /\ (forall cs t,
        v_duplicateOf (localDetectDuplicateOrFake description department area
                         (Complaints.existing_for department cs)) = Some t ->
        exists c, In c cs /\ ticketId c = t /\ Model.department c = department
                  /\ Model.area c = area /\ status c <> Rejected).
Proof.
  assert (Core : forall existing0 t,
            v_duplicateOf (localDetectDuplicateOrFake description department area existing0)
            = Some t ->
            exists c, In c existing0 /\ c_ticketId c = t /\ c_area c = area
                      /\ 6 # 10 <= similarity_to description c).
  { intros existing0 t. unfold localDetectDuplicateOrFake.
    destruct (fake_detection description); [discriminate|].
    unfold duplicate_detection. cbv zeta.
    pose proof (best_fold_spec area description existing0) as [_ Hbest]. cbv zeta in Hbest.
    destruct (fst (fold_left (best_step area (getWords description)) existing0 (None, 0)))
      as [m|]; [|discriminate].
    destruct (Qle_bool (6 # 10) _) eqn:E; [|discriminate].
    intros [= <-]. destruct Hbest as (Hs & _ & pre & post & Hc & _).
    assert (Hin : In m (same_area area existing0)).
    { rewrite Hc. apply in_app_iff. right. left. reflexivity. }
    apply List.filter_In in Hin. destruct Hin as [Hin Ha].
    exists m. split; [exact Hin|]. split; [reflexivity|].
    split; [apply String.eqb_eq; exact Ha|].
    apply Qle_bool_iff in E. rewrite <- Hs. exact E. }
  cbv zeta. split; [|split; [|split]].
  - unfold localDetectDuplicateOrFake. destruct (fake_detection description); [reflexivity|].
    unfold duplicate_detection. cbv zeta.
    destruct (fst _); [destruct (Qle_bool _ _)|]; simpl; congruence.
  - unfold localDetectDuplicateOrFake. destruct (fake_detection description).
    { simpl. split; [discriminate|intros (t & H); discriminate]. }
    unfold duplicate_detection. cbv zeta.
    destruct (fst _); [destruct (Qle_bool _ _)|]; simpl;
      (split; [intros H; try discriminate; eauto|intros (t & H); congruence]).
  - apply Core.
  - intros cs t H. destruct (Core _ _ H) as (c' & Hin & Ht & Ha & _).
    unfold Complaints.existing_for in Hin. apply List.in_map_iff in Hin.
    destruct Hin as (c & <- & Hin). apply In_firstn in Hin.
    apply List.filter_In in Hin. destruct Hin as [Hin Hf].
    apply andb_true_iff in Hf. destruct Hf as [Hd Hs].
    exists c. simpl in Ht, Ha. split; [exact Hin|]. split; [exact Ht|].
    split; [apply String.eqb_eq; exact Hd|]. split; [exact Ha|].
    intros Hr. rewrite Hr in Hs. discriminate.
Qed.

End IntegrityMore.

(** ** The words of a description *)

Section WordFacts.
Import Model JsString IntegrityFilter.

(** A lower-case letter or a digit: what [getWords] leaves of a word. *)
Local Abbreviation plain := (fun c : ascii => is_lower c || is_digit c).

(** A letter of either case or a digit. *)
Local Abbreviation alnum := (fun c : ascii => is_upper c || is_lower c || is_digit c).

Lemma lower_char_plain c : plain (lower_char c) = alnum c.
Proof. destruct c as [[] [] [] [] [] [] [] []]; reflexivity. Qed.

Lemma plain_keep c : plain c = true -> keep_char c = true /\ is_space c = false.
Proof. destruct c as [[] [] [] [] [] [] [] []]; simpl; intros H; try discriminate; auto. Qed.

Lemma keep_char_cases c : keep_char c = true -> plain c = true \/ is_space c = true.
Proof.
  unfold keep_char. destruct (is_lower c), (is_digit c), (is_space c); simpl; auto.
Qed.

Lemma lower_char_kept c : keep_char c = true -> lower_char c = c.
Proof. destruct c as [[] [] [] [] [] [] [] []]; simpl; intros H; try discriminate; reflexivity. Qed.

Lemma split_go_cons b s : exists t ts, split_go b s = t :: ts.
Proof.
  revert b. induction s as [|c s IH]; intros b; simpl; [eauto|].
  destruct (is_space c).
  - destruct b; [apply IH|eauto].
  - destruct (IH false) as (t & ts & ->). eauto.
Qed.

(** Every piece of a split is made of characters of the string that are not
    white space. *)
Lemma split_go_chars s : forall b w c,
  In w (split_go b s) -> In c (list_ascii_of_string w) ->
  In c (list_ascii_of_string s) /\ is_space c = false.
Proof.
  induction s as [|a s IH]; intros b w c Hw Hc; simpl in Hw.
  - destruct Hw as [<-|[]]. destruct Hc.
  - destruct (is_space a) eqn:Ea.
    + assert (Hw' : In w (split_go true s) \/ w = EmptyString).
      { destruct b; [left; exact Hw|].
        destruct Hw as [<-|Hw]; [right; reflexivity|left; exact Hw]. }
      destruct Hw' as [Hw' | ->]; [|destruct Hc].
      destruct (IH _ _ _ Hw' Hc) as [H1 H2]. split; [right; exact H1|exact H2].
    + destruct (split_go_cons false s) as (t & ts & E). rewrite E in Hw.
      destruct Hw as [<-|Hw].
      * destruct Hc as [<-|Hc]; [split; [left; reflexivity|exact Ea]|].
        destruct (IH false t c) as [H1 H2]; [rewrite E; left; reflexivity|exact Hc|].
        split; [right; exact H1|exact H2].
      * destruct (IH false w c) as [H1 H2]; [rewrite E; right; exact Hw|exact Hc|].
        split; [right; exact H1|exact H2].
Qed.

Lemma strip_punct_chars s c :
  In c (list_ascii_of_string (strip_punct s)) ->
  keep_char c = true /\ In c (list_ascii_of_string s).
Proof.
  induction s as [|a s IH]; simpl; [intros []|].
  destruct (keep_char a) eqn:Ea; simpl.
  - intros [<-|H]; [split; [exact Ea|left; reflexivity]|].
    destruct (IH H) as [H1 H2]. split; [exact H1|right; exact H2].
  - intros H. destruct (IH H) as [H1 H2]. split; [exact H1|right; exact H2].
Qed.

Lemma toLowerCase_chars s c :
  In c (list_ascii_of_string (toLowerCase s)) ->
  exists a, In a (list_ascii_of_string s) /\ c = lower_char a.
Proof.
  induction s as [|a s IH]; simpl; [intros []|].
  intros [<-|H]; [exists a; split; [left|]; reflexivity|].
  destruct (IH H) as (a' & H1 & H2). exists a'. split; [right; exact H1|exact H2].
Qed.

(** The characters of a word of [getWords]. *)
Lemma getWords_chars text w c :
  In w (getWords text) -> In c (list_ascii_of_string w) ->
  plain c = true /\ exists a, In a (list_ascii_of_string text) /\ c = lower_char a.
Proof.
  unfold getWords. intros Hw Hc. apply List.filter_In in Hw. destruct Hw as [Hw _].
  destruct (split_go_chars _ _ _ _ Hw Hc) as [H1 H2].
  destruct (strip_punct_chars _ _ H1) as [H3 H4].
  split; [|apply toLowerCase_chars; exact H4].
  destruct (keep_char_cases _ H3) as [H|H]; [exact H|congruence].
Qed.

Lemma getWords_shape text w :
  In w (getWords text) ->
  (3 <= String.length w)%nat
  /\ forallb (fun c => is_lower c || is_digit c) (list_ascii_of_string w) = true.
Proof.
  intros Hw. split.
  - unfold getWords in Hw. apply List.filter_In in Hw. destruct Hw as [_ H].
    apply Nat.ltb_lt in H. lia.
  - apply forallb_forall. intros c Hc. apply (getWords_chars text w c Hw Hc).
Qed.

Lemma toLowerCase_kept s :
  forallb keep_char (list_ascii_of_string s) = true -> toLowerCase s = s.
Proof.
  induction s as [|a s IH]; simpl; [reflexivity|].
  intros H. apply andb_true_iff in H. destruct H as [Ha Hs].
  rewrite (lower_char_kept _ Ha), (IH Hs). reflexivity.
Qed.

Lemma strip_punct_kept s :
  forallb keep_char (list_ascii_of_string s) = true -> strip_punct s = s.
Proof.
  induction s as [|a s IH]; simpl; [reflexivity|].
  intros H. apply andb_true_iff in H. destruct H as [Ha Hs].
  rewrite Ha, (IH Hs). reflexivity.
Qed.

Lemma toLowerCase_idem s : toLowerCase (toLowerCase s) = toLowerCase s.
Proof.
  induction s as [|a s IH]; simpl; [reflexivity|]. rewrite IH. f_equal.
  destruct a as [[] [] [] [] [] [] [] []]; reflexivity.
Qed.

Lemma append_empty_l (s : string) : "" ++ s = s.
Proof. reflexivity. Qed.

Lemma append_cons a (s t : string) : String a s ++ t = String a (s ++ t).
Proof. reflexivity. Qed.

Lemma append_empty_r (s : string) : s ++ "" = s.
Proof.
  induction s as [|a s IH]; [reflexivity|]. rewrite append_cons, IH. reflexivity.
Qed.

(** A word without white space in front of a string: it joins the first
    piece of the split. *)
Lemma split_go_word w : forall b s,
  w <> EmptyString ->
  forallb (fun c => negb (is_space c)) (list_ascii_of_string w) = true ->
  split_go b (w ++ s) =
  match split_go false s with
  | t :: ts => (w ++ t) :: ts
  | [] => [w]
  end.
Proof.
  induction w as [|a w IH]; intros b s Hne Hw; [contradiction|].
  simpl in Hw. apply andb_true_iff in Hw. destruct Hw as [Ha Hw].
  apply negb_true_iff in Ha.
  change (String a w ++ s) with (String a (w ++ s)). cbn [split_go]. rewrite Ha.
  destruct w as [|a' w'].
  - rewrite append_empty_l. destruct (split_go_cons false s) as (t & ts & ->). reflexivity.
  - rewrite (IH false s) by (try discriminate; exact Hw).
    destruct (split_go_cons false s) as (t & ts & ->). reflexivity.
Qed.

Lemma split_ws_join ws :
  ws <> [] ->
  (forall w, In w ws ->
     w <> EmptyString
     /\ forallb (fun c => negb (is_space c)) (list_ascii_of_string w) = true) ->
  split_ws (join " " ws) = ws.
Proof.
  unfold split_ws. induction ws as [|w ws IH]; intros Hne Hall; [contradiction|].
  destruct (Hall w (or_introl eq_refl)) as [Hw1 Hw2].
  destruct ws as [|w2 ws'].
  - cbn [join]. rewrite <- (append_empty_r w) at 1.
    rewrite (split_go_word w false "" Hw1 Hw2). cbn [split_go].
    rewrite append_empty_r. reflexivity.
  - change (join " " (w :: w2 :: ws')) with (w ++ " " ++ join " " (w2 :: ws')).
    rewrite (split_go_word w false _ Hw1 Hw2).
    change (" " ++ join " " (w2 :: ws')) with (String " " (join " " (w2 :: ws'))).
    cbn [split_go]. change (is_space " ") with true. cbv iota.
    rewrite append_empty_r. f_equal.
    assert (IH' := IH ltac:(discriminate) (fun x Hx => Hall x (or_intror Hx))).
    destruct (Hall w2 (or_intror (or_introl eq_refl))) as [H21 H22].
    assert (Hb : split_go true (join " " (w2 :: ws')) = split_go false (join " " (w2 :: ws'))).
    { destruct ws' as [|w3 ws''].
      - cbn [join]. rewrite <- (append_empty_r w2).
        rewrite !(split_go_word w2 _ "" H21 H22). reflexivity.
      - change (join " " (w2 :: w3 :: ws'')) with (w2 ++ " " ++ join " " (w3 :: ws'')).
        rewrite !(split_go_word w2 _ _ H21 H22). reflexivity. }
    rewrite Hb. exact IH'.
Qed.

Lemma append_chars (a b : string) c :
  In c (list_ascii_of_string (a ++ b)) ->
  In c (list_ascii_of_string a) \/ In c (list_ascii_of_string b).
Proof.
  induction a as [|x a IHa]; [rewrite append_empty_l; auto|].
  rewrite append_cons. simpl.
  intros [<-|H]; [left; left; reflexivity|]. destruct (IHa H); auto.
Qed.

Lemma join_chars sep ws c :
  In c (list_ascii_of_string (join sep ws)) ->
  In c (list_ascii_of_string sep) \/ exists w, In w ws /\ In c (list_ascii_of_string w).
Proof.
  induction ws as [|w ws IH]; [intros []|].
  destruct ws as [|w2 ws'].
  - cbn [join]. intros H. right. exists w. split; [left; reflexivity|exact H].
  - change (join sep (w :: w2 :: ws')) with (w ++ sep ++ join sep (w2 :: ws')).
    intros H. apply append_chars in H. destruct H as [H|H].
    + right. exists w. split; [left; reflexivity|exact H].
    + apply append_chars in H. destruct H as [H|H]; [left; exact H|].
      destruct (IH H) as [H'|(x & Hx & Hc)]; [left; exact H'|].
      right. exists x. split; [right; exact Hx|exact Hc].
Qed.

Lemma filter_all {A} (f : A -> bool) l :
  (forall x, In x l -> f x = true) -> List.filter f l = l.
Proof.
  induction l as [|x l IH]; intros H; simpl; [reflexivity|].
  rewrite (H x (or_introl eq_refl)), IH; [reflexivity|].
  intros y Hy. apply H. right. exact Hy.
Qed.

(** The split of a string of white space has only empty pieces. *)
Lemma split_go_blank s : forall b w,
  forallb is_space (list_ascii_of_string s) = true -> In w (split_go b s) -> w = EmptyString.
Proof.
  induction s as [|a s IH]; intros b w Hs Hw; simpl in *.
  - destruct Hw as [<-|[]]. reflexivity.
  - apply andb_true_iff in Hs. destruct Hs as [Ha Hs]. rewrite Ha in Hw.
    destruct b; [apply (IH true); assumption|].
    destruct Hw as [<-|Hw]; [reflexivity|apply (IH true); assumption].
Qed.

Lemma strip_lower_blank text :
  forallb (fun c => negb (alnum c)) (list_ascii_of_string text) = true ->
  forallb is_space (list_ascii_of_string (strip_punct (toLowerCase text))) = true.
Proof.
  induction text as [|a s IH]; simpl; [reflexivity|].
  intros H. apply andb_true_iff in H. destruct H as [Ha Hs].
  apply negb_true_iff in Ha. rewrite <- lower_char_plain in Ha.
  unfold keep_char. destruct (is_lower (lower_char a)), (is_digit (lower_char a));
    try discriminate. simpl.
  destruct (is_space (lower_char a)) eqn:E; simpl; [rewrite E|]; auto.
Qed.

Lemma getWords_unlettered text :
  forallb (fun c => negb (alnum c)) (list_ascii_of_string text) = true ->
  getWords text = [].
Proof.
  intros H. unfold getWords.
  assert (Hb := strip_lower_blank text H).
  assert (Hall : forall w, In w (split_ws (strip_punct (toLowerCase text))) ->
                           w = EmptyString)
    by (intros w; apply split_go_blank; exact Hb).
  induction (split_ws (strip_punct (toLowerCase text))) as [|w l IH]; [reflexivity|].
  simpl. rewrite (Hall w (or_introl eq_refl)). simpl. apply IH.
  intros x Hx. apply Hall. right. exact Hx.
Qed.

(** Trimming only removes characters. *)
Lemma trimStart_chars s c :
  In c (list_ascii_of_string (trimStart s)) -> In c (list_ascii_of_string s).
Proof.
  induction s as [|a s IH]; simpl; [auto|].
  destruct (is_space a); [intros H; right; apply IH; exact H|auto].
Qed.

Lemma trimEnd_chars s c :
  In c (list_ascii_of_string (trimEnd s)) -> In c (list_ascii_of_string s).
Proof.
  induction s as [|a s IH]; simpl; [auto|].
  destruct (trimEnd s) as [|b t] eqn:E.
  - destruct (is_space a); simpl; [intros []|intros [H|[]]; left; exact H].
  - simpl. intros [H|H]; [left; exact H|right; apply IH; exact H].
Qed.

Lemma trim_chars s c :
  In c (list_ascii_of_string (trim s)) -> In c (list_ascii_of_string s).
Proof. intros H. apply trimStart_chars, trimEnd_chars. exact H. Qed.

(** X6. The words [getWords] extracts.
    Every word has at least three characters, all of them lower-case
    letters a-z or digits. The extraction does not see letter case, and it
    is a round trip: the words joined by single blanks give back the same
    words. A text of Latin-1 characters (every code unit below 256, as all
    strings here) without any letter A-Z, a-z or digit has no words. *)
Theorem getWords_facts :
  (forall text w, In w (getWords text) ->
     (3 <= String.length w)%nat
     /\ forallb (fun c => is_lower c || is_digit c) (list_ascii_of_string w) = true)
  /\ (forall text, getWords (toLowerCase text) = getWords text)
  /\ (forall text, getWords (join " " (getWords text)) = getWords text)
  /\ (forall text,
        forallb (fun c => negb (is_upper c || is_lower c || is_digit c))
                (list_ascii_of_string text) = true ->
        getWords text = []).
Proof.
  split; [exact getWords_shape|]. split; [|split; [|exact getWords_unlettered]].
  - intros text. unfold getWords. rewrite toLowerCase_idem. reflexivity.
  - intros text. destruct (getWords text) as [|w0 ws0] eqn:E; [reflexivity|].
    rewrite <- E.
    assert (Hne : getWords text <> []) by (rewrite E; discriminate). clear E.
    assert (Kept : forallb keep_char (list_ascii_of_string (join " " (getWords text))) = true).
    { apply forallb_forall. intros c Hc. apply join_chars in Hc.
      destruct Hc as [[<-|[]]|(w & Hw & Hc)]; [reflexivity|].
      destruct (getWords_shape text w Hw) as [_ Hp].
      apply (proj1 (forallb_forall _ _) Hp) in Hc. apply plain_keep in Hc. apply Hc. }
    unfold getWords at 1. rewrite (toLowerCase_kept _ Kept), (strip_punct_kept _ Kept).
    rewrite split_ws_join.
    + apply filter_all. intros w Hw. destruct (getWords_shape text w Hw) as [Hl _].
      apply Nat.ltb_lt. lia.
    + exact Hne.
    + intros w Hw. destruct (getWords_shape text w Hw) as [Hl Hp]. split.
      * intros ->. simpl in Hl. lia.
      * apply forallb_forall. intros c Hc.
        apply (proj1 (forallb_forall _ _) Hp) in Hc. apply plain_keep in Hc.
        destruct Hc as [_ ->]. reflexivity.
Qed.

(** X7. A Latin-1 description without letters or digits is fake.
    Whatever its length and whatever the existing complaints, a description
    of Latin-1 characters (every code unit below 256, as all strings here)
    that contains no letter A-Z or a-z and no digit is given the verdict
    fake by the local filter, and the full filter returns that verdict
    without a request. *)
Theorem unlettered_description_is_fake (description department area : string)
    (existing : list Candidate) (decode : string -> option Verdict) (s : Runtime.State) :
  forallb (fun c => negb (is_upper c || is_lower c || is_digit c))
          (list_ascii_of_string description) = true ->
  v_isFake (localDetectDuplicateOrFake description department area existing) = true
  /\ exists v, v_isFake v = true
               /\ detectDuplicateOrFake decode description department area existing s
                  = (Runtime.Val v, s).
Proof.
  intros H.
  assert (F : v_isFake (localDetectDuplicateOrFake description department area existing) = true).
  { unfold localDetectDuplicateOrFake, fake_detection. cbv zeta.
    destruct (String.length (trim description) <? 10)%nat; [reflexivity|].
    assert (Hw : getWords (trim description) = []).
    { apply getWords_unlettered. apply forallb_forall. intros c Hc.
      apply trim_chars in Hc. exact (proj1 (forallb_forall _ _) H c Hc). }
    rewrite Hw. reflexivity. }
  split; [exact F|].
  exists (localDetectDuplicateOrFake description department area existing).
  split; [exact F|]. unfold detectDuplicateOrFake. rewrite F. reflexivity.
Qed.

End WordFacts.

(** ** The range of the department detector *)

Section DetectorRange.
Import JsString DepartmentDetector.
Local Open Scope Q_scope.

Lemma validDepts_enum : validDepts = Model.DEPARTMENT_ENUM.
Proof. reflexivity. Qed.





Lemma score_path_enum v : In (department (score_path v)) Model.DEPARTMENT_ENUM.
Proof.
  destruct (sorted_scores_spec v)
    as [[E _]|(top & rest & pre & post & E & Hpos & Hsc & Hpre & Hpost & Htot)].
  - unfold score_path. rewrite E. simpl. tauto.
  - unfold score_path. rewrite E. destruct top as [topDept topScore]. cbn [department].
    rewrite <- validDepts_enum. unfold validDepts. apply in_app_iff. left.
    rewrite <- (scores_order v).
    change topDept with (fst (topDept, topScore)). apply List.in_map. rewrite Hsc.
    apply in_app_iff. right. left. reflexivity.
Qed.

Lemma mapToDepartment_enum v : In (department (mapToDepartment v)) Model.DEPARTMENT_ENUM.
Proof.
  unfold mapToDepartment.
  destruct (directDepartment v) as [d|]; [|apply score_path_enum].
  destruct (source v) as [src|]; [|apply score_path_enum].
  destruct (negb (String.eqb d "") && String.eqb src "openrouter-vision");
    [|apply score_path_enum].
  destruct (List.find _ validDepts) as [m|] eqn:F; [|apply score_path_enum].
  cbn [department]. apply List.find_some in F. destruct F as [F _].
  rewrite validDepts_enum in F. exact F.
Qed.


End DetectorRange.

(** ** What one request does to the complaint collection *)

Section EngineSteps.
Import Model Runtime Http JsString Complaints.

Lemma requested_allowed allowed status target :
  Lifecycle.requested allowed status = Some target ->
  In target allowed /\ statusName target = status.
Proof.
  unfold Lifecycle.requested. intros H. apply List.find_some in H.
  destruct H as [H1 H2]. apply String.eqb_eq in H2. auto.
Qed.

(** A request leaves the collection as it is, appends one new document that
    the store accepted, or replaces one document by its update or by its
    rated version. *)
Lemma step_cases op s :
  complaints (Engine.step op s) = complaints s
  \/ (exists user i v priority ticket ap t,
        let c := new_complaint user i v priority ticket ap t (Db.fresh_id (complaints s)) in
        storable c (complaints s) = true
        /\ complaints (Engine.step op s) = (complaints s ++ [c])%list)
  \/ (exists user c target resolution,
        List.find (fun d => (_id d =? _id c)%nat) (complaints s) = Some c
        /\ In target (Lifecycle.validTransitions (status c))
        /\ complaints (Engine.step op s)
           = List.map (fun d => if (_id d =? _id c)%nat
                                then Lifecycle.apply_update user target resolution (now s) c
                                else d)
                      (complaints s))
  \/ (exists c rating feedback,
        List.find (fun d => (_id d =? _id c)%nat) (complaints s) = Some c
        /\ status c = Completed /\ (1 <= rating <= 5)%nat
        /\ (forall r, Model.rating c = Some r -> r = 0%nat)
        /\ complaints (Engine.step op s)
           = List.map (fun d => if (_id d =? _id c)%nat
                                then apply_rating rating feedback (now s) c else d)
                      (complaints s)).
Proof.
  unfold Engine.step.
  destruct op as [user body env|user complaintId status resolution
                 |user complaintId rating feedback|n e d|uid|ms]; cbn [Engine.handle].
  - assert (Hs : snd ((let* _ := create user body env in ret tt) s)
                 = snd (create user body env s)).
    { unfold bind, ret. destruct (create user body env s) as [[?|?] ?]; reflexivity. }
    rewrite Hs.
    destruct (create_cases user body env s) as [(m & -> & _)|Hc]; [left; reflexivity|].
    cbv zeta in Hc. destruct Hc as (v & s1 & _ & _ & _ & G & Hc).
    assert (Hcs1 : complaints s1 = complaints s) by (destruct G as (C & _); exact C).
    destruct Hc as [[_ ->]|(_ & priority & s2 & ap & s3 & _ & G2 & Hd & Hc)]; cbn [snd].
    { left. exact Hcs1. }
    assert (Hcs3 : complaints s3 = complaints s).
    { rewrite dispatch_run in Hd. destruct G2 as (C2 & _).
      destruct (IntegrityFilter.v_isDuplicate v); injection Hd as _ <-;
        cbn [complaints with_log]; congruence. }
    destruct Hc as [[St ->]|[_ (m & ->)]]; cbn [snd]; [|left; exact Hcs3].
    right. left. eexists user, (intake body env), v, priority, _, ap, _. cbv zeta.
    split; [exact St|]. rewrite saved_state_complaints, Hcs3. reflexivity.
  - assert (Hs : snd ((let* _ := Lifecycle.updateStatus user complaintId status resolution
                       in ret tt) s)
                 = snd (Lifecycle.updateStatus user complaintId status resolution s)).
    { unfold bind, ret. destruct (Lifecycle.updateStatus _ _ _ _ s) as [[?|?] ?]; reflexivity. }
    rewrite Hs, updateStatus_run.
    destruct (List.find _ (complaints s)) as [c|] eqn:Hf; [|left; reflexivity].
    destruct (negb _); [left; reflexivity|].
    destruct (Lifecycle.requested _ _) as [target|] eqn:Hr; [|left; reflexivity].
    destruct (_ && _); [left; reflexivity|].
    right. right. left. exists user, c, target, resolution.
    destruct (find_by_id _ _ _ Hf) as [_ Hid]. subst complaintId.
    split; [exact Hf|]. split; [apply (requested_allowed _ _ _ Hr)|]. reflexivity.
  - assert (Hs : snd ((let* _ := Complaints.rate user complaintId rating feedback in ret tt) s)
                 = snd (Complaints.rate user complaintId rating feedback s)).
    { unfold bind, ret. destruct (Complaints.rate _ _ _ _ s) as [[?|?] ?]; reflexivity. }
    rewrite Hs, rate_run.
    destruct ((rating =? 0) || (rating <? 1) || (5 <? rating))%nat eqn:Hrange;
      [left; reflexivity|].
    destruct (List.find _ (complaints s)) as [c|] eqn:Hf; [|left; reflexivity].
    destruct (negb (userId c =? id user)%nat); [left; reflexivity|].
    destruct (negb (status_eqb (status c) Completed)) eqn:Hst; [left; reflexivity|].
    assert (Hc : status c = Completed).
    { apply negb_false_iff in Hst. destruct (status c); try discriminate. reflexivity. }
    assert (Hr : (1 <= rating <= 5)%nat).
    { apply orb_false_iff in Hrange. destruct Hrange as [Hrange H5].
      apply orb_false_iff in Hrange. destruct Hrange as [H0 H1].
      apply Nat.ltb_ge in H1, H5. lia. }
    destruct (find_by_id _ _ _ Hf) as [_ Hid]. subst complaintId.
    assert (Rated : (forall r, Model.rating c = Some r -> r = 0%nat) ->
      exists c0 rating0 feedback0,
        List.find (fun d => (_id d =? _id c0)%nat) (complaints s) = Some c0
        /\ status c0 = Completed /\ (1 <= rating0 <= 5)%nat
        /\ (forall r, Model.rating c0 = Some r -> r = 0%nat)
        /\ List.map (fun d => if (_id d =? _id c)%nat
                              then apply_rating rating feedback (now s) c else d)
                    (complaints s)
           = List.map (fun d => if (_id d =? _id c0)%nat
                                then apply_rating rating0 feedback0 (now s) c0 else d)
                      (complaints s)).
    { intros Hz. exists c, rating, feedback. auto. }
    destruct (Model.rating c) as [[|r]|] eqn:Er; cbn [snd complaints with_complaints].
    + right. right. right. apply Rated. intros r [= <-]. reflexivity.
    + left. reflexivity.
    + right. right. right. apply Rated. intros r [=].
  - left. cbv beta iota zeta delta [Management.createProvider try_catch bind get ret modify emit
                                    throw].
    destruct (existsb _ (users s)); [reflexivity|].
    destruct password; [|reflexivity]. destruct (_ || _); reflexivity.
  - left. reflexivity.
  - left. reflexivity.
Qed.

End EngineSteps.

(** ** Invariants an audit of the collection can rely on *)

Section AuditFacts.
Import Model Runtime Http JsString Complaints Audit.

(** A property of single documents that new documents have and that
    updates and ratings keep holds of every stored document. *)
Lemma reachable_all (P : Complaint -> Prop) :
  (forall user i v priority ticket ap t oid,
     P (new_complaint user i v priority ticket ap t oid)) ->
  (forall user target resolution t c,
     P c -> In target (Lifecycle.validTransitions (status c)) ->
     P (Lifecycle.apply_update user target resolution t c)) ->
  (forall rating feedback t c,
     P c -> status c = Completed -> (1 <= rating <= 5)%nat ->
     P (apply_rating rating feedback t c)) ->
  forall s, Engine.reachable s -> forall c, In c (complaints s) -> P c.
Proof.
  intros Hnew Hupd Hrate s R. induction R as [s (Hc & _)|s op _ IH].
  - rewrite Hc. intros c [].
  - intros d Hd.
    destruct (step_cases op s)
      as [E|[(user & i & v & priority & ticket & ap & t & _ & E)
            |[(user & c & target & resolution & Hf & Ht & E)
             |(c & rating & feedback & Hf & Hs & Hr & _ & E)]]];
      rewrite E in Hd.
    + apply IH. exact Hd.
    + apply in_app_iff in Hd. destruct Hd as [Hd|[<-|[]]]; [apply IH; exact Hd|apply Hnew].
    + apply List.in_map_iff in Hd. destruct Hd as (x & <- & Hx).
      destruct (_id x =? _id c)%nat; [|apply IH; exact Hx].
      apply Hupd; [|exact Ht]. apply IH. apply (find_by_id _ _ _ Hf).
    + apply List.in_map_iff in Hd. destruct Hd as (x & <- & Hx).
      destruct (_id x =? _id c)%nat; [|apply IH; exact Hx].
      apply Hrate; [|exact Hs|exact Hr]. apply IH. apply (find_by_id _ _ _ Hf).
Qed.

Lemma last_default {A} (l : list A) : forall x d d', List.last (x :: l) d = List.last (x :: l) d'.
Proof.
  induction l as [|y l IH]; intros x d d'; [reflexivity|].
  change (List.last (x :: y :: l) d) with (List.last (y :: l) d).
  change (List.last (x :: y :: l) d') with (List.last (y :: l) d'). apply IH.
Qed.

Lemma lawful_app h : forall first e,
  lawful (ev_status first) (h ++ [e])
  = lawful (ev_status first) h
    && existsb (status_eqb (ev_status e))
               (Lifecycle.validTransitions (ev_status (List.last h first))).
Proof.
  induction h as [|x h IH]; intros first e.
  - simpl. rewrite andb_true_r. reflexivity.
  - change ((x :: h) ++ [e])%list with (x :: (h ++ [e]))%list. cbn [lawful].
    rewrite IH, andb_assoc. f_equal. f_equal. f_equal. f_equal.
    destruct h as [|y h]; [reflexivity|].
    change (List.last (x :: y :: h) first) with (List.last (y :: h) first).
    apply last_default.
Qed.

Lemma last_snoc {A} (h : list A) e d : List.last (h ++ [e]) d = e.
Proof. apply List.last_last. Qed.

Lemma status_eqb_refl a : status_eqb a a = true.
Proof. destruct a; reflexivity. Qed.

Lemma timeline_new user i v priority ticket ap t oid :
  timeline (new_complaint user i v priority ticket ap t oid).
Proof.
  unfold timeline. cbn [statusHistory new_complaint status initial_event].
  destruct (IntegrityFilter.v_isDuplicate v); simpl; auto.
Qed.

Lemma timeline_update user target resolution t c :
  timeline c -> In target (Lifecycle.validTransitions (status c)) ->
  timeline (Lifecycle.apply_update user target resolution t c).
Proof.
  unfold timeline. cbn [statusHistory Lifecycle.apply_update status].
  destruct (statusHistory c) as [|first rest]; [intros []|].
  intros (H1 & H2 & H3 & H4) Ht.
  change ((first :: rest) ++ ?l)%list with (first :: (rest ++ l))%list.
  split; [exact H1|]. split; [exact H2|]. split.
  - rewrite lawful_app, H3, H4. cbn [andb ev_status].
    apply existsb_exists. exists target. split; [exact Ht|apply status_eqb_refl].
  - rewrite last_snoc. reflexivity.
Qed.

(** X9. The status history is a timeline.
    In every state the engine can reach from empty collections, the status
    history of every stored complaint starts with the entry the system
    wrote at creation (Registered, or Rejected for a duplicate), every later
    entry is a transition of [validTransitions] from the entry before it,
    and the last entry carries the complaint's current status. *)
Theorem history_is_timeline (s : State) (c : Complaint) :
  Engine.reachable s -> In c (complaints s) -> timeline c.
Proof.
  intros R. revert c. apply (reachable_all timeline); [| | |exact R].
  - apply timeline_new.
  - intros user target resolution t c. apply timeline_update.
  - intros rating feedback t c H _ _. exact H.
Qed.

(** X11. Ratings.
    In every reachable state a stored rating is a number from 1 to 5 and
    sits on a completed complaint. A complaint is rated at most once: a
    rating request for a complaint that carries a rating is refused with
    status 400, and the state is unchanged. *)
Theorem ratings_are_sound :
  (forall s c, Engine.reachable s -> In c (complaints s) -> rating_ok c)
  /\ (forall user cid rating feedback s c r,
        List.find (fun d => (_id d =? cid)%nat) (complaints s) = Some c ->
        Model.rating c = Some (S r) ->
        exists message,
          rate user cid rating feedback s = (Val (json 400 (Message message)), s)
          \/ rate user cid rating feedback s = (Val (json 403 (Message message)), s)).
Proof.
  split.
  - intros s c R. revert c. apply (reachable_all rating_ok); [| | |exact R].
    + intros user i v priority ticket ap t oid r [=].
    + intros user target resolution t c H Ht r Hr. cbn [Lifecycle.apply_update rating] in Hr.
      destruct (H r Hr) as [_ Hs]. rewrite Hs in Ht. destruct Ht.
    + intros rating feedback t c _ Hs Hr r [= <-]. split; [exact Hr|exact Hs].
  - intros user cid rating feedback s c r Hf Hr. rewrite rate_run, Hf, Hr.
    destruct (_ || _); [eexists; left; reflexivity|].
    destruct (negb (userId c =? id user)%nat); [eexists; right; reflexivity|].
    destruct (negb (status_eqb (status c) Completed)); eexists; left; reflexivity.
Qed.

(** Two documents of a collection with distinct object ids that carry the
    same id are the same document. *)
Lemma same_id_same_doc cs (a b : Complaint) :
  List.NoDup (List.map _id cs) -> In a cs -> In b cs -> _id a = _id b -> a = b.
Proof.
  induction cs as [|x cs IH]; intros ND Ha Hb E; [destruct Ha|].
  cbn [List.map] in ND. inversion ND as [|? ? Hnot ND']; subst.
  destruct Ha as [<-|Ha], Hb as [<-|Hb].
  - reflexivity.
  - exfalso. apply Hnot. rewrite E. apply List.in_map. exact Hb.
  - exfalso. apply Hnot. rewrite <- E. apply List.in_map. exact Ha.
  - apply IH; assumption.
Qed.

(** What stays of a document: the identity, the status and its history,
    the assignment and the resolution; for a rejected complaint, all
    of it. *)
Local Abbreviation frozen := (fun c c' : Complaint =>
  _id c' = _id c /\ ticketId c' = ticketId c /\ status c' = status c
  /\ statusHistory c' = statusHistory c /\ assignedTo c' = assignedTo c
  /\ resolution c' = resolution c /\ (status c = Rejected -> c' = c)).

Lemma frozen_refl c : frozen c c.
Proof. repeat split. Qed.

Lemma step_final op s c :
  List.NoDup (List.map _id (complaints s)) ->
  In c (complaints s) -> final (status c) = true ->
  exists c', In c' (complaints (Engine.step op s)) /\ frozen c c'.
Proof.
  intros ND Hc Hfin.
  destruct (step_cases op s)
    as [E|[(user & i & v & priority & ticket & ap & t & _ & E)
          |[(user & c0 & target & resolution & Hf & Ht & E)
           |(c0 & rating & feedback & Hf & Hs & Hr & _ & E)]]];
    rewrite E.
  - exists c. split; [exact Hc|apply frozen_refl].
  - exists c. split; [apply in_app_iff; left; exact Hc|apply frozen_refl].
  - destruct (Nat.eqb_spec (_id c) (_id c0)) as [Eid|Nid].
    + exfalso. assert (c = c0).
      { apply (same_id_same_doc (complaints s)); try assumption.
        apply (find_by_id _ _ _ Hf). }
      subst c0. destruct (status c); try discriminate; destruct Ht.
    + exists c. split; [|apply frozen_refl]. apply List.in_map_iff. exists c.
      split; [|exact Hc]. destruct (Nat.eqb_spec (_id c) (_id c0)); [contradiction|reflexivity].
  - destruct (Nat.eqb_spec (_id c) (_id c0)) as [Eid|Nid].
    + assert (c = c0).
      { apply (same_id_same_doc (complaints s)); try assumption.
        apply (find_by_id _ _ _ Hf). }
      subst c0. exists (apply_rating rating feedback (now s) c). split.
      * apply List.in_map_iff. exists c. split; [|exact Hc].
        rewrite Nat.eqb_refl. reflexivity.
      * cbn [apply_rating _id ticketId status statusHistory assignedTo resolution].
        repeat split. intros Hrej. rewrite Hs in Hrej. discriminate.
    + exists c. split; [|apply frozen_refl]. apply List.in_map_iff. exists c.
      split; [|exact Hc]. destruct (Nat.eqb_spec (_id c) (_id c0)); [contradiction|reflexivity].
Qed.

Lemma run_distinct_ids ops : forall s,
  List.NoDup (List.map _id (complaints s)) ->
  List.NoDup (List.map _id (complaints (run ops s))).
Proof.
  induction ops as [|op ops IH]; intros s H; [exact H|].
  apply IH, step_distinct_ids, H.
Qed.

(** X10. Completed and Rejected are final.
    Once a complaint is Completed or Rejected, no sequence of requests
    changes its status, its history, its assignment or its resolution, and
    a Rejected complaint stays exactly as it is; the document is never
    removed. (Object ids are distinct, as they are in every reachable
    state.) *)
Theorem final_status_is_final (ops : list Engine.Op) (s : State) (c : Complaint) :
  List.NoDup (List.map _id (complaints s)) ->
  In c (complaints s) ->
  final (status c) = true ->
  exists c',
    In c' (complaints (run ops s))
    /\ _id c' = _id c /\ ticketId c' = ticketId c /\ status c' = status c
    /\ statusHistory c' = statusHistory c /\ assignedTo c' = assignedTo c
    /\ resolution c' = resolution c /\ (status c = Rejected -> c' = c).
Proof.
  revert s c. induction ops as [|op ops IH]; intros s c ND Hc Hfin.
  - exists c. split; [exact Hc|apply frozen_refl].
  - destruct (step_final op s c ND Hc Hfin)
      as (c1 & H1 & I1 & T1 & S1 & Hi1 & A1 & R1 & J1).
    destruct (IH (Engine.step op s) c1 (step_distinct_ids op s ND) H1)
      as (c2 & H2 & I2 & T2 & S2 & Hi2 & A2 & R2 & J2).
    { rewrite S1. exact Hfin. }
    exists c2. cbn [run]. split; [exact H2|].
    repeat split; try congruence.
    intros Hrej. rewrite <- (J1 Hrej). apply J2. rewrite S1. exact Hrej.
Qed.

Lemma valid_update user target resolution t c :
  Db.valid (Lifecycle.apply_update user target resolution t c) = Db.valid c.
Proof. reflexivity. Qed.

Lemma valid_rating rating feedback t c :
  Db.valid (apply_rating rating feedback t c) = Db.valid c.
Proof. reflexivity. Qed.

Lemma tickets_after_replace cs c c' :
  ticketId c' = ticketId c ->
  In c cs ->
  List.NoDup (List.map _id cs) ->
  List.map ticketId (List.map (fun d => if (_id d =? _id c)%nat then c' else d) cs)
  = List.map ticketId cs.
Proof.
  intros E Hc ND. rewrite List.map_map. apply List.map_ext_in. intros d Hd.
  destruct (Nat.eqb_spec (_id d) (_id c)) as [Eid|]; [|reflexivity].
  rewrite (same_id_same_doc cs d c ND Hd Hc Eid). exact E.
Qed.

Lemma NoDup_snoc {A} (l : list A) x : List.NoDup l -> ~ In x l -> List.NoDup (l ++ [x]).
Proof.
  intros ND Hx. apply List.NoDup_rev in ND. rewrite <- (List.rev_involutive (l ++ [x])).
  apply List.NoDup_rev. rewrite List.rev_app_distr. cbn [List.rev List.app].
  constructor; [|exact ND]. rewrite <- List.in_rev. exact Hx.
Qed.

Lemma step_schema op s :
  List.NoDup (List.map _id (complaints s)) ->
  schema_ok (complaints s) -> schema_ok (complaints (Engine.step op s)).
Proof.
  intros ND [Hv Ht].
  destruct (step_cases op s)
    as [E|[(user & i & v & priority & ticket & ap & t & St & E)
          |[(user & c & target & resolution & Hf & _ & E)
           |(c & rating & feedback & Hf & _ & _ & _ & E)]]];
    rewrite E.
  - split; assumption.
  - cbv zeta in St. unfold storable in St. apply andb_true_iff in St.
    destruct St as [V F]. split.
    + intros d Hd. apply in_app_iff in Hd.
      destruct Hd as [Hd|[<-|[]]]; [apply Hv; exact Hd|exact V].
    + rewrite List.map_app. apply NoDup_snoc; [exact Ht|].
      cbn [List.map]. intros Hin. apply List.in_map_iff in Hin.
      destruct Hin as (d & Hd1 & Hd2).
      apply negb_true_iff in F.
      assert (Hex : existsb (fun d0 => String.eqb (ticketId d0)
                       (ticketId (new_complaint user i v priority ticket ap t
                                    (Db.fresh_id (complaints s))))) (complaints s) = true).
      { apply existsb_exists. exists d. split; [exact Hd2|]. apply String.eqb_eq. exact Hd1. }
      congruence.
  - destruct (find_by_id _ _ _ Hf) as [Hc _]. split.
    + intros d Hd. apply List.in_map_iff in Hd. destruct Hd as (x & <- & Hx).
      destruct (_id x =? _id c)%nat; [|apply Hv; exact Hx].
      rewrite valid_update. apply Hv. exact Hc.
    + rewrite tickets_after_replace; [exact Ht|reflexivity|exact Hc|exact ND].
  - destruct (find_by_id _ _ _ Hf) as [Hc _]. split.
    + intros d Hd. apply List.in_map_iff in Hd. destruct Hd as (x & <- & Hx).
      destruct (_id x =? _id c)%nat; [|apply Hv; exact Hx].
      rewrite valid_rating. apply Hv. exact Hc.
    + rewrite tickets_after_replace; [exact Ht|reflexivity|exact Hc|exact ND].
Qed.

(** X12. The collection keeps to the schema.
    In every reachable state every stored complaint passes the validation
    of the schema (ticket id, user name and e-mail, area, description and
    photo present, department in the enumeration) and no two stored
    complaints share a ticket id. *)
Theorem collection_keeps_schema (s : State) :
  Engine.reachable s -> schema_ok (complaints s).
Proof.
  intros R. induction R as [s (Hc & _)|s op R IH].
  - rewrite Hc. split; [intros c []|constructor].
  - apply step_schema; [apply reachable_distinct_ids; exact R|exact IH].
Qed.

End AuditFacts.

(** ** More on complaint creation *)

Section CreateMore.
Import Model Runtime Http JsString Complaints Gateway Traffic DispatchBalancer.

Lemma prioritize_spent description department s :
  exists p s' r w,
    PriorityAssigner.prioritizeComplaint description department s = (Val p, s')
    /\ spent s s' r w /\ (r <= 4)%nat /\ (w <= 2)%nat.
Proof.
  unfold PriorityAssigner.prioritizeComplaint.
  destruct (callAI_spent 10 s) as (o & s' & r & w & H & S & R & W & _).
  rewrite (bind_val _ _ _ _ _ H).
  destruct o as [t|]; [|eexists _, _, r, w; split; [reflexivity|auto]].
  destruct (String.eqb t ""); [eexists _, _, r, w; split; [reflexivity|auto]|].
  destruct (List.find _ _); eexists _, _, r, w; (split; [reflexivity|auto]).
Qed.

Lemma detect_spent decode description department area existing s :
  exists v s' r w,
    IntegrityFilter.detectDuplicateOrFake decode description department area existing s
    = (Val v, s')
    /\ spent s s' r w /\ (r <= 4)%nat /\ (w <= 2)%nat.
Proof.
  assert (Quiet : forall v : IntegrityFilter.Verdict, exists v' s' r w,
            (Val v, s) = (Val v', s') /\ spent s s' r w /\ (r <= 4)%nat /\ (w <= 2)%nat).
  { intros v. exists v, s, 0%nat, 0%nat. split; [reflexivity|].
    split; [apply spent_refl|lia]. }
  unfold IntegrityFilter.detectDuplicateOrFake.
  destruct (_ || _); [apply Quiet|].
  destruct (0 <? _)%nat; [|apply Quiet].
  destruct (callAI_spent 150 s) as (o & s' & r & w & H & S & R & W & _).
  rewrite (bind_val _ _ _ _ _ H).
  destruct o as [t|]; [|eexists _, _, r, w; split; [reflexivity|auto]].
  destruct (String.eqb t ""); [eexists _, _, r, w; split; [reflexivity|auto]|].
  destruct (decode t); eexists _, _, r, w; (split; [reflexivity|auto]).
Qed.

Lemma integrity_check_spent env i s :
  exists v s' r w, integrity_check env i s = (Val v, s')
                   /\ spent s s' r w /\ (r <= 4)%nat /\ (w <= 2)%nat.
Proof.
  unfold integrity_check.
  destruct (detect_spent (decode env) (in_description i) (in_department i) (in_area i)
              (existing_for (in_department i) (complaints s)) s)
    as (v & s' & r & w & H & S).
  exists v, s', r, w. split; [|exact S].
  apply try_catch_val. cbv beta iota zeta delta [bind get]. exact H.
Qed.

(** A line of the console or a message to the mailer costs nothing. *)
Lemma spent_event s s' r w e :
  spent s s' r w -> is_request e = false -> is_sleep e = false ->
  spent s (with_log (log s' ++ [e]) s') r w.
Proof.
  intros (C & U & R & N & W & T) Hr Hs. unfold spent, requests_sent, waits in *.
  cbn [complaints users remote log now with_log].
  rewrite !List.filter_app, !List.length_app. cbn [List.filter]. rewrite Hr, Hs.
  cbn [List.length]. repeat split; try assumption; lia.
Qed.

Lemma dispatch_spent v department s0 s r w ap s' :
  spent s0 s r w -> dispatch v department s = (Val ap, s') -> spent s0 s' r w.
Proof.
  intros S H. rewrite dispatch_run in H.
  destruct (IntegrityFilter.v_isDuplicate v); [injection H as _ <-; exact S|].
  cbv zeta in H. injection H as _ <-. apply spent_event; [exact S|reflexivity|reflexivity].
Qed.

Lemma saved_state_traffic c ap s :
  users (saved_state c ap s) = users s
  /\ requests_sent (saved_state c ap s) = requests_sent s
  /\ waits (saved_state c ap s) = waits s
  /\ now (saved_state c ap s) = now s.
Proof.
  unfold saved_state, requests_sent, waits. destruct ap as [p|]; cbn; [|auto].
  rewrite !List.filter_app, !List.length_app. cbn. repeat split; lia.
Qed.

(** What a creation spends, as the log of the gateway records it. *)
Lemma create_spent (user : ReqUser) (body : CreateBody) (env : CreateEnv) (s : State) :
  let out := create user body env s in
  (exists response, fst out = Val response)
  /\ users (snd out) = users s
  /\ (complaints (snd out) = complaints s
      \/ exists c, complaints (snd out) = (complaints s ++ [c])%list)
  /\ exists r w,
       (r <= 8)%nat /\ (w <= 4)%nat
       /\ requests_sent (snd out) = (requests_sent s + r)%nat
       /\ waits (snd out) = (waits s + w)%nat
       /\ now (snd out)
          = (now s + latencies (remote s) (requests_sent s) r + RETRY_DELAY_MS * Z.of_nat w)%Z.
Proof.
  cbv zeta.
  destruct (create_cases user body env s) as [(m & -> & _)|Hc].
  { cbn [fst snd]. split; [eauto|]. split; [reflexivity|]. split; [left; reflexivity|].
    exists 0%nat, 0%nat. destruct (spent_refl s) as (_ & _ & _ & N & W & T).
    repeat split; try lia; assumption. }
  cbv zeta in Hc. destruct Hc as (v & s1 & _ & _ & Hv & _ & Hc).
  destruct (integrity_check_spent env (intake body env) s)
    as (v' & s1' & r1 & w1 & Hv' & S1 & R1 & W1).
  rewrite Hv in Hv'. injection Hv' as <- <-.
  destruct Hc as [[_ ->]|(_ & priority & s2 & ap & s3 & Hp & _ & Hd & Hc)]; cbn [fst snd].
  { destruct S1 as (C & U & _ & N & W & T).
    split; [eauto|]. split; [exact U|]. split; [left; exact C|].
    exists r1, w1. repeat split; try lia; assumption. }
  destruct (prioritize_spent (in_description (intake body env))
              (in_department (intake body env)) s1)
    as (p' & s2' & r2 & w2 & Hp' & S2 & R2 & W2).
  rewrite Hp in Hp'. injection Hp' as <- <-.
  assert (S3 : spent s s3 (r1 + r2) (w1 + w2)).
  { eapply dispatch_spent; [|exact Hd]. eapply spent_trans; eassumption. }
  destruct S3 as (C & U & _ & N & W & T).
  destruct Hc as [[_ ->]|[_ (m & ->)]]; cbn [fst snd].
  - destruct (saved_state_traffic
                (new_complaint user (intake body env) v priority
                   (make_ticketId (now s2) (random env)) ap (now s2)
                   (Db.fresh_id (complaints s))) ap s3) as (U' & N' & W' & T').
    split; [eauto|]. split; [congruence|].
    split; [right; eexists; rewrite saved_state_complaints, C; reflexivity|].
    exists (r1 + r2)%nat, (w1 + w2)%nat.
    rewrite N', W', T'. repeat split; try lia; assumption.
  - split; [eauto|]. split; [exact U|]. split; [left; exact C|].
    exists (r1 + r2)%nat, (w1 + w2)%nat. repeat split; try lia; assumption.
Qed.

(** X15. The budget of a creation request.
    [POST /] always ends with an answer: nothing the handler calls makes it
    throw. It never changes the users, and it changes the complaint
    collection by at most one document, appended at the end. For a request
    that names its department (so that no image analysis runs) the handler
    calls the gateway at most twice (duplicate check, priority), so it sends
    at most eight requests to the remote model and the gateway waits at most
    four times. *)
Theorem create_budget (user : ReqUser) (body : CreateBody) (env : CreateEnv) (s : State) :
  let out := create user body env s in
  (exists response, fst out = Val response)
  /\ users (snd out) = users s
  /\ (complaints (snd out) = complaints s
      \/ exists c, complaints (snd out) = (complaints s ++ [c])%list)
  /\ (truthy (b_department body) = true ->
      exists r w,
        (r <= 8)%nat /\ (w <= 4)%nat
        /\ requests_sent (snd out) = (requests_sent s + r)%nat
        /\ waits (snd out) = (waits s + w)%nat).
Proof.
  cbv zeta. destruct (create_spent user body env s) as (A & U & C & r & w & R & W & N & S & _).
  split; [exact A|]. split; [exact U|]. split; [exact C|].
  intros _. exists r, w. auto.
Qed.












Lemma active_load_snoc cs c k :
  active_load (cs ++ [c]) k
  = (active_load cs k
     + if opt_nat_eqb (assignedTo c) k && is_active (status c) then 1 else 0)%nat.
Proof.
  unfold active_load. rewrite List.filter_app, List.length_app. cbn [List.filter].
  destruct (_ && _); reflexivity.
Qed.

(** X14. A creation and the loads of the providers.
    When a creation is answered 201 for a complaint that is not a
    duplicate, and the department has providers, the complaint goes to a
    provider of the department whose active load is least; that provider's
    load grows by one and no other load changes. If the loads of the
    department's providers differed by at most one before, they differ by
    at most one after. *)
Theorem creation_keeps_balance (user : ReqUser) (body : CreateBody) (env : CreateEnv)
    (s : State) (info : CreatedInfo) :
  fst (create user body env s) = Val (json 201 (Created info)) ->
  r_isDuplicate info = false ->
  let providers := providers_of (r_department info) (users s) in
  let before := active_load (complaints s) in
  let after := active_load (complaints (snd (create user body env s))) in
  (providers = [] -> r_assignedTo info = None /\ forall k, after k = before k)
  /\ (providers <> [] ->
        exists p, In p providers /\ r_assignedTo info = Some (u_name p)
                  /\ (forall q, In q providers -> (before (u_id p) <= before (u_id q))%nat)
                  /\ after (u_id p) = S (before (u_id p))
                  /\ (forall k, k <> u_id p -> after k = before k))
  /\ ((forall q q', In q providers -> In q' providers ->
                    (before (u_id q) <= before (u_id q') + 1)%nat) ->
      forall q q', In q providers -> In q' providers ->
                   (after (u_id q) <= after (u_id q') + 1)%nat).
Proof.
  intros H Hdup.
  destruct (create_cases user body env s) as [(m & E & _)|Hc].
  { rewrite E in H. discriminate. }
  cbv zeta in Hc. remember (intake body env) as i eqn:Ei. clear Ei.
  destruct Hc as (v & s1 & _ & _ & _ & G1 & Hc).
  destruct Hc as [[_ E]|(Hfake & priority & s2 & ap & s3 & _ & G2 & Hd & Hc)].
  { rewrite E in H. discriminate. }
  destruct Hc as [[_ E]|[_ (m & E)]]; [|rewrite E in H; discriminate].
  rewrite E in *. cbn [fst snd] in *. injection H as <-.
  cbn [r_isDuplicate r_department r_assignedTo new_complaint isDuplicate department] in *.
  rewrite saved_state_complaints.
  assert (U : users s2 = users s).
  { destruct G1 as (_ & U1 & _), G2 as (_ & U2 & _). congruence. }
  assert (C2 : complaints s2 = complaints s).
  { destruct G1 as (C1 & _), G2 as (C2 & _). congruence. }
  rewrite dispatch_run, Hdup in Hd. cbv zeta in Hd. rewrite U, C2 in Hd.
  injection Hd as Hap Hs3.
  assert (C3 : complaints s3 = complaints s) by (rewrite <- Hs3; exact C2).
  rewrite C3. cbv zeta.
  set (providers := providers_of (in_department i) (users s)) in *.
  assert (Load : forall k,
            active_load (complaints s ++
                         [new_complaint user i v priority
                            (make_ticketId (now s2) (random env)) ap (now s2)
                            (Db.fresh_id (complaints s))]) k
            = (active_load (complaints s) k
               + match ap with
                 | Some p => if (u_id p =? k)%nat then 1 else 0
                 | None => 0
                 end)%nat).
  { intros k. rewrite active_load_snoc.
    cbn [new_complaint assignedTo status]. rewrite Hdup. cbn [is_active].
    rewrite andb_true_r. destruct ap as [p|]; reflexivity. }
  assert (Empty : providers = [] -> ap = None).
  { intros Hp. rewrite Hp in Hap. simpl in Hap. congruence. }
  assert (Chosen : providers <> [] ->
            exists p, ap = Some p /\ In p providers
                      /\ forall q, In q providers ->
                           (active_load (complaints s) (u_id p)
                            <= active_load (complaints s) (u_id q))%nat).
  { intros Hne. destruct (choose_spec providers (complaints s) Hne)
      as (pre & p & post & Hsplit & Hch & Hpre & Hpost).
    exists p. split.
    - rewrite <- Hap, Hch. destruct providers; [contradiction|reflexivity].
    - split; [rewrite Hsplit; apply in_app_iff; right; left; reflexivity|].
      intros q Hq. rewrite Hsplit in Hq. apply in_app_iff in Hq.
      destruct Hq as [Hq|[<-|Hq]]; [apply Hpre in Hq; lia|lia|apply Hpost; exact Hq]. }
  split; [|split].
  - intros Hp. rewrite (Empty Hp) in *. split; [reflexivity|].
    intros k. rewrite Load. lia.
  - intros Hne. destruct (Chosen Hne) as (p & -> & Hin & Hleast).
    exists p. split; [exact Hin|]. split; [reflexivity|]. split; [exact Hleast|].
    split.
    + rewrite Load, Nat.eqb_refl. lia.
    + intros k Hk. rewrite Load.
      destruct (Nat.eqb_spec (u_id p) k); [congruence|lia].
  - intros Hspread q q' Hq Hq'.
    assert (Hne : providers <> []) by (intros Hp; rewrite Hp in Hq; destruct Hq).
    destruct (Chosen Hne) as (p & -> & Hin & Hleast).
    rewrite !Load.
    specialize (Hspread q q' Hq Hq'). pose proof (Hleast q' Hq') as L'.
    destruct (Nat.eqb_spec (u_id p) (u_id q)) as [E1|N1],
             (Nat.eqb_spec (u_id p) (u_id q')) as [E2|N2]; try lia.
    rewrite <- E1. lia.
Qed.

End CreateMore.

(** ** Reverse geocoding *)

Section GeocoderFacts.
Import Model JsString Geocoder.

(** [find] returns the first element that passes the test. *)
Lemma find_first {A} (f : A -> bool) l x :
  List.find f l = Some x ->
  exists pre post, l = (pre ++ x :: post)%list /\ f x = true
                   /\ forall y, In y pre -> f y = false.
Proof.
  induction l as [|a l IH]; [discriminate|]. simpl.
  destruct (f a) eqn:E.
  - intros [= <-]. exists [], l. split; [reflexivity|]. split; [exact E|intros y []].
  - intros H. destruct (IH H) as (pre & post & -> & Hx & Hpre).
    exists (a :: pre), post. split; [reflexivity|]. split; [exact Hx|].
    intros y [<-|Hy]; [exact E|apply Hpre; exact Hy].
Qed.

Lemma find_area_spec text district :
  find_area text = Some district ->
  exists pre post, tamilNaduAreas = (pre ++ district :: post)%list
                   /\ mentions text district = true
                   /\ forall d, In d pre -> mentions text d = false.
Proof. apply find_first. Qed.

Lemma find_area_none text :
  find_area text = None -> forall d, In d tamilNaduAreas -> mentions text d = false.
Proof. intros H d Hd. exact (List.find_none _ _ H d Hd). Qed.

(** The loop over the components: the district of the first component that
    mentions one. *)
Lemma scan_found components district :
  scan components = Found district ->
  exists before name after,
    List.map long_name components
    = (List.map Some before ++ Some name :: after)%list
    /\ find_area name = Some district
    /\ forall n, In n before -> find_area n = None.
Proof.
  induction components as [|c rest IH]; [discriminate|]. cbn [scan].
  destruct (long_name c) as [name|] eqn:En; [|discriminate].
  destruct (find_area name) as [d|] eqn:Ef.
  - intros [= <-]. exists [], name, (List.map long_name rest).
    cbn [List.map]. rewrite En. split; [reflexivity|]. split; [exact Ef|intros n []].
  - intros H. destruct (IH H) as (before & name' & after & Hm & Hf & Hb).
    exists (name :: before), name', after. cbn [List.map]. rewrite En, Hm.
    split; [reflexivity|]. split; [exact Hf|].
    intros n [<-|Hn]; [exact Ef|apply Hb; exact Hn].
Qed.

Lemma scan_not_found components :
  scan components = NotFound ->
  forall c, In c components -> exists name, long_name c = Some name /\ find_area name = None.
Proof.
  induction components as [|c rest IH]; [intros _ x []|]. cbn [scan].
  destruct (long_name c) as [name|] eqn:En; [|discriminate].
  destruct (find_area name) eqn:Ef; [discriminate|].
  intros H x [<-|Hx]; [exists name; auto|apply IH; assumption].
Qed.

Lemma scan_thrown components :
  scan components = Thrown <->
  exists before after,
    List.map long_name components = (List.map Some before ++ None :: after)%list
    /\ forall n, In n before -> find_area n = None.
Proof.
  induction components as [|c rest IH]; cbn [scan List.map].
  - split; [discriminate|]. intros (before & after & H & _).
    destruct before; discriminate.
  - destruct (long_name c) as [name|] eqn:En.
    + destruct (find_area name) as [d|] eqn:Ef.
      * split; [discriminate|]. intros (before & after & H & Hb).
        destruct before as [|n before]; [discriminate|]. cbn [List.map List.app] in H.
        injection H as <- _. rewrite (Hb name) in Ef by (left; reflexivity). discriminate.
      * rewrite IH. split.
        -- intros (before & after & H & Hb). exists (name :: before), after.
           cbn [List.map List.app]. rewrite H. split; [reflexivity|].
           intros n [<-|Hn]; [exact Ef|apply Hb; exact Hn].
        -- intros (before & after & H & Hb).
           destruct before as [|n before]; [discriminate|]. cbn [List.map List.app] in H.
           injection H as <- H. exists before, after. split; [exact H|].
           intros m Hm. apply Hb. right. exact Hm.
    + split; [|reflexivity]. intros _. exists [], (List.map long_name rest).
      split; [reflexivity|intros n []].
Qed.

Lemma names_of_components components before name after :
  List.map long_name components = (List.map Some before ++ Some name :: after)%list ->
  In name (List.flat_map (fun c => match long_name c with Some n => [n] | None => [] end)
                         components).
Proof.
  revert before. induction components as [|c rest IH]; intros before H.
  - destruct before; discriminate.
  - cbn [List.map] in H. cbn [List.flat_map].
    destruct before as [|b before]; cbn [List.map List.app] in H; injection H as Hc H.
    + rewrite Hc. left. reflexivity.
    + apply in_app_iff. right. apply (IH before H).
Qed.

(** X16. The district [reverseGeocode] reports.
    - Without an API key, after a failed request, or for an answer whose
      status is not "OK" or that has no result, the function returns the
      empty place.
    - The area it returns is empty or one of the districts of the table.
    - A district found in the address components wins over the formatted
      address: it is the district of the first component that mentions one
      (letter case apart), and within that component the first district
      of the table that occurs in it. Only when no component mentions a
      district is the formatted address searched, in the same way.
    - A component without a name before any district is found makes the
      function return the empty place: the address is lost with it.
    - Hence a complaint created without an area gets the area "Unknown" or
      a district of the table. *)
Theorem reverseGeocode_district (apiKey : option string) (fetched : Fetched) :
  let place := reverseGeocode apiKey fetched in
  (truthy apiKey = false \/ fetched = Failed
   \/ (exists data, fetched = Body data
                    /\ (geo_status data <> Some "OK" \/ results data = None
                        \/ results data = Some [])) ->
   place = nowhere)
  /\ (area place = "" \/ In (area place) tamilNaduAreas)
  /\ (forall data first others,
        truthy apiKey = true -> fetched = Body data ->
        geo_status data = Some "OK" -> results data = Some (first :: others) ->
        let components := match address_components first with
                          | Some components => components
                          | None => []
                          end in
        let fullAddress := or_else (formatted_address first) "" in
        (forall district, scan components = Found district ->
           place = {| address := fullAddress; area := district |}
           /\ exists before name after,
                List.map long_name components
                = (List.map Some before ++ Some name :: after)%list
                /\ (forall n, In n before ->
                      forall d, In d tamilNaduAreas -> mentions n d = false)
                /\ exists pre post,
                     tamilNaduAreas = (pre ++ district :: post)%list
                     /\ mentions name district = true
                     /\ forall d, In d pre -> mentions name d = false)
        /\ (scan components = NotFound ->
              address place = fullAddress
              /\ (forall n d, In n (component_names first) -> In d tamilNaduAreas ->
                              mentions n d = false)
              /\ (area place = "" ->
                    forall d, In d tamilNaduAreas -> mentions fullAddress d = false)
              /\ (area place <> "" ->
                    exists pre post,
                      tamilNaduAreas = (pre ++ area place :: post)%list
                      /\ mentions fullAddress (area place) = true
                      /\ forall d, In d pre -> mentions fullAddress d = false))
        /\ (scan components = Thrown -> place = nowhere))
  /\ (forall body env,
        Complaints.geo_area env = area place ->
        truthy (Complaints.b_area body) = false ->
        In (Complaints.in_area (Complaints.intake body env)) ("Unknown" :: tamilNaduAreas)).
Proof.
  assert (Range : area (reverseGeocode apiKey fetched) = ""
                  \/ In (area (reverseGeocode apiKey fetched)) tamilNaduAreas).
  { unfold reverseGeocode. destruct (negb (truthy apiKey)); [left; reflexivity|].
    destruct fetched as [data|]; [|left; reflexivity].
    destruct (first_result data) as [first|]; [|left; reflexivity].
    unfold locate. cbv zeta.
    destruct (scan _) as [district| |] eqn:Es; cbn [area nowhere]; [| |left; reflexivity].
    + right. destruct (scan_found _ _ Es) as (_ & name & _ & _ & Hf & _).
      apply List.find_some in Hf. apply Hf.
    + destruct (find_area _) as [d|] eqn:Ef; [|left; reflexivity].
      right. apply List.find_some in Ef. apply Ef. }
  cbv zeta. split; [|split; [exact Range|split]].
  - unfold reverseGeocode. intros [H|[H|(data & H & Hd)]].
    + rewrite H. reflexivity.
    + rewrite H. destruct (negb (truthy apiKey)); reflexivity.
    + rewrite H. destruct (negb (truthy apiKey)); [reflexivity|].
      assert (first_result data = None) as ->; [|reflexivity].
      unfold first_result. destruct Hd as [Hd|[Hd|Hd]].
      * destruct (geo_status data) as [st|]; [|reflexivity].
        destruct (results data) as [[|? ?]|]; try reflexivity.
        destruct (String.eqb_spec st "OK") as [->|Hne]; [contradiction|reflexivity].
      * rewrite Hd. destruct (geo_status data); reflexivity.
      * rewrite Hd. destruct (geo_status data); reflexivity.
  - intros data first others Hk -> Hs Hr. unfold reverseGeocode, first_result.
    rewrite Hk, Hs, Hr. cbn [negb String.eqb Ascii.eqb Bool.eqb]. unfold locate. cbv zeta.
    split; [|split].
    + intros district Es. rewrite Es. split; [reflexivity|].
      destruct (scan_found _ _ Es) as (before & name & after & Hm & Hf & Hb).
      exists before, name, after. split; [exact Hm|]. split.
      * intros n Hn. apply find_area_none. apply Hb. exact Hn.
      * apply find_area_spec. exact Hf.
    + intros Es. rewrite Es. cbn [address area]. split; [reflexivity|]. split; [|split].
      * intros n d Hn Hd. unfold component_names in Hn.
        destruct (address_components first) as [components|]; [|destruct Hn].
        apply List.in_flat_map in Hn. destruct Hn as (c & Hc & Hn).
        destruct (scan_not_found _ Es c Hc) as (name & En & Ef).
        rewrite En in Hn. destruct Hn as [<-|[]].
        apply (find_area_none _ Ef). exact Hd.
      * destruct (find_area _) as [d0|] eqn:Ef.
        -- intros E0. apply List.find_some in Ef. destruct Ef as [Hin _].
           rewrite E0 in Hin. exfalso. revert Hin. vm_compute. intuition discriminate.
        -- intros _. apply find_area_none. exact Ef.
      * destruct (find_area _) as [d0|] eqn:Ef; [|intros H; contradiction].
        intros _. apply find_area_spec. exact Ef.
    + intros Es. rewrite Es. reflexivity.
  - intros body env Hg Hb. unfold Complaints.intake. cbn [Complaints.in_area].
    rewrite Hb. cbn [negb]. rewrite andb_true_r.
    destruct (truthy (Complaints.b_latitude body) && truthy (Complaints.b_longitude body)).
    + cbn [andb]. destruct (String.eqb_spec (Complaints.geo_area env) "") as [E|E]; cbn [negb].
      * left. unfold truthy in Hb. unfold or_else.
        destruct (Complaints.b_area body) as [x|]; [|reflexivity].
        apply negb_false_iff in Hb. rewrite Hb. reflexivity.
      * right. unfold or_else. apply String.eqb_neq in E. rewrite E.
        apply String.eqb_neq in E. rewrite Hg in *.
        destruct Range as [R|R]; [contradiction|exact R].
    + cbn [andb]. left. unfold truthy in Hb. unfold or_else.
      destruct (Complaints.b_area body) as [x|]; [|reflexivity].
      apply negb_false_iff in Hb. rewrite Hb. reflexivity.
Qed.

End GeocoderFacts.

(** ** A stable sort keeps the order it finds among equals *)

Section StableSort.
Context {A : Type} (key : A -> Q) (R : A -> A -> Prop).
Local Open Scope Q_scope.

Local Abbreviation by_key := (fun a b : A => key a - key b).

(** Smaller key first; among equal keys, the order [R]. *)
Local Abbreviation key_then_R := (fun a b : A => key a < key b \/ (key a == key b /\ R a b)).

Lemma insert_stable x l :
  StronglySorted key_then_R l -> List.Forall (R x) l ->
  StronglySorted key_then_R (JsArray.insert by_key x l).
Proof.
  induction 1 as [|y l Hs IH Hy]; intros Hx; simpl.
  - repeat constructor.
  - inversion Hx as [|? ? Hxy Hxl]; subst.
    destruct (Qle_bool (key x - key y) 0) eqn:E.
    + apply Qle_bool_iff in E.
      constructor; [constructor; assumption|].
      constructor.
      * destruct (Qlt_le_dec (key x) (key y)) as [L|L]; [left; exact L|].
        right. split; [lra|exact Hxy].
      * rewrite List.Forall_forall in *. intros z Hz.
        assert (key y <= key z) by (destruct (Hy z Hz) as [L|[L _]]; lra).
        destruct (Qlt_le_dec (key x) (key z)) as [L|L]; [left; exact L|].
        right. split; [lra|apply Hxl; exact Hz].
    + assert (L : key y < key x).
      { apply Qnot_le_lt. intros L. assert (Qle_bool (key x - key y) 0 = true).
        { apply Qle_bool_iff. lra. }
        congruence. }
      constructor; [apply IH; exact Hxl|].
      rewrite List.Forall_forall in *. intros z Hz.
      apply (Permutation_in _ (insert_perm by_key x l)) in Hz.
      destruct Hz as [<-|Hz]; [left; exact L|apply Hy; exact Hz].
Qed.

Lemma sort_stable l :
  StronglySorted R l -> StronglySorted key_then_R (JsArray.sort by_key l).
Proof.
  induction 1 as [|x l Hs IH Hx]; [constructor|].
  rewrite sort_cons. apply insert_stable; [exact IH|].
  rewrite List.Forall_forall in *. intros z Hz. apply Hx.
  apply (Permutation_in _ (sort_perm by_key l)). exact Hz.
Qed.

End StableSort.

(** ** The provider's list of complaints *)

Section ProviderList.
Import Model Runtime JsString ProviderViews.
Local Open Scope Q_scope.

Lemma priorityOrder_lt p q :
  priorityOrder p < priorityOrder q
  <-> (PriorityAssigner.precedence p < PriorityAssigner.precedence q)%nat.
Proof. destruct p, q; simpl; split; intros H; try lia; try lra; try (vm_compute; reflexivity);
         try (vm_compute in H; discriminate). Qed.

Lemma priorityOrder_eq p q : priorityOrder p == priorityOrder q -> p = q.
Proof. destruct p, q; simpl; intros H; try reflexivity; vm_compute in H; discriminate. Qed.

Lemma StronglySorted_weaken {A} (P Q : A -> A -> Prop) l :
  (forall a b, P a b -> Q a b) -> StronglySorted P l -> StronglySorted Q l.
Proof.
  intros W. induction 1 as [|x l Hs IH Hx]; constructor; [exact IH|].
  rewrite List.Forall_forall in *. intros z Hz. apply W, Hx, Hz.
Qed.

(** X17. The provider's list of complaints.
    Whatever order the store returns among documents that its sort does
    not tell apart, [GET /complaints] answers with exactly the complaints of
    the provider's department that are assigned to the provider or to
    nobody, ordered by priority from Critical to Low and, within one
    priority, newest first. *)
Theorem provider_listing (department : string) (provider : nat)
    (cs found : list Complaint) :
  query_answer department provider cs found ->
  let out := listing found in
  (forall c, In c out <->
             In c cs /\ Model.department c = department
             /\ (assignedTo c = Some provider \/ assignedTo c = None))
  /\ Permutation (List.filter (visible department provider) cs) out
  /\ StronglySorted listed_before out.
Proof.
  intros [P S]. cbv zeta. unfold listing.
  set (cmp := fun a b : Complaint => priorityOrder (priority a) - priorityOrder (priority b)).
  assert (P' : Permutation (List.filter (visible department provider) cs)
                           (JsArray.sort cmp found)).
  { rewrite P. symmetry. apply sort_perm. }
  split; [|split; [exact P'|]].
  - intros c. split.
    + intros H. apply (Permutation_in _ (Permutation_sym P')) in H.
      apply List.filter_In in H. destruct H as [Hin Hv].
      unfold visible in Hv. apply andb_true_iff in Hv. destruct Hv as [Hd Ha].
      split; [exact Hin|]. split; [apply String.eqb_eq; exact Hd|].
      destruct (assignedTo c) as [p|]; [|right; reflexivity].
      apply Nat.eqb_eq in Ha. left. congruence.
    + intros (Hin & Hd & Ha). apply (Permutation_in _ P').
      apply List.filter_In. split; [exact Hin|]. unfold visible.
      apply andb_true_iff. split; [apply String.eqb_eq; exact Hd|].
      destruct Ha as [-> | ->]; [apply Nat.eqb_refl|reflexivity].
  - apply (StronglySorted_weaken
             (fun a b => priorityOrder (priority a) < priorityOrder (priority b)
                         \/ (priorityOrder (priority a) == priorityOrder (priority b)
                             /\ stored_before a b))).
    + intros a b [L|[E Hs]].
      * left. apply priorityOrder_lt. exact L.
      * right. apply priorityOrder_eq in E. split; [exact E|].
        unfold stored_before in Hs. rewrite E in Hs.
        destruct (priority b); exact Hs.
    + apply (sort_stable (fun c => priorityOrder (priority c)) stored_before). exact S.
Qed.

End ProviderList.

(** ** The provider's statistics *)

Section ProviderStats.
Import Model Runtime JsString ProviderViews.
Local Open Scope Q_scope.

Lemma status_eqb_eq a b : status_eqb a b = true <-> a = b.
Proof. destruct a, b; simpl; split; intros H; try reflexivity; discriminate. Qed.

Lemma status_eqb_sym a b : status_eqb a b = status_eqb b a.
Proof. destruct a, b; reflexivity. Qed.

Lemma status_dec (a b : Status) : {a = b} + {a <> b}.
Proof. decide equality. Defined.

(** The groups as a table: a new document adds one to the count of its
    status, and the statuses of the groups stay distinct. *)
Lemma group_in_count st groups c :
  group_count st (group_in groups c)
  = (group_count st groups + if status_eqb (status c) st then 1 else 0)%nat.
Proof.
  unfold group_count. induction groups as [|g groups IH]; simpl.
  - destruct (status_eqb (status c) st); reflexivity.
  - destruct (status_eqb (g_status g) (status c)) eqn:E; simpl.
    + apply status_eqb_eq in E. rewrite <- E.
      destruct (status_eqb (g_status g) st); simpl; lia.
    + destruct (status_eqb (g_status g) st) eqn:E2; simpl; [|exact IH].
      apply status_eqb_eq in E2. rewrite <- E2, (status_eqb_sym (status c)), E. lia.
Qed.

Lemma group_in_statuses groups c :
  List.NoDup (List.map g_status groups) ->
  List.NoDup (List.map g_status (group_in groups c))
  /\ forall st, In st (List.map g_status (group_in groups c))
                <-> st = status c \/ In st (List.map g_status groups).
Proof.
  induction groups as [|g groups IH]; intros ND.
  - simpl. split; [repeat constructor; intros []|]. intros st. intuition.
  - cbn [group_in]. cbn [List.map] in ND. inversion ND as [|? ? Hnot ND']; subst.
    destruct (status_eqb (g_status g) (status c)) eqn:E.
    + cbn [List.map g_status]. split; [exact ND|].
      apply status_eqb_eq in E. intros st. simpl. rewrite E. split.
      * intros [H|H]; [left; symmetry; exact H|right; right; exact H].
      * intros [H|[H|H]]; [left; symmetry; exact H|left; exact H|right; exact H].
    + destruct (IH ND') as [N1 N2]. cbn [List.map]. split.
      * constructor; [|exact N1]. rewrite N2. intros [H|H]; [|contradiction].
        rewrite H in E. rewrite status_eqb_refl in E. discriminate.
      * intros st. simpl. rewrite N2. tauto.
Qed.

Lemma group_in_sums groups c :
  ProviderViews.sum (List.map g_count (group_in groups c))
  = S (ProviderViews.sum (List.map g_count groups))
  /\ ProviderViews.sum (List.map g_criticalCount (group_in groups c))
     = (ProviderViews.sum (List.map g_criticalCount groups) + critical_bit c)%nat.
Proof.
  induction groups as [|g groups [IH1 IH2]]; simpl.
  - split; lia.
  - destruct (status_eqb (g_status g) (status c)); simpl; split; lia.
Qed.

Lemma status_groups_spec cs : forall groups,
  List.NoDup (List.map g_status groups) ->
  let out := fold_left group_in cs groups in
  List.NoDup (List.map g_status out)
  /\ (forall st, group_count st out = (group_count st groups + in_status st cs)%nat)
  /\ ProviderViews.sum (List.map g_count out)
     = (ProviderViews.sum (List.map g_count groups) + List.length cs)%nat
  /\ ProviderViews.sum (List.map g_criticalCount out)
     = (ProviderViews.sum (List.map g_criticalCount groups)
        + ProviderViews.sum (List.map critical_bit cs))%nat.
Proof.
  induction cs as [|c cs IH]; intros groups ND; cbv zeta.
  - simpl. split; [exact ND|]. split; [intros st; unfold in_status; simpl; lia|].
    split; lia.
  - cbn [fold_left]. destruct (group_in_statuses groups c ND) as [ND' _].
    destruct (IH _ ND') as (N & Hc & Ht & Hk). cbv zeta in *.
    destruct (group_in_sums groups c) as [S1 S2].
    split; [exact N|]. split; [|split].
    + intros st. rewrite Hc, group_in_count. unfold in_status. cbn [List.filter].
      destruct (status_eqb (status c) st); simpl; lia.
    + rewrite Ht, S1. simpl. lia.
    + rewrite Hk, S2. simpl. lia.
Qed.

(** A table of groups with distinct statuses reads the same in any order. *)
Lemma group_count_member st groups g :
  List.NoDup (List.map g_status groups) -> In g groups -> g_status g = st ->
  group_count st groups = g_count g.
Proof.
  unfold group_count. induction groups as [|x groups IH]; intros ND Hin Hst; [destruct Hin|].
  cbn [List.map] in ND. inversion ND as [|? ? Hnot ND']; subst. simpl.
  destruct Hin as [->|Hin].
  - rewrite status_eqb_refl. reflexivity.
  - destruct (status_eqb (g_status x) (g_status g)) eqn:E; [|apply IH; auto].
    apply status_eqb_eq in E. exfalso. apply Hnot. rewrite E. apply List.in_map. exact Hin.
Qed.

Lemma group_count_absent st groups :
  ~ In st (List.map g_status groups) -> group_count st groups = 0%nat.
Proof.
  unfold group_count. induction groups as [|x groups IH]; intros H; [reflexivity|]. simpl.
  destruct (status_eqb (g_status x) st) eqn:E.
  - apply status_eqb_eq in E. exfalso. apply H. left. exact E.
  - apply IH. intros Hin. apply H. right. exact Hin.
Qed.

Lemma group_count_perm st l l' :
  Permutation l l' -> List.NoDup (List.map g_status l) ->
  group_count st l = group_count st l'.
Proof.
  intros P ND.
  assert (ND' : List.NoDup (List.map g_status l')).
  { apply (Permutation_NoDup (Permutation_map g_status P)). exact ND. }
  destruct (List.in_dec status_dec st (List.map g_status l)) as [Hin|Hout].
  - apply List.in_map_iff in Hin. destruct Hin as (g & Hg & Hin).
    rewrite (group_count_member st l g ND Hin Hg).
    rewrite (group_count_member st l' g ND' (Permutation_in _ P Hin) Hg). reflexivity.
  - rewrite (group_count_absent st l Hout). symmetry. apply group_count_absent.
    intros H. apply Hout. apply (Permutation_in _ (Permutation_sym (Permutation_map g_status P))).
    exact H.
Qed.

Lemma sum_perm l l' : Permutation l l' -> ProviderViews.sum l = ProviderViews.sum l'.
Proof. induction 1; simpl; lia. Qed.

(** The loop over the groups. *)
Lemma loop_totals l : forall k,
  total (fold_left count_group l k) = (total k + ProviderViews.sum (List.map g_count l))%nat
  /\ critical (fold_left count_group l k)
     = (critical k + ProviderViews.sum (List.map g_criticalCount l))%nat.
Proof.
  induction l as [|g l IH]; intros k; simpl; [split; lia|].
  destruct (IH (count_group k g)) as [H1 H2]. rewrite H1, H2.
  unfold count_group. destruct (g_status g); simpl; split; lia.
Qed.

Lemma loop_keeps st l : forall k,
  ~ In st (List.map g_status l) ->
  reported st (fold_left count_group l k) = reported st k.
Proof.
  induction l as [|g l IH]; intros k H; [reflexivity|]. cbn [fold_left].
  rewrite IH by (intros Hin; apply H; right; exact Hin).
  assert (Hg : g_status g <> st) by (intros E; apply H; left; exact E).
  unfold count_group. destruct (g_status g), st; try reflexivity; contradiction.
Qed.

Lemma loop_reported st l : forall k,
  st <> Rejected -> List.NoDup (List.map g_status l) ->
  reported st (fold_left count_group l k)
  = if existsb (fun g => status_eqb (g_status g) st) l then group_count st l
    else reported st k.
Proof.
  induction l as [|g l IH]; intros k Hst ND; [reflexivity|].
  cbn [List.map] in ND. inversion ND as [|? ? Hnot ND']; subst.
  cbn [fold_left existsb]. unfold group_count. cbn [List.find].
  destruct (status_eqb (g_status g) st) eqn:E; cbn [orb].
  - apply status_eqb_eq in E. rewrite loop_keeps by (rewrite <- E; exact Hnot).
    unfold count_group. rewrite E. destruct st; try reflexivity. contradiction.
  - rewrite (IH _ Hst ND'). unfold group_count.
    destruct (existsb _ l); [reflexivity|].
    unfold count_group. destruct (g_status g), st; try reflexivity; discriminate.
Qed.

Lemma group_count_none st l :
  existsb (fun g => status_eqb (g_status g) st) l = false -> group_count st l = 0%nat.
Proof.
  intros H. apply group_count_absent. intros Hin. apply List.in_map_iff in Hin.
  destruct Hin as (g & Hg & Hin).
  assert (existsb (fun g => status_eqb (g_status g) st) l = true); [|congruence].
  apply existsb_exists. exists g. split; [exact Hin|]. apply status_eqb_eq. exact Hg.
Qed.

Lemma in_status_partition cs :
  List.length cs
  = (in_status Registered cs + in_status Accepted cs + in_status WorkingOn cs
     + in_status Completed cs + in_status Rejected cs)%nat.
Proof.
  unfold in_status. induction cs as [|c cs IH]; [reflexivity|]. simpl.
  destruct (status c); simpl; lia.
Qed.

Lemma critical_bits cs :
  ProviderViews.sum (List.map critical_bit cs)
  = List.length (List.filter (fun c => match priority c with Critical => true | _ => false end)
                             cs).
Proof.
  induction cs as [|c cs IH]; [reflexivity|]. simpl. unfold critical_bit at 1.
  destruct (priority c); simpl; lia.
Qed.

Lemma round_near x :
  - (1 # 2) <= inject_Z (Math_round x) - x /\ inject_Z (Math_round x) - x <= 1 # 2.
Proof.
  unfold Math_round.
  pose proof (Qfloor_le (x + (1 # 2))) as L.
  pose proof (Qlt_floor (x + (1 # 2))) as U.
  rewrite inject_Z_plus in U. change (inject_Z 1) with 1 in U. split; lra.
Qed.

Lemma round_between (a b : Z) x :
  inject_Z a <= x -> x <= inject_Z b -> (a <= Math_round x <= b)%Z.
Proof.
  intros L U. unfold Math_round. split.
  - rewrite <- (Qfloor_Z a). apply Qfloor_resp_le. lra.
  - assert (H : (Qfloor (x + (1 # 2)) <= Qfloor (inject_Z b + (1 # 2)))%Z)
      by (apply Qfloor_resp_le; lra).
    assert (E : Qfloor (inject_Z b + (1 # 2)) = b).
    { apply Z.le_antisymm.
      - apply Z.lt_succ_r. rewrite Zlt_Qlt.
        eapply Qle_lt_trans; [apply Qfloor_le|].
        rewrite <- Z.add_1_r, inject_Z_plus. change (inject_Z 1) with 1. lra.
      - rewrite <- (Qfloor_Z b) at 1. apply Qfloor_resp_le. lra. }
    lia.
Qed.

Lemma sum_bounds l :
  (forall r, In r l -> (1 <= r <= 5)%nat) ->
  (List.length l <= ProviderViews.sum l <= 5 * List.length l)%nat.
Proof.
  induction l as [|r l IH]; intros H; simpl; [lia|].
  assert (1 <= r <= 5)%nat by (apply H; left; reflexivity).
  assert (List.length l <= ProviderViews.sum l <= 5 * List.length l)%nat
    by (apply IH; intros x Hx; apply H; right; exact Hx).
  lia.
Qed.

(** X18. The provider's statistics are the counts they stand for.
    Whatever order the store returns the status groups in, the answer of
    [GET /stats] reports the number of complaints of the department, the
    numbers in Registered, Accepted, Working On and Completed (the total
    also counts the Rejected ones, which are not reported on their own),
    the number of Critical complaints, the number of rated complaints, and
    the provider's own active load over all departments. The average rating
    is the mean of the ratings rounded to one decimal: within 0.05 of the
    mean, and between 1 and 5 when the ratings are. *)
Theorem provider_stats (department : string) (provider : nat)
    (statusAgg : list StatusGroup) (cs : list Complaint) :
  Permutation (status_groups (of_department department cs)) statusAgg ->
  let mine := of_department department cs in
  let answer := stats department provider statusAgg cs in
  let k := counters answer in
  total k = List.length mine
  /\ registered k = in_status Registered mine
  /\ accepted k = in_status Accepted mine
  /\ workingOn k = in_status WorkingOn mine
  /\ completed k = in_status Completed mine
  /\ total k = (registered k + accepted k + workingOn k + completed k
                + in_status Rejected mine)%nat
  /\ critical k
     = List.length (List.filter (fun c => match priority c with
                                          | Critical => true
                                          | _ => false
                                          end) mine)
  /\ s_totalRated answer = List.length (ratings_of mine)
  /\ s_myActive answer = DispatchBalancer.active_load cs provider
  /\ (ratings_of mine = [] -> s_avgRating answer == 0)
  /\ (ratings_of mine <> [] ->
        mean_rating mine - (1 # 20) <= s_avgRating answer
        /\ s_avgRating answer <= mean_rating mine + (1 # 20)
        /\ ((forall r, In r (ratings_of mine) -> (1 <= r <= 5)%nat) ->
            1 <= s_avgRating answer /\ s_avgRating answer <= 5)).
Proof.
  intros P. cbv zeta.
  set (mine := of_department department cs) in *.
  destruct (status_groups_spec mine [] ltac:(constructor)) as (ND & Hc & Ht & Hk).
  cbv zeta in ND, Hc, Ht, Hk. fold (status_groups mine) in ND, Hc, Ht, Hk.
  assert (ND' : List.NoDup (List.map g_status statusAgg)).
  { apply (Permutation_NoDup (Permutation_map g_status P)). exact ND. }
  destruct (loop_totals statusAgg no_counts) as [T K].
  assert (Rep : forall st, st <> Rejected ->
            reported st (fold_left count_group statusAgg no_counts) = in_status st mine).
  { intros st Hst. rewrite (loop_reported st statusAgg no_counts Hst ND').
    rewrite <- (group_count_perm st _ _ P ND).
    destruct (existsb _ statusAgg) eqn:E.
    - rewrite Hc. reflexivity.
    - apply group_count_none in E. rewrite <- (group_count_perm st _ _ P ND), Hc in E.
      simpl in E. destruct st; simpl; lia. }
  assert (Tot : total (fold_left count_group statusAgg no_counts) = List.length mine).
  { rewrite T, <- (sum_perm _ _ (Permutation_map g_count P)), Ht. reflexivity. }
  assert (R1 := Rep Registered ltac:(discriminate)).
  assert (R2 := Rep Accepted ltac:(discriminate)).
  assert (R3 := Rep WorkingOn ltac:(discriminate)).
  assert (R4 := Rep Completed ltac:(discriminate)).
  cbn [reported] in R1, R2, R3, R4.
  unfold stats. cbn [counters s_avgRating s_totalRated s_myActive].
  split; [exact Tot|]. split; [exact R1|]. split; [exact R2|]. split; [exact R3|].
  split; [exact R4|]. split.
  { rewrite Tot, R1, R2, R3, R4. apply in_status_partition. }
  split.
  { rewrite K, <- (sum_perm _ _ (Permutation_map g_criticalCount P)), Hk. simpl.
    apply critical_bits. }
  unfold rating_groups, mean_rating. fold mine.
  destruct (ratings_of mine) as [|r rs] eqn:Er.
  { split; [reflexivity|]. split; [reflexivity|]. split; [reflexivity|].
    intros H. contradiction. }
  cbn [avgRating totalRated]. split; [reflexivity|]. split; [reflexivity|].
  split; [intros H; discriminate|]. intros _.
  set (m := ratio (ProviderViews.sum (r :: rs)) (List.length (r :: rs))).
  pose proof (round_near (m * 10)) as [N1 N2].
  split; [|split].
  - apply Qle_shift_div_l; [reflexivity|]. lra.
  - apply Qle_shift_div_r; [reflexivity|]. lra.
  - intros Hr. destruct (sum_bounds (r :: rs) Hr) as [B1 B2].
    assert (Hn : (0 < List.length (r :: rs))%nat) by (simpl; lia).
    assert (M1 : 1 <= m).
    { unfold m, ratio, Qle. cbn [Qnum Qden]. rewrite ratio_den by exact Hn. lia. }
    assert (M5 : m <= 5).
    { unfold m, ratio, Qle. cbn [Qnum Qden]. rewrite ratio_den by exact Hn. lia. }
    destruct (round_between 10 50 (m * 10)) as [L U].
    { change (inject_Z 10) with 10. lra. }
    { change (inject_Z 50) with 50. lra. }
    split.
    + apply Qle_shift_div_l; [reflexivity|].
      change (1 * 10) with (inject_Z 10). rewrite <- Zle_Qle. exact L.
    + apply Qle_shift_div_r; [reflexivity|].
      change (5 * 10) with (inject_Z 50). rewrite <- Zle_Qle. exact U.
Qed.

End ProviderStats.

(** ** The account routes *)

Section AuthFacts.
Import Model JsString Auth.

Variable hash : string -> nat -> string.
Variable compare : string -> string -> bool.
Variable sign : Identity -> string -> Z -> string.

Lemma findOne_some email w a :
  findOne email w = Some a -> In a (accounts w) /\ acc_email a = email.
Proof.
  unfold findOne. intros H. apply List.find_some in H. destruct H as [Hin He].
  apply String.eqb_eq in He. auto.
Qed.

Lemma findOne_none email w :
  findOne email w = None -> forall a, In a (accounts w) -> acc_email a <> email.
Proof.
  unfold findOne. intros H a Hin He. apply (List.find_none _ _ H) in Hin.
  cbn in Hin. apply String.eqb_neq in Hin. auto.
Qed.

Lemma NoDup_map_eq {A B} (f : A -> B) l a b :
  List.NoDup (List.map f l) -> In a l -> In b l -> f a = f b -> a = b.
Proof.
  induction l as [|x l IH]; cbn; intros ND Ha Hb E; [contradiction|].
  inversion ND as [|? ? Hx ND']; subst.
  destruct Ha as [->|Ha], Hb as [->|Hb]; auto.
  - exfalso. apply Hx. rewrite E. now apply List.in_map.
  - exfalso. apply Hx. rewrite <- E. now apply List.in_map.
Qed.

Lemma store_ids a w :
  List.map acc_id (accounts (store a w)) = List.map acc_id (accounts w).
Proof.
  unfold store; cbn. rewrite List.map_map. apply List.map_ext. intros d.
  destruct (Nat.eqb_spec (acc_id d) (acc_id a)); congruence.
Qed.

Lemma store_emails a u w :
  distinct w -> In u (accounts w) -> acc_id a = acc_id u -> acc_email a = acc_email u ->
  List.map acc_email (accounts (store a w)) = List.map acc_email (accounts w).
Proof.
  intros [_ ND] Hu Hid He. unfold store; cbn. rewrite List.map_map.
  apply List.map_ext_in. intros d Hd.
  destruct (Nat.eqb_spec (acc_id d) (acc_id a)) as [E|E]; [|reflexivity].
  rewrite (NoDup_map_eq acc_id (accounts w) d u ND Hd Hu) by congruence. exact He.
Qed.

Lemma store_in a w d :
  In d (accounts (store a w)) -> d = a \/ (In d (accounts w) /\ acc_id d <> acc_id a).
Proof.
  unfold store; cbn. rewrite List.in_map_iff. intros (x & E & Hx).
  destruct (Nat.eqb_spec (acc_id x) (acc_id a)) as [Ex|Ex]; subst; auto.
Qed.

Lemma store_keeps a w d :
  In d (accounts w) -> acc_id d <> acc_id a -> In d (accounts (store a w)).
Proof.
  intros Hd Hn. unfold store; cbn. apply List.in_map_iff. exists d. split; [|exact Hd].
  destruct (Nat.eqb_spec (acc_id d) (acc_id a)); [contradiction|reflexivity].
Qed.

Lemma store_puts a u w :
  In u (accounts w) -> acc_id a = acc_id u -> In a (accounts (store a w)).
Proof.
  intros Hu Hid. unfold store; cbn. apply List.in_map_iff. exists u. split; [|exact Hu].
  rewrite Hid, Nat.eqb_refl. reflexivity.
Qed.

Lemma otp_differs_false stored given : otp_differs stored given = false -> stored = given.
Proof.
  destruct stored as [a|], given as [b|]; cbn; try discriminate; [|reflexivity].
  intros H. apply negb_false_iff, String.eqb_eq in H. congruence.
Qed.

Lemma auth_fresh_id_new accs : ~ In (fresh_id accs) (List.map acc_id accs).
Proof.
  unfold fresh_id. intros H.
  assert (Hle : List.Forall (fun k => (k <= list_max (List.map acc_id accs))%nat)
                  (List.map acc_id accs)).
  { apply list_max_le. lia. }
  rewrite List.Forall_forall in Hle. apply Hle in H. lia.
Qed.

(** What one request does to the collection: nothing, the replacement of
    one account by a version with the same id and address, or one more
    account, unverified and carrying a code. Only a verification with the
    stored code, not after its expiry, changes [isVerified]. *)
Lemma serve_cases r w :
  accounts (serve hash compare sign r w) = accounts w
  \/ (exists u x,
        In u (accounts w)
        /\ accounts (serve hash compare sign r w) = accounts (store x w)
        /\ acc_id x = acc_id u /\ acc_email x = acc_email u
        /\ ((acc_isVerified x = acc_isVerified u
             /\ (acc_otp x = acc_otp u \/ acc_otp x <> None))
            \/ (acc_isVerified x = true
                /\ r = VerifyOtp (acc_email u) (acc_otp u)
                /\ expired (clock w) (acc_otpExpiry u) = false)))
  \/ (exists x,
        accounts (serve hash compare sign r w) = (accounts w ++ [x])%list
        /\ acc_isVerified x = false /\ acc_otp x <> None
        /\ acc_id x = fresh_id (accounts w)
        /\ ~ In (acc_email x) (List.map acc_email (accounts w))).
Proof.
  destruct r as [name email password phone env|email otp|email env|email password env|ms];
    cbn [serve].
  - unfold signup. cbv zeta.
    destruct (findOne email w) as [u|] eqn:F.
    + destruct (findOne_some _ _ _ F) as [Hu He].
      destruct (acc_isVerified u) eqn:V; [left; reflexivity|].
      destruct password as [p|]; [|left; reflexivity].
      destruct (negb _); [left; reflexivity|].
      right; left. eexists u, _. split; [exact Hu|]. split.
      { destruct (delivered env); cbn [snd mailed accounts]; reflexivity. }
      cbn. split; [reflexivity|]. split; [reflexivity|].
      left. split; [auto|]. right. discriminate.
    + destruct password as [p|]; [|left; reflexivity].
      destruct (negb _); [left; reflexivity|].
      right; right. eexists. split.
      { destruct (delivered env); cbn [snd mailed accounts]; reflexivity. }
      cbn. repeat split; auto; try discriminate.
      intros Hin. apply List.in_map_iff in Hin. destruct Hin as (a & Ea & Ha).
      exact (findOne_none _ _ F a Ha Ea).
  - unfold verifyOtp.
    destruct (findOne email w) as [u|] eqn:F; [|left; reflexivity].
    destruct (findOne_some _ _ _ F) as [Hu He].
    destruct (otp_differs (acc_otp u) otp) eqn:D; [left; reflexivity|].
    destruct (expired (clock w) (acc_otpExpiry u)) eqn:X; [left; reflexivity|].
    right; left. eexists u, _. split; [exact Hu|]. split; [reflexivity|].
    cbn. split; [reflexivity|]. split; [reflexivity|].
    right. split; [reflexivity|]. split; [|exact X].
    apply otp_differs_false in D. congruence.
  - unfold resendOtp. cbv zeta.
    destruct (findOne email w) as [u|] eqn:F; [|left; reflexivity].
    destruct (findOne_some _ _ _ F) as [Hu He].
    right; left. eexists u, _. split; [exact Hu|]. split.
    { destruct (delivered env); cbn [snd mailed accounts]; reflexivity. }
    cbn. split; [reflexivity|]. split; [reflexivity|].
    left. split; [auto|]. right. discriminate.
  - unfold login. cbv zeta.
    destruct (findOne email w) as [u|] eqn:F; [|left; reflexivity].
    destruct (findOne_some _ _ _ F) as [Hu He].
    destruct (negb (acc_isVerified u) && _); [left; reflexivity|].
    destruct password as [p|]; [|left; reflexivity].
    destruct (negb (compare p (acc_password u))); [left; reflexivity|].
    right; left. eexists u, _. split; [exact Hu|]. split.
    { destruct (jwt_secret env) as [secret|]; [destruct (String.eqb secret "")|];
        cbn [snd]; reflexivity. }
    cbn. split; [reflexivity|]. split; [reflexivity|].
    left. split; [reflexivity|]. left. reflexivity.
  - left. reflexivity.
Qed.

(** The clock never goes back, and the mailer's record only grows. *)
Lemma serve_clock r w :
  (clock w <= clock (serve hash compare sign r w))%Z
  /\ exists sent, outbox (serve hash compare sign r w) = (outbox w ++ sent)%list.
Proof.
  assert (Same : forall w', clock w' = clock w -> outbox w' = outbox w ->
            (clock w <= clock w')%Z /\ exists sent, outbox w' = (outbox w ++ sent)%list).
  { intros w' C O. split; [lia|]. exists []. rewrite List.app_nil_r. exact O. }
  assert (Mailed : forall e o w',
            clock w' = clock w -> outbox w' = outbox w ->
            (clock w <= clock (mailed e o w'))%Z
            /\ exists sent, outbox (mailed e o w') = (outbox w ++ sent)%list).
  { intros e o w' C O. cbn. split; [lia|]. exists [(e, o)]. now rewrite O. }
  destruct r as [name email password phone env|email otp|email env|email password env|ms];
    cbn [serve].
  - unfold signup. cbv zeta.
    destruct (match findOne email w with Some u => acc_isVerified u | None => false end);
      [apply Same; reflexivity|].
    destruct password as [p|]; [|apply Same; reflexivity].
    destruct (negb _); [apply Same; reflexivity|].
    destruct (delivered env); cbn [snd];
      [apply Mailed|apply Same]; destruct (findOne email w); reflexivity.
  - unfold verifyOtp.
    destruct (findOne email w) as [u|]; [|apply Same; reflexivity].
    destruct (otp_differs _ _); [apply Same; reflexivity|].
    destruct (expired _ _); apply Same; reflexivity.
  - unfold resendOtp. cbv zeta.
    destruct (findOne email w) as [u|]; [|apply Same; reflexivity].
    destruct (delivered env); cbn [snd]; [apply Mailed|apply Same]; reflexivity.
  - unfold login. cbv zeta.
    destruct (findOne email w) as [u|]; [|apply Same; reflexivity].
    destruct (negb (acc_isVerified u) && _); [apply Same; reflexivity|].
    destruct password as [p|]; [|apply Same; reflexivity].
    destruct (negb (compare p (acc_password u))); [apply Same; reflexivity|].
    destruct (jwt_secret env) as [secret|]; [destruct (String.eqb secret "")|];
      apply Same; reflexivity.
  - cbn. split; [lia|]. exists []. now rewrite List.app_nil_r.
Qed.

(** One request keeps the addresses and ids distinct, keeps every account
    (by address and id, in place), keeps the codes of the unverified ones
    and never takes a verification back. *)
Lemma serve_invariants r w :
  distinct w -> coded w ->
  distinct (serve hash compare sign r w)
  /\ coded (serve hash compare sign r w)
  /\ (exists more, List.map acc_email (accounts (serve hash compare sign r w))
                   = (List.map acc_email (accounts w) ++ more)%list)
  /\ (forall e, verified e w -> verified e (serve hash compare sign r w)).
Proof.
  intros D C.
  destruct (serve_cases r w) as [E|[(u & x & Hu & E & Hid & Hem & Hv)|(x & E & Hv & Ho & Hid & Hem)]].
  - unfold distinct, coded, verified. rewrite E. repeat split; try apply D; auto.
    exists []. now rewrite List.app_nil_r.
  - assert (Ee := store_emails x u w D Hu Hid Hem).
    assert (Ei := store_ids x w).
    unfold distinct, coded, verified. rewrite E, Ee, Ei.
    split; [exact D|]. split; [|split].
    + intros a Ha Va. apply store_in in Ha. destruct Ha as [->|[Ha _]]; [|now apply C].
      destruct Hv as [[V [O|O]]|[V _]]; [| exact O | congruence].
      rewrite O. apply C; [exact Hu|congruence].
    + exists []. now rewrite List.app_nil_r.
    + intros e (a & Ha & Ea & Va).
      destruct (Nat.eq_dec (acc_id a) (acc_id x)) as [I|I].
      * assert (a = u) by (apply (NoDup_map_eq acc_id (accounts w)); [apply D| | |]; congruence).
        subst a. exists x. split; [now apply (store_puts x u)|]. split; [congruence|].
        destruct Hv as [[V _]|[V _]]; congruence.
      * exists a. split; [now apply store_keeps|]. auto.
  - unfold distinct, coded, verified. rewrite E. rewrite !List.map_app. cbn [List.map].
    destruct D as [De Di].
    split; [split; apply NoDup_snoc; auto|].
    { rewrite Hid. apply auth_fresh_id_new. }
    split; [|split].
    + intros a Ha Va. apply List.in_app_or in Ha. destruct Ha as [Ha|[<-|[]]]; auto.
    + eexists. reflexivity.
    + intros e (a & Ha & Ea & Va). exists a. split; [|auto].
      apply List.in_or_app. now left.
Qed.


Lemma otp_range (random : Q) :
  (0 <= random)%Q -> (random < 1)%Q ->
  (1000 <= Qfloor (1000 + random * 9000) <= 9999)%Z.
Proof.
  intros H0 H1. split.
  - assert (L : (Qfloor (inject_Z 1000) <= Qfloor (1000 + random * 9000))%Z).
    { apply Qfloor_resp_le. change (inject_Z 1000) with 1000%Q. lra. }
    rewrite Qfloor_Z in L. exact L.
  - assert (L := Qfloor_le (1000 + random * 9000)).
    assert (U : (1000 + random * 9000 < inject_Z 10000)%Q).
    { change (inject_Z 10000) with 10000%Q. lra. }
    assert (T := Qle_lt_trans _ _ _ L U). rewrite <- Zlt_Qlt in T. lia.
Qed.

Lemma four_digit_codes :
  forallb (fun k => let s := string_of_Z (1000 + Z.of_nat k) in
                    (String.length s =? 4)%nat && forallb is_digit (list_ascii_of_string s))
          (List.seq 0 (Z.to_nat 9000)) = true.
Proof. vm_compute. reflexivity. Qed.

Lemma four_digits (n : Z) :
  (1000 <= n <= 9999)%Z ->
  String.length (string_of_Z n) = 4%nat
  /\ forallb is_digit (list_ascii_of_string (string_of_Z n)) = true.
Proof.
  intros Hn. assert (H := four_digit_codes). rewrite forallb_forall in H.
  specialize (H (Z.to_nat (n - 1000))). cbv zeta in H.
  replace (1000 + Z.of_nat (Z.to_nat (n - 1000)))%Z with n in H by lia.
  apply andb_true_iff in H; [|apply List.in_seq; lia].
  destruct H as [L D]. apply Nat.eqb_eq in L. auto.
Qed.

(** X19. The one-time code.
    For every value [Math.random()] can return, [generateOTP] gives a code
    of exactly four decimal digits, the decimal writing of a number from
    1000 to 9999 (so the first digit is never 0); and each of these 9000
    codes is given for some value of [Math.random()]. *)
Theorem generateOTP_four_digits :
  (forall random, (0 <= random)%Q -> (random < 1)%Q ->
     String.length (generateOTP random) = 4%nat
     /\ forallb is_digit (list_ascii_of_string (generateOTP random)) = true
     /\ exists n, (1000 <= n <= 9999)%Z /\ generateOTP random = string_of_Z n)
  /\ (forall n, (1000 <= n <= 9999)%Z ->
        exists random, (0 <= random)%Q /\ (random < 1)%Q
                       /\ generateOTP random = string_of_Z n).
Proof.
  split.
  - intros random H0 H1. assert (R := otp_range random H0 H1).
    destruct (four_digits _ R) as [L D]. unfold generateOTP.
    split; [exact L|]. split; [exact D|]. eexists. split; [exact R|reflexivity].
  - intros n Hn. exists ((n - 1000) # 9000)%Q. split; [|split].
    + unfold Qle; cbn. lia.
    + unfold Qlt; cbn. lia.
    + unfold generateOTP. f_equal.
      rewrite (Qfloor_comp _ (inject_Z n)); [apply Qfloor_Z|].
      unfold Qeq, Qplus, Qmult, inject_Z; cbn [Qnum Qden]. lia.
Qed.


Lemma find_snoc {A} (f : A -> bool) l x :
  List.find f l = None -> f x = true -> List.find f (l ++ [x]) = Some x.
Proof.
  induction l as [|y l IH]; cbn; intros N T; [now rewrite T|].
  destruct (f y); [discriminate|auto].
Qed.

Lemma swap_snoc (a x : Account) l :
  acc_id x = fresh_id l -> acc_id a = acc_id x ->
  List.map (fun d => if (acc_id d =? acc_id a)%nat then a else d) (l ++ [x]) = (l ++ [a])%list.
Proof.
  intros Hx Ha. rewrite List.map_app. cbn [List.map]. rewrite Ha, Nat.eqb_refl. f_equal.
  rewrite <- (List.map_id l) at 2. apply List.map_ext_in. intros d Hd.
  destruct (Nat.eqb_spec (acc_id d) (acc_id x)) as [E|E]; [|reflexivity].
  exfalso. apply (auth_fresh_id_new l). rewrite <- Hx, <- E. now apply List.in_map.
Qed.

(** X20. From sign-up to login.
    A sign-up with a name, a password and an address no account has yet is
    answered 200 when the mail goes out, and the mailer gets one code for
    the address. Until the address is verified, every login is answered
    400 with [needsVerification]. A verification with anything but the
    mailed code is refused, and so is one with the mailed code more than
    five minutes after the sign-up; both leave the account as it is. A
    verification with the mailed code within five minutes succeeds. After
    it the code is used up (a second verification with it is refused as
    invalid), a login with the password (which [bcrypt] accepts against its
    own hash) is answered 200 with a token signed for the new account as a
    [user], a login with a password that [bcrypt] rejects is answered 400
    and changes nothing, and another sign-up for the address is refused. *)
Theorem signup_verify_login (n email p : string) (phone : option string)
    (env : Surroundings) (w : World) :
  compare p (hash p (salt env)) = true ->
  hash p (salt env) <> "" ->
  n <> "" -> email <> "" ->
  findOne email w = None ->
  delivered env = true ->
  let code := generateOTP (random env) in
  let w1 := snd (signup hash (Some n) email (Some p) phone env w) in
  fst (signup hash (Some n) email (Some p) phone env w)
  = json 200 (OtpSent "OTP sent to your email" email)
  /\ outbox w1 = (outbox w ++ [(email, code)])%list
  /\ (forall ms q env1,
        login compare sign email q env1 (later ms w1)
        = (json 400 (NeedsVerification "Please verify your email first" email), later ms w1))
  /\ (forall ms other, other <> Some code ->
        verifyOtp email other (later ms w1) = (json 400 (Message "Invalid OTP"), later ms w1))
  /\ (forall ms, (FIVE_MINUTES < ms)%Z ->
        verifyOtp email (Some code) (later ms w1)
        = (json 400 (Message "OTP has expired. Please request a new one."), later ms w1))
  /\ (forall ms, (ms <= FIVE_MINUTES)%Z ->
        let w2 := snd (verifyOtp email (Some code) (later ms w1)) in
        fst (verifyOtp email (Some code) (later ms w1))
        = json 200 (Message "Email verified successfully. You can now log in.")
        /\ verified email w2
        /\ verifyOtp email (Some code) w2 = (json 400 (Message "Invalid OTP"), w2)
        /\ (forall env2 secret,
              jwt_secret env2 = Some secret -> secret <> "" ->
              let identity := {| i_id := fresh_id (accounts w); i_name := n;
                                 i_email := email; i_role := "user";
                                 i_department := None |} in
              fst (login compare sign email (Some p) env2 w2)
              = json 200 (LoggedIn "Login successful" (sign identity secret (clock w2))
                                   identity))
        /\ (forall q env2,
              compare q (hash p (salt env)) = false ->
              login compare sign email (Some q) env2 w2
              = (json 400 (Message "Invalid credentials"), w2))
        /\ (forall n' q phone' env2,
              signup hash n' email q phone' env2 w2
              = (json 400 (Message "User already exists with this email"), w2))).
Proof.
  intros Hcmp Hhash Hn Hemail Hnone Hmail.
  apply String.eqb_neq in Hn, Hemail, Hhash.
  assert (Lower : toLowerCase "user" = "user") by (vm_compute; reflexivity).
  set (code := generateOTP (random env)).
  set (new := {| acc_id := fresh_id (accounts w); acc_name := n; acc_email := email;
                 acc_password := hash p (salt env);
                 acc_phone := Some (match phone with Some x => x | None => "" end);
                 acc_isVerified := false; acc_otp := Some code;
                 acc_otpExpiry := Some (clock w + FIVE_MINUTES)%Z;
                 acc_role := "user"; acc_department := None;
                 acc_lastLogin := None; acc_loginCount := 0 |}).
  set (w1 := {| accounts := (accounts w ++ [new])%list; clock := clock w;
                outbox := (outbox w ++ [(email, code)])%list |}).
  assert (S1 : signup hash (Some n) email (Some p) phone env w
               = (json 200 (OtpSent "OTP sent to your email" email), w1)).
  { unfold signup. cbv zeta. rewrite Hnone, Hmail. cbn [truthy or_else].
    rewrite Hn, Hemail, Hhash. reflexivity. }
  cbv zeta. rewrite S1. cbn [fst snd].
  assert (F1 : forall ms, findOne email (later ms w1) = Some new).
  { intros ms. unfold findOne. cbn [later accounts w1].
    apply find_snoc; [exact Hnone|]. cbn. apply String.eqb_refl. }
  assert (Same : otp_differs (Some code) (Some code) = false).
  { cbn. now rewrite String.eqb_refl. }
  split; [reflexivity|]. split; [reflexivity|].
  split.
  { intros ms q env1. unfold login. cbv zeta. rewrite F1. cbn [new acc_isVerified acc_role].
    rewrite Lower. reflexivity. }
  split.
  { intros ms other Ho. unfold verifyOtp. rewrite F1. cbn [new acc_otp].
    replace (otp_differs (Some code) other) with true; [reflexivity|].
    destruct other as [o|]; [|reflexivity]. cbn.
    destruct (String.eqb_spec code o) as [E|E]; [congruence|reflexivity]. }
  split.
  { intros ms Hms. unfold verifyOtp. rewrite F1. cbn [new acc_otp acc_otpExpiry].
    rewrite Same.
    replace (expired (clock (later ms w1)) (Some (clock w + FIVE_MINUTES)%Z)) with true;
      [reflexivity|].
    symmetry. cbn. apply Z.ltb_lt. unfold FIVE_MINUTES in *. lia. }
  intros ms Hms.
  set (ver := {| acc_id := fresh_id (accounts w); acc_name := n; acc_email := email;
                 acc_password := hash p (salt env);
                 acc_phone := Some (match phone with Some x => x | None => "" end);
                 acc_isVerified := true; acc_otp := None; acc_otpExpiry := None;
                 acc_role := "user"; acc_department := None;
                 acc_lastLogin := None; acc_loginCount := 0 |}).
  set (w2 := {| accounts := (accounts w ++ [ver])%list; clock := (clock w + Z.max 0 ms)%Z;
                outbox := (outbox w ++ [(email, code)])%list |}).
  assert (V : verifyOtp email (Some code) (later ms w1)
              = (json 200 (Message "Email verified successfully. You can now log in."), w2)).
  { unfold verifyOtp. rewrite F1. cbn [new acc_otp acc_otpExpiry]. rewrite Same.
    replace (expired (clock (later ms w1)) (Some (clock w + FIVE_MINUTES)%Z)) with false.
    - unfold store. cbn [later accounts w1 clock outbox]. fold new.
      rewrite (swap_snoc _ new); reflexivity.
    - symmetry. cbn. apply Z.ltb_ge. unfold FIVE_MINUTES in *. lia. }
  rewrite V. cbn [fst snd].
  assert (F2 : findOne email w2 = Some ver).
  { unfold findOne. cbn [accounts w2].
    apply find_snoc; [exact Hnone|]. cbn. apply String.eqb_refl. }
  split; [reflexivity|].
  split.
  { exists ver. split; [|split; reflexivity].
    cbn [accounts w2]. apply List.in_or_app. right. now left. }
  split.
  { unfold verifyOtp. rewrite F2. reflexivity. }
  split.
  { intros env2 secret Hs Hne. apply String.eqb_neq in Hne.
    unfold login. cbv zeta. rewrite F2. cbn [ver acc_isVerified acc_role acc_password negb andb].
    rewrite Hcmp. cbn [negb]. rewrite Hs, Hne. rewrite Lower. reflexivity. }
  split.
  { intros q env2 Hq. unfold login. cbv zeta. rewrite F2.
    cbn [ver acc_isVerified acc_role acc_password negb andb]. rewrite Hq. reflexivity. }
  intros n' q phone' env2. unfold signup. cbv zeta. rewrite F2. reflexivity.
Qed.


Lemma unverified_here w a :
  distinct w -> In a (accounts w) -> acc_isVerified a = false -> ~ verified (acc_email a) w.
Proof.
  intros D Ha Va (b & Hb & Eb & Vb).
  assert (b = a) by (apply (NoDup_map_eq acc_email (accounts w)); [apply D| | |]; auto).
  congruence.
Qed.

Lemma serve_needs_code r w a :
  distinct w -> coded w -> In a (accounts w) -> acc_isVerified a = false ->
  verified (acc_email a) (serve hash compare sign r w) ->
  exists code, acc_otp a = Some code /\ r = VerifyOtp (acc_email a) (Some code)
               /\ expired (clock w) (acc_otpExpiry a) = false.
Proof.
  intros D C Ha Va (b & Hb & Eb & Vb).
  assert (Old : In b (accounts w) -> False).
  { intros Hin. apply (unverified_here w a D Ha Va). exists b. auto. }
  destruct (serve_cases r w)
    as [E|[(u & x & Hu & E & Hid & Hem & Hv)|(x & E & Hv & Ho & Hid & Hem)]];
    rewrite E in Hb.
  - destruct (Old Hb).
  - apply store_in in Hb. destruct Hb as [->|[Hb _]]; [|destruct (Old Hb)].
    assert (u = a)
      by (apply (NoDup_map_eq acc_email (accounts w)); [apply D| | |]; congruence).
    subst u. destruct Hv as [[V _]|(_ & Hr & Hx)]; [congruence|].
    destruct (acc_otp a) as [code|] eqn:O; [|destruct (C a Ha Va O)].
    exists code. auto.
  - apply List.in_app_or in Hb. destruct Hb as [Hb|[<-|[]]]; [destruct (Old Hb)|congruence].
Qed.

Lemma run_needs_code rs : forall w a,
  distinct w -> coded w -> In a (accounts w) -> acc_isVerified a = false ->
  verified (acc_email a) (run hash compare sign rs w) ->
  exists code, In (VerifyOtp (acc_email a) (Some code)) rs.
Proof.
  induction rs as [|r rs IH]; intros w a D C Ha Va Hv.
  - destruct (unverified_here w a D Ha Va Hv).
  - change (run hash compare sign (r :: rs) w)
      with (run hash compare sign rs (serve hash compare sign r w)) in Hv.
    destruct (serve_invariants r w D C) as (D' & C' & (more & Em) & _).
    assert (Hin : In (acc_email a) (List.map acc_email (accounts (serve hash compare sign r w)))).
    { rewrite Em. apply List.in_or_app. left. now apply List.in_map. }
    apply List.in_map_iff in Hin. destruct Hin as (a' & Ea & Ha').
    destruct (acc_isVerified a') eqn:Va'.
    + destruct (serve_needs_code r w a D C Ha Va) as (code & _ & -> & _).
      { exists a'. auto. }
      exists code. now left.
    + rewrite <- Ea in Hv. destruct (IH _ a' D' C' Ha' Va' Hv) as (code & Hc).
      exists code. right. rewrite <- Ea. exact Hc.
Qed.

(** X21. No verification without the code.
    Among the requests of the account routes (sign-up, verify-otp,
    resend-otp, login), an account that is not verified becomes verified by
    one request only: a verify-otp for its address that carries the code
    stored with the account, served not after the code's expiry. So
    whatever requests of these routes are served, and however much time
    passes, the account is verified afterwards only if a verify-otp request
    for its address with a code was among them. *)
Theorem verification_needs_the_code (w : World) (a : Account) :
  distinct w -> coded w -> In a (accounts w) -> acc_isVerified a = false ->
  (forall r, verified (acc_email a) (serve hash compare sign r w) ->
     exists code, acc_otp a = Some code /\ r = VerifyOtp (acc_email a) (Some code)
                  /\ expired (clock w) (acc_otpExpiry a) = false)
  /\ (forall rs, verified (acc_email a) (run hash compare sign rs w) ->
        exists code, In (VerifyOtp (acc_email a) (Some code)) rs).
Proof.
  intros D C Ha Va. split.
  - intros r. now apply serve_needs_code.
  - intros rs. now apply run_needs_code.
Qed.

(** X22. What the account routes keep.
    Whatever requests of the account routes (sign-up, verify-otp,
    resend-otp, login) are served, the accounts keep pairwise distinct
    addresses and ids, no account disappears or changes its address (new
    ones are added at the end), an account that is not verified always
    carries a one-time code, an address once verified stays verified, the
    clock does not go back, and the mailer's record only grows. *)
Theorem account_invariants (rs : list Request) (w : World) :
  distinct w -> coded w ->
  let w' := run hash compare sign rs w in
  distinct w' /\ coded w'
  /\ (exists more, List.map acc_email (accounts w')
                   = (List.map acc_email (accounts w) ++ more)%list)
  /\ (forall e, verified e w -> verified e w')
  /\ (clock w <= clock w')%Z
  /\ (exists sent, outbox w' = (outbox w ++ sent)%list).
Proof.
  cbv zeta. revert w. induction rs as [|r rs IH]; intros w D C.
  - cbn. repeat split; try apply D; auto; try lia; exists []; now rewrite List.app_nil_r.
  - change (run hash compare sign (r :: rs) w)
      with (run hash compare sign rs (serve hash compare sign r w)).
    destruct (serve_invariants r w D C) as (D' & C' & (more & Em) & Ver).
    destruct (serve_clock r w) as (Cl & sent & Ob).
    destruct (IH _ D' C') as (D2 & C2 & (more2 & Em2) & Ver2 & Cl2 & sent2 & Ob2).
    split; [exact D2|]. split; [exact C2|]. split; [|split; [|split]].
    + exists (more ++ more2)%list. rewrite Em2, Em. now rewrite List.app_assoc.
    + intros e He. apply Ver2, Ver, He.
    + lia.
    + exists (sent ++ sent2)%list. rewrite Ob2, Ob. now rewrite List.app_assoc.
Qed.

End AuthFacts.

(** ** The management dashboard *)

Section ObjectFacts.
Import Model JsString Dashboard.
Context {V : Type}.

Lemma own_put_same (o : Obj V) k v : own (put o k v) k = Some v.
Proof.
  unfold own. induction o as [|[k' v'] o IH]; cbn.
  - now rewrite String.eqb_refl.
  - destruct (String.eqb k' k) eqn:E; cbn; rewrite E; [reflexivity|exact IH].
Qed.

Lemma own_put_other (o : Obj V) k k' v : k <> k' -> own (put o k v) k' = own o k'.
Proof.
  intros N. unfold own. induction o as [|[k0 v0] o IH]; cbn.
  - apply String.eqb_neq in N. now rewrite N.
  - destruct (String.eqb k0 k) eqn:E; cbn.
    + apply String.eqb_eq in E. subst k0. apply String.eqb_neq in N. rewrite N. reflexivity.
    + destruct (String.eqb k0 k'); [reflexivity|exact IH].
Qed.

Lemma put_keys (o : Obj V) k v x :
  In x (List.map fst (put o k v)) <-> x = k \/ In x (List.map fst o).
Proof.
  induction o as [|[k' v'] o IH]; cbn.
  - intuition.
  - destruct (String.eqb_spec k' k) as [->|N]; cbn; [intuition|].
    rewrite IH. intuition.
Qed.

Lemma put_NoDup (o : Obj V) k v :
  List.NoDup (List.map fst o) -> List.NoDup (List.map fst (put o k v)).
Proof.
  induction o as [|[k' v'] o IH]; cbn; intros ND.
  - constructor; [intros []|constructor].
  - inversion ND as [|? ? Hx ND']; subst.
    destruct (String.eqb_spec k' k) as [->|N]; cbn; constructor; auto.
    rewrite put_keys. intros [E|Hin]; [congruence|contradiction].
Qed.

Lemma own_in (o : Obj V) k v :
  List.NoDup (List.map fst o) -> (In (k, v) o <-> own o k = Some v).
Proof.
  unfold own. induction o as [|[k' v'] o IH]; cbn; intros ND.
  - split; [intros []|discriminate].
  - inversion ND as [|? ? Hx ND']; subst.
    destruct (String.eqb_spec k' k) as [->|N]; cbn.
    + split.
      * intros [E|Hin]; [congruence|].
        exfalso. apply Hx. apply List.in_map_iff. exists (k, v). auto.
      * intros [= ->]. now left.
    + rewrite <- (IH ND'). split; [intros [E|Hin]; [congruence|exact Hin]|auto].
Qed.

Lemma filter_split_perm {A} (f g : A -> bool) l :
  (forall x, g x = negb (f x)) ->
  Permutation (List.filter f l ++ List.filter g l) l.
Proof.
  intros H. induction l as [|x l IH]; cbn; [constructor|].
  rewrite H. destruct (f x); cbn.
  - now constructor.
  - symmetry. apply Permutation_cons_app. now symmetry.
Qed.

Lemma Object_values_perm (o : Obj V) : Permutation (Object_values o) (List.map snd o).
Proof.
  unfold Object_values. apply Permutation_map.
  etransitivity; [apply Permutation_app_tail, sort_perm|].
  apply filter_split_perm. intros [k v]; cbn. now destruct (array_index k).
Qed.

End ObjectFacts.

Section GroupFacts.
Import Model JsString Dashboard.
Context {K : Type} (same : K -> K -> bool).
Hypothesis same_eq : forall a b, same a b = true <-> a = b.

Lemma tally_app (f : K -> bool) a b : tally f (a ++ b) = (tally f a + tally f b)%nat.
Proof.
  unfold tally. induction a as [|g a IH]; cbn; [reflexivity|].
  rewrite IH. destruct (f (fst g)); lia.
Qed.

Lemma tally_perm (f : K -> bool) a b : Permutation a b -> tally f a = tally f b.
Proof.
  unfold tally.
  induction 1 as [|x l l' _ IH|x y l|l l' l'' _ IH1 _ IH2]; cbn;
    [reflexivity|now rewrite IH|destruct (f (fst x)), (f (fst y)); lia|congruence].
Qed.

Lemma tally_ext (f g : K -> bool) l : (forall k, f k = g k) -> tally f l = tally g l.
Proof.
  intros H. unfold tally. induction l as [|x l IH]; cbn; [reflexivity|].
  now rewrite H, IH.
Qed.

Lemma tally_cons (f : K -> bool) g l :
  tally f (g :: l) = if f (fst g) then (snd g + tally f l)%nat else tally f l.
Proof. reflexivity. Qed.

Lemma tally_count_in (f : K -> bool) groups k :
  tally f (count_in same groups k) = (tally f groups + if f k then 1 else 0)%nat.
Proof.
  induction groups as [|[k' n] groups IH]; cbn [count_in].
  - rewrite tally_cons. cbn. destruct (f k); lia.
  - destruct (same k' k) eqn:E; rewrite !tally_cons; cbn [fst snd].
    + apply same_eq in E. subst k'. destruct (f k); lia.
    + rewrite IH. destruct (f k'); lia.
Qed.

Lemma tally_groups (f : K -> bool) keys :
  tally f (group_counts same keys) = count f keys.
Proof.
  unfold group_counts, count.
  assert (G : forall groups,
            tally f (fold_left (count_in same) keys groups)
            = (tally f groups + List.length (List.filter f keys))%nat).
  { induction keys as [|k keys IH]; intros groups; cbn [fold_left List.filter].
    - cbn [List.length]. lia.
    - rewrite IH, tally_count_in. destruct (f k); cbn [List.length]; lia. }
  rewrite G. reflexivity.
Qed.

Lemma grouped_keys groups k x :
  In x (List.map fst (count_in same groups k)) <-> x = k \/ In x (List.map fst groups).
Proof.
  induction groups as [|[k' n] groups IH]; cbn.
  - intuition.
  - destruct (same k' k) eqn:E; cbn.
    + apply same_eq in E. subst k'. intuition.
    + rewrite IH. intuition.
Qed.

Lemma grouped_NoDup groups k :
  List.NoDup (List.map fst groups) -> List.NoDup (List.map fst (count_in same groups k)).
Proof.
  induction groups as [|[k' n] groups IH]; cbn; intros ND.
  - constructor; [intros []|constructor].
  - inversion ND as [|? ? Hx ND']; subst.
    destruct (same k' k) eqn:E; cbn; constructor; auto.
    rewrite grouped_keys. intros [->|Hin]; [|contradiction].
    assert (T : same k k = true) by now apply same_eq. congruence.
Qed.

Lemma grouped_positive groups k :
  List.Forall (fun g => (1 <= snd g)%nat) groups ->
  List.Forall (fun g => (1 <= snd g)%nat) (count_in same groups k).
Proof.
  induction groups as [|[k' n] groups IH]; cbn; intros F.
  - repeat constructor.
  - inversion F; subst. destruct (same k' k); constructor; cbn in *; auto; lia.
Qed.

Lemma groups_sound keys :
  List.NoDup (List.map fst (group_counts same keys))
  /\ List.Forall (fun g => (1 <= snd g)%nat) (group_counts same keys).
Proof.
  unfold group_counts.
  assert (G : forall groups,
            List.NoDup (List.map fst groups) ->
            List.Forall (fun g => (1 <= snd g)%nat) groups ->
            List.NoDup (List.map fst (fold_left (count_in same) keys groups))
            /\ List.Forall (fun g => (1 <= snd g)%nat) (fold_left (count_in same) keys groups)).
  { induction keys as [|k keys IH]; intros groups ND F; cbn; [auto|].
    apply IH; [now apply grouped_NoDup|now apply grouped_positive]. }
  apply G; constructor.
Qed.

(** With positive counts, a key has a group exactly when its tally is
    positive. *)
Lemma tally_positive (f : K -> bool) groups :
  List.Forall (fun g => (1 <= snd g)%nat) groups ->
  List.existsb (fun g => f (fst g)) groups = (0 <? tally f groups)%nat.
Proof.
  induction 1 as [|g groups Hg F IH]; [reflexivity|].
  rewrite tally_cons. cbn [List.existsb]. destruct (f (fst g)); cbn [orb]; [|exact IH].
  symmetry. apply Nat.ltb_lt. lia.
Qed.

End GroupFacts.

Section DashboardFacts.
Import Model JsString Dashboard.

Lemma tally_snoc {K} (f : K -> bool) l g :
  tally f (l ++ [g]) = (tally f l + if f (fst g) then snd g else 0)%nat.
Proof. rewrite tally_app, tally_cons. cbn. destruct (f (fst g)); lia. Qed.

Lemma tally_absent {K} (f : K -> bool) l :
  List.existsb (fun g => f (fst g)) l = false -> tally f l = 0%nat.
Proof.
  induction l as [|g l IH]; [reflexivity|]. cbn [List.existsb]. rewrite tally_cons.
  intros H. apply orb_false_iff in H. destruct H as [H1 H2]. rewrite H1. auto.
Qed.

Lemma tally_weaker {K} (f g : K -> bool) l :
  tally f l = 0%nat -> tally (fun k => f k && g k) l = 0%nat.
Proof.
  induction l as [|x l IH]; [reflexivity|]. rewrite !tally_cons.
  destruct (f (fst x)); cbn [andb]; [|exact IH].
  intros H. destruct (g (fst x)); [lia|apply IH; lia].
Qed.

Lemma counted_snoc_same d l st n :
  counted_entry d (l ++ [((d, st), n)]) = count_entry (counted_entry d l) st n.
Proof.
  unfold counted_entry, count_entry. cbn [e_department e_total e_registered e_accepted
    e_workingOn e_completed e_providers e_providerDetails].
  rewrite !tally_snoc. cbn [fst snd]. rewrite String.eqb_refl.
  destruct st; cbn [status_eqb andb]; f_equal; lia.
Qed.

Lemma counted_snoc_other d d' l st n :
  d' <> d -> counted_entry d (l ++ [((d', st), n)]) = counted_entry d l.
Proof.
  intros N. apply String.eqb_neq in N.
  unfold counted_entry. rewrite !tally_snoc. cbn [fst snd]. rewrite N.
  cbn [andb]. f_equal; lia.
Qed.

Lemma counted_none d l :
  List.existsb (fun g => String.eqb (fst (fst g)) d) l = false ->
  counted_entry d l = new_entry (Some d).
Proof.
  intros H. unfold counted_entry, new_entry.
  assert (T := tally_absent (fun k : string * Status => String.eqb (fst k) d) l H).
  rewrite T.
  rewrite !(tally_weaker (fun k : string * Status => String.eqb (fst k) d)) by exact T.
  reflexivity.
Qed.

(** The loop over the status groups, for any list of groups. *)
Lemma items_loop items ov0 :
  let out := fold_left count_item items (ov0, []) in
  totalComplaints (fst out) = (totalComplaints ov0 + tally (fun _ => true) items)%nat
  /\ (forall st,
        match st with
        | Registered => registered (fst out) | Accepted => accepted (fst out)
        | WorkingOn => workingOn (fst out) | Completed => completed (fst out)
        | Rejected => 0%nat
        end
        = (match st with
           | Registered => registered ov0 | Accepted => accepted ov0
           | WorkingOn => workingOn ov0 | Completed => completed ov0
           | Rejected => 0%nat
           end
           + match st with
             | Rejected => 0
             | _ => tally (fun k : string * Status => status_eqb (snd k) st) items
             end)%nat)
  /\ totalUsers (fst out) = totalUsers ov0
  /\ totalProviders (fst out) = totalProviders ov0
  /\ List.NoDup (List.map fst (snd out))
  /\ (forall d,
        own (snd out) d
        = if negb (inherited d) && List.existsb (fun g => String.eqb (fst (fst g)) d) items
          then Some (counted_entry d items)
          else None).
Proof.
  cbv zeta. induction items as [|[[dx st] n] items IH] using List.rev_ind.
  - cbn [fold_left fst snd]. split; [cbn; lia|]. split; [intros []; cbn; lia|].
    split; [reflexivity|]. split; [reflexivity|]. split; [constructor|].
    intros d. cbn. now rewrite andb_false_r.
  - rewrite List.fold_left_app. cbn [fold_left].
    destruct (fold_left count_item items (ov0, [])) as [ov D].
    cbn [fst snd] in IH. destruct IH as (T & S & U & P & ND & O).
    unfold count_item. cbn [fst snd].
    split; [rewrite tally_snoc; cbn; lia|].
    split.
    { intros s. specialize (S s). rewrite ?tally_snoc. cbn [fst snd].
      destruct s, st; cbn [status_eqb count_overview registered accepted workingOn completed];
        lia. }
    split; [exact U|]. split; [exact P|].
    assert (E : forall d,
              List.existsb (fun g : string * Status * nat => String.eqb (fst (fst g)) d)
                           (items ++ [((dx, st), n)])
              = List.existsb (fun g : string * Status * nat => String.eqb (fst (fst g)) d) items
                || String.eqb dx d).
    { intros d. rewrite List.existsb_app. cbn. now rewrite orb_false_r. }
    unfold ensure, present. cbn [dept_key]. rewrite (O dx).
    destruct (inherited dx) eqn:I; cbn [negb andb].
    + (* an inherited name: the map stays *)
      rewrite (O dx), I. cbn [negb andb]. split; [exact ND|].
      intros d. rewrite O, E.
      destruct (String.eqb_spec dx d) as [->|N].
      * rewrite I. reflexivity.
      * rewrite orb_false_r. rewrite counted_snoc_other by exact N. reflexivity.
    + destruct (List.existsb (fun g => String.eqb (fst (fst g)) dx) items) eqn:X.
      * (* the department has its entry *)
        rewrite (O dx), I, X. cbn [negb andb].
        split; [now apply put_NoDup|].
        intros d. rewrite E.
        destruct (String.eqb_spec dx d) as [<-|N].
        -- rewrite own_put_same, I, X. cbn. now rewrite counted_snoc_same.
        -- rewrite own_put_other by exact N. rewrite O, orb_false_r.
           rewrite counted_snoc_other by exact N. reflexivity.
      * (* a new entry *)
        rewrite own_put_same.
        split; [now apply put_NoDup, put_NoDup|].
        intros d. rewrite E.
        destruct (String.eqb_spec dx d) as [<-|N].
        -- rewrite own_put_same, I, X. cbn.
           rewrite counted_snoc_same, (counted_none dx items X). reflexivity.
        -- rewrite !own_put_other by exact N. rewrite O, orb_false_r.
           rewrite counted_snoc_other by exact N. reflexivity.
Qed.

Lemma NoDup_snoc_inv {A} (l : list A) x :
  List.NoDup (l ++ [x]) -> List.NoDup l /\ ~ In x l.
Proof.
  intros ND. apply List.NoDup_remove in ND. rewrite List.app_nil_r in ND. exact ND.
Qed.

(** The loop over the priority groups, which have distinct keys. *)
Lemma priority_loop items :
  List.NoDup (List.map fst items) ->
  forall p,
    match p with
    | Critical => critical | High => high | Medium => medium | Low => low
    end (fold_left count_priority items
           {| critical := 0; high := 0; medium := 0; low := 0 |})
    = tally (fun k => PriorityAssigner.priority_eqb k p) items.
Proof.
  induction items as [|[q n] items IH] using List.rev_ind; intros ND p.
  - destruct p; reflexivity.
  - rewrite List.map_app in ND. cbn [List.map fst] in ND.
    apply NoDup_snoc_inv in ND. destruct ND as [ND Hq].
    rewrite List.fold_left_app, tally_snoc. cbn [fold_left fst snd].
    destruct (priority_eqb_spec q p) as [->|N].
    + assert (Z : tally (fun k => PriorityAssigner.priority_eqb k p) items = 0%nat).
      { apply tally_absent. apply not_true_is_false. intros H.
        apply List.existsb_exists in H. destruct H as (g & Hg & Eg).
        destruct (priority_eqb_spec (fst g) p) as [E|]; [|discriminate].
        apply Hq. rewrite <- E. now apply List.in_map. }
      rewrite Z. unfold count_priority. cbn [fst snd]. destruct p; reflexivity.
    + rewrite <- (IH ND p), Nat.add_0_r. unfold count_priority. cbn [fst snd].
      destruct q, p; try reflexivity; congruence.
Qed.

(** The loop over the workload groups, for any list of groups. *)
Lemma load_loop items pid :
  match fold_left count_load items ∅ !! pid with
  | Some l => l
  | None => no_load
  end
  = {| l_active :=
         tally (fun k : nat * Status => (fst k =? pid)%nat && DispatchBalancer.is_active (snd k))
               items;
       l_completed :=
         tally (fun k : nat * Status => (fst k =? pid)%nat && status_eqb (snd k) Completed)
               items |}.
Proof.
  induction items as [|[[q st] n] items IH] using List.rev_ind.
  - cbn [fold_left]. rewrite lookup_empty. reflexivity.
  - rewrite List.fold_left_app, !tally_snoc. cbn [fold_left fst snd].
    unfold count_load at 1. cbn [fst snd]. rewrite lookup_insert.
    destruct (decide (q = pid)) as [->|N].
    + rewrite Nat.eqb_refl. cbn [andb].
      destruct (fold_left count_load items ∅ !! pid) as [l|]; rewrite IH;
        destruct st; cbn; f_equal; lia.
    + apply Nat.eqb_neq in N. rewrite N. cbn [andb]. rewrite IH. f_equal; lia.
Qed.

Lemma with_providers_app e a b :
  with_providers (with_providers e a) b = with_providers e (a ++ b).
Proof.
  unfold with_providers. cbn. rewrite List.length_app, <- List.app_assoc.
  f_equal. lia.
Qed.

(** One provider whose department is not an inherited name. *)
Lemma attach_step loads D0 p :
  List.NoDup (List.map fst D0) ->
  (forall k, inherited k = true -> own D0 k = None) ->
  inherited (dept_key (u_department p)) = false ->
  exists D,
    attach loads (Some D0) p = Some D
    /\ List.NoDup (List.map fst D)
    /\ (forall k, inherited k = true -> own D k = None)
    /\ (forall d,
          own D d
          = if works_in d p
            then Some (with_providers
                         (match own D0 d with
                          | Some e => e
                          | None => new_entry (u_department p)
                          end)
                         [detail loads p])
            else own D0 d).
Proof.
  intros ND Inh I. unfold attach, ensure, present.
  set (k := dept_key (u_department p)) in *.
  assert (Other : forall (D : Obj DeptEntry) e d,
            works_in d p = false -> own (put D k e) d = own D d).
  { intros D e d W. apply own_put_other. intros <-. unfold works_in in W.
    fold k in W. now rewrite String.eqb_refl in W. }
  assert (Same : forall d, works_in d p = true -> d = k).
  { intros d W. unfold works_in in W. fold k in W. apply String.eqb_eq in W. auto. }
  destruct (own D0 k) as [e|] eqn:O.
  - rewrite O. eexists. split; [reflexivity|]. split; [now apply put_NoDup|]. split.
    + intros k' Ik. rewrite own_put_other; [auto|]. intros <-. congruence.
    + intros d. destruct (works_in d p) eqn:W.
      * rewrite (Same d W), own_put_same, O. unfold with_providers. cbn.
        f_equal. f_equal. lia.
      * now apply Other.
  - rewrite I, own_put_same. eexists. split; [reflexivity|].
    split; [now apply put_NoDup, put_NoDup|]. split.
    + intros k' Ik. rewrite !own_put_other; [auto| |]; intros <-; congruence.
    + intros d. destruct (works_in d p) eqn:W.
      * rewrite (Same d W), own_put_same, O. unfold with_providers. cbn. reflexivity.
      * rewrite !Other by exact W. reflexivity.
Qed.

(** The loop over the providers. *)
Lemma providers_loop loads ps : forall D0,
  List.NoDup (List.map fst D0) ->
  (forall k, inherited k = true -> own D0 k = None) ->
  (forall p, In p ps -> inherited (dept_key (u_department p)) = false) ->
  exists D,
    fold_left (attach loads) ps (Some D0) = Some D
    /\ List.NoDup (List.map fst D)
    /\ (forall d,
          own D d
          = match List.filter (works_in d) ps with
            | [] => own D0 d
            | p1 :: _ =>
                Some (with_providers
                        (match own D0 d with
                         | Some e => e
                         | None => new_entry (u_department p1)
                         end)
                        (List.map (detail loads) (List.filter (works_in d) ps)))
            end).
Proof.
  induction ps as [|p ps IH]; intros D0 ND Inh Ok.
  - exists D0. cbn. auto.
  - destruct (attach_step loads D0 p ND Inh) as (D1 & A & ND1 & Inh1 & O1).
    { apply Ok. now left. }
    destruct (IH D1 ND1 Inh1) as (D & F & NDD & O).
    { intros q Hq. apply Ok. now right. }
    exists D. cbn [fold_left]. rewrite A. split; [exact F|]. split; [exact NDD|].
    intros d. rewrite O, O1. cbn [List.filter].
    destruct (works_in d p) eqn:W.
    + destruct (List.filter (works_in d) ps) as [|p1 rest]; [reflexivity|].
      rewrite with_providers_app. reflexivity.
    + reflexivity.
Qed.

Lemma attach_none loads ps : fold_left (attach loads) ps None = None.
Proof. induction ps as [|p ps IH]; [reflexivity|exact IH]. Qed.

(** A provider whose department is an inherited name makes the loop throw. *)
Lemma providers_loop_throws loads ps : forall D0,
  List.NoDup (List.map fst D0) ->
  (forall k, inherited k = true -> own D0 k = None) ->
  (exists p, In p ps /\ inherited (dept_key (u_department p)) = true) ->
  fold_left (attach loads) ps (Some D0) = None.
Proof.
  induction ps as [|p ps IH]; intros D0 ND Inh (bad & Hin & Hbad); [destruct Hin|].
  cbn [fold_left].
  destruct (inherited (dept_key (u_department p))) eqn:I.
  - unfold attach, ensure, present. rewrite (Inh _ I), I, (Inh _ I). apply attach_none.
  - destruct (attach_step loads D0 p ND Inh I) as (D1 & A & ND1 & Inh1 & _).
    rewrite A. apply IH; auto.
    destruct Hin as [->|Hin]; [congruence|]. exists bad. auto.
Qed.

Lemma count_keys {A K} (key : A -> K) (f : K -> bool) l :
  count f (List.map key l) = count (fun x => f (key x)) l.
Proof.
  unfold count. induction l as [|x l IH]; cbn; [reflexivity|].
  destruct (f (key x)); cbn; now rewrite IH.
Qed.

Lemma count_assigned (f : nat * Status -> bool) cs :
  count f (List.flat_map (fun c => match assignedTo c with
                                   | Some p => [(p, status c)]
                                   | None => []
                                   end) cs)
  = count (fun c => match assignedTo c with
                    | Some p => f (p, status c)
                    | None => false
                    end) cs.
Proof.
  unfold count. induction cs as [|c cs IH]; cbn; [reflexivity|].
  destruct (assignedTo c) as [p|]; cbn; [|exact IH].
  destruct (f (p, status c)); cbn; now rewrite IH.
Qed.

Lemma count_ext {A} (f g : A -> bool) l : (forall x, f x = g x) -> count f l = count g l.
Proof.
  intros H. unfold count. induction l as [|x l IH]; cbn; [reflexivity|].
  rewrite H. destruct (g x); cbn; now rewrite IH.
Qed.

Lemma same_dept_status_eq a b : same_dept_status a b = true <-> a = b.
Proof.
  destruct a as [d s], b as [d' s']. unfold same_dept_status. cbn.
  rewrite andb_true_iff, String.eqb_eq, status_eqb_eq. split; [intros []|intros [=]]; subst; auto.
Qed.

Lemma same_provider_status_eq a b : same_provider_status a b = true <-> a = b.
Proof.
  destruct a as [d s], b as [d' s']. unfold same_provider_status. cbn.
  rewrite andb_true_iff, Nat.eqb_eq, status_eqb_eq. split; [intros []|intros [=]]; subst; auto.
Qed.

Lemma priority_eqb_eq a b : PriorityAssigner.priority_eqb a b = true <-> a = b.
Proof. destruct (priority_eqb_spec a b); split; congruence. Qed.

(** The detail the loop computes is the detail the complaints have. *)
Lemma detail_true cs workloadAgg p :
  Permutation (workload_groups cs) workloadAgg ->
  detail (fold_left count_load workloadAgg ∅) p = true_detail cs p.
Proof.
  intros Perm. unfold detail, true_detail. rewrite load_loop. cbn [l_active l_completed].
  rewrite <- !(tally_perm _ _ _ Perm). unfold workload_groups.
  rewrite !(tally_groups same_provider_status same_provider_status_eq), !count_assigned.
  unfold DispatchBalancer.active_load. fold (count (fun c => opt_nat_eqb (assignedTo c) (u_id p)
    && DispatchBalancer.is_active (status c)) cs).
  assert (A : count (fun c => match assignedTo c with
                              | Some q => (fst (q, status c) =? u_id p)%nat
                                          && DispatchBalancer.is_active (snd (q, status c))
                              | None => false
                              end) cs
              = count (fun c => opt_nat_eqb (assignedTo c) (u_id p)
                                && DispatchBalancer.is_active (status c)) cs).
  { apply count_ext. intros c. unfold opt_nat_eqb. now destruct (assignedTo c). }
  assert (B : count (fun c => match assignedTo c with
                              | Some q => (fst (q, status c) =? u_id p)%nat
                                          && status_eqb (snd (q, status c)) Completed
                              | None => false
                              end) cs
              = count (fun c => opt_nat_eqb (assignedTo c) (u_id p) && in_status Completed c) cs).
  { apply count_ext. intros c. unfold opt_nat_eqb, in_status. now destruct (assignedTo c). }
  rewrite A, B. reflexivity.
Qed.

End DashboardFacts.

Section DashboardCounts.
Import Model JsString Dashboard.
Context {R : Type}.
Variables (cs : list Complaint) (us allProviders : list User).
Variable statusDeptAgg : list ((string * Status) * nat).
Variable priorityAgg : list (Priority * nat).
Variable providerWorkloadAgg : list ((nat * Status) * nat).
Variable recent : R.

Hypothesis statusDept_answer : Permutation (statusDept_groups cs) statusDeptAgg.
Hypothesis priority_answer : Permutation (priority_groups cs) priorityAgg.
Hypothesis workload_answer : Permutation (workload_groups cs) providerWorkloadAgg.
Hypothesis providers_answer : Permutation (List.filter is_provider us) allProviders.

Lemma count_all {A} (l : list A) : count (fun _ => true) l = List.length l.
Proof. unfold count. induction l as [|x l IH]; cbn; congruence. Qed.

Lemma statusDept_tally (f : string * Status -> bool) :
  tally f statusDeptAgg = count (fun c => f (department c, status c)) cs.
Proof.
  rewrite <- (tally_perm _ _ _ statusDept_answer). unfold statusDept_groups.
  rewrite (tally_groups same_dept_status same_dept_status_eq). apply count_keys.
Qed.

Lemma statusDept_mentions d :
  List.existsb (fun g : string * Status * nat => String.eqb (fst (fst g)) d) statusDeptAgg
  = (0 <? count (of_dept d) cs)%nat.
Proof.
  assert (T : tally (fun k : string * Status => String.eqb (fst k) d) statusDeptAgg
              = count (of_dept d) cs)
    by apply (statusDept_tally (fun k => String.eqb (fst k) d)).
  rewrite <- T.
  apply (tally_positive (fun k : string * Status => String.eqb (fst k) d)).
  eapply Permutation_Forall; [exact statusDept_answer|].
  apply (groups_sound same_dept_status same_dept_status_eq).
Qed.

Lemma priority_tally p :
  match p with
  | Critical => critical | High => high | Medium => medium | Low => low
  end (fold_left count_priority priorityAgg
         {| critical := 0; high := 0; medium := 0; low := 0 |})
  = count (of_priority p) cs.
Proof.
  rewrite priority_loop.
  - rewrite <- (tally_perm _ _ _ priority_answer). unfold priority_groups.
    rewrite (tally_groups PriorityAssigner.priority_eqb priority_eqb_eq).
    exact (count_keys priority (fun k => PriorityAssigner.priority_eqb k p) cs).
  - eapply Permutation_NoDup; [apply Permutation_map, priority_answer|].
    apply (groups_sound PriorityAssigner.priority_eqb priority_eqb_eq).
Qed.

(** The entry of a department before the providers are attached. *)
Lemma counted_base d (D : Obj DeptEntry) fresh :
  (forall k, own D k
             = if negb (inherited k)
                  && List.existsb (fun g : string * Status * nat => String.eqb (fst (fst g)) k)
                                  statusDeptAgg
               then Some (counted_entry k statusDeptAgg)
               else None) ->
  inherited d = false ->
  let base := match own D d with Some e => e | None => new_entry fresh end in
  e_total base = count (of_dept d) cs
  /\ (forall st, st <> Rejected ->
        match st with
        | Registered => e_registered base | Accepted => e_accepted base
        | WorkingOn => e_workingOn base | Completed => e_completed base
        | Rejected => 0%nat
        end = count (fun c => of_dept d c && in_status st c) cs)
  /\ e_providers base = 0%nat /\ e_providerDetails base = []
  /\ (own D d = None -> count (of_dept d) cs = 0%nat)
  /\ (forall e, own D d = Some e -> e_department e = Some d /\ (0 < count (of_dept d) cs)%nat).
Proof.
  intros O I. cbv zeta. rewrite (O d), I. cbn [negb andb].
  assert (M := statusDept_mentions d).
  assert (T : tally (fun k : string * Status => String.eqb (fst k) d) statusDeptAgg
              = count (of_dept d) cs)
    by apply (statusDept_tally (fun k => String.eqb (fst k) d)).
  assert (S : forall st,
            tally (fun k : string * Status => String.eqb (fst k) d && status_eqb (snd k) st)
                  statusDeptAgg
            = count (fun c => of_dept d c && in_status st c) cs).
  { intros st. rewrite statusDept_tally. reflexivity. }
  assert (Z : count (of_dept d) cs = 0%nat ->
              forall st, count (fun c => of_dept d c && in_status st c) cs = 0%nat).
  { intros H st. rewrite <- S. apply tally_weaker. rewrite T. exact H. }
  destruct (List.existsb _ statusDeptAgg).
  - symmetry in M. apply Nat.ltb_lt in M.
    split; [exact T|]. split; [intros [] N; try apply S; congruence|].
    split; [reflexivity|]. split; [reflexivity|]. split; [discriminate|].
    intros e [= <-]. split; [reflexivity|exact M].
  - symmetry in M. apply Nat.ltb_ge in M.
    assert (C0 : count (of_dept d) cs = 0%nat) by lia.
    split; [cbn; lia|]. split; [intros [] N; cbn; rewrite ?(Z C0); congruence|].
    split; [reflexivity|]. split; [reflexivity|]. split; [auto|]. discriminate.
Qed.

Lemma NoDup_map_filter {A B} (g : A -> B) (f : A -> bool) l :
  List.NoDup (List.map g l) -> List.NoDup (List.map g (List.filter f l)).
Proof.
  induction l as [|x l IH]; cbn; intros ND; [constructor|].
  inversion ND as [|? ? Hx ND']; subst.
  destruct (f x); cbn; auto. constructor; auto.
  intros H. apply Hx. apply List.in_map_iff in H. destruct H as (y & E & Hy).
  apply List.filter_In in Hy. apply List.in_map_iff. exists y. tauto.
Qed.

(** X23. The dashboard's numbers are the counts they stand for.
    Whatever order the store returns the groups of the three aggregations
    and the providers in:
    - if a provider's department is a name every object inherits (such as
      [constructor] or [toString]), the handler answers 500;
    - otherwise it answers with the recent complaints as the store gave
      them, and with counts that are exact: the number of complaints, of
      those in each of Registered, Accepted, Working On, Completed, of
      users and providers, and of complaints of each priority;
    - every entry of [departmentStats] carries, for its department, the
      number of its complaints, of those in each of the four statuses, the
      number of its providers, and for each of these providers the active
      load the dispatcher counts, the number of completed complaints, and
      [isBusy] exactly when the load is positive;
    - a department has an entry exactly when it has a complaint or a
      provider, and no department has two. *)
Theorem dashboard_counts :
  let response :=
    dashboard statusDeptAgg priorityAgg providerWorkloadAgg recent allProviders us in
  ((exists p, In p allProviders /\ inherited (dept_key (u_department p)) = true) ->
   response = ServerError "Server error")
  /\ ((forall p, In p allProviders -> inherited (dept_key (u_department p)) = false) ->
      exists answer,
        response = Ok answer
        /\ recentComplaints answer = recent
        /\ totalComplaints (overview answer) = List.length cs
        /\ registered (overview answer) = count (in_status Registered) cs
        /\ accepted (overview answer) = count (in_status Accepted) cs
        /\ workingOn (overview answer) = count (in_status WorkingOn) cs
        /\ completed (overview answer) = count (in_status Completed) cs
        /\ totalUsers (overview answer) = countDocuments "user" us
        /\ totalProviders (overview answer) = List.length allProviders
        /\ critical (priorityBreakdown answer) = count (of_priority Critical) cs
        /\ high (priorityBreakdown answer) = count (of_priority High) cs
        /\ medium (priorityBreakdown answer) = count (of_priority Medium) cs
        /\ low (priorityBreakdown answer) = count (of_priority Low) cs
        /\ (forall e, In e (departmentStats answer) ->
              let d := dept_key (e_department e) in
              inherited d = false
              /\ e_total e = count (of_dept d) cs
              /\ e_registered e = count (fun c => of_dept d c && in_status Registered c) cs
              /\ e_accepted e = count (fun c => of_dept d c && in_status Accepted c) cs
              /\ e_workingOn e = count (fun c => of_dept d c && in_status WorkingOn c) cs
              /\ e_completed e = count (fun c => of_dept d c && in_status Completed c) cs
              /\ e_providers e = count (works_in d) allProviders
              /\ e_providerDetails e
                 = List.map (true_detail cs) (List.filter (works_in d) allProviders))
        /\ (forall d, inherited d = false ->
              ((0 < count (of_dept d) cs)%nat \/ (0 < count (works_in d) allProviders)%nat
               <-> exists e, In e (departmentStats answer) /\ dept_key (e_department e) = d))
        /\ List.NoDup (List.map (fun e => dept_key (e_department e))
                                (departmentStats answer))).
Proof.
  cbv zeta. unfold dashboard.
  match goal with
  | |- context [fold_left count_item statusDeptAgg (?s, [])] =>
      pose proof (items_loop statusDeptAgg s) as IL
  end.
  cbv zeta in IL. destruct IL as (T & S & U & P & ND & O).
  destruct (fold_left count_item statusDeptAgg _) as [ov D]. cbn [fst snd] in *.
  cbn [totalComplaints registered accepted workingOn completed totalUsers totalProviders]
    in T, S, U, P.
  assert (Inh : forall k, inherited k = true -> own D k = None).
  { intros k I. rewrite O, I. reflexivity. }
  set (loads := fold_left count_load providerWorkloadAgg ∅).
  split.
  - intros Bad. assert (Th := providers_loop_throws loads allProviders D ND Inh Bad).
    match goal with
    | |- match ?x with _ => _ end = _ => replace x with (@None (Obj DeptEntry)) by (symmetry; exact Th)
    end.
    reflexivity.
  - intros Good.
    destruct (providers_loop loads allProviders D ND Inh Good) as (D' & F & ND' & O').
    match goal with
    | |- exists answer, match ?x with _ => _ end = _ /\ _ =>
        replace x with (Some D') by (symmetry; exact F)
    end.
    eexists. split; [reflexivity|].
    cbn [overview departmentStats priorityBreakdown recentComplaints].
    (* what an entry of the final map holds *)
    assert (E : forall k e, own D' k = Some e ->
              dept_key (e_department e) = k
              /\ inherited k = false
              /\ e_total e = count (of_dept k) cs
              /\ e_registered e = count (fun c => of_dept k c && in_status Registered c) cs
              /\ e_accepted e = count (fun c => of_dept k c && in_status Accepted c) cs
              /\ e_workingOn e = count (fun c => of_dept k c && in_status WorkingOn c) cs
              /\ e_completed e = count (fun c => of_dept k c && in_status Completed c) cs
              /\ e_providers e = count (works_in k) allProviders
              /\ e_providerDetails e
                 = List.map (true_detail cs) (List.filter (works_in k) allProviders)).
    { intros k e H. rewrite O' in H. unfold count at 6.
      destruct (List.filter (works_in k) allProviders) as [|p1 rest] eqn:Fl.
      - destruct (inherited k) eqn:I; [rewrite (Inh k I) in H; discriminate|].
        destruct (counted_base k D None O I) as (Tt & St & Pr & Dt & _ & Dep).
        rewrite H in Tt, St, Pr, Dt. destruct (Dep e H) as [De _]. rewrite De.
        split; [reflexivity|]. split; [reflexivity|]. split; [exact Tt|].
        split; [apply (St Registered); discriminate|].
        split; [apply (St Accepted); discriminate|].
        split; [apply (St WorkingOn); discriminate|].
        split; [apply (St Completed); discriminate|].
        split; [exact Pr|exact Dt].
      - assert (H1 : In p1 (List.filter (works_in k) allProviders))
          by (rewrite Fl; now left).
        apply List.filter_In in H1. destruct H1 as [Hin W].
        assert (K : dept_key (u_department p1) = k) by (apply String.eqb_eq; exact W).
        assert (I : inherited k = false) by (rewrite <- K; now apply Good).
        destruct (counted_base k D (u_department p1) O I) as (Tt & St & Pr & Dt & _ & Dep).
        injection H as <-. cbn [with_providers e_department e_total e_registered e_accepted
          e_workingOn e_completed e_providers e_providerDetails].
        split.
        { destruct (own D k) as [e0|]; [|exact K].
          destruct (Dep e0 eq_refl) as [De _]. now rewrite De. }
        split; [exact I|]. split; [exact Tt|].
        split; [apply (St Registered); discriminate|].
        split; [apply (St Accepted); discriminate|].
        split; [apply (St WorkingOn); discriminate|].
        split; [apply (St Completed); discriminate|].
        split; [rewrite Pr; cbn [List.length]; rewrite List.length_map; reflexivity|].
        rewrite Dt. cbn [List.app List.map].
        f_equal; [apply detail_true; exact workload_answer|].
        apply List.map_ext. intros p. apply detail_true. exact workload_answer. }
    (* the entries of the answer are the entries of the map that pass the filter *)
    assert (In_stats : forall e,
              In e (List.filter (fun d => (0 <? e_total d)%nat || (0 <? e_providers d)%nat)
                                (Object_values D'))
              <-> (exists k, own D' k = Some e)
                  /\ ((0 <? e_total e)%nat || (0 <? e_providers e)%nat = true)).
    { intros e. rewrite List.filter_In.
      assert (V : In e (Object_values D') <-> exists k, own D' k = Some e).
      { split.
        - intros H. apply (Permutation_in _ (Object_values_perm D')) in H.
          apply List.in_map_iff in H. destruct H as ([k e'] & <- & H).
          exists k. now apply own_in.
        - intros (k & H). apply own_in in H; [|exact ND'].
          apply (Permutation_in _ (Permutation_sym (Object_values_perm D'))).
          apply List.in_map_iff. exists (k, e). auto. }
      rewrite V. reflexivity. }
    split; [reflexivity|].
    split; [rewrite T, statusDept_tally, count_all; reflexivity|].
    split; [rewrite (S Registered), statusDept_tally; reflexivity|].
    split; [rewrite (S Accepted), statusDept_tally; reflexivity|].
    split; [rewrite (S WorkingOn), statusDept_tally; reflexivity|].
    split; [rewrite (S Completed), statusDept_tally; reflexivity|].
    split; [exact U|].
    split; [rewrite P; apply (Permutation_length providers_answer)|].
    split; [apply (priority_tally Critical)|].
    split; [apply (priority_tally High)|].
    split; [apply (priority_tally Medium)|].
    split; [apply (priority_tally Low)|].
    split; [|split].
    + intros e He. apply In_stats in He. destruct He as [(k & Hk) _].
      destruct (E k e Hk) as (K & rest). rewrite K. exact rest.
    + intros d I. split.
      * intros Hd.
        assert (X : exists e, own D' d = Some e).
        { rewrite O'. destruct (List.filter (works_in d) allProviders) as [|p1 rest] eqn:Fl;
            [|eexists; reflexivity].
          destruct Hd as [Hd|Hd]; [|unfold count in Hd; rewrite Fl in Hd; cbn in Hd; lia].
          destruct (counted_base d D None O I) as (_ & _ & _ & _ & Hn & _).
          destruct (own D d) as [e|]; [eexists; reflexivity|]. specialize (Hn eq_refl). lia. }
        destruct X as (e & He). destruct (E d e He) as (K & _ & Tt & _ & _ & _ & _ & Pr & _).
        exists e. split; [|exact K]. apply In_stats. split; [now exists d|].
        apply orb_true_iff. rewrite !Nat.ltb_lt. lia.
      * intros (e & He & K). apply In_stats in He. destruct He as [(k & Hk) Flag].
        destruct (E k e Hk) as (K' & _ & Tt & _ & _ & _ & _ & Pr & _).
        rewrite K in K'. subst k.
        apply orb_true_iff in Flag. rewrite !Nat.ltb_lt in Flag. lia.
    + apply NoDup_map_filter.
      assert (M : Permutation
                    (List.map (fun e => dept_key (e_department e)) (Object_values D'))
                    (List.map fst D')).
      { etransitivity; [apply Permutation_map, Object_values_perm|].
        rewrite List.map_map. erewrite List.map_ext_in; [reflexivity|].
        intros [k e] Hin. cbn [fst snd]. apply (own_in D' k e ND') in Hin.
        now destruct (E k e Hin). }
      apply (Permutation_NoDup (Permutation_sym M)). exact ND'.
Qed.

End DashboardCounts.

(** ** The chatbot's conversation history *)

Section ChatbotFacts.
Import Model JsString Chatbot.

Lemma lastn_snoc {A} (l : list A) x :
  lastn MAX_HISTORY (l ++ [x])%list
  = if (MAX_HISTORY <? List.length (lastn MAX_HISTORY l ++ [x])%list)%nat
    then List.tl (lastn MAX_HISTORY l ++ [x])%list
    else (lastn MAX_HISTORY l ++ [x])%list.
Proof.
  assert (T : forall (k : list A) n, List.skipn (S n) k = List.tl (List.skipn n k)).
  { intros k n. revert k. induction n as [|n IH]; intros [|y k]; cbn; auto. }
  unfold lastn. rewrite List.length_app. cbn [List.length].
  assert (Hn : MAX_HISTORY = 10%nat) by reflexivity.
  destruct (Nat.le_gt_cases MAX_HISTORY (List.length l)) as [Long|Short].
  - replace (List.length l + 1 - MAX_HISTORY)%nat
      with (S (List.length l - MAX_HISTORY)) by lia.
    rewrite T, List.skipn_app.
    replace (List.length l - MAX_HISTORY - List.length l)%nat with 0%nat by lia.
    rewrite List.skipn_O, List.length_app, List.length_skipn. cbn [List.length].
    destruct (Nat.ltb_spec MAX_HISTORY
                (List.length l - (List.length l - MAX_HISTORY) + 1)); [reflexivity|lia].
  - replace (List.length l + 1 - MAX_HISTORY)%nat with 0%nat by lia.
    replace (List.length l - MAX_HISTORY)%nat with 0%nat by lia.
    rewrite !List.skipn_O, List.length_app. cbn [List.length].
    destruct (Nat.ltb_spec MAX_HISTORY (List.length l + 1)); [lia|reflexivity].
Qed.

Lemma lastn_length {A} (n : nat) (l : list A) : (List.length (lastn n l) <= n)%nat.
Proof. unfold lastn. rewrite List.length_skipn. lia. Qed.

(** X24. The chatbot remembers the last ten exchanges.
    After any sequence of chat requests and clearings, starting with no
    history, the history of a user holds the exchanges of that user that
    were answered with a reply since the user last cleared the history, the
    last ten of them at most, oldest first. A request without a message or
    with a blank one, and a request during which the store fails, leave
    every history as it is; no request touches the history of another
    user. *)
Theorem chat_history_window (rs : list Request) (userId : nat) :
  history_of userId (run rs ∅) = lastn MAX_HISTORY (exchanges userId rs)
  /\ (List.length (history_of userId (run rs ∅)) <= MAX_HISTORY)%nat
  /\ (forall r,
        match r with
        | Post u message env =>
            u <> userId \/ env = StoreFails \/ message = None
            \/ (exists text, message = Some text /\ trim text = "")
        | Clear u => u <> userId
        end ->
        history_of userId (run (rs ++ [r])%list ∅) = history_of userId (run rs ∅)).
Proof.
  assert (Step : forall m r,
            history_of userId (serve m r)
            = match r with
              | Post u message env =>
                  if (u =? userId)%nat
                  then match fst (post u message env ∅) with
                       | Reply reply =>
                           let pushed := (history_of userId m
                                          ++ [ {| user := or_else message "";
                                                  assistant := reply |} ])%list in
                           if (MAX_HISTORY <? List.length pushed)%nat
                           then List.tl pushed else pushed
                       | _ => history_of userId m
                       end
                  else history_of userId m
              | Clear u => if (u =? userId)%nat then [] else history_of userId m
              end).
  { intros m [u message env|u]; cbn [serve].
    - unfold post. destruct message as [text|]; cbn [fst snd];
        [|destruct (u =? userId)%nat; reflexivity].
      destruct (String.eqb text "" || String.eqb (trim text) "") eqn:B; cbn [fst snd];
        [destruct (u =? userId)%nat; reflexivity|].
      destruct env as [|reply]; cbn [fst snd]; [destruct (u =? userId)%nat; reflexivity|].
      apply orb_false_iff in B. destruct B as [B _].
      unfold or_else. rewrite B. cbv zeta.
      destruct (Nat.eqb_spec u userId) as [->|N]; unfold history_of; rewrite lookup_insert.
      + destruct (decide (userId = userId)); [reflexivity|contradiction].
      + destruct (decide (u = userId)); [contradiction|reflexivity].
    - unfold clear, history_of. destruct (Nat.eqb_spec u userId) as [->|N].
      + now rewrite lookup_delete_eq.
      + now rewrite lookup_delete_ne.
  }
  assert (Window : forall rs', history_of userId (run rs' ∅)
                               = lastn MAX_HISTORY (exchanges userId rs')).
  { induction rs' as [|r rs' IH] using List.rev_ind.
    - unfold history_of. cbn [run fold_left]. rewrite lookup_empty. reflexivity.
    - unfold run, exchanges in *. rewrite !List.fold_left_app. cbn [fold_left].
      rewrite Step, IH. destruct r as [u message env|u].
      + destruct (u =? userId)%nat; [|reflexivity].
        destruct (fst (post u message env ∅)); try reflexivity.
        cbv zeta. now rewrite lastn_snoc.
      + destruct (u =? userId)%nat; reflexivity. }
  split; [apply Window|]. split; [rewrite Window; apply lastn_length|].
  intros r Hr. unfold run. rewrite List.fold_left_app. cbn [fold_left]. rewrite Step.
  destruct r as [u message env|u].
  - destruct (Nat.eqb_spec u userId) as [->|N]; [|reflexivity].
    destruct Hr as [Hr|[->|[->|(text & -> & Ht)]]]; try contradiction.
    + unfold post. destruct message as [text|]; [|reflexivity].
      destruct (String.eqb text "" || String.eqb (trim text) ""); reflexivity.
    + reflexivity.
    + unfold post. rewrite Ht. rewrite String.eqb_refl, orb_true_r. reflexivity.
  - destruct (Nat.eqb_spec u userId) as [->|N]; [contradiction|reflexivity].
Qed.

End ChatbotFacts.

(** ** Creation and dispatch, by the rules of the specification *)

Section StoreRules.
Import Model Runtime Http JsString Complaints DispatchBalancer.






End StoreRules.

(** ** The further properties at work on sample data *)

Section MoreWitnesses.
Import Model Runtime Http JsString Samples Scenarios.

Lemma run_reachable ops : forall s, Engine.reachable s -> Engine.reachable (Audit.run ops s).
Proof.
  induction ops as [|op ops IH]; intros s R; [exact R|].
  apply IH. apply Engine.reach_step. exact R.
Qed.

Lemma morning_initial : Engine.initial morning.
Proof. repeat split. Qed.

Lemma evening_reachable : Engine.reachable evening.
Proof. apply run_reachable. apply Engine.reach_initial. apply morning_initial. Qed.

(** The remote model answers "Priority: High" to a report that the keyword
    analysis would rate differently: the answer wins. *)
Lemma prioritizeComplaint_remote_answer_witness :
  exists p,
    PriorityAssigner.prioritizeComplaint "request for a new park bench" "General"
      (answering "Priority: High" [] [])
    = (Val p, snd (Gateway.callAI 10 (answering "Priority: High" [] [])))
    /\ includes "Priority: High" (priorityName p) = true.
Proof.
  destruct (prioritizeComplaint_remote_answer "request for a new park bench" "General"
              (answering "Priority: High" [] [])
              (snd (Gateway.callAI 10 (answering "Priority: High" [] [])))
              "Priority: High") as (p & H & _ & A).
  - vm_compute. reflexivity.
  - exists p. split; [exact H|]. apply A. exists High. reflexivity.
Defined.

(** A description made of punctuation only. *)
Lemma unlettered_description_is_fake_witness :
  IntegrityFilter.v_isFake
    (IntegrityFilter.localDetectDuplicateOrFake "?!?! #### @@@@ $$$$ ... ---" "General"
       "Chennai" [leak_candidate]) = true.
Proof.
  refine (proj1 (unlettered_description_is_fake "?!?! #### @@@@ $$$$ ... ---" "General"
                   "Chennai" [leak_candidate] (fun _ => None) morning _)).
  vm_compute. reflexivity.
Defined.

(** In the evening the one complaint of the day is Completed, and its
    history is the timeline Registered, Accepted, Working On, Completed. *)
Lemma history_is_timeline_witness :
  List.map (fun c => List.map ev_status (statusHistory c)) (complaints evening)
  = [[Registered; Accepted; WorkingOn; Completed]]
  /\ List.Forall Audit.timeline (complaints evening).
Proof.
  split; [vm_compute; reflexivity|].
  apply List.Forall_forall. intros c Hc.
  exact (history_is_timeline evening c evening_reachable Hc).
Defined.

(** The completed complaint of the evening survives every further request
    of the provider and of the citizen unchanged in status and history. *)
Lemma final_status_is_final_witness :
  exists c',
    In c' (complaints
             (Audit.run [Engine.UpdateStatus (provider_req 1) 1 "Rejected" None;
                         Engine.UpdateStatus (provider_req 1) 1 "Accepted" None;
                         Engine.Rate citizen 1 1 None]
                evening))
    /\ status c' = Completed
    /\ List.map ev_status (statusHistory c') = [Registered; Accepted; WorkingOn; Completed].
Proof.
  destruct (final_status_is_final
              [Engine.UpdateStatus (provider_req 1) 1 "Rejected" None;
               Engine.UpdateStatus (provider_req 1) 1 "Accepted" None;
               Engine.Rate citizen 1 1 None]
              evening (List.hd leak (complaints evening)))
    as (c' & Hin & _ & _ & Hs & Hh & _).
  - apply reachable_distinct_ids, evening_reachable.
  - vm_compute. left. reflexivity.
  - vm_compute. reflexivity.
  - exists c'. split; [exact Hin|]. split.
    + rewrite Hs. vm_compute. reflexivity.
    + rewrite Hh. vm_compute. reflexivity.
Defined.

Lemma collection_keeps_schema_witness :
  List.length (complaints evening) = 1%nat /\ Audit.schema_ok (complaints evening).
Proof.
  split; [vm_compute; reflexivity|].
  exact (collection_keeps_schema evening evening_reachable).
Defined.


(** The report of the day names its department: its creation sends at most
    eight requests and the gateway waits at most four times. *)
Lemma create_budget_witness :
  (Gateway.requests_sent (snd (Complaints.create citizen report_body plain_env morning))
   <= 8)%nat
  /\ (Traffic.waits (snd (Complaints.create citizen report_body plain_env morning)) <= 4)%nat.
Proof.
  destruct (create_budget citizen report_body plain_env morning) as (_ & _ & _ & H).
  destruct (H eq_refl) as (r & w & Hr & Hw & R & W).
  rewrite R, W. change (Gateway.requests_sent morning) with 0%nat.
  change (Traffic.waits morning) with 0%nat. lia.
Defined.

(** Two idle providers and a first report: the report goes to one of them,
    and the loads differ by one afterwards. *)
Lemma creation_keeps_balance_witness :
  let s := state_of [] [provider_doc 7; provider_doc 8] in
  let after :=
    DispatchBalancer.active_load
      (complaints (snd (Complaints.create citizen report_body plain_env s))) in
  (after 7 <= after 8 + 1)%nat /\ (after 8 <= after 7 + 1)%nat.
Proof.
  cbv zeta.
  assert (H : exists info,
            fst (Complaints.create citizen report_body plain_env
                   (state_of [] [provider_doc 7; provider_doc 8]))
            = Val (json 201 (Created info))
            /\ r_isDuplicate info = false
            /\ r_department info = "Electricity").
  { eexists. split; [vm_compute; reflexivity|]. split; reflexivity. }
  destruct H as (info & H1 & H2 & H3).
  destruct (creation_keeps_balance citizen report_body plain_env
              (state_of [] [provider_doc 7; provider_doc 8]) info H1 H2) as (_ & _ & B).
  rewrite H3 in B.
  assert (P7 : In (provider_doc 7)
                  (DispatchBalancer.providers_of "Electricity"
                     (users (state_of [] [provider_doc 7; provider_doc 8]))))
    by (vm_compute; auto).
  assert (P8 : In (provider_doc 8)
                  (DispatchBalancer.providers_of "Electricity"
                     (users (state_of [] [provider_doc 7; provider_doc 8]))))
    by (vm_compute; auto).
  assert (Before : forall q q',
            In q (DispatchBalancer.providers_of "Electricity"
                    (users (state_of [] [provider_doc 7; provider_doc 8]))) ->
            In q' (DispatchBalancer.providers_of "Electricity"
                     (users (state_of [] [provider_doc 7; provider_doc 8]))) ->
            (DispatchBalancer.active_load
               (complaints (state_of [] [provider_doc 7; provider_doc 8])) (u_id q)
             <= DispatchBalancer.active_load
                  (complaints (state_of [] [provider_doc 7; provider_doc 8])) (u_id q') + 1)%nat).
  { intros q q' _ _. cbn. lia. }
  split.
  - exact (B Before (provider_doc 7) (provider_doc 8) P7 P8).
  - exact (B Before (provider_doc 8) (provider_doc 7) P8 P7).
Defined.

(** The desk of provider 7: the store lists Low before Medium, the handler
    puts Medium first; within a priority the newest complaint leads. *)
Lemma provider_listing_witness :
  List.map _id (ProviderViews.listing desk_found) = [2; 6; 5; 3; 1; 7]%nat
  /\ StronglySorted ProviderViews.listed_before (ProviderViews.listing desk_found).
Proof.
  split; [vm_compute; reflexivity|].
  refine (proj2 (proj2 (provider_listing "Electricity" 7 desk desk_found _))).
  split.
  - assert (E : JsArray.sort
                  (fun a b : Complaint =>
                     (ProviderViews.priorityOrder
                        (match priority a with Low => Medium | Medium => Low | p => p end)
                      * 1000 - inject_Z (createdAt a))
                     - (ProviderViews.priorityOrder
                          (match priority b with Low => Medium | Medium => Low | p => p end)
                        * 1000 - inject_Z (createdAt b)))%Q
                  (List.filter (ProviderViews.visible "Electricity" 7) desk)
                = desk_found) by (vm_compute; reflexivity).
    rewrite <- E. symmetry. apply sort_perm.
  - unfold desk_found. repeat constructor; unfold ProviderViews.stored_before; simpl; lia.
Defined.

(** The statistics of the Electricity department for provider 7, from the
    status groups in reverse order. *)
Lemma provider_stats_witness :
  let answer :=
    ProviderViews.stats "Electricity" 7
      (List.rev (ProviderViews.status_groups (ProviderViews.of_department "Electricity" desk)))
      desk in
  ProviderViews.total (ProviderViews.counters answer) = 7%nat
  /\ ProviderViews.completed (ProviderViews.counters answer) = 2%nat
  /\ ProviderViews.s_totalRated answer = 2%nat
  /\ (ProviderViews.s_avgRating answer == 45 # 10)%Q.
Proof.
  cbv zeta.
  destruct (provider_stats "Electricity" 7
              (List.rev (ProviderViews.status_groups
                           (ProviderViews.of_department "Electricity" desk)))
              desk (Permutation_rev _))
    as (T & _ & _ & _ & C & _ & _ & R & _).
  split; [rewrite T; vm_compute; reflexivity|].
  split; [rewrite C; vm_compute; reflexivity|].
  split; [rewrite R; vm_compute; reflexivity|].
  vm_compute. reflexivity.
Defined.

(** Asha's sign-up: the code 5500 goes out, and with it and her password
    she is logged in as a user. *)
Lemma signup_verify_login_witness :
  Auth.outbox (snd (Auth.signup salted (Some "Asha") "asha@example.org" (Some "kolam") None
                      post office))
  = [("asha@example.org", "5500")]
  /\ Auth.code
       (fst (Auth.login matches signed "asha@example.org" (Some "kolam") post
               (snd (Auth.verifyOtp "asha@example.org" (Some "5500")
                       (Auth.later 60000
                          (snd (Auth.signup salted (Some "Asha") "asha@example.org"
                                  (Some "kolam") None post office)))))))
     = 200%nat.
Proof.
  destruct (signup_verify_login salted matches signed "Asha" "asha@example.org" "kolam" None
              post office)
    as (_ & Out & _ & _ & _ & Ok); try (vm_compute; congruence).
  split; [rewrite Out; vm_compute; reflexivity|].
  destruct (Ok 60000%Z) as (_ & _ & _ & In_ & _); [vm_compute; congruence|].
  change (Auth.generateOTP (Auth.random post)) with "5500" in In_.
  rewrite (In_ post "s3cret" eq_refl); [reflexivity|discriminate].
Defined.

(** After her sign-up, the verification with the code 5500 is the request
    that verifies Asha's address; no login, resend or verification without
    the code does. *)
Lemma verification_needs_the_code_witness :
  (exists code,
     List.map Auth.acc_otp
       (Auth.accounts (Auth.serve salted matches signed asha_signs_up office))
     = [Some code]
     /\ Auth.VerifyOtp "asha@example.org" (Some "5500")
        = Auth.VerifyOtp "asha@example.org" (Some code))
  /\ ~ Auth.verified "asha@example.org"
         (Auth.run salted matches signed guesses
            (Auth.serve salted matches signed asha_signs_up office)).
Proof.
  destruct (verification_needs_the_code salted matches signed
              (Auth.serve salted matches signed asha_signs_up office)
              (List.hd
                 {| Auth.acc_id := 0; Auth.acc_name := ""; Auth.acc_email := "";
                    Auth.acc_password := ""; Auth.acc_phone := None;
                    Auth.acc_isVerified := true; Auth.acc_otp := None;
                    Auth.acc_otpExpiry := None; Auth.acc_role := "";
                    Auth.acc_department := None; Auth.acc_lastLogin := None;
                    Auth.acc_loginCount := 0 |}
                 (Auth.accounts (Auth.serve salted matches signed asha_signs_up office))))
    as (Step & Runs).
  - split; vm_compute; repeat constructor; intros [].
  - intros a Ha Va. vm_compute in Ha. destruct Ha as [<-|[]]. discriminate.
  - vm_compute. left. reflexivity.
  - vm_compute. reflexivity.
  - split.
    + destruct (Step (Auth.VerifyOtp "asha@example.org" (Some "5500")))
        as (code & Hc & Hr & _).
      { vm_compute. eexists. split; [left; reflexivity|]. split; reflexivity. }
      exists code. split; [|exact Hr].
      vm_compute in Hc. injection Hc as <-. vm_compute. reflexivity.
    + intros V. destruct (Runs guesses V) as (code & Hin).
      vm_compute in Hin.
      repeat (destruct Hin as [Hin|Hin]; [discriminate|]). destruct Hin.
Defined.

(** Asha's day leaves one account, verified, with distinct addresses. *)
Lemma account_invariants_witness :
  Auth.distinct (Auth.run salted matches signed asha_day office)
  /\ Auth.verified "asha@example.org" (Auth.run salted matches signed asha_day office).
Proof.
  destruct (account_invariants salted matches signed asha_day office) as (D & _).
  - split; constructor.
  - intros a [].
  - split; [exact D|]. vm_compute. eexists. split; [left; reflexivity|]. split; reflexivity.
Defined.

(** The dashboard over the desk, with every answer of the store in reverse
    order: seven complaints, two of them completed, three of low priority,
    three providers and one citizen. *)
Lemma dashboard_counts_witness :
  exists answer,
    Dashboard.dashboard
      (List.rev (Dashboard.statusDept_groups desk))
      (List.rev (Dashboard.priority_groups desk))
      (List.rev (Dashboard.workload_groups desk))
      tt
      (List.rev (List.filter Dashboard.is_provider staff))
      staff
    = Dashboard.Ok answer
    /\ Dashboard.totalComplaints (Dashboard.overview answer) = 7%nat
    /\ Dashboard.completed (Dashboard.overview answer) = 2%nat
    /\ Dashboard.totalUsers (Dashboard.overview answer) = 1%nat
    /\ Dashboard.totalProviders (Dashboard.overview answer) = 3%nat
    /\ Dashboard.low (Dashboard.priorityBreakdown answer) = 3%nat.
Proof.
  destruct (dashboard_counts desk staff
              (List.rev (List.filter Dashboard.is_provider staff))
              (List.rev (Dashboard.statusDept_groups desk))
              (List.rev (Dashboard.priority_groups desk))
              (List.rev (Dashboard.workload_groups desk))
              tt
              (Permutation_rev _) (Permutation_rev _) (Permutation_rev _) (Permutation_rev _))
    as [_ Good].
  destruct Good as (answer & E & _ & T & _ & _ & _ & C & U & P & _ & _ & _ & L & _).
  - intros p Hp. vm_compute in Hp.
    destruct Hp as [<-|[<-|[<-|[]]]]; reflexivity.
  - exists answer. split; [exact E|].
    rewrite T, C, U, P, L. vm_compute. repeat split; reflexivity.
Defined.

End MoreWitnesses.

(** ** The rules of creation and dispatch on the sample data *)

Section RuleWitnesses.
Import Model Runtime Http JsString Samples Scenarios.




(** A faucet at 0.23 and asphalt at 0.17: Water Resources scores
    0.27599999999999997 and Roads & Highways 0.20400000000000001, their sum
    is 0.48 and the quotient times 100 is just below 57.5, so the confidence
    is 57 (and not the 58 of exact arithmetic). *)
Lemma department_detector_rule_witness :
  Detector64.department (Detector64.mapToDepartment faucet_and_asphalt) = "Water Resources"
  /\ Detector64.confidence (Detector64.mapToDepartment faucet_and_asphalt)
     = Double.Integer 57.
Proof.
  destruct (department_detector_rule faucet_and_asphalt) as (_ & Hk & _ & _ & H).
  rewrite Hk by (left; reflexivity). clear Hk.
  set (W := ("Water Resources", S754_finite false 4971973988617028 (-54))).
  set (R := ("Roads & Highways", S754_finite false 7349874591868650 (-55))).
  assert (Hscores : Detector64.scores faucet_and_asphalt
                    = [W; ("Electricity", S754_zero false); R;
                       ("Sanitation", S754_zero false); ("Public Health", S754_zero false);
                       ("Education", S754_zero false); ("Transport", S754_zero false);
                       ("Revenue", S754_zero false); ("Agriculture", S754_zero false)])
    by (vm_compute; reflexivity).
  destruct H as (pre & top & post & ranked & Hsc & Hpre & Hpost & Hd & Hperm & Hdesc & Hc).
  - intros e He. rewrite Hscores in He. cbn [In] in He.
    repeat (destruct He as [<-|He]; [exact I|]). contradiction.
  - exists W. split; [rewrite Hscores; left; reflexivity|vm_compute; reflexivity].
  - rewrite Hd, Hc. clear Hd Hc.
    assert (Htop : top = W).
    { rewrite Hscores in Hsc. clear -Hsc Hpre Hpost.
      destruct pre as [|p pre]; [cbn in Hsc; injection Hsc as <- _; reflexivity|].
      exfalso. cbn in Hsc. injection Hsc as <- Hsc.
      assert (Hw : (Double.value (snd W) < Double.value (snd top))%Q)
        by (apply Hpre; left; reflexivity).
      assert (Hin : In top [("Electricity", S754_zero false); R;
                       ("Sanitation", S754_zero false); ("Public Health", S754_zero false);
                       ("Education", S754_zero false); ("Transport", S754_zero false);
                       ("Revenue", S754_zero false); ("Agriculture", S754_zero false)]).
      { rewrite Hsc. apply in_app_iff. right. left. reflexivity. }
      cbn [In] in Hin.
      repeat (destruct Hin as [<-|Hin]; [vm_compute in Hw; discriminate|]). contradiction. }
    assert (Hranked : ranked = [W; R]).
    { rewrite Hscores in Hperm.
      change (List.filter _ _) with [W; R] in Hperm.
      apply Permutation_sym, Permutation_length_2_inv in Hperm.
      destruct Hperm as [->| ->]; [reflexivity|exfalso].
      inversion Hdesc as [|? ? _ F]; subst. inversion F as [|? ? L _]; subst.
      vm_compute in L. apply L. reflexivity. }
    rewrite Htop, Hranked. split; vm_compute; reflexivity.
Defined.

(** A faucet at 0.02, a hydrant at 0.05 and asphalt at 0.07: the two
    products for Water Resources add up to a double just below the product
    for Roads & Highways, which wins (in exact arithmetic both are 0.084 and
    Water Resources would come first). *)
Example detector_rounding :
  Detector64.department (Detector64.mapToDepartment hydrant_and_asphalt) = "Roads & Highways"
  /\ Detector64.confidence (Detector64.mapToDepartment hydrant_and_asphalt)
     = Double.Integer 50.
Proof. split; vm_compute; reflexivity. Qed.

End RuleWitnesses.
